(** * JiraToTestRail: the scenario parser and the sync orchestrator

    A shallow embedding of [src/parser/gherkinParser.ts] and of the current
    [src/sync/syncService.ts] (the revision with suite and section
    creation), with the properties of the specification stated over it.

    Conventions of the embedding.
    - A JavaScript string is a [string]: a sequence of code units, here the
      code units below 256 (Latin-1).  [toLowerCase], [trim], [\s] and
      [\d] are those of ECMAScript on that range.
    - A JavaScript number that holds an identifier or a counter is a [Z]:
      the integer that the double holds, which is every integer up to 2^53
      in absolute value; an optional or nullable value is an [option];
      truthiness is written out ([truthyZ], [truthyStr]).
    - Regular expressions are kept as syntax trees and run by a
      backtracking matcher that follows the continuation semantics of the
      ECMAScript specification (greedy and lazy quantifiers, captures that
      are reset on each iteration, lookahead, the [i], [s] and [g] flags).
    - The two REST clients are external: each client method is an
      operation of an abstract environment, which may answer or throw. *)

From Stdlib Require Import ZArith Ascii String List Bool Lia DecimalString.
From stdpp Require Import gmap strings list.

Local Open Scope Z_scope.
Local Open Scope nat_scope.

(* ===================================================================== *)
(** * JavaScript strings *)
(* ===================================================================== *)

Module Js.

Definition chr (n : nat) : ascii := ascii_of_nat n.
Definition str1 (n : nat) : string := String (chr n) EmptyString.

(** Line feed, double quote: the two characters that a literal cannot hold. *)
Definition LF : ascii := chr 10.
Definition nl : string := str1 10.
Definition dq : string := str1 34.

(** WhiteSpace and LineTerminator of ECMAScript, below 256. *)
Definition isWhiteSpace (c : ascii) : bool :=
  let n := nat_of_ascii c in
  ((9 <=? n) && (n <=? 13)) || (n =? 32) || (n =? 160).

Definition isLineTerminator (c : ascii) : bool :=
  let n := nat_of_ascii c in (n =? 10) || (n =? 13).

Definition isDigit (c : ascii) : bool :=
  let n := nat_of_ascii c in (48 <=? n) && (n <=? 57).

(** [String.prototype.toLowerCase] on one code unit. *)
Definition lowerChar (c : ascii) : ascii :=
  let n := nat_of_ascii c in
  if ((65 <=? n) && (n <=? 90)) ||
     ((192 <=? n) && (n <=? 222) && negb (n =? 215))
  then chr (n + 32) else c.

(** Canonicalize of the regular-expression semantics (flag [i], no [u]):
    the upper-case mapping, kept when it stays a single code unit of the
    same range. *)
Definition canonChar (c : ascii) : ascii :=
  let n := nat_of_ascii c in
  if ((97 <=? n) && (n <=? 122)) ||
     ((224 <=? n) && (n <=? 254) && negb (n =? 247))
  then chr (n - 32) else c.

Fixpoint toLowerCase (s : string) : string :=
  match s with
  | EmptyString => EmptyString
  | String c t => String (lowerChar c) (toLowerCase t)
  end.

Fixpoint trimStart (s : string) : string :=
  match s with
  | String c t => if isWhiteSpace c then trimStart t else s
  | EmptyString => EmptyString
  end.

Fixpoint rev (s : string) : string :=
  match s with
  | EmptyString => EmptyString
  | String c t => rev t +:+ String c EmptyString
  end.

Definition trimEnd (s : string) : string := rev (trimStart (rev s)).
Definition trim (s : string) : string := trimEnd (trimStart s).

Fixpoint take (n : nat) (s : string) : string :=
  match n, s with
  | S n', String c t => String c (take n' t)
  | _, _ => EmptyString
  end.

Fixpoint drop (n : nat) (s : string) : string :=
  match n, s with
  | S n', String _ t => drop n' t
  | _, _ => s
  end.

(** [s.substring(i, j)] for [i <= j]. *)
Definition slice (i j : nat) (s : string) : string := take (j - i) (drop i s).

Fixpoint startsWith (p s : string) : bool :=
  match p, s with
  | EmptyString, _ => true
  | String a p', String b s' => Ascii.eqb a b && startsWith p' s'
  | String _ _, EmptyString => false
  end.

(** [s.includes(sub)]: plain containment. *)
Fixpoint includes (s sub : string) : bool :=
  startsWith sub s ||
  match s with
  | EmptyString => false
  | String _ t => includes t sub
  end.

(** [s.split(sep)] for a separator of one character. *)
Fixpoint splitChar (sep : ascii) (s : string) : list string :=
  match s with
  | EmptyString => [EmptyString]
  | String c t =>
      if Ascii.eqb c sep then EmptyString :: splitChar sep t
      else match splitChar sep t with
           | w :: ws => String c w :: ws
           | [] => [String c EmptyString]
           end
  end.

(** [parts.join(sep)]. *)
Fixpoint join (sep : string) (parts : list string) : string :=
  match parts with
  | [] => EmptyString
  | [p] => p
  | p :: ps => p +:+ sep +:+ join sep ps
  end.

(** Truthiness of a string and of a number. *)
Definition truthyStr (s : string) : bool :=
  match s with EmptyString => false | _ => true end.

Definition truthyZ (z : Z) : bool := negb (z =? 0)%Z.

Definition truthyOptZ (o : option Z) : bool :=
  match o with Some z => truthyZ z | None => false end.

(** [a || b] on strings. *)
Definition orStr (a b : string) : string := if truthyStr a then a else b.

(** Number to string, for the integers the program prints. *)
Definition showZ (z : Z) : string := NilZero.string_of_int (Z.to_int z).
Definition showNat (n : nat) : string := showZ (Z.of_nat n).

(** [arr.pop()] on the result of a split: the last element. *)
Definition lastStr (l : list string) : string := List.last l EmptyString.

End Js.

(* ===================================================================== *)
(** * Regular expressions *)
(* ===================================================================== *)

Module Regex.

Import Js.

Record flags := Flags { ignoreCase : bool; dotAll : bool; isGlobal : bool }.

Inductive atom :=
| Lit (c : ascii)            (* a pattern character *)
| AnyChar                    (* [.] *)
| ClassS                     (* [\s] *)
| ClassD                     (* [\d] *)
| NoneOf (cs : list ascii).  (* [[^...]] *)

Inductive regex :=
| REmpty
| RAtom (a : atom)
| RSeq (r1 r2 : regex)
| RAlt (r1 r2 : regex)
| RGroup (n : nat) (r : regex)                 (* the n-th capturing group *)
| RLook (positive : bool) (r : regex)          (* [(?=r)] and [(?!r)] *)
| RRepeat (r : regex) (min : nat) (max : option nat) (greedy : bool)
| RBol                                         (* [^], no flag [m] *)
| REol.                                        (* [$], no flag [m] *)

(** Pattern syntax. *)
Fixpoint lits (s : string) : regex :=
  match s with
  | EmptyString => REmpty
  | String c EmptyString => RAtom (Lit c)
  | String c t => RSeq (RAtom (Lit c)) (lits t)
  end.

Fixpoint seqs (rs : list regex) : regex :=
  match rs with
  | [] => REmpty
  | [r] => r
  | r :: rs' => RSeq r (seqs rs')
  end.

Fixpoint alts (rs : list regex) : regex :=
  match rs with
  | [] => REmpty
  | [r] => r
  | r :: rs' => RAlt r (alts rs')
  end.

Definition star (r : regex) : regex := RRepeat r 0 None true.
Definition plus (r : regex) : regex := RRepeat r 1 None true.
Definition opt (r : regex) : regex := RRepeat r 0 (Some 1) true.
Definition plusLazy (r : regex) : regex := RRepeat r 1 None false.
Definition ws : regex := RAtom ClassS.
Definition notLF : regex := RAtom (NoneOf [LF]).

(** The state of a match: the end index, what is left of the input, and the
    captures made so far. *)
Record rstate := RState {
  pos : nat;
  rest : string;
  caps : list (nat * string)
}.

Definition getCap (n : nat) (cs : list (nat * string)) : option string :=
  snd <$> List.find (fun p => fst p =? n) cs.

Definition dropCaps (ns : list nat) (cs : list (nat * string)) : list (nat * string) :=
  List.filter (fun p => negb (existsb (Nat.eqb (fst p)) ns)) cs.

Definition setCap (n : nat) (v : string) (x : rstate) : rstate :=
  RState (pos x) (rest x) ((n, v) :: dropCaps [n] (caps x)).

Fixpoint groupsIn (r : regex) : list nat :=
  match r with
  | RSeq a b | RAlt a b => groupsIn a ++ groupsIn b
  | RGroup n a => n :: groupsIn a
  | RLook _ a => groupsIn a
  | RRepeat a _ _ _ => groupsIn a
  | _ => []
  end.

Definition atomOk (f : flags) (a : atom) (ch : ascii) : bool :=
  match a with
  | Lit c => if ignoreCase f then Ascii.eqb (canonChar ch) (canonChar c)
             else Ascii.eqb ch c
  | AnyChar => dotAll f || negb (isLineTerminator ch)
  | ClassS => isWhiteSpace ch
  | ClassD => isDigit ch
  | NoneOf cs =>
      negb (existsb (fun c => if ignoreCase f
                              then Ascii.eqb (canonChar c) (canonChar ch)
                              else Ascii.eqb c ch) cs)
  end.

Definition isZeroMax (max : option nat) : bool :=
  match max with Some 0 => true | _ => false end.

(** RepeatMatcher of the ECMAScript semantics, for the matcher [m] of the
    quantified pattern: [gs] are the groups inside it, cleared before each
    iteration; [k] is what follows the quantifier.  An iteration that
    consumes nothing once the minimum is met is rejected, so a cycle of
    [min] plus the length of the input left, plus one, is never exceeded:
    that is the [fuel]. *)
Fixpoint repeatMatcher (m : rstate -> (rstate -> option rstate) -> option rstate)
    (gs : list nat) (greedy : bool) (k : rstate -> option rstate)
    (fuel min : nat) (max : option nat) (x : rstate) {struct fuel}
  : option rstate :=
  match fuel with
  | 0 => None
  | S fuel' =>
      if isZeroMax max then k x else
      let d := fun y =>
        if (min =? 0) && (pos y =? pos x) then None
        else repeatMatcher m gs greedy k fuel' (Nat.pred min) (Nat.pred <$> max) y in
      let xr := RState (pos x) (rest x) (dropCaps gs (caps x)) in
      if negb (min =? 0) then m xr d
      else if negb greedy then
        match k x with
        | Some z => Some z
        | None => m xr d
        end
      else
        match m xr d with
        | Some z => Some z
        | None => k x
        end
  end.

(** The matcher of a pattern, in continuation style: [k] is what remains to
    be matched after [r]. *)
Fixpoint rmatch (f : flags) (r : regex) (x : rstate)
    (k : rstate -> option rstate) {struct r} : option rstate :=
  match r with
  | REmpty => k x
  | RAtom a =>
      match rest x with
      | String ch t =>
          if atomOk f a ch then k (RState (S (pos x)) t (caps x)) else None
      | EmptyString => None
      end
  | RSeq r1 r2 => rmatch f r1 x (fun y => rmatch f r2 y k)
  | RAlt r1 r2 =>
      match rmatch f r1 x k with
      | Some z => Some z
      | None => rmatch f r2 x k
      end
  | RGroup n r1 =>
      rmatch f r1 x (fun y => k (setCap n (take (pos y - pos x) (rest x)) y))
  | RLook positive r1 =>
      match rmatch f r1 x Some with
      | Some y => if positive then k (RState (pos x) (rest x) (caps y)) else None
      | None => if positive then None else k x
      end
  | RRepeat r1 min max greedy =>
      repeatMatcher (rmatch f r1) (groupsIn r1) greedy k
        (min + String.length (rest x) + 1) min max x
  | RBol => if pos x =? 0 then k x else None
  | REol => match rest x with EmptyString => k x | _ => None end
  end.

(** A successful match: where it starts, where it ends, its captures. *)
Record jsmatch := JsMatch {
  m_index : nat;
  m_end : nat;
  m_caps : list (nat * string)
}.

Definition group (n : nat) (m : jsmatch) : option string := getCap n (m_caps m).

(** The match that starts exactly at [idx], [s] being the input from there. *)
Definition matchAt (f : flags) (r : regex) (idx : nat) (s : string) : option jsmatch :=
  match rmatch f r (RState idx s []) Some with
  | Some y => Some (JsMatch idx (pos y) (caps y))
  | None => None
  end.

(** The first match at or after [idx]. *)
Fixpoint scan (f : flags) (r : regex) (idx : nat) (s : string) : option jsmatch :=
  match matchAt f r idx s with
  | Some m => Some m
  | None =>
      match s with
      | EmptyString => None
      | String _ t => scan f r (S idx) t
      end
  end.

(** [re.exec(str)] with [re.lastIndex = lastIndex]; a pattern without flag
    [g] is always run with [lastIndex = 0].  On success the caller stores
    [m_end] as the next [lastIndex]. *)
Definition exec (f : flags) (r : regex) (str : string) (lastIndex : nat) : option jsmatch :=
  if String.length str <? lastIndex then None
  else scan f r lastIndex (drop lastIndex str).

(** [re.test(str)] for a pattern without flag [g]. *)
Definition test (f : flags) (r : regex) (str : string) : bool :=
  match exec f r str 0 with Some _ => true | None => false end.

(** [str.replace(re, repl)] for a pattern without flag [g] and a
    replacement without dollar patterns: the first match only. *)
Definition replaceFirst (f : flags) (r : regex) (repl str : string) : string :=
  match exec f r str 0 with
  | Some m => take (m_index m) str +:+ repl +:+ drop (m_end m) str
  | None => str
  end.

(** [str.replace(re, repl)] for a pattern with flag [g]: every match, an
    empty match moving the search one character on. [from] is the index up
    to which the input has been copied. *)
Fixpoint replaceAllFrom (fuel : nat) (f : flags) (r : regex) (repl str : string)
    (from lastIndex : nat) : string :=
  match fuel with
  | 0 => drop from str
  | S fuel' =>
      match exec f r str lastIndex with
      | None => drop from str
      | Some m =>
          let next := if m_end m =? m_index m then S (m_end m) else m_end m in
          slice from (m_index m) str +:+ repl +:+
          replaceAllFrom fuel' f r repl str (m_end m) next
      end
  end.

Definition replaceAll (f : flags) (r : regex) (repl str : string) : string :=
  replaceAllFrom (S (String.length str)) f r repl str 0 0.

(** [str.split(re)] for a pattern without captures: [p] is the start of the
    piece being cut, [q] the index tried next. *)
Fixpoint splitFrom (fuel : nat) (f : flags) (r : regex) (str : string)
    (p q : nat) : list string :=
  match fuel with
  | 0 => [drop p str]
  | S fuel' =>
      if String.length str <=? q then [drop p str]
      else match matchAt f r q (drop q str) with
           | None => splitFrom fuel' f r str p (S q)
           | Some m =>
               let e := Nat.min (m_end m) (String.length str) in
               if e =? p then splitFrom fuel' f r str p (S q)
               else slice p q str :: splitFrom fuel' f r str e e
           end
  end.

Definition split (f : flags) (r : regex) (str : string) : list string :=
  match str with
  | EmptyString =>
      match matchAt f r 0 EmptyString with Some _ => [] | None => [EmptyString] end
  | _ => splitFrom (S (2 * String.length str)) f r str 0 0
  end.

End Regex.

(* ===================================================================== *)
(** * The scenario parser ([src/parser/gherkinParser.ts]) *)
(* ===================================================================== *)

Module GherkinParser.

Import Js Regex.

Record ParsedScenario := mkScenario {
  name : string;
  steps : list string;
  expectedResult : string
}.

Definition fI : flags := Flags true false false.    (* /.../i *)
Definition fG : flags := Flags false false true.    (* /.../g *)
Definition fGI : flags := Flags true false true.    (* /.../gi *)
Definition fGIS : flags := Flags true true true.    (* /.../gis *)
Definition fNone : flags := Flags false false false.

Definition lf : regex := RAtom (Lit LF).

(** [(?:Given|When|Then|And|But)] *)
Definition stepKeyword : regex :=
  alts [lits "Given"; lits "When"; lits "Then"; lits "And"; lits "But"].

(** The pattern of [parseScenarios], flags [gi].  Written here with a
    blank between its pieces (the blanks are not part of the pattern):
      Scenario \s* (\d+)? \s* :? \s*
      ( (?: [^\n]* (?: \n (?! \s* (?:Given|When|Then|And|But|Scenario) ) [^\n]* )* ) )
      (?: \n \s* )*
      ( (?:Given|When|Then|And|But) [^\n]* (?: \n (?!Scenario) [^\n]* )* )   *)
Definition scenarioPattern : regex :=
  seqs [
    lits "Scenario"; star ws; opt (RGroup 1 (plus (RAtom ClassD))); star ws;
    opt (RAtom (Lit ":")); star ws;
    RGroup 2
      (seqs [star notLF;
             star (seqs [lf;
                         RLook false
                           (seqs [star ws;
                                  alts [lits "Given"; lits "When"; lits "Then";
                                        lits "And"; lits "But"; lits "Scenario"]]);
                         star notLF])]);
    star (seqs [lf; star ws]);
    RGroup 3
      (seqs [stepKeyword; star notLF;
             star (seqs [lf; RLook false (lits "Scenario"); star notLF])])
  ].

(** [/^(Given|When|Then|And|But)\s+/i]; the group is not read. *)
Definition stepLine : regex := seqs [RBol; RGroup 1 stepKeyword; plus ws].
(** [/^then\s+/i] and [/^and\s+then\s+/i] *)
Definition thenLine : regex := seqs [RBol; lits "then"; plus ws].
Definition andThenLine : regex :=
  seqs [RBol; lits "and"; plus ws; lits "then"; plus ws].
(** [/\n+/g] *)
Definition newlines : regex := plus lf.
(** [/\n(?:And|But)\s+/] *)
Definition andButSep : regex :=
  seqs [lf; alts [lits "And"; lits "But"]; plus ws].

(** The pattern of [parseFallbackScenarios], flags [gis], written the
    same way:
      When \s+ (.+?) (?: \n (?:And|But) \s+ (.+?) )*
      \n Then \s+ (.+?) (?: \n (?:And|But) \s+ (.+?) )*
      (?= \n\n | \n When \s+ | $ )   *)
Definition whenThenPattern : regex :=
  seqs [
    lits "When"; plus ws; RGroup 1 (plusLazy (RAtom AnyChar));
    star (seqs [lf; alts [lits "And"; lits "But"]; plus ws;
                RGroup 2 (plusLazy (RAtom AnyChar))]);
    lf; lits "Then"; plus ws; RGroup 3 (plusLazy (RAtom AnyChar));
    star (seqs [lf; alts [lits "And"; lits "But"]; plus ws;
                RGroup 4 (plusLazy (RAtom AnyChar))]);
    RLook true (alts [seqs [lf; lf]; seqs [lf; lits "When"; plus ws]; REol])
  ].

(** [extractSteps]: the lines of the block that, trimmed, start with a
    step keyword and white space; the keyword is kept. *)
Definition extractSteps (stepsBlock : string) : list string :=
  List.filter (test fI stepLine) (List.map trim (splitChar LF stepsBlock)).

(** The backward loop of [extractExpectedResult], on the steps from the
    last to the first. *)
Fixpoint lastThenContent (backward : list string) : option string :=
  match backward with
  | [] => None
  | step :: more =>
      if test fI thenLine step
      then Some (trim (replaceFirst fI thenLine "" step))
      else if test fI andThenLine step
      then Some (trim (replaceFirst fI andThenLine "" step))
      else lastThenContent more
  end.

Definition extractExpectedResult (steps : list string) : string :=
  match lastThenContent (List.rev steps) with
  | Some content => content
  | None =>
      match steps with
      | [] => ""
      | _ => trim (replaceFirst fI stepLine "" (lastStr steps))
      end
  end.

(** [`Scenario ${scenarioNumber || scenarios.length + 1}`] *)
Definition defaultName (scenarioNumber : string) (count : nat) : string :=
  "Scenario " +:+ (if truthyStr scenarioNumber then scenarioNumber
                   else showNat (count + 1)).

(** One turn of the [while] loop of [parseScenarios] on a match. *)
Definition scenarioOfMatch (m : jsmatch) (scenarios : list ParsedScenario)
  : list ParsedScenario :=
  let scenarioNumber := default "" (group 1 m) in
  let scenarioTitle :=
    orStr (match group 2 m with
           | Some t => trim (replaceAll fG newlines " " (trim t))
           | None => ""
           end)
          (defaultName scenarioNumber (List.length scenarios)) in
  let stepsBlock := default "" (group 3 m) in
  let steps := extractSteps stepsBlock in
  match steps with
  | [] => scenarios
  | _ =>
      scenarios ++
      [mkScenario
         (orStr (trim scenarioTitle)
                (defaultName scenarioNumber (List.length scenarios)))
         steps
         (extractExpectedResult steps)]
  end.

(** The [while ((match = scenarioPattern.exec(description)) !== null)] loop.
    Every match is at least as long as the word Scenario, so [lastIndex]
    grows on each turn and the loop ends within [length description] turns. *)
Fixpoint primaryLoop (fuel : nat) (description : string) (lastIndex : nat)
    (scenarios : list ParsedScenario) : list ParsedScenario :=
  match fuel with
  | 0 => scenarios
  | S fuel' =>
      match exec fGI scenarioPattern description lastIndex with
      | None => scenarios
      | Some m =>
          primaryLoop fuel' description (m_end m) (scenarioOfMatch m scenarios)
      end
  end.

(** What is pushed for [match[2]] and [match[4]]: the capture split on
    [/\n(?:And|But)\s+/], the pieces that trim to nothing filtered out,
    the others trimmed. *)
Definition andSteps (captured : string) : list string :=
  List.map trim
    (List.filter (fun s => truthyStr (trim s)) (split fNone andButSep captured)).

Definition pushIf (o : option string) (f : string -> list string)
    (acc : list string) : list string :=
  match o with
  | Some s => if truthyStr s then acc ++ f s else acc
  | None => acc
  end.

(** The steps collected from one match of the fallback pattern. *)
Definition fallbackSteps (m : jsmatch) : list string :=
  let one := fun s => [trim s] in
  pushIf (group 4 m) andSteps
    (pushIf (group 3 m) one
       (pushIf (group 2 m) andSteps
          (pushIf (group 1 m) one []))).

Fixpoint fallbackLoop (fuel : nat) (description : string) (lastIndex : nat)
    (scenarioIndex : nat) (scenarios : list ParsedScenario)
  : list ParsedScenario :=
  match fuel with
  | 0 => scenarios
  | S fuel' =>
      match exec fGIS whenThenPattern description lastIndex with
      | None => scenarios
      | Some m =>
          let steps := fallbackSteps m in
          match steps with
          | [] => fallbackLoop fuel' description (m_end m) scenarioIndex scenarios
          | _ =>
              fallbackLoop fuel' description (m_end m) (S scenarioIndex)
                (scenarios ++
                 [mkScenario ("Scenario " +:+ showNat scenarioIndex) steps
                    (orStr (lastStr steps) "")])
          end
      end
  end.

Definition parseFallbackScenarios (description : string) : list ParsedScenario :=
  fallbackLoop (S (String.length description)) description 0 1 [].

Definition primaryScenarios (description : string) : list ParsedScenario :=
  primaryLoop (S (String.length description)) description 0 [].

Definition parseScenarios (description : string) : list ParsedScenario :=
  if negb (truthyStr description) || (String.length (trim description) =? 0)
  then []
  else
    let scenarios := primaryScenarios description in
    match scenarios with
    | [] => scenarios ++ parseFallbackScenarios description
    | _ => scenarios
    end.

End GherkinParser.

(* ===================================================================== *)
(** * The test-case store and the ticket source *)
(* ===================================================================== *)

Module TestRail.

(** [TestRailStep], [TestRailTestCase] (the payload the orchestrator
    builds), [TestRailTestCaseResponse], [TestRailSection],
    [TestRailSuite] of [src/testrail/testrailClient.ts], and [JiraTicket]. *)
Record TestRailStep := mkStep {
  step_content : string;
  step_expected : string
}.

Record TestRailTestCase := mkTestCase {
  tc_title : string;
  tc_section_id : Z;
  tc_preconds : string;
  tc_refs : string;
  tc_steps : list TestRailStep;
  tc_expected : string
}.

Record TestRailTestCaseResponse := mkCase {
  case_id : Z;
  case_title : string;
  case_section_id : Z;
  case_refs : option string
}.

Record TestRailSection := mkSection {
  sec_id : Z;
  sec_name : string;
  sec_suite_id : Z;
  sec_parent_id : option Z
}.

Record TestRailSuite := mkSuite {
  suite_id : Z;
  suite_name : string
}.

Record JiraTicket := mkTicket {
  jt_key : string;
  jt_summary : string;
  jt_description : string;
  jt_url : string
}.

(** The calls a run can issue on the two clients. *)
Inductive Call :=
| FetchTicket (jiraKey : string)
| FindSuiteByName (projectId : Z) (suiteName : string)
| CreateSuite (projectId : Z) (suiteName : string)
| GetSuites (projectId : Z)
| GetSections (projectId suiteId : Z)
| GetSection (sectionId : Z)
| CreateSection (projectId suiteId : Z) (sectionName : string) (parentId : option Z)
| GetTestCases (projectId sectionId : Z) (suiteId : option Z)
| CreateTestCase (sectionId : Z) (testCase : TestRailTestCase)
| UpdateTestCase (caseId : Z) (testCase : TestRailTestCase)
| DeleteTestCase (caseId : Z).

(** The calls that change the store. *)
Definition mutating (c : Call) : bool :=
  match c with
  | CreateSuite _ _ | CreateSection _ _ _ _
  | CreateTestCase _ _ | UpdateTestCase _ _ | DeleteTestCase _ => true
  | _ => false
  end.

(** The answer of a client method: the value it resolves to, or the
    message of the error it throws. *)
Definition answer (A : Type) : Type := (string + A)%type.

(** The outside world: a state [W] and, for each client method, what it
    answers and how it changes that state. *)
Record Env (W : Type) := mkEnv {
  fetchTicket : string -> W -> answer JiraTicket * W;
  findSuiteByName : Z -> string -> W -> answer (option TestRailSuite) * W;
  createSuite : Z -> string -> W -> answer TestRailSuite * W;
  getSuites : Z -> W -> answer (list TestRailSuite) * W;
  getSections : Z -> Z -> W -> answer (list TestRailSection) * W;
  getSection : Z -> W -> answer TestRailSection * W;
  createSection : Z -> Z -> string -> option Z -> W -> answer TestRailSection * W;
  getTestCases : Z -> Z -> option Z -> W -> answer (list TestRailTestCaseResponse) * W;
  createTestCase : Z -> TestRailTestCase -> W -> answer TestRailTestCaseResponse * W;
  updateTestCase : Z -> TestRailTestCase -> W -> answer TestRailTestCaseResponse * W;
  deleteTestCase : Z -> W -> answer unit * W
}.

Arguments fetchTicket {W}.
Arguments findSuiteByName {W}.
Arguments createSuite {W}.
Arguments getSuites {W}.
Arguments getSections {W}.
Arguments getSection {W}.
Arguments createSection {W}.
Arguments getTestCases {W}.
Arguments createTestCase {W}.
Arguments updateTestCase {W}.
Arguments deleteTestCase {W}.

End TestRail.

(* ===================================================================== *)
(** * The orchestrator ([src/sync/syncService.ts]) *)
(* ===================================================================== *)

Module SyncService.

Import Js Regex GherkinParser TestRail.

Record SyncResult := mkResult {
  jiraTicket : option JiraTicket;
  scenariosFound : nat;
  scenariosCreated : nat;
  scenariosUpdated : nat;
  scenariosDeleted : nat;
  scenariosSkipped : nat;
  testCaseIds : list Z;
  errors : list string
}.

Definition emptyResult : SyncResult := mkResult None 0 0 0 0 0 [] [].

Definition setTicket (t : JiraTicket) (r : SyncResult) : SyncResult :=
  mkResult (Some t) (scenariosFound r) (scenariosCreated r) (scenariosUpdated r)
    (scenariosDeleted r) (scenariosSkipped r) (testCaseIds r) (errors r).
Definition setFound (n : nat) (r : SyncResult) : SyncResult :=
  mkResult (jiraTicket r) n (scenariosCreated r) (scenariosUpdated r)
    (scenariosDeleted r) (scenariosSkipped r) (testCaseIds r) (errors r).
Definition incCreated (r : SyncResult) : SyncResult :=
  mkResult (jiraTicket r) (scenariosFound r) (S (scenariosCreated r))
    (scenariosUpdated r) (scenariosDeleted r) (scenariosSkipped r)
    (testCaseIds r) (errors r).
Definition incUpdated (r : SyncResult) : SyncResult :=
  mkResult (jiraTicket r) (scenariosFound r) (scenariosCreated r)
    (S (scenariosUpdated r)) (scenariosDeleted r) (scenariosSkipped r)
    (testCaseIds r) (errors r).
Definition incDeleted (r : SyncResult) : SyncResult :=
  mkResult (jiraTicket r) (scenariosFound r) (scenariosCreated r)
    (scenariosUpdated r) (S (scenariosDeleted r)) (scenariosSkipped r)
    (testCaseIds r) (errors r).
Definition incSkipped (r : SyncResult) : SyncResult :=
  mkResult (jiraTicket r) (scenariosFound r) (scenariosCreated r)
    (scenariosUpdated r) (scenariosDeleted r) (S (scenariosSkipped r))
    (testCaseIds r) (errors r).
Definition pushId (i : Z) (r : SyncResult) : SyncResult :=
  mkResult (jiraTicket r) (scenariosFound r) (scenariosCreated r)
    (scenariosUpdated r) (scenariosDeleted r) (scenariosSkipped r)
    (testCaseIds r ++ [i]) (errors r).
Definition pushError (e : string) (r : SyncResult) : SyncResult :=
  mkResult (jiraTicket r) (scenariosFound r) (scenariosCreated r)
    (scenariosUpdated r) (scenariosDeleted r) (scenariosSkipped r)
    (testCaseIds r) (errors r ++ [e]).

(** The methods of the logger. *)
Inductive LogLevel := Info | Success | Warning | Error | Verbose.

(** ** The pure parts of a run *)

(** [/^then\s+/i.test(step) || /^and\s+then\s+/i.test(step)] *)
Definition isThenStep (step : string) : bool :=
  test fI thenLine step || test fI andThenLine step.

(** [for (let i = steps.length - 1; i >= 0; i--) if (...) { lastThenIndex = i; break; }]:
    [i] candidates are left, the one of index [i - 1] is tried first. *)
Fixpoint scanDown (steps : list string) (i : nat) : option nat :=
  match i with
  | 0 => None
  | S j => if isThenStep (nth j steps "") then Some j else scanDown steps j
  end.

(** [None] stands for the index -1. *)
Definition lastThenIndex (steps : list string) : option nat :=
  scanDown steps (List.length steps).

(** [convertStepsToTestRailFormat] *)
Definition convertStepsToTestRailFormat (scenario : ParsedScenario)
  : list TestRailStep :=
  match lastThenIndex (steps scenario) with
  | None => List.map (fun step => mkStep step "") (steps scenario)
  | Some k => List.map (fun step => mkStep step "") (firstn k (steps scenario))
  end.

(** The expected result of the payload: [expectedResultParts] joined, or
    the expected result of the scenario when there are no parts. *)
Definition expectedResultParts (scenario : ParsedScenario) : list string :=
  match lastThenIndex (steps scenario) with
  | Some k => skipn k (steps scenario)
  | None => []
  end.

Definition payloadExpected (scenario : ParsedScenario) : string :=
  if 0 <? List.length (expectedResultParts scenario)
  then join nl (expectedResultParts scenario)
  else expectedResult scenario.

(** The [testCase] object built for a scenario. *)
Definition buildTestCase (ticket : JiraTicket) (sectionId : Z)
    (scenario : ParsedScenario) : TestRailTestCase :=
  mkTestCase (name scenario) sectionId
    ("Jira Ticket: " +:+ jt_key ticket +:+ nl +:+ jt_url ticket)
    (jt_key ticket)
    (convertStepsToTestRailFormat scenario)
    (payloadExpected scenario).

(** [title.toLowerCase().trim()] *)
Definition normalize (title : string) : string := trim (toLowerCase title).

(** [(tc.refs || '').toString().includes(jiraKey)] *)
Definition linkedTo (jiraKey : string) (tc : TestRailTestCaseResponse) : bool :=
  includes (default "" (case_refs tc)) jiraKey.

Definition jiraTicketTestCases (jiraKey : string)
    (existingTestCases : list TestRailTestCaseResponse)
  : list TestRailTestCaseResponse :=
  List.filter (linkedTo jiraKey) existingTestCases.

(** [existingCasesMap]: a later [set] on the same key replaces the earlier. *)
Definition existingCasesMap (linked : list TestRailTestCaseResponse)
  : gmap string TestRailTestCaseResponse :=
  fold_left (fun m tc => <[normalize (case_title tc) := tc]> m) linked ∅.

(** [jiraScenarioTitles] *)
Definition jiraScenarioTitles (scenarios : list ParsedScenario) : gset string :=
  fold_left (fun s scenario => s ∪ {[normalize (name scenario)]}) scenarios ∅.

(** [existingCasesMap.get(normalizedTitle)] for a scenario. *)
Definition existingCase (jiraKey : string)
    (existingTestCases : list TestRailTestCaseResponse)
    (scenario : ParsedScenario) : option TestRailTestCaseResponse :=
  existingCasesMap (jiraTicketTestCases jiraKey existingTestCases)
    !! normalize (name scenario).

(** [testCasesToDelete] *)
Definition testCasesToDelete (jiraKey : string)
    (scenarios : list ParsedScenario)
    (existingTestCases : list TestRailTestCaseResponse)
  : list TestRailTestCaseResponse :=
  List.filter
    (fun tc => negb (bool_decide (normalize (case_title tc)
                                  ∈ jiraScenarioTitles scenarios)))
    (jiraTicketTestCases jiraKey existingTestCases).

(** [sectionPath.split('/').map(part => part.trim()).filter(part => part.length > 0)] *)
Definition pathParts (sectionPath : string) : list string :=
  List.filter (fun part => 0 <? String.length part)
    (List.map trim (splitChar "/" sectionPath)).

(** [!s.parent_id] and [s.parent_id === currentParentId] *)
Definition noParent (s : TestRailSection) : bool :=
  negb (truthyOptZ (sec_parent_id s)).

Definition parentIs (p : Z) (s : TestRailSection) : bool :=
  match sec_parent_id s with Some q => (q =? p)%Z | None => false end.

(** [currentParentId || undefined] *)
Definition orUndefined (o : option Z) : option Z :=
  match o with Some z => if truthyZ z then Some z else None | None => None end.

Definition quoted (s : string) : string := dq +:+ s +:+ dq.

(** [`"${s.name}" (ID: ${s.id})`] *)
Definition showSection (s : TestRailSection) : string :=
  quoted (sec_name s) +:+ " (ID: " +:+ showZ (sec_id s) +:+ ")".

Definition showSuite (s : TestRailSuite) : string :=
  quoted (suite_name s) +:+ " (ID: " +:+ showZ (suite_id s) +:+ ")".

(** ** Effects: the store, the log, the result under construction *)

Section Run.

Context {W : Type} (env : Env W).

(** What a run has done so far. *)
Record St := mkSt {
  world : W;
  calls : list Call;
  logs : list (LogLevel * string);
  result : SyncResult
}.

(** A computation either returns a value or throws an error, of which the
    message is kept. *)
Definition M (A : Type) : Type := St -> (string + A) * St.

Definition ret {A} (a : A) : M A := fun st => (inr a, st).

Definition throw {A} (message : string) : M A := fun st => (inl message, st).

Definition bind {A B} (m : M A) (k : A -> M B) : M B :=
  fun st =>
    match m st with
    | (inl e, st') => (inl e, st')
    | (inr a, st') => k a st'
    end.

(** [try { m } catch (error) { h error.message }] *)
Definition tryCatch {A} (m : M A) (h : string -> M A) : M A :=
  fun st =>
    match m st with
    | (inl e, st') => h e st'
    | (inr a, st') => (inr a, st')
    end.

Definition log (level : LogLevel) (message : string) : M unit :=
  fun st => (inr tt, mkSt (world st) (calls st) (logs st ++ [(level, message)]) (result st)).

Definition modify (f : SyncResult -> SyncResult) : M unit :=
  fun st => (inr tt, mkSt (world st) (calls st) (logs st) (f (result st))).

Definition getResult : M SyncResult := fun st => (inr (result st), st).

(** A call on a client: recorded, then answered by the environment. *)
Definition issue {A} (c : Call) (method : W -> answer A * W) : M A :=
  fun st =>
    let (a, w') := method (world st) in
    (a, mkSt w' (calls st ++ [c]) (logs st) (result st)).

Declare Scope sync_scope.
Notation "'let*' x ':=' m 'in' k" := (bind m (fun x => k))
  (at level 10, x pattern, m at level 200, k at level 200) : sync_scope.
Notation "m ';;' k" := (bind m (fun _ => k))
  (at level 100, k at level 200, right associativity) : sync_scope.
Local Open Scope sync_scope.

Fixpoint forEach {A} (l : list A) (body : A -> M unit) : M unit :=
  match l with
  | [] => ret tt
  | a :: l' => body a ;; forEach l' body
  end.

(** ** Step 0: the suite *)

Definition suiteNotFound (testrailProjectId : Z) (suiteName suiteNames : string) : string :=
  if truthyStr suiteNames
  then "Suite " +:+ quoted suiteName +:+ " not found in project "
       +:+ showZ testrailProjectId +:+ "." +:+ nl
       +:+ "Available suites: " +:+ suiteNames +:+ nl
       +:+ "Use --create-suite to create it automatically."
  else "Suite " +:+ quoted suiteName +:+ " not found in project "
       +:+ showZ testrailProjectId +:+ "." +:+ nl
       +:+ "No suites found in project. Use --create-suite to create it automatically.".

Definition resolveSuite (testrailProjectId : Z) (testrailSuiteId : option Z)
    (suiteName : option string) (dryRun createSuiteIfMissing : bool)
  : M (option Z) :=
  match suiteName with
  | None => ret testrailSuiteId
  | Some suiteName =>
    if negb (truthyStr suiteName && negb (truthyOptZ testrailSuiteId))
    then ret testrailSuiteId
    else
      log Info ("Looking for suite: " +:+ quoted suiteName +:+ "...") ;;
      let* existingSuite :=
        issue (FindSuiteByName testrailProjectId suiteName)
              (findSuiteByName env testrailProjectId suiteName) in
      match existingSuite with
      | Some existingSuite =>
          log Success ("Found existing suite " +:+ quoted suiteName
                       +:+ " (ID: " +:+ showZ (suite_id existingSuite) +:+ ")") ;;
          ret (Some (suite_id existingSuite))
      | None =>
          if createSuiteIfMissing then
            if dryRun then
              log Verbose ("[DRY RUN] Would create suite: " +:+ quoted suiteName) ;;
              ret testrailSuiteId
            else
              log Info ("Creating suite: " +:+ quoted suiteName +:+ "...") ;;
              let* newSuite :=
                issue (CreateSuite testrailProjectId suiteName)
                      (createSuite env testrailProjectId suiteName) in
              ret (Some (suite_id newSuite))
          else
            tryCatch
              (let* availableSuites :=
                 issue (GetSuites testrailProjectId) (getSuites env testrailProjectId) in
               let suiteNames := join ", " (List.map showSuite availableSuites) in
               throw (suiteNotFound testrailProjectId suiteName suiteNames))
              (fun message =>
                 if includes message "not found" then throw message
                 else throw ("Suite " +:+ quoted suiteName +:+ " not found in project "
                             +:+ showZ testrailProjectId +:+ ". "
                             +:+ "Use --create-suite to create it automatically."))
      end
  end.

(** ** The section: walking and creating a path *)

(** The test of both [find] calls on a path segment:
    [s.name.toLowerCase().trim() === part &&
     (currentParentId === null ? !s.parent_id : s.parent_id === currentParentId)] *)
Definition isChild (part : string) (currentParentId : option Z)
    (s : TestRailSection) : bool :=
  String.eqb (normalize (sec_name s)) part &&
  match currentParentId with
  | None => noParent s
  | Some p => parentIs p s
  end.

(** [currentParentId ? `under "${pathTraversed.join('/')}"` : 'at top level'] *)
Definition whereCreated (currentParentId : option Z) (pathTraversed : list string) : string :=
  if truthyOptZ currentParentId
  then "under " +:+ quoted (join "/" pathTraversed)
  else "at top level".

(** The loop of [createSectionHierarchy] from index [i] on; [parts] are the
    segments still to do.  It returns from inside, on the last segment. *)
Fixpoint createPath (projectId suiteId : Z) (sectionPath : string) (dryRun : bool)
    (parts : list string) (existingSections : list TestRailSection)
    (currentParentId : option Z) (pathTraversed : list string)
  : M (TestRailSection * list TestRailSection) :=
  match parts with
  | [] => throw ("Failed to create section hierarchy for " +:+ quoted sectionPath)
  | partName :: parts' =>
      let* (existingSections, currentParentId, pathTraversed) :=
        match List.find (isChild (normalize partName) currentParentId) existingSections with
        | Some existingSection =>
            ret (existingSections, Some (sec_id existingSection),
                 pathTraversed ++ [sec_name existingSection])
        | None =>
            if dryRun then
              throw ("[DRY RUN] Section " +:+ quoted partName +:+ " would be created "
                     +:+ whereCreated currentParentId pathTraversed +:+ ". "
                     +:+ "Run without --dry-run to create it.")
            else
              log Info ("Creating section: " +:+ quoted partName +:+ " "
                        +:+ whereCreated currentParentId pathTraversed +:+ "...") ;;
              let* newSection :=
                issue (CreateSection projectId suiteId partName currentParentId)
                      (createSection env projectId suiteId partName currentParentId) in
              ret (existingSections ++ [newSection], Some (sec_id newSection),
                   pathTraversed ++ [sec_name newSection])
        end in
      match parts' with
      | [] =>
          match List.find (fun s => match currentParentId with
                                    | Some p => (sec_id s =? p)%Z
                                    | None => false
                                    end) existingSections with
          | Some finalSection => ret (finalSection, existingSections)
          | None => throw ("Failed to create or find section " +:+ quoted sectionPath)
          end
      | _ => createPath projectId suiteId sectionPath dryRun parts'
               existingSections currentParentId pathTraversed
      end
  end.

(** [createSectionHierarchy]; the array [existingSections] is shared with
    the caller, so the array as it is left is returned with the section. *)
Definition createSectionHierarchy (projectId suiteId : Z) (sectionPath : string)
    (existingSections : list TestRailSection)
    (createSectionIfMissing dryRun : bool)
  : M (TestRailSection * list TestRailSection) :=
  let nameParts := pathParts sectionPath in
  match nameParts with
  | [only] =>
      if dryRun then
        throw ("[DRY RUN] Section " +:+ quoted sectionPath
               +:+ " would be created. Run without --dry-run to create it.")
      else
        let* newSection :=
          issue (CreateSection projectId suiteId only None)
                (createSection env projectId suiteId only None) in
        ret (newSection, existingSections)
  | _ => createPath projectId suiteId sectionPath dryRun nameParts
           existingSections None []
  end.

(** The variables of the traversal loop of [syncTicketToTestRail]. *)
Record Walk := mkWalk {
  w_sections : list TestRailSection;
  w_pathTraversed : list string;
  w_currentParentId : option Z;
  w_selectedSection : option TestRailSection
}.

(** [`under "${pathTraversed.join('/')}"`] or [top-level] *)
Definition parentContext (currentParentId : option Z) (pathTraversed : list string) : string :=
  match currentParentId with
  | None => "top-level"
  | Some _ => "under " +:+ quoted (join "/" pathTraversed)
  end.

(** The traversal loop for a path of several segments, from index [i] on;
    [parts] are the normalized segments still to do. *)
Fixpoint walkPath (testrailProjectId resolvedSuiteId : Z)
    (dryRun createSectionIfMissing : bool)
    (nameParts originalNameParts : list string)
    (i : nat) (parts : list string) (w : Walk) : M Walk :=
  match parts with
  | [] => ret w
  | partNameNormalized :: parts' =>
      let partNameOriginal := nth i originalNameParts "" in
      let isLast := i =? List.length nameParts - 1 in
      let* w' :=
        match List.find (isChild partNameNormalized (w_currentParentId w)) (w_sections w) with
        | Some foundSection =>
            ret (mkWalk (w_sections w)
                   (w_pathTraversed w ++ [sec_name foundSection])
                   (Some (sec_id foundSection))
                   (if isLast then Some foundSection else w_selectedSection w))
        | None =>
            let currentPath := join "/" (firstn i nameParts) in
            let context := parentContext (w_currentParentId w) (w_pathTraversed w) in
            let availableSections :=
              join ", "
                (List.map showSection
                   (List.filter (fun s => match w_currentParentId w with
                                          | None => noParent s
                                          | Some p => parentIs p s
                                          end) (w_sections w))) in
            if createSectionIfMissing then
              if dryRun then
                log Info ("[DRY RUN] Would create section: " +:+ quoted partNameOriginal
                          +:+ " " +:+ context) ;;
                let mockSection :=
                  mkSection (-1) partNameOriginal resolvedSuiteId
                    (orUndefined (w_currentParentId w)) in
                ret (mkWalk (w_sections w ++ [mockSection])
                       (w_pathTraversed w ++ [sec_name mockSection])
                       (Some (sec_id mockSection))
                       (if isLast then Some mockSection else w_selectedSection w))
              else
                log Info ("Creating section: " +:+ quoted partNameOriginal
                          +:+ " " +:+ context +:+ "...") ;;
                let* newSection :=
                  issue (CreateSection testrailProjectId resolvedSuiteId partNameOriginal
                           (orUndefined (w_currentParentId w)))
                        (createSection env testrailProjectId resolvedSuiteId partNameOriginal
                           (orUndefined (w_currentParentId w))) in
                ret (mkWalk (w_sections w ++ [newSection])
                       (w_pathTraversed w ++ [sec_name newSection])
                       (Some (sec_id newSection))
                       (if isLast then Some newSection else w_selectedSection w))
            else
              throw ("Section " +:+ quoted partNameOriginal +:+ " not found " +:+ context
                     +:+ " in suite " +:+ showZ resolvedSuiteId +:+ "." +:+ nl
                     +:+ "Path: "
                     +:+ (if truthyStr currentPath then currentPath +:+ "/" else "")
                     +:+ partNameOriginal +:+ nl
                     +:+ "Available sections " +:+ context +:+ ": "
                     +:+ orStr availableSections "None" +:+ nl
                     +:+ "Use --create-section to create missing sections automatically.")
        end in
      walkPath testrailProjectId resolvedSuiteId dryRun createSectionIfMissing
        nameParts originalNameParts (S i) parts' w'
  end.

(** ** The section: selection *)

(** The mock section of a dry run: [sectionName.split('/').pop() || sectionName]
    under the placeholder id -1. *)
Definition mockLeaf (sectionName : string) (resolvedSuiteId : Z) : TestRailSection :=
  mkSection (-1) (orStr (lastStr (splitChar "/" sectionName)) sectionName)
    resolvedSuiteId None.

(** [`"${s.name}" (ID: ${s.id})${parentInfo}`] *)
Definition showSectionWithParent (s : TestRailSection) : string :=
  showSection s +:+
  match sec_parent_id s with
  | Some p => if truthyZ p then " (under section ID " +:+ showZ p +:+ ")" else ""
  | None => ""
  end.

(** The branch [if (sectionName)] of the selection. *)
Definition selectByName (testrailProjectId resolvedSuiteId : Z)
    (dryRun createSectionIfMissing : bool) (sectionName : string)
    (sections : list TestRailSection) : M TestRailSection :=
  let normalizedName := trim (toLowerCase sectionName) in
  let originalNameParts := pathParts sectionName in
  let nameParts := pathParts normalizedName in
  let* (sections, selectedSection) :=
    if List.length nameParts =? 1 then
      ret (sections,
           match List.find (fun s => String.eqb (normalize (sec_name s)) normalizedName
                                     && noParent s) sections with
           | Some s => Some s
           | None => List.find (fun s => String.eqb (normalize (sec_name s)) normalizedName)
                       sections
           end)
    else
      let* w := walkPath testrailProjectId resolvedSuiteId dryRun createSectionIfMissing
                  nameParts originalNameParts 0 nameParts
                  (mkWalk sections [] None None) in
      match w_selectedSection w with
      | Some selectedSection =>
          if 1 <? List.length (w_pathTraversed w) then
            log Success ("Found section " +:+ quoted (sec_name selectedSection)
                         +:+ " (ID: " +:+ showZ (sec_id selectedSection) +:+ ") "
                         +:+ "at path: " +:+ quoted (join "/" (w_pathTraversed w)))
          else ret tt
      | None => ret tt
      end ;;
      ret (w_sections w, w_selectedSection w) in
  let* selectedSection :=
    match selectedSection with
    | Some s => ret s
    | None =>
        let availableSections := join ", " (List.map showSectionWithParent sections) in
        if createSectionIfMissing then
          if dryRun then
            log Info ("[DRY RUN] Would create section: " +:+ quoted sectionName) ;;
            ret (mockLeaf sectionName resolvedSuiteId)
          else
            log Info ("Creating section: " +:+ quoted sectionName +:+ "...") ;;
            let* (newSection, _) :=
              createSectionHierarchy testrailProjectId resolvedSuiteId sectionName
                sections createSectionIfMissing dryRun in
            ret newSection
        else
          throw ("Section " +:+ quoted sectionName +:+ " not found in suite "
                 +:+ showZ resolvedSuiteId +:+ "." +:+ nl
                 +:+ "Available sections: " +:+ availableSections +:+ nl
                 +:+ "Use --create-section to create missing sections automatically.")
    end in
  (if noParent selectedSection then
     log Success ("Found section " +:+ quoted (sec_name selectedSection)
                  +:+ " (ID: " +:+ showZ (sec_id selectedSection) +:+ ")")
   else ret tt) ;;
  ret selectedSection.

(** The branch without a section name: the first top-level section, or
    else the first section.  Reading a field of [undefined] throws. *)
Definition selectDefault (sections : list TestRailSection) : M TestRailSection :=
  let* selectedSection :=
    match List.find noParent sections with
    | Some s => ret s
    | None =>
        match sections with
        | s :: _ => ret s
        | [] => throw "Cannot read properties of undefined (reading 'name')"
        end
    end in
  (if truthyOptZ (sec_parent_id selectedSection) then
     log Warning ("Using subsection " +:+ showSection selectedSection)
   else
     log Success ("Using first section " +:+ showSection selectedSection)) ;;
  (if 1 <? List.length sections then
     let topLevelSections := List.filter noParent sections in
     (if 1 <? List.length topLevelSections then
        log Info ("Found " +:+ showNat (List.length topLevelSections)
                  +:+ " top-level sections in suite. Using first section.") ;;
        log Verbose ("Available top-level sections: "
                     +:+ join ", " (List.map showSection topLevelSections))
      else ret tt) ;;
     let subsections := List.filter (fun s => truthyOptZ (sec_parent_id s)) sections in
     (if 0 <? List.length subsections then
        log Verbose ("Found " +:+ showNat (List.length subsections)
                     +:+ " subsection(s). Use " +:+ quoted "Parent/Subsection" +:+ " or "
                     +:+ quoted "Parent/Subsection/Sub-subsection"
                     +:+ " format to select them.")
      else ret tt) ;;
     log Info "Tip: Use --section-name to select a specific section or subsection."
   else ret tt) ;;
  ret selectedSection.

Definition truthyName (sectionName : option string) : option string :=
  match sectionName with
  | Some n => if truthyStr n then Some n else None
  | None => None
  end.

(** From a resolved suite to a section id: the branch [if (resolvedSuiteId)]. *)
Definition sectionOfSuite (testrailProjectId resolvedSuiteId : Z)
    (sectionName : option string) (dryRun createSectionIfMissing : bool) : M Z :=
  log Info ("Fetching sections from suite " +:+ showZ resolvedSuiteId +:+ "...") ;;
  let* sections :=
    issue (GetSections testrailProjectId resolvedSuiteId)
          (getSections env testrailProjectId resolvedSuiteId) in
  let* (sectionId, sections) :=
    if List.length sections =? 0 then
      match (if createSectionIfMissing then truthyName sectionName else None) with
      | Some sectionName =>
          if dryRun then
            log Info ("[DRY RUN] Would create section: " +:+ quoted sectionName
                      +:+ " in suite " +:+ showZ resolvedSuiteId) ;;
            ret (Some (sec_id (mockLeaf sectionName resolvedSuiteId)), sections)
          else
            log Info ("No sections found in suite " +:+ showZ resolvedSuiteId
                      +:+ ". Creating section " +:+ quoted sectionName +:+ "...") ;;
            let* (newSection, sections) :=
              createSectionHierarchy testrailProjectId resolvedSuiteId sectionName
                sections createSectionIfMissing dryRun in
            ret (Some (sec_id newSection), sections)
      | None =>
          throw ("No sections found in suite " +:+ showZ resolvedSuiteId +:+ ". "
                 +:+ "Please create a section first or use --create-section with --section-name to create it automatically.")
      end
    else ret (None, sections) in
  let* sectionId :=
    if negb (truthyOptZ sectionId) then
      let* selectedSection :=
        match truthyName sectionName with
        | Some sectionName =>
            selectByName testrailProjectId resolvedSuiteId dryRun
              createSectionIfMissing sectionName sections
        | None => selectDefault sections
        end in
      let sectionId := sec_id selectedSection in
      (if dryRun && (sectionId =? -1)%Z then
         log Info ("[DRY RUN] Section " +:+ quoted (sec_name selectedSection)
                   +:+ " would be created in suite " +:+ showZ resolvedSuiteId)
       else ret tt) ;;
      ret (Some sectionId)
    else ret sectionId in
  match sectionId with
  | Some sectionId =>
      if truthyZ sectionId then ret sectionId
      else throw "Failed to resolve section ID. This should not happen."
  | None => throw "Failed to resolve section ID. This should not happen."
  end.

(** The section id and the suite id the rest of the run works with. *)
Definition resolveSection (testrailProjectId : Z)
    (resolvedSuiteId testrailSuiteId testrailSectionId : option Z)
    (sectionName : option string) (dryRun createSectionIfMissing : bool)
  : M (Z * option Z) :=
  if truthyOptZ resolvedSuiteId then
    let suiteId := default 0%Z resolvedSuiteId in
    let* sectionId :=
      sectionOfSuite testrailProjectId suiteId sectionName dryRun
        createSectionIfMissing in
    ret (sectionId, resolvedSuiteId)
  else if truthyOptZ testrailSectionId then
    let sectionId := default 0%Z testrailSectionId in
    log Info ("Fetching section details for section ID " +:+ showZ sectionId +:+ "...") ;;
    let* suiteId :=
      tryCatch
        (let* sectionDetails :=
           issue (GetSection sectionId) (getSection env sectionId) in
         if truthyZ (sec_suite_id sectionDetails) then
           log Verbose ("Section " +:+ showZ sectionId +:+ " belongs to suite "
                        +:+ showZ (sec_suite_id sectionDetails)) ;;
           ret (Some (sec_suite_id sectionDetails))
         else ret testrailSuiteId)
        (fun message =>
           log Warning ("Could not fetch section details: " +:+ message
                        +:+ ". Proceeding without suite_id...") ;;
           ret testrailSuiteId) in
    ret (sectionId, suiteId)
  else throw "Either suite ID, suite name, or section ID must be provided".

(** ** Steps 3 to 5: the cases *)

(** The body of the loop over the scenarios, with its [try] and [catch]. *)
Definition syncScenario (dryRun : bool) (jiraKey : string) (ticket : JiraTicket)
    (sectionId : Z) (existingTestCases : list TestRailTestCaseResponse)
    (scenario : ParsedScenario) : M unit :=
  tryCatch
    (let testCaseTitle := name scenario in
     let found := existingCase jiraKey existingTestCases scenario in
     let testCase := buildTestCase ticket sectionId scenario in
     if dryRun then
       match found with
       | Some existing =>
           log Verbose ("[DRY RUN] Would update test case: " +:+ quoted testCaseTitle
                        +:+ " (ID: " +:+ showZ (case_id existing) +:+ ")") ;;
           modify incUpdated
       | None =>
           log Verbose ("[DRY RUN] Would create test case: " +:+ quoted testCaseTitle) ;;
           modify incCreated
       end
     else
       match found with
       | Some existing =>
           log Info ("Updating existing test case: " +:+ quoted testCaseTitle
                     +:+ " (ID: " +:+ showZ (case_id existing) +:+ ")") ;;
           let* updatedCase :=
             issue (UpdateTestCase (case_id existing) testCase)
                   (updateTestCase env (case_id existing) testCase) in
           modify (pushId (case_id updatedCase)) ;;
           modify incUpdated ;;
           log Success ("Updated test case ID " +:+ showZ (case_id updatedCase))
       | None =>
           log Info ("Creating new test case: " +:+ quoted testCaseTitle) ;;
           let* newCase :=
             issue (CreateTestCase sectionId testCase)
                   (createTestCase env sectionId testCase) in
           modify (pushId (case_id newCase)) ;;
           modify incCreated ;;
           log Success ("Created test case ID " +:+ showZ (case_id newCase))
       end)
    (fun message =>
       let errorMsg := "Failed to sync scenario " +:+ quoted (name scenario)
                       +:+ ": " +:+ message in
       log Error errorMsg ;;
       modify (pushError errorMsg) ;;
       modify incSkipped).

(** The body of the loop over the cases to delete. *)
Definition deleteCase (dryRun : bool) (testCase : TestRailTestCaseResponse) : M unit :=
  tryCatch
    (if dryRun then
       log Verbose ("[DRY RUN] Would delete test case: " +:+ quoted (case_title testCase)
                    +:+ " (ID: " +:+ showZ (case_id testCase) +:+ ")") ;;
       modify incDeleted
     else
       log Info ("Deleting test case: " +:+ quoted (case_title testCase)
                 +:+ " (ID: " +:+ showZ (case_id testCase) +:+ ")") ;;
       issue (DeleteTestCase (case_id testCase)) (deleteTestCase env (case_id testCase)) ;;
       modify incDeleted ;;
       log Success ("Deleted test case ID " +:+ showZ (case_id testCase)))
    (fun message =>
       let errorMsg := "Failed to delete test case " +:+ quoted (case_title testCase)
                       +:+ " (ID: " +:+ showZ (case_id testCase) +:+ "): " +:+ message in
       log Error errorMsg ;;
       modify (pushError errorMsg) ;;
       modify incSkipped).

Definition logSummary : M unit :=
  let* r := getResult in
  log Info (nl +:+ "=== Sync Summary ===") ;;
  log Info ("Scenarios found: " +:+ showNat (scenariosFound r)) ;;
  log Info ("Created: " +:+ showNat (scenariosCreated r)) ;;
  log Info ("Updated: " +:+ showNat (scenariosUpdated r)) ;;
  (if 0 <? scenariosDeleted r
   then log Info ("Deleted: " +:+ showNat (scenariosDeleted r)) else ret tt) ;;
  log Info ("Skipped: " +:+ showNat (scenariosSkipped r)) ;;
  (if 0 <? List.length (errors r)
   then log Warning ("Errors: " +:+ showNat (List.length (errors r))) else ret tt).

(** Steps 4 and 5 on the scenarios of the ticket and the cases fetched. *)
Definition reconcile (dryRun : bool) (jiraKey : string) (ticket : JiraTicket)
    (sectionId : Z) (scenarios : list ParsedScenario)
    (existingTestCases : list TestRailTestCaseResponse) : M SyncResult :=
  log Verbose ("Found "
               +:+ showNat (List.length (jiraTicketTestCases jiraKey existingTestCases))
               +:+ " existing test case(s) linked to " +:+ jiraKey) ;;
  (if dryRun then log Info "DRY RUN MODE - No changes will be made" else ret tt) ;;
  forEach scenarios
    (syncScenario dryRun jiraKey ticket sectionId existingTestCases) ;;
  log Info "Checking for deleted scenarios..." ;;
  let toDelete := testCasesToDelete jiraKey scenarios existingTestCases in
  (if 0 <? List.length toDelete then
     log Info ("Found " +:+ showNat (List.length toDelete) +:+ " test case(s) to delete") ;;
     forEach toDelete (deleteCase dryRun)
   else log Verbose "No test cases to delete") ;;
  logSummary ;;
  getResult.

(** Step 3: the cases of the section, not fetched under the placeholder. *)
Definition fetchExisting (dryRun : bool) (testrailProjectId sectionId : Z)
    (testrailSuiteId : option Z) : M (list TestRailTestCaseResponse) :=
  if dryRun && (sectionId =? -1)%Z then
    log Info "[DRY RUN] Skipping test case fetch (section would be created)" ;;
    log Verbose ("[DRY RUN] Would fetch existing test cases from TestRail section "
                 +:+ showZ sectionId +:+ "...") ;;
    ret []
  else
    log Info ("Fetching existing test cases from TestRail section "
              +:+ showZ sectionId +:+ "...") ;;
    issue (GetTestCases testrailProjectId sectionId (orUndefined testrailSuiteId))
          (getTestCases env testrailProjectId sectionId (orUndefined testrailSuiteId)).

(** Steps 1 to 5, once the section is known. *)
Definition syncInto (jiraKey : string) (testrailProjectId : Z) (dryRun : bool)
    (sectionId : Z) (testrailSuiteId : option Z) : M SyncResult :=
  log Info ("Fetching Jira ticket: " +:+ jiraKey) ;;
  let* ticket := issue (FetchTicket jiraKey) (fetchTicket env jiraKey) in
  modify (setTicket ticket) ;;
  log Success ("Fetched ticket: " +:+ jt_key ticket +:+ " - " +:+ jt_summary ticket) ;;
  log Info "Parsing Gherkin scenarios from ticket description..." ;;
  log Verbose ("Description length: " +:+ showNat (String.length (jt_description ticket))
               +:+ " characters") ;;
  log Verbose ("Description preview (first 500 chars): "
               +:+ take 500 (jt_description ticket)) ;;
  let scenarios := parseScenarios (jt_description ticket) in
  modify (setFound (List.length scenarios)) ;;
  if List.length scenarios =? 0 then
    log Warning "No Gherkin scenarios found in ticket description." ;;
    getResult
  else
    log Success ("Found " +:+ showNat (List.length scenarios) +:+ " scenario(s)") ;;
    let* existingTestCases :=
      fetchExisting dryRun testrailProjectId sectionId testrailSuiteId in
    reconcile dryRun jiraKey ticket sectionId scenarios existingTestCases.

(** The outer [catch]: the message is recorded, the error thrown again. *)
Definition recordAndRethrow (message : string) : M SyncResult :=
  modify (pushError (orStr message "Unknown error occurred")) ;;
  throw message.

(** [syncTicketToTestRail]: a fresh result, the whole body under the outer
    [try]. *)
Definition syncTicketToTestRail (jiraKey : string) (testrailProjectId : Z)
    (testrailSuiteId testrailSectionId : option Z) (sectionName : option string)
    (dryRun : bool) (suiteName : option string)
    (createSuiteIfMissing createSectionIfMissing : bool) : M SyncResult :=
  modify (fun _ => emptyResult) ;;
  tryCatch
    (let* resolvedSuiteId :=
       resolveSuite testrailProjectId testrailSuiteId suiteName dryRun
         createSuiteIfMissing in
     let* (sectionId, testrailSuiteId) :=
       resolveSection testrailProjectId resolvedSuiteId testrailSuiteId
         testrailSectionId sectionName dryRun createSectionIfMissing in
     syncInto jiraKey testrailProjectId dryRun sectionId testrailSuiteId)
    recordAndRethrow.

End Run.

End SyncService.

(* ===================================================================== *)
(** * A store in memory, for the examples *)
(* ===================================================================== *)

Module Demo.

Import Js GherkinParser TestRail SyncService.

(** One ticket and one project; identifiers are handed out in sequence.
    The store refuses the payloads whose title is in [rejected] and the
    deletion of the cases whose id is in [locked]. *)
Record Store := mkStore {
  nextId : Z;
  ticket : JiraTicket;
  suites : list TestRailSuite;
  sections : list TestRailSection;
  cases : list TestRailTestCaseResponse;
  rejected : list string;
  locked : list Z
}.

Definition withSuites (w : Store) (n : Z) (l : list TestRailSuite) : Store :=
  mkStore n (ticket w) l (sections w) (cases w) (rejected w) (locked w).
Definition withSections (w : Store) (n : Z) (l : list TestRailSection) : Store :=
  mkStore n (ticket w) (suites w) l (cases w) (rejected w) (locked w).
Definition withCases (w : Store) (n : Z) (l : list TestRailTestCaseResponse) : Store :=
  mkStore n (ticket w) (suites w) (sections w) l (rejected w) (locked w).

Definition isRejected (w : Store) (title : string) : bool :=
  existsb (String.eqb title) (rejected w).

Definition caseOf (i : Z) (tc : TestRailTestCase) : TestRailTestCaseResponse :=
  mkCase i (tc_title tc) (tc_section_id tc) (Some (tc_refs tc)).

Definition demoEnv : Env Store := {|
  fetchTicket := fun key w =>
    if String.eqb key (jt_key (ticket w)) then (inr (ticket w), w)
    else (inl ("Jira ticket not found: " +:+ key), w);
  findSuiteByName := fun _ suiteName w =>
    (inr (List.find (fun s => String.eqb (normalize (suite_name s)) (normalize suiteName))
            (suites w)), w);
  createSuite := fun _ suiteName w =>
    let s := mkSuite (nextId w) suiteName in
    (inr s, withSuites w (nextId w + 1) (suites w ++ [s]));
  getSuites := fun _ w => (inr (suites w), w);
  getSections := fun _ suiteId w =>
    (inr (List.filter (fun s => (sec_suite_id s =? suiteId)%Z) (sections w)), w);
  getSection := fun sectionId w =>
    match List.find (fun s => (sec_id s =? sectionId)%Z) (sections w) with
    | Some s => (inr s, w)
    | None => (inl "Section not found", w)
    end;
  createSection := fun _ suiteId sectionName parentId w =>
    let s := mkSection (nextId w) sectionName suiteId parentId in
    (inr s, withSections w (nextId w + 1) (sections w ++ [s]));
  getTestCases := fun _ sectionId _ w =>
    (inr (List.filter (fun c => (case_section_id c =? sectionId)%Z) (cases w)), w);
  createTestCase := fun sectionId tc w =>
    if isRejected w (tc_title tc) then (inl "Field :title is not valid", w)
    else
      let c := mkCase (nextId w) (tc_title tc) sectionId (Some (tc_refs tc)) in
      (inr c, withCases w (nextId w + 1) (cases w ++ [c]));
  updateTestCase := fun caseId tc w =>
    if isRejected w (tc_title tc) then (inl "Field :title is not valid", w)
    else
      (inr (caseOf caseId tc),
       withCases w (nextId w)
         (List.map (fun c => if (case_id c =? caseId)%Z then caseOf caseId tc else c)
            (cases w)));
  deleteTestCase := fun caseId w =>
    if existsb (Z.eqb caseId) (locked w) then (inl "Case is locked", w)
    else
      (inr tt, withCases w (nextId w)
                 (List.filter (fun c => negb (case_id c =? caseId)%Z) (cases w)))
|}.

Definition lines (l : list string) : string := join nl l.

(** The inputs of the examples of the specification. *)
Definition format1 : string :=
  lines ["Scenario 1: User login";
         "When user enters valid credentials";
         "And clicks login button";
         "Then user is logged in";
         "And redirected to dashboard"].

Definition noMarker : string :=
  lines ["When user enters invalid credentials";
         "Then error message is displayed"].

Definition twoScenarios : string :=
  lines ["Scenario 1: Successful login";
         "When user enters valid credentials";
         "Then user is logged in";
         "";
         "Scenario 2: Failed login";
         "When user enters invalid credentials";
         "Then error message is displayed"].

Definition demoTicket (description : string) : JiraTicket :=
  mkTicket "PROJ-123" "Login" description "https://jira.example/browse/PROJ-123".

(** A project with one suite, of id 6, without sections. *)
Definition emptySuite (description : string) : Store :=
  mkStore 100 (demoTicket description) [mkSuite 6 "Regression"] [] [] [] [].

Definition start (w : Store) : St (W := Store) := mkSt w [] [] emptyResult.

(** Cases of a snapshot: one of another ticket, one of a scenario that is
    gone, two with the same title up to case and blanks, one per scenario
    of [twoScenarios]. *)
Definition otherCase : TestRailTestCaseResponse :=
  mkCase 7 "Legacy check" 101 (Some "OTHER-9").
Definition staleCase : TestRailTestCaseResponse :=
  mkCase 8 "Removed scenario" 101 (Some "PROJ-123").
Definition dupEarly : TestRailTestCaseResponse :=
  mkCase 11 "Successful login" 101 (Some "PROJ-123").
Definition dupLate : TestRailTestCaseResponse :=
  mkCase 12 " successful LOGIN " 101 (Some "PROJ-123, PROJ-200").

(** A store with a section 101 in suite 6 that holds [cs]. *)
Definition withSection (description : string)
    (cs : list TestRailTestCaseResponse) (rejected : list string)
    (locked : list Z) : Store :=
  mkStore 200 (demoTicket description) [mkSuite 6 "Regression"]
    [mkSection 101 "Login" 6 None] cs rejected locked.

(** A store that refuses the payload of the second scenario and the
    deletion of the stale case; the run on it, step by step. *)
Definition flaky : Store :=
  withSection twoScenarios [dupEarly; staleCase] ["Failed login"] [8%Z].

Definition flakySuite : answer (option Z) * St :=
  resolveSuite demoEnv 2 (Some 6%Z) None false false (start flaky).

Definition flakySection : answer (Z * option Z) * St :=
  resolveSection demoEnv 2 (Some 6%Z) (Some 6%Z) None None false false (snd flakySuite).

(** A suite that has a section, but neither Parent nor Child. *)
Definition oneSection : Store := withSection twoScenarios [] [] [].

(** A section that holds two cases of one title, up to case and blanks,
    with a case of another ticket between them. *)
Definition duplicates : Store :=
  withSection twoScenarios [dupEarly; otherCase; dupLate] [] [].






End Demo.

(* ===================================================================== *)
(** * Vocabulary of the properties *)
(* ===================================================================== *)

Module Spec.

Import Js Regex GherkinParser TestRail SyncService.

(** A record with at least one step. *)
Definition hasStep (s : ParsedScenario) : Prop := 1 <= List.length (steps s).

(** The record the specification expects for Format 1. *)
Definition format1Expected : ParsedScenario :=
  mkScenario "User login"
    ["When user enters valid credentials"; "And clicks login button"]
    ("Then user is logged in" +:+ nl +:+ "And redirected to dashboard").

(** The record the parser returns for Format 1. *)
Definition format1Parsed : ParsedScenario :=
  mkScenario "User login"
    ["When user enters valid credentials"; "And clicks login button";
     "Then user is logged in"; "And redirected to dashboard"]
    "user is logged in".

(** [lastStep.replace(/^(Given|When|Then|And|But)\s+/i, '').trim()]: a step
    with its leading keyword stripped. *)
Definition stripKeyword (step : string) : string :=
  trim (replaceFirst fI stepLine "" step).

(** The record the parser returns for the description without marker,
    and the record of the same block with its steps as [extractSteps]
    keeps them, keyword included. *)
Definition noMarkerParsed : ParsedScenario :=
  mkScenario "Scenario 1"
    ["user enters invalid credentials"; "error message is displayed"]
    "error message is displayed".


(** The test of rule 5 as the specification words it: a step that matches
    [/^then\s/i] or [/^and\s+then\s/i]. *)
Definition rule5Then : regex := seqs [RBol; lits "then"; ws].
Definition rule5AndThen : regex := seqs [RBol; lits "and"; plus ws; lits "then"; ws].

Definition matchesRule5 (step : string) : bool :=
  test fI rule5Then step || test fI rule5AndThen step.

(** A match attempt that succeeds. *)
Definition found (o : option rstate) : bool :=
  match o with Some _ => true | None => false end.

(** What the two passes store as expected result. *)
Definition fromExtract (s : ParsedScenario) : Prop :=
  steps s <> [] /\ expectedResult s = extractExpectedResult (steps s).

Definition fromLast (s : ParsedScenario) : Prop :=
  expectedResult s = lastStr (steps s).

(** [y] is a state the matcher can reach from [x]: further in the same
    input. *)
Definition advances (x y : rstate) : Prop :=
  pos x <= pos y /\
  pos y + String.length (rest y) = pos x + String.length (rest x).

(** A pattern that cannot match the empty string, by its shape. *)
Fixpoint consumes (r : regex) : bool :=
  match r with
  | RAtom _ => true
  | RSeq a b => consumes a || consumes b
  | RAlt a b => consumes a && consumes b
  | RGroup _ a => consumes a
  | RRepeat a min max _ => (0 <? min) && negb (isZeroMax max) && consumes a
  | _ => false
  end.

(** A matcher calls its continuation on states it can reach only. *)
Definition reaches (m : rstate -> (rstate -> option rstate) -> option rstate) : Prop :=
  forall x k z, m x k = Some z -> exists y, k y = Some z /\ advances x y.

(** A matcher looks at its continuation on states it can reach only. *)
Definition local (m : rstate -> (rstate -> option rstate) -> option rstate) : Prop :=
  forall x k k', (forall y, advances x y -> k y = k' y) -> m x k = m x k'.

(** The message recorded when the action of a scenario fails, and when the
    deletion of a case fails. *)
Definition scenarioError (s : ParsedScenario) (message : string) : string :=
  "Failed to sync scenario " +:+ quoted (name s) +:+ ": " +:+ message.

Definition deleteError (c : TestRailTestCaseResponse) (message : string) : string :=
  "Failed to delete test case " +:+ quoted (case_title c)
  +:+ " (ID: " +:+ showZ (case_id c) +:+ "): " +:+ message.

(** The call that the loop over the scenarios issues for a scenario, when
    the run is not a dry run. *)
Definition plannedCall (jiraKey : string) (ticket : JiraTicket) (sectionId : Z)
    (existing : list TestRailTestCaseResponse) (s : ParsedScenario) : Call :=
  match existingCase jiraKey existing s with
  | Some c => UpdateTestCase (case_id c) (buildTestCase ticket sectionId s)
  | None => CreateTestCase sectionId (buildTestCase ticket sectionId s)
  end.

(** What the store answers to that call. *)
Definition plannedAnswer {W : Type} (env : Env W) (jiraKey : string)
    (ticket : JiraTicket) (sectionId : Z)
    (existing : list TestRailTestCaseResponse) (s : ParsedScenario) (w : W)
  : answer TestRailTestCaseResponse * W :=
  match existingCase jiraKey existing s with
  | Some c => updateTestCase env (case_id c) (buildTestCase ticket sectionId s) w
  | None => createTestCase env sectionId (buildTestCase ticket sectionId s) w
  end.

(** The counter that a scenario moves when its action succeeds. *)
Definition countSynced (jiraKey : string)
    (existing : list TestRailTestCaseResponse) (s : ParsedScenario)
    (r : SyncResult) : SyncResult :=
  match existingCase jiraKey existing s with
  | Some _ => incUpdated r
  | None => incCreated r
  end.

(** The line logged for a scenario, and for a case to delete, in a dry run. *)
Definition dryLine (jiraKey : string) (existing : list TestRailTestCaseResponse)
    (s : ParsedScenario) : LogLevel * string :=
  match existingCase jiraKey existing s with
  | Some c =>
      (Verbose, "[DRY RUN] Would update test case: " +:+ quoted (name s)
                +:+ " (ID: " +:+ showZ (case_id c) +:+ ")")
  | None =>
      (Verbose, "[DRY RUN] Would create test case: " +:+ quoted (name s))
  end.

Definition dryDeleteLine (c : TestRailTestCaseResponse) : LogLevel * string :=
  (Verbose, "[DRY RUN] Would delete test case: " +:+ quoted (case_title c)
            +:+ " (ID: " +:+ showZ (case_id c) +:+ ")").

(** The actions accounted for in a result. *)
Definition handled (r : SyncResult) : nat :=
  scenariosCreated r + scenariosUpdated r + scenariosDeleted r + scenariosSkipped r.

(** An error message that names one of the scenarios, or one of the cases. *)
Definition namesScenario (scenarios : list ParsedScenario) (e : string) : Prop :=
  exists s message, In s scenarios /\ e = scenarioError s message.

Definition namesCase (cases : list TestRailTestCaseResponse) (e : string) : Prop :=
  exists c message, In c cases /\ e = deleteError c message.

(** From [r] to [r']: [n] more actions are accounted for, each failure
    with one more skipped action and one more error message, which names
    a scenario of [scenarios] or a case of [cases]. *)
Definition accounted (scenarios : list ParsedScenario)
    (cases : list TestRailTestCaseResponse) (n : nat) (r r' : SyncResult) : Prop :=
  handled r' = handled r + n /\
  jiraTicket r' = jiraTicket r /\
  scenariosFound r' = scenariosFound r /\
  exists new,
    errors r' = errors r ++ new /\
    Forall (fun e => namesScenario scenarios e \/ namesCase cases e) new /\
    scenariosSkipped r' = scenariosSkipped r + List.length new.

(** The scenarios for which no case is found: the ones to create. *)
Definition toCreate (jiraKey : string)
    (existing : list TestRailTestCaseResponse)
    (scenarios : list ParsedScenario) : list ParsedScenario :=
  List.filter (fun s => match existingCase jiraKey existing s with
                        | None => true
                        | Some _ => false
                        end) scenarios.

(** From [r] to [r'] at most [n] more of a counter. *)
Definition grewBy (n before after : nat) : Prop :=
  before <= after /\ after <= before + n.

(** The case that an update or a deletion is aimed at. *)
Definition target (call : Call) : option Z :=
  match call with
  | UpdateTestCase caseId _ | DeleteTestCase caseId => Some caseId
  | _ => None
  end.

(** A call that, when it updates or deletes a case, aims at a case of the
    snapshot that is linked to the ticket. *)
Definition aimsAtLinked (jiraKey : string)
    (existing : list TestRailTestCaseResponse) (call : Call) : Prop :=
  forall caseId, target call = Some caseId ->
    exists c, In c existing /\ linkedTo jiraKey c = true /\ case_id c = caseId.

(** The lookup table, filled from any table. *)
Definition fill (m : gmap string TestRailTestCaseResponse)
    (l : list TestRailTestCaseResponse) : gmap string TestRailTestCaseResponse :=
  fold_left (fun m tc => <[normalize (case_title tc) := tc]> m) l m.

(** Every call that [m] issues, from any state, satisfies [P]. *)
Definition emits {W A : Type} (P : Call -> Prop) (m : M (W := W) A) : Prop :=
  forall st, exists cs, calls (snd (m st)) = calls st ++ cs /\ Forall P cs.

(** A call that does not change the store. *)
Definition readOnly (c : Call) : Prop := mutating c = false.

(** A call of steps 1 to 5 on the section [sectionId]: the ticket fetch,
    the listing of that section, a creation in that section, an update or
    a deletion of a case; the payloads are placed in that section. *)
Definition onSection (sectionId : Z) (c : Call) : Prop :=
  match c with
  | FetchTicket _ => True
  | GetTestCases _ s _ => s = sectionId
  | CreateTestCase s tc => s = sectionId /\ tc_section_id tc = sectionId
  | UpdateTestCase _ tc => tc_section_id tc = sectionId
  | DeleteTestCase _ => True
  | _ => False
  end.

(** A top-level section of normalized name [n]. *)
Definition topLevelNamed (n : string) (s : TestRailSection) : Prop :=
  normalize (sec_name s) = n /\ noParent s = true.

(** The error of a run that has no container to work in. *)
Definition noContainer : string :=
  "Either suite ID, suite name, or section ID must be provided".

(** [sub] occurs in [s]. *)
Definition occursIn (sub s : string) : Prop :=
  exists before after, s = before +:+ sub +:+ after.

(** The calls the two loops of a real run issue. *)
Definition plannedCalls (jiraKey : string) (ticket : JiraTicket) (sectionId : Z)
    (scenarios : list ParsedScenario)
    (existing : list TestRailTestCaseResponse) : list Call :=
  List.map (plannedCall jiraKey ticket sectionId existing) scenarios ++
  List.map (fun c => DeleteTestCase (case_id c))
    (testCasesToDelete jiraKey scenarios existing).

End Spec.

(* ===================================================================== *)
(** * The rest of the program

    The configuration ([src/utils/config.ts]), the two REST clients
    ([src/jira/jiraClient.ts], [src/testrail/testrailClient.ts]), the
    earlier revision of the orchestrator and the command line
    ([src/index.ts]).

    Further conventions.
    - What a client reads from a response has the type that the interface
      of the client declares for it; a response body of which the code
      tests the shape is a [Listing], a JSON value whose arrays hold typed
      elements.
    - An error caught in a client is a [Failure]: its message, the response
      of the server if there is one, and whether a request went out.
    - The texts that the runtime makes of a value ([JSON.stringify], the
      stack of an error) are operations of the [Api] in use. *)
(* ===================================================================== *)

(* ===================================================================== *)
(** * Numbers read from text *)
(* ===================================================================== *)

Module Num.

Import Js.

(** The result of [parseInt]: an integer, or [NaN]. *)
Inductive num := NaN | Int (z : Z).

Definition truthyNum (n : num) : bool :=
  match n with NaN => false | Int z => truthyZ z end.

Definition isNaN (n : num) : bool :=
  match n with NaN => true | Int _ => false end.

Definition digitValue (c : ascii) : Z := Z.of_nat (nat_of_ascii c - 48).

(** The digits at the head of [s], read in base ten; [acc] is the value of
    the digits read so far, if any. *)
Fixpoint readDigits (s : string) (acc : option Z) : option Z :=
  match s with
  | String c t =>
      if isDigit c
      then readDigits t (Some (10 * default 0%Z acc + digitValue c)%Z)
      else acc
  | EmptyString => acc
  end.

(** [parseInt(s, 10)]: leading white space is skipped, a sign is read, then
    the longest run of digits; no digit gives [NaN].  The digits are read
    into [Z] as they stand.  The code holds the number in a double, which
    is that integer as long as its absolute value is at most 2^53, and
    prints all its digits in a template; beyond that bound the double is
    the integer rounded.  A statement that names the integer read, or its
    digits, is made under that bound ([Props.exactNumber]). *)
Definition parseInt10 (s : string) : num :=
  match trimStart s with
  | String "-" t =>
      match readDigits t None with Some z => Int (- z) | None => NaN end
  | String "+" t =>
      match readDigits t None with Some z => Int z | None => NaN end
  | t =>
      match readDigits t None with Some z => Int z | None => NaN end
  end.

(** [value ? parseInt(value, 10) : undefined], for an option of the command
    line or a variable of the environment. *)
Definition parseIfSet (value : option string) : option num :=
  match value with
  | Some v => if truthyStr v then Some (parseInt10 v) else None
  | None => None
  end.

(** Truthiness of [number | undefined]. *)
Definition truthyOptNum (o : option num) : bool :=
  match o with Some n => truthyNum n | None => false end.

(** The number as an argument of the orchestrator, which only tests the
    truthiness of an identifier before using it: [NaN] and [undefined]
    take the same branches. *)
Definition toId (o : option num) : option Z :=
  match o with Some (Int z) => Some z | _ => None end.

End Num.

(* ===================================================================== *)
(** * The configuration ([src/utils/config.ts]) *)
(* ===================================================================== *)

Module Config.

Import Js Num.

Record JiraConfig := mkJiraConfig {
  jira_url : string;
  jira_email : string;
  jira_apiToken : string;
  jira_addSyncLabel : bool
}.

Record TestRailConfig := mkTestRailConfig {
  testrail_url : string;
  testrail_username : string;
  testrail_apiKey : string;
  testrail_projectId : option num
}.

Record Config := mkConfig {
  cfg_jira : JiraConfig;
  cfg_testrail : TestRailConfig
}.

(** [process.env] *)
Definition Environment : Type := string -> option string.

(** [!value] for a variable of the environment. *)
Definition unset (value : option string) : bool :=
  match value with Some v => negb (truthyStr v) | None => true end.

(** [if (!value) missing.push(name)] *)
Definition pushIfUnset (value : option string) (name : string)
    (missing : list string) : list string :=
  if unset value then missing ++ [name] else missing.

(** [validateConfig]: the configuration, or the message of the error. *)
Definition validateConfig (env : Environment) : string + Config :=
  let jiraUrl := env "JIRA_URL" in
  let jiraEmail := env "JIRA_EMAIL" in
  let jiraApiToken := env "JIRA_API_TOKEN" in
  let testrailUrl := env "TESTRAIL_URL" in
  let testrailUsername := env "TESTRAIL_USERNAME" in
  let testrailApiKey := env "TESTRAIL_API_KEY" in
  let testrailProjectId := parseIfSet (env "TESTRAIL_PROJECT_ID") in
  let jiraAddSyncLabel :=
    match env "JIRA_ADD_SYNC_LABEL" with
    | Some v =>
        let normalized := trim (toLowerCase v) in
        String.eqb normalized "true" || String.eqb normalized "1"
    | None => false
    end in
  let missing :=
    pushIfUnset testrailApiKey "TESTRAIL_API_KEY"
      (pushIfUnset testrailUsername "TESTRAIL_USERNAME"
         (pushIfUnset testrailUrl "TESTRAIL_URL"
            (pushIfUnset jiraApiToken "JIRA_API_TOKEN"
               (pushIfUnset jiraEmail "JIRA_EMAIL"
                  (pushIfUnset jiraUrl "JIRA_URL" []))))) in
  if 0 <? List.length missing then
    inl ("Missing required environment variables: " +:+ join ", " missing +:+ nl
         +:+ "Please create a .env file based on .env.example")
  else
    inr (mkConfig
           (mkJiraConfig (default "" jiraUrl) (default "" jiraEmail)
              (default "" jiraApiToken) jiraAddSyncLabel)
           (mkTestRailConfig (default "" testrailUrl) (default "" testrailUsername)
              (default "" testrailApiKey) testrailProjectId)).

End Config.

(* ===================================================================== *)
(** * Requests and responses *)
(* ===================================================================== *)

Module Rest.

Import Js TestRail SyncService.

(** Characters of the messages that are not ASCII, as their UTF-8 bytes. *)
Fixpoint bytes (codes : list nat) : string :=
  match codes with
  | [] => EmptyString
  | n :: more => String (chr n) (bytes more)
  end.

Definition arrow : string := bytes [226; 134; 146].
Definition checkMark : string := bytes [226; 156; 147].
Definition crossMark : string := bytes [226; 156; 151].
Definition warningSign : string := bytes [226; 154; 160; 239; 184; 143].
Definition matchMark : string := bytes [195; 162; 197; 147; 226; 128; 156].

(** A JSON value whose arrays hold elements of type [A]; the properties of
    an object are listed in their order of enumeration. *)
Inductive Scalar := SNull | SBool (b : bool) | SNum (n : Z) | SStr (s : string).

Local Unset Elimination Schemes.

Inductive Listing (A : Type) : Type :=
| LScalar (s : Scalar)
| LArray (items : list A)
| LObject (props : list (string * Listing A)).

Local Set Elimination Schemes.

Arguments LScalar {A}.
Arguments LArray {A}.
Arguments LObject {A}.

Definition truthyScalar (s : Scalar) : bool :=
  match s with
  | SNull => false
  | SBool b => b
  | SNum n => truthyZ n
  | SStr s => truthyStr s
  end.

Definition truthy {A} (v : Listing A) : bool :=
  match v with LScalar s => truthyScalar s | _ => true end.

(** [Array.isArray(v)] *)
Definition isArray {A} (v : Listing A) : bool :=
  match v with LArray _ => true | _ => false end.

(** [v?.key]: [None] is [undefined]. *)
Definition prop {A} (key : string) (v : Listing A) : option (Listing A) :=
  match v with
  | LObject props => snd <$> List.find (fun p => String.eqb (fst p) key) props
  | _ => None
  end.

(** [typeof v] *)
Definition typeOf {A} (v : Listing A) : string :=
  match v with
  | LScalar (SBool _) => "boolean"
  | LScalar (SNum _) => "number"
  | LScalar (SStr _) => "string"
  | _ => "object"
  end.

(** [Object.keys(v)] and [Object.values(v)] of an array or an object. *)
Definition keys {A} (v : Listing A) : list string :=
  match v with
  | LArray items => List.map showNat (List.seq 0 (List.length items))
  | LObject props => List.map fst props
  | LScalar _ => []
  end.

(** The first value of an object that is an array:
    [Object.values(v).find(val => Array.isArray(val))]. *)
Definition firstArray {A} (v : Listing A) : option (list A) :=
  match v with
  | LObject props =>
      match List.find (fun p => isArray (snd p)) props with
      | Some (_, LArray items) => Some items
      | _ => None
      end
  | _ => None
  end.

(** The object that a client posts; [assign] is [payload[key] = value]. *)
Inductive PayloadValue :=
| PStr (s : string)
| PNum (n : Z)
| PSteps (steps : list TestRailStep).

Definition Payload : Type := list (string * PayloadValue).

Definition hasKey (key : string) (p : Payload) : bool :=
  existsb (fun kv => String.eqb (fst kv) key) p.

Definition assign (key : string) (v : PayloadValue) (p : Payload) : Payload :=
  if hasKey key p
  then List.map (fun kv => if String.eqb (fst kv) key then (key, v) else kv) p
  else p ++ [(key, v)].

Definition field (key : string) (p : Payload) : option PayloadValue :=
  snd <$> List.find (fun kv => String.eqb (fst kv) key) p.

Inductive Request :=
| Get (url : string)
| Post (url : string) (payload : Payload).

Definition isGet (r : Request) : bool :=
  match r with Get _ => true | Post _ _ => false end.

(** The response of the server in an error of the HTTP library; [data] is
    [None] when the body is falsy. *)
Record Response (B : Type) := mkResponse {
  status : Z;
  statusText : string;
  data : option B
}.

Arguments mkResponse {B}.
Arguments status {B}.
Arguments statusText {B}.
Arguments data {B}.

(** An error as a [catch] sees it: [error.message], [error.response],
    [error.request]. *)
Record Failure (B : Type) := mkFailure {
  message : string;
  response : option (Response B);
  request : bool
}.

Arguments mkFailure {B}.
Arguments message {B}.
Arguments response {B}.
Arguments request {B}.

(** [new Error(message)] *)
Definition error {B} (text : string) : Failure B := mkFailure text None false.

(** A field of [get_case_fields]. *)
Record CaseField := mkField {
  system_name : string;
  field_name : string;
  type_id : Z
}.

(** A node of the Atlassian document format: its [type], its [text] and
    its [content] when it is an array. *)
Local Unset Elimination Schemes.

Inductive AdfNode :=
| Node (type : string) (text : option string) (content : option (list AdfNode)).

Local Set Elimination Schemes.

Definition node_type (n : AdfNode) : string := let 'Node t _ _ := n in t.
Definition node_content (n : AdfNode) : option (list AdfNode) := let 'Node _ _ c := n in c.

(** [issue.fields.description]: null, a string or a document. *)
Inductive DescriptionField :=
| NoDescription
| TextDescription (s : string)
| DocDescription (doc : AdfNode).

Record Issue := mkIssue {
  issue_key : string;
  issue_summary : option string;
  issue_description : DescriptionField
}.

(** The two servers through the HTTP library, each endpoint with the type
    of what it answers, and what the code reads of an error body. *)
Record Api (W B : Type) := mkApi {
  get_issue : string -> W -> (Failure B + Issue) * W;
  get_cases : string -> W -> (Failure B + Listing TestRailTestCaseResponse) * W;
  get_case_fields : string -> W -> (Failure B + option (list CaseField)) * W;
  get_sections : string -> W -> (Failure B + Listing TestRailSection) * W;
  get_section : string -> W -> (Failure B + TestRailSection) * W;
  get_suites : string -> W -> (Failure B + Listing TestRailSuite) * W;
  post_case : string -> Payload -> W -> (Failure B + TestRailTestCaseResponse) * W;
  post_suite : string -> Payload -> W -> (Failure B + TestRailSuite) * W;
  post_section : string -> Payload -> W -> (Failure B + TestRailSection) * W;
  post_delete : string -> Payload -> W -> (Failure B + unit) * W;
  body_error : B -> option string;
  body_message : B -> option string;
  body_firstErrorMessage : B -> option string;
  body_keyCount : B -> nat;
  stringifyBody : B -> string;
  prettyBody : B -> string;
  prettyPayload : Payload -> string;
  prettyCase : TestRailTestCaseResponse -> string;
  stringifyCases : Listing TestRailTestCaseResponse -> string;
  stringifySections : Listing TestRailSection -> string;
  textOfSections : Listing TestRailSection -> string
}.

Arguments get_issue {W B}.
Arguments get_cases {W B}.
Arguments get_case_fields {W B}.
Arguments get_sections {W B}.
Arguments get_section {W B}.
Arguments get_suites {W B}.
Arguments post_case {W B}.
Arguments post_suite {W B}.
Arguments post_section {W B}.
Arguments post_delete {W B}.
Arguments body_error {W B}.
Arguments body_message {W B}.
Arguments body_firstErrorMessage {W B}.
Arguments body_keyCount {W B}.
Arguments stringifyBody {W B}.
Arguments prettyBody {W B}.
Arguments prettyPayload {W B}.
Arguments prettyCase {W B}.
Arguments stringifyCases {W B}.
Arguments stringifySections {W B}.
Arguments textOfSections {W B}.

(** The state of the two clients: the servers, the requests sent, the
    lines logged and [customFieldsCache]. *)
Record Net (W : Type) := mkNet {
  net_world : W;
  net_requests : list Request;
  net_logs : list (LogLevel * string);
  net_cache : option (gmap string CaseField)
}.

Arguments mkNet {W}.
Arguments net_world {W}.
Arguments net_requests {W}.
Arguments net_logs {W}.
Arguments net_cache {W}.

Section Client.

Context {W B : Type}.

(** A computation of a client: it returns or throws. *)
Definition C (A : Type) : Type := Net W -> (Failure B + A) * Net W.

Definition pure {A} (a : A) : C A := fun st => (inr a, st).

Definition raise {A} (e : Failure B) : C A := fun st => (inl e, st).

Definition andThen {A A'} (m : C A) (k : A -> C A') : C A' :=
  fun st =>
    match m st with
    | (inl e, st') => (inl e, st')
    | (inr a, st') => k a st'
    end.

(** [try { m } catch (error) { h error }] *)
Definition attempt {A} (m : C A) (h : Failure B -> C A) : C A :=
  fun st =>
    match m st with
    | (inl e, st') => h e st'
    | (inr a, st') => (inr a, st')
    end.

Definition say (level : LogLevel) (text : string) : C unit :=
  fun st => (inr tt, mkNet (net_world st) (net_requests st)
                       (net_logs st ++ [(level, text)]) (net_cache st)).

Definition getCache : C (option (gmap string CaseField)) :=
  fun st => (inr (net_cache st), st).

Definition setCache (cache : gmap string CaseField) : C unit :=
  fun st => (inr tt, mkNet (net_world st) (net_requests st) (net_logs st) (Some cache)).

(** A request: recorded, then answered by the server. *)
Definition send {A} (r : Request) (endpoint : W -> (Failure B + A) * W) : C A :=
  fun st =>
    let (a, w') := endpoint (net_world st) in
    (a, mkNet w' (net_requests st ++ [r]) (net_logs st) (net_cache st)).

Fixpoint each {A} (l : list A) (body : A -> C unit) : C unit :=
  match l with
  | [] => pure tt
  | a :: l' => andThen (body a) (fun _ => each l' body)
  end.

End Client.

End Rest.

(* ===================================================================== *)
(** * The TestRail client ([src/testrail/testrailClient.ts]) *)
(* ===================================================================== *)

Module TestRailClient.

Import Js TestRail SyncService Config Rest.

(** The optional fields of [TestRailTestCase] that the client reads; the
    identifiers of template, type and priority are never read. *)
Record CaseFields := mkCaseFields {
  cf_preconds : option string;
  cf_steps : option (list TestRailStep);
  cf_expected : option string;
  cf_refs : option string
}.

(** [TestRailTestCase] as [createTestCase] takes it, and
    [Partial<TestRailTestCase>] as [updateTestCase] takes it. *)
Record NewTestCase := mkNewTestCase {
  new_title : string;
  new_fields : CaseFields
}.

Record PartialTestCase := mkPartialTestCase {
  part_title : option string;
  part_fields : CaseFields
}.

(** [testCase.steps && testCase.steps.length > 0] *)
Definition hasSteps (fields : CaseFields) : bool :=
  match cf_steps fields with
  | Some steps => 0 <? List.length steps
  | None => false
  end.

Definition stepsOf (fields : CaseFields) : list TestRailStep :=
  default [] (cf_steps fields).

(** [steps.map(step => ({ content: step.content, expected: step.expected || '' }))] *)
Definition formatSteps (steps : list TestRailStep) : list TestRailStep :=
  List.map (fun step => mkStep (step_content step) (orStr (step_expected step) "")) steps.

(** The steps as one text, for a custom field that is not of type 10:
    [`${i + 1}. ${s.content}${s.expected ? `\n   Expected: ${s.expected}` : ''}`]
    joined by an empty line. *)
Definition stepLineText (i : nat) (s : TestRailStep) : string :=
  showNat (i + 1) +:+ ". " +:+ step_content s +:+
  (if truthyStr (step_expected s)
   then nl +:+ "   Expected: " +:+ step_expected s else "").

Definition stepsText (formattedSteps : list TestRailStep) : string :=
  join (nl +:+ nl)
    (List.map (fun p => stepLineText (fst p) (snd p))
       (List.combine (List.seq 0 (List.length formattedSteps)) formattedSteps)).

(** The custom fields, by system name: a later field of the same name
    replaces the earlier. *)
Definition cacheOf (fields : list CaseField) : gmap string CaseField :=
  fold_left (fun m f => <[system_name f := f]> m) fields ∅.

(** What both payloads do with the steps once [payload.steps] is set. *)
Definition assignCustomSteps (cache : gmap string CaseField)
    (formattedSteps : list TestRailStep) (payload : Payload) : Payload :=
  let payload :=
    match cache !! "custom_steps" with
    | Some stepsField =>
        if (type_id stepsField =? 10)%Z
        then assign (system_name stepsField) (PSteps formattedSteps) payload
        else assign (system_name stepsField) (PStr (stepsText formattedSteps)) payload
    | None => payload
    end in
  match cache !! "custom_steps_separated" with
  | Some stepsSeparatedField =>
      assign (system_name stepsSeparatedField) (PSteps formattedSteps) payload
  | None => payload
  end.

(** [payload.key = value] and, when the custom field exists, the same
    value under its system name. *)
Definition assignWithCustom (cache : gmap string CaseField) (key custom value : string)
    (payload : Payload) : Payload :=
  let payload := assign key (PStr value) payload in
  match cache !! custom with
  | Some customField => assign (system_name customField) (PStr value) payload
  | None => payload
  end.

(** The payload of [createTestCase]. *)
Definition createPayload (cache : gmap string CaseField) (sectionId : Z)
    (testCase : NewTestCase) : Payload :=
  let fields := new_fields testCase in
  let payload := [("title", PStr (new_title testCase)); ("section_id", PNum sectionId)] in
  let payload :=
    assign "template_id" (PNum (if hasSteps fields then 1 else 2)) payload in
  let payload :=
    match cf_preconds fields with
    | Some preconds =>
        if truthyStr preconds
        then assignWithCustom cache "preconds" "custom_preconds" preconds payload
        else payload
    | None => payload
    end in
  let payload :=
    if hasSteps fields then
      let formattedSteps := formatSteps (stepsOf fields) in
      let payload := assign "steps" (PSteps formattedSteps) payload in
      let payload := assignCustomSteps cache formattedSteps payload in
      match cache !! "custom_steps", cache !! "custom_steps_separated" with
      | None, None =>
          assign "custom_steps_separated" (PSteps formattedSteps)
            (assign "custom_steps" (PSteps formattedSteps) payload)
      | _, _ => payload
      end
    else payload in
  let payload :=
    match cf_expected fields with
    | Some expected =>
        if truthyStr expected
        then assignWithCustom cache "expected" "custom_expected" expected payload
        else payload
    | None => payload
    end in
  match cf_refs fields with
  | Some refs => if truthyStr refs then assign "refs" (PStr refs) payload else payload
  | None => payload
  end.

(** The payload of [updateTestCase]. *)
Definition updatePayload (cache : gmap string CaseField)
    (testCase : PartialTestCase) : Payload :=
  let fields := part_fields testCase in
  let payload : Payload := [] in
  let payload :=
    match part_title testCase with
    | Some title => if truthyStr title then assign "title" (PStr title) payload else payload
    | None => payload
    end in
  let payload :=
    if hasSteps fields then assign "template_id" (PNum 1) payload else payload in
  let payload :=
    match cf_preconds fields with
    | Some preconds => assignWithCustom cache "preconds" "custom_preconds" preconds payload
    | None => payload
    end in
  let payload :=
    if hasSteps fields then
      let formattedSteps := formatSteps (stepsOf fields) in
      let payload := assign "steps" (PSteps formattedSteps) payload in
      assignCustomSteps cache formattedSteps payload
    else payload in
  let payload :=
    match cf_expected fields with
    | Some expected => assignWithCustom cache "expected" "custom_expected" expected payload
    | None => payload
    end in
  match cf_refs fields with
  | Some refs => assign "refs" (PStr refs) payload
  | None => payload
  end.

(** [a || b] on a value that may be undefined. *)
Definition orElse {A} (a : option (Listing A)) (b : Listing A) : Listing A :=
  match a with
  | Some v => if truthy v then v else b
  | None => b
  end.

(** [existingSuites.sort((a, b) => a.id - b.id)]: a stable sort. *)
Fixpoint insertById (s : TestRailSuite) (sorted : list TestRailSuite) : list TestRailSuite :=
  match sorted with
  | [] => [s]
  | t :: more =>
      if (suite_id s <=? suite_id t)%Z then s :: sorted
      else t :: insertById s more
  end.

Definition sortById (suites : list TestRailSuite) : list TestRailSuite :=
  fold_right insertById [] suites.

(** [name.toLowerCase().trim().replace(/\s+/g, ' ')] *)
Definition normalizeSuiteName (suiteName : string) : string :=
  Regex.replaceAll GherkinParser.fG (Regex.plus Regex.ws) " " (trim (toLowerCase suiteName)).

Definition authFailedWithNames : string :=
  "TestRail authentication failed. Please check your credentials (TESTRAIL_USERNAME, TESTRAIL_API_KEY).".

Definition authFailed : string :=
  "TestRail authentication failed. Please check your credentials.".

Definition networkError : string :=
  "Network error: Could not reach TestRail. Please check your connection.".

Definition isAuthStatus (code : Z) : bool := (code =? 401)%Z || (code =? 403)%Z.

Section Methods.

Context {W B : Type} (api : Api W B) (config : Config).

Declare Scope client_scope.
Notation "'let*' x ':=' m 'in' k" := (andThen m (fun x => k))
  (at level 10, x pattern, m at level 200, k at level 200) : client_scope.
Notation "m ';;' k" := (andThen m (fun _ => k))
  (at level 100, k at level 200, right associativity) : client_scope.
Local Open Scope client_scope.

Local Abbreviation Do := (C (W := W) (B := B)).

Definition networkErrorAt : string :=
  "Network error: Could not reach TestRail at " +:+ testrail_url (cfg_testrail config)
  +:+ ". Please check your connection and TESTRAIL_URL.".

(** [error.response.data?.error || 'Invalid request'] *)
Definition errorOrInvalid (r : Response B) : string :=
  orStr (default "" (data r ≫= body_error api)) "Invalid request".

(** [error.response.data ? JSON.stringify(error.response.data, null, 2) : ''] *)
Definition detailsOf (r : Response B) : string :=
  match data r with Some body => prettyBody api body | None => "" end.

(** [`${error.response.status} ${error.response.statusText}`] *)
Definition statusLine (r : Response B) : string :=
  showZ (status r) +:+ " " +:+ statusText r.

Definition getTestCases (projectId sectionId : Z) (suiteId : option Z)
  : Do (list TestRailTestCaseResponse) :=
  attempt
    (say Verbose ("Fetching test cases for project " +:+ showZ projectId
                  +:+ ", section " +:+ showZ sectionId
                  +:+ (if truthyOptZ suiteId
                       then ", suite " +:+ showZ (default 0%Z suiteId) else "")) ;;
     let url := "/index.php?/api/v2/get_cases/" +:+ showZ projectId
                +:+ "&section_id=" +:+ showZ sectionId in
     let url := if truthyOptZ suiteId
                then url +:+ "&suite_id=" +:+ showZ (default 0%Z suiteId) else url in
     let* body := send (Get url) (get_cases api url) in
     let cases := orElse (prop "cases" body) (if isArray body then body else LArray []) in
     match cases with
     | LArray items =>
         say Verbose ("Found " +:+ showNat (List.length items) +:+ " existing test cases") ;;
         pure items
     | _ =>
         say Verbose ("Unexpected response structure: " +:+ stringifyCases api body) ;;
         raise (error "Invalid response format from TestRail API. Expected cases array.")
     end)
    (fun e =>
       match response e with
       | Some r =>
           if isAuthStatus (status r) then raise (error authFailedWithNames)
           else if (status r =? 400)%Z then
             raise (error ("Invalid request. Please check project ID (" +:+ showZ projectId
                           +:+ ") and section ID (" +:+ showZ sectionId +:+ ")."))
           else raise (error ("Failed to fetch test cases: " +:+ statusLine r))
       | None =>
           if request e then raise (error networkErrorAt)
           else raise (error ("Error fetching test cases: " +:+ message e))
       end).

(** [getCaseFields]: never throws. *)
Definition getCaseFields : Do (list CaseField) :=
  attempt
    (say Verbose "Fetching custom case fields from TestRail" ;;
     let url := "/index.php?/api/v2/get_case_fields" in
     let* body := send (Get url) (get_case_fields api url) in
     pure (default [] body))
    (fun e =>
       say Verbose ("Could not fetch custom fields: " +:+ message e) ;;
       pure []).

(** [sections.length] in a message, for what may not be an array. *)
Definition lengthText (sections : Listing TestRailSection) : string :=
  match sections with
  | LArray items => showNat (List.length items)
  | LScalar (SStr s) => showNat (String.length s)
  | LScalar _ => "undefined"
  | LObject _ =>
      match prop "length" sections with
      | Some v => textOfSections api v
      | None => "undefined"
      end
  end.

Definition getSections (projectId suiteId : Z) : Do (list TestRailSection) :=
  attempt
    (say Verbose ("Fetching sections for project " +:+ showZ projectId
                  +:+ ", suite " +:+ showZ suiteId) ;;
     let url := "/index.php?/api/v2/get_sections/" +:+ showZ projectId
                +:+ "&suite_id=" +:+ showZ suiteId in
     let* body := send (Get url) (get_sections api url) in
     let sections := orElse (prop "sections" body) (if isArray body then body else LArray []) in
     say Verbose ("Found " +:+ lengthText sections +:+ " sections in suite") ;;
     match sections with
     | LArray items => pure items
     | _ =>
         say Verbose ("Unexpected response structure: " +:+ stringifySections api body) ;;
         raise (error "Invalid response format from TestRail API. Expected sections array.")
     end)
    (fun e =>
       match response e with
       | Some r =>
           if isAuthStatus (status r) then raise (error authFailedWithNames)
           else if (status r =? 400)%Z then
             raise (error ("Invalid request. Please check project ID (" +:+ showZ projectId
                           +:+ ") and suite ID (" +:+ showZ suiteId +:+ ")."))
           else raise (error ("Failed to fetch sections: " +:+ statusLine r))
       | None =>
           if request e then raise (error networkErrorAt)
           else raise (error ("Error fetching sections: " +:+ message e))
       end).

Definition getSection (sectionId : Z) : Do TestRailSection :=
  attempt
    (say Verbose ("Fetching section " +:+ showZ sectionId) ;;
     let url := "/index.php?/api/v2/get_section/" +:+ showZ sectionId in
     send (Get url) (get_section api url))
    (fun e =>
       match response e with
       | Some r =>
           if isAuthStatus (status r) then raise (error authFailed)
           else if (status r =? 404)%Z then
             raise (error ("Section with ID " +:+ showZ sectionId +:+ " not found."))
           else raise (error ("Failed to fetch section: " +:+ statusLine r))
       | None =>
           if request e then raise (error networkError)
           else raise (error ("Error fetching section: " +:+ message e))
       end).

(** The block [if (!this.customFieldsCache) { ... }] of [createTestCase]
    and of [updateTestCase]. *)
Definition loadCustomFields : Do (gmap string CaseField) :=
  let* cached := getCache in
  match cached with
  | Some cache => pure cache
  | None =>
      let* fields := getCaseFields in
      let cache := cacheOf fields in
      setCache cache ;;
      say Verbose ("Found " +:+ showNat (List.length fields) +:+ " custom fields") ;;
      each fields
        (fun f => say Verbose ("  - " +:+ system_name f +:+ " (" +:+ field_name f
                               +:+ "): type_id=" +:+ showZ (type_id f))) ;;
      pure cache
  end.

Definition createTestCase (sectionId : Z) (testCase : NewTestCase)
  : Do TestRailTestCaseResponse :=
  attempt
    (say Verbose ("Creating test case: " +:+ quoted (new_title testCase)
                  +:+ " in section " +:+ showZ sectionId) ;;
     let* cache := loadCustomFields in
     let payload := createPayload cache sectionId testCase in
     (if hasSteps (new_fields testCase) then
        say Verbose ("Adding "
                     +:+ showNat (List.length (formatSteps (stepsOf (new_fields testCase))))
                     +:+ " steps to test case")
      else pure tt) ;;
     say Verbose ("Payload: " +:+ prettyPayload api payload) ;;
     let url := "/index.php?/api/v2/add_case/" +:+ showZ sectionId in
     let* created := send (Post url payload) (post_case api url payload) in
     say Verbose ("TestRail Response: " +:+ prettyCase api created) ;;
     say Verbose ("Successfully created test case with ID: " +:+ showZ (case_id created)) ;;
     pure created)
    (fun e =>
       match response e with
       | Some r =>
           if isAuthStatus (status r) then raise (error authFailed)
           else if (status r =? 400)%Z then
             say Verbose ("TestRail API Error Response: " +:+ detailsOf r) ;;
             raise (error ("Failed to create test case: " +:+ errorOrInvalid r +:+ nl
                           +:+ "Details: " +:+ detailsOf r))
           else raise (error ("Failed to create test case: " +:+ statusLine r))
       | None =>
           if request e then raise (error networkError)
           else raise (error ("Error creating test case: " +:+ message e))
       end).

Definition updateTestCase (caseId : Z) (testCase : PartialTestCase)
  : Do TestRailTestCaseResponse :=
  attempt
    (say Verbose ("Updating test case ID " +:+ showZ caseId) ;;
     let* cache := loadCustomFields in
     let payload := updatePayload cache testCase in
     (if hasSteps (part_fields testCase) then
        say Verbose ("Updating with "
                     +:+ showNat (List.length (formatSteps (stepsOf (part_fields testCase))))
                     +:+ " steps")
      else pure tt) ;;
     say Verbose ("Update Payload: " +:+ prettyPayload api payload) ;;
     let url := "/index.php?/api/v2/update_case/" +:+ showZ caseId in
     let* updated := send (Post url payload) (post_case api url payload) in
     say Verbose ("Successfully updated test case ID " +:+ showZ caseId) ;;
     pure updated)
    (fun e =>
       match response e with
       | Some r =>
           if isAuthStatus (status r) then raise (error authFailed)
           else if (status r =? 400)%Z then
             say Error ("TestRail API Error Response: " +:+ detailsOf r) ;;
             raise (error ("Failed to update test case: " +:+ errorOrInvalid r +:+ nl
                           +:+ "Details: " +:+ detailsOf r))
           else if (status r =? 404)%Z then
             raise (error ("Test case with ID " +:+ showZ caseId +:+ " not found."))
           else raise (error ("Failed to update test case: " +:+ statusLine r))
       | None =>
           if request e then raise (error networkError)
           else raise (error ("Error updating test case: " +:+ message e))
       end).

Definition deleteTestCase (caseId : Z) : Do unit :=
  attempt
    (say Verbose ("Deleting test case ID " +:+ showZ caseId) ;;
     let url := "/index.php?/api/v2/delete_case/" +:+ showZ caseId in
     send (Post url []) (post_delete api url []) ;;
     say Verbose ("Successfully deleted test case ID " +:+ showZ caseId))
    (fun e =>
       match response e with
       | Some r =>
           if isAuthStatus (status r) then raise (error authFailed)
           else if (status r =? 400)%Z then
             raise (error ("Failed to delete test case: " +:+ errorOrInvalid r))
           else if (status r =? 404)%Z then
             raise (error ("Test case with ID " +:+ showZ caseId +:+ " not found."))
           else raise (error ("Failed to delete test case: " +:+ statusLine r))
       | None =>
           if request e then raise (error networkError)
           else raise (error ("Error deleting test case: " +:+ message e))
       end).

(** The suites of a response, whatever its format. *)
Definition suitesOf (body : Listing TestRailSuite) : list TestRailSuite :=
  match body with
  | LArray items => items
  | _ =>
      match (if truthy body then prop "suites" body else None) with
      | Some (LArray items) => items
      | _ =>
          if truthy body && String.eqb (typeOf body) "object"
          then default [] (firstArray body)
          else []
      end
  end.

Definition getSuites (projectId : Z) : Do (list TestRailSuite) :=
  attempt
    (say Verbose ("Fetching suites for project " +:+ showZ projectId) ;;
     let url := "/index.php?/api/v2/get_suites/" +:+ showZ projectId in
     let* body := send (Get url) (get_suites api url) in
     say Verbose ("Raw API response type: " +:+ typeOf body +:+ ", isArray: "
                  +:+ (if isArray body then "true" else "false")) ;;
     (if truthy body && String.eqb (typeOf body) "object"
      then say Verbose ("Response keys: " +:+ join ", " (keys body))
      else pure tt) ;;
     let suites := suitesOf body in
     say Verbose ("Found " +:+ showNat (List.length suites) +:+ " suite(s) in project") ;;
     (if 0 <? List.length suites
      then say Verbose ("Suite names: "
                        +:+ join ", " (List.map (fun s => quoted (suite_name s)) suites))
      else pure tt) ;;
     pure suites)
    (fun e =>
       match response e with
       | Some r =>
           if isAuthStatus (status r) then raise (error authFailedWithNames)
           else if (status r =? 400)%Z then
             raise (error ("Invalid request. Please check project ID ("
                           +:+ showZ projectId +:+ ")."))
           else raise (error ("Failed to fetch suites: " +:+ statusLine r))
       | None =>
           if request e then raise (error networkErrorAt)
           else raise (error ("Error fetching suites: " +:+ message e))
       end).

Definition findSuiteByName (projectId : Z) (suiteName : string)
  : Do (option TestRailSuite) :=
  attempt
    (let* suites := getSuites projectId in
     let normalizedName := normalizeSuiteName suiteName in
     say Verbose ("Searching for suite: " +:+ quoted suiteName
                  +:+ " (normalized: " +:+ quoted normalizedName +:+ ")") ;;
     say Verbose ("Found " +:+ showNat (List.length suites) +:+ " suite(s) in project "
                  +:+ showZ projectId) ;;
     each suites
       (fun suite =>
          let suiteNormalized := normalizeSuiteName (suite_name suite) in
          let matches := String.eqb suiteNormalized normalizedName in
          say Verbose ("  - " +:+ quoted (suite_name suite) +:+ " (ID: "
                       +:+ showZ (suite_id suite) +:+ ") [normalized: "
                       +:+ quoted suiteNormalized +:+ "] "
                       +:+ (if matches then matchMark +:+ " MATCH" else ""))) ;;
     let foundSuite :=
       List.find (fun suite => String.eqb (normalizeSuiteName (suite_name suite))
                                 normalizedName) suites in
     match foundSuite with
     | Some _ => pure tt
     | None =>
         say Verbose ("No exact match found for " +:+ quoted suiteName) ;;
         let fuzzyMatches :=
           List.filter
             (fun suite =>
                let suiteNormalized := normalizeSuiteName (suite_name suite) in
                includes suiteNormalized normalizedName
                || includes normalizedName suiteNormalized) suites in
         if 0 <? List.length fuzzyMatches then
           say Verbose ("Found " +:+ showNat (List.length fuzzyMatches)
                        +:+ " potential fuzzy match(es):") ;;
           each fuzzyMatches
             (fun suite => say Verbose ("  - " +:+ quoted (suite_name suite) +:+ " (ID: "
                                        +:+ showZ (suite_id suite) +:+ ")"))
         else pure tt
     end ;;
     pure foundSuite)
    (fun e =>
       say Verbose ("Error finding suite by name: " +:+ message e) ;;
       raise e).

(** [errorData.error || errorData.message || ''], with
    [errorData = error.response.data || {}]. *)
Definition errorText (r : Response B) : string :=
  orStr (orStr (default "" (data r ≫= body_error api))
               (default "" (data r ≫= body_message api))) "".

(** [JSON.stringify(errorData, null, 2)], the empty object when there is
    no body. *)
Definition errorDataText (r : Response B) : string :=
  match data r with Some body => prettyBody api body | None => "{}" end.

(** The lines that name the master suite: the one of lowest id. *)
Definition suggestion (masterSuite : TestRailSuite) : string :=
  nl +:+ nl +:+ "Available suite in this project:" +:+ nl
  +:+ "  - " +:+ quoted (suite_name masterSuite) +:+ " (ID: "
  +:+ showZ (suite_id masterSuite) +:+ ")" +:+ nl
  +:+ nl +:+ nl +:+ "Use the existing suite instead. For example:" +:+ nl
  +:+ "  --suite-name " +:+ quoted (suite_name masterSuite) +:+ nl
  +:+ "  or" +:+ nl
  +:+ "  --suite-id " +:+ showZ (suite_id masterSuite).

Definition singleSuiteMode (suiteSuggestions : string) : string :=
  "This TestRail project is configured in " +:+ quoted "Single Suite Mode"
  +:+ " and only allows one test suite." +:+ nl
  +:+ "You cannot create additional suites in this project." +:+ nl
  +:+ "Instead, use the existing suite and create sections within it."
  +:+ suiteSuggestions.

Definition createSuite (projectId : Z) (suiteName : string) (description : option string)
  : Do TestRailSuite :=
  attempt
    (say Verbose ("Creating suite: " +:+ quoted suiteName +:+ " in project "
                  +:+ showZ projectId) ;;
     let payload : Payload := [("name", PStr suiteName)] in
     let payload :=
       match description with
       | Some d => if truthyStr d then assign "description" (PStr d) payload else payload
       | None => payload
       end in
     let url := "/index.php?/api/v2/add_suite/" +:+ showZ projectId in
     let* created := send (Post url payload) (post_suite api url payload) in
     say Verbose ("Successfully created suite with ID: " +:+ showZ (suite_id created)) ;;
     say Success ("Created suite " +:+ quoted suiteName +:+ " (ID: "
                  +:+ showZ (suite_id created) +:+ ")") ;;
     pure created)
    (fun e =>
       match response e with
       | Some r =>
           let errorMsg := errorText r in
           let errorDetails := errorDataText r in
           say Verbose ("TestRail API Error Response: Status " +:+ showZ (status r)
                        +:+ ", Data: " +:+ errorDetails) ;;
           if (status r =? 401)%Z then
             raise (error "TestRail authentication failed (401). Please check your credentials (TESTRAIL_USERNAME, TESTRAIL_API_KEY).")
           else if (status r =? 403)%Z then
             let isSingleSuiteMode :=
               includes (toLowerCase errorMsg) "single test suite"
               || includes (toLowerCase errorMsg) "only supports a single" in
             if isSingleSuiteMode then
               let* suiteSuggestions :=
                 attempt
                   (let* existingSuites := getSuites projectId in
                    if 0 <? List.length existingSuites then
                      match sortById existingSuites with
                      | masterSuite :: _ => pure (suggestion masterSuite)
                      | [] => pure ""
                      end
                    else pure "")
                   (fun e' =>
                      say Verbose ("Could not fetch suites for suggestions: Error: "
                                   +:+ message e') ;;
                      pure "") in
               raise (error (singleSuiteMode suiteSuggestions))
             else
               let permissionMsg :=
                 if includes (toLowerCase errorMsg) "permission"
                    || includes (toLowerCase errorMsg) "not allowed"
                 then nl +:+ "Error details: " +:+ errorMsg else "" in
               raise (error ("TestRail permission denied (403). You may not have permission to create suites in project "
                             +:+ showZ projectId +:+ "." +:+ permissionMsg +:+ nl
                             +:+ "Please check:" +:+ nl
                             +:+ "1. Your TestRail user has " +:+ quoted "Project Lead"
                             +:+ " or " +:+ quoted "Administrator" +:+ " role" +:+ nl
                             +:+ "2. You have " +:+ quoted "Add/Edit Test Cases"
                             +:+ " permission for this project" +:+ nl
                             +:+ "3. The project allows suite creation (some projects may be locked)"))
           else if (status r =? 400)%Z then
             raise (error ("Failed to create suite: " +:+ orStr errorMsg "Invalid request"
                           +:+ nl +:+ "Details: " +:+ errorDetails))
           else
             raise (error ("Failed to create suite: " +:+ statusLine r +:+ nl
                           +:+ "Details: " +:+ errorDetails))
       | None =>
           if request e then raise (error networkError)
           else raise (error ("Error creating suite: " +:+ message e))
       end).

Definition createSection (projectId suiteId : Z) (sectionName : string)
    (parentId : option Z) : Do TestRailSection :=
  attempt
    (let parentInfo :=
       if truthyOptZ parentId
       then " under parent section " +:+ showZ (default 0%Z parentId) else "" in
     say Verbose ("Creating section: " +:+ quoted sectionName +:+ " in suite "
                  +:+ showZ suiteId +:+ parentInfo) ;;
     let payload : Payload := [("name", PStr sectionName); ("suite_id", PNum suiteId)] in
     let payload :=
       if truthyOptZ parentId
       then assign "parent_id" (PNum (default 0%Z parentId)) payload else payload in
     let url := "/index.php?/api/v2/add_section/" +:+ showZ projectId in
     let* created := send (Post url payload) (post_section api url payload) in
     say Verbose ("Successfully created section with ID: " +:+ showZ (sec_id created)) ;;
     say Success ("Created section " +:+ quoted sectionName +:+ " (ID: "
                  +:+ showZ (sec_id created) +:+ ")") ;;
     pure created)
    (fun e =>
       match response e with
       | Some r =>
           if isAuthStatus (status r) then raise (error authFailed)
           else if (status r =? 400)%Z then
             say Verbose ("TestRail API Error Response: " +:+ detailsOf r) ;;
             raise (error ("Failed to create section: " +:+ errorOrInvalid r +:+ nl
                           +:+ "Details: " +:+ detailsOf r))
           else raise (error ("Failed to create section: " +:+ statusLine r))
       | None =>
           if request e then raise (error networkError)
           else raise (error ("Error creating section: " +:+ message e))
       end).

Definition deleteSuite (suiteId : Z) : Do unit :=
  attempt
    (say Verbose ("Deleting suite ID " +:+ showZ suiteId) ;;
     let url := "/index.php?/api/v2/delete_suite/" +:+ showZ suiteId in
     send (Post url []) (post_delete api url []) ;;
     say Verbose ("Successfully deleted suite ID " +:+ showZ suiteId) ;;
     say Success ("Deleted suite ID " +:+ showZ suiteId))
    (fun e =>
       match response e with
       | Some r =>
           let errorMsg := errorText r in
           let errorDetails := errorDataText r in
           say Verbose ("TestRail API Error Response: Status " +:+ showZ (status r)
                        +:+ ", Data: " +:+ errorDetails) ;;
           if (status r =? 401)%Z then
             raise (error "TestRail authentication failed (401). Please check your credentials (TESTRAIL_USERNAME, TESTRAIL_API_KEY).")
           else if (status r =? 403)%Z then
             let isSingleSuiteMode :=
               includes (toLowerCase errorMsg) "single"
               || includes (toLowerCase errorMsg) "not permitted"
               || includes (toLowerCase errorMsg) "not allowed"
               || includes (toLowerCase errorMsg) "master suite"
               || includes (toLowerCase errorMsg) "cannot be deleted" in
             if isSingleSuiteMode then
               raise (error ("Cannot delete suite in Single Suite Mode." +:+ nl
                             +:+ "TestRail projects configured in " +:+ quoted "Single Suite Mode"
                             +:+ " do not allow suite deletion." +:+ nl
                             +:+ "The master suite cannot be deleted in this project type."
                             +:+ nl +:+ nl
                             +:+ "If you need to delete suites, you must:" +:+ nl
                             +:+ "1. Change the project to " +:+ quoted "Multiple Test Suites"
                             +:+ " mode in TestRail UI" +:+ nl
                             +:+ "2. Or use TestRail UI to manage test cases and sections instead"
                             +:+ nl +:+ nl
                             +:+ "Error details: "
                             +:+ orStr errorMsg "Suite deletion not permitted"))
             else
               raise (error ("TestRail permission denied (403). You may not have permission to delete suites."
                             +:+ nl +:+ "Please check:" +:+ nl
                             +:+ "1. Your TestRail user has " +:+ quoted "Project Lead"
                             +:+ " or " +:+ quoted "Administrator" +:+ " role" +:+ nl
                             +:+ "2. You have permission to delete suites in this project" +:+ nl
                             +:+ "3. The suite is not locked or in use" +:+ nl +:+ nl
                             +:+ "Error details: " +:+ orStr errorMsg "Permission denied"))
           else if (status r =? 400)%Z then
             raise (error ("Failed to delete suite: "
                           +:+ orStr (default "" (data r ≫= body_error api)) "Invalid request"
                           +:+ nl +:+ "Details: " +:+ errorDetails))
           else if (status r =? 404)%Z then
             raise (error ("Suite with ID " +:+ showZ suiteId +:+ " not found."))
           else
             raise (error ("Failed to delete suite: " +:+ statusLine r +:+ nl
                           +:+ "Details: " +:+ errorDetails))
       | None =>
           if request e then raise (error networkError)
           else raise (error ("Error deleting suite: " +:+ message e))
       end).

End Methods.

End TestRailClient.

(* ===================================================================== *)
(** * The Jira client ([src/jira/jiraClient.ts]) *)
(* ===================================================================== *)

Module JiraClient.

Import Js Regex TestRail SyncService Config Rest.

(** [extractText], the local function of [extractTextFromADF]; the texts
    of the children are joined without separator. *)
Fixpoint extractText (node : AdfNode) : string :=
  match node with
  | Node type text content =>
      if String.eqb type "text" then orStr (default "" text) ""
      else if String.eqb type "paragraph" || String.eqb type "heading" then
        match content with
        | Some children => join "" (List.map extractText children) +:+ nl
        | None => nl
        end
      else if String.eqb type "hardBreak" then nl
      else
        match content with
        | Some children => join "" (List.map extractText children)
        | None => ""
        end
  end.

(** [/\n{3,}/g] *)
Definition blankLines : regex := RRepeat GherkinParser.lf 3 None true.

(** [extractTextFromADF] *)
Definition extractTextFromADF (adf : AdfNode) : string :=
  match node_content adf with
  | None => ""
  | Some content =>
      let result := join "" (List.map extractText content) in
      trim (replaceAll GherkinParser.fG blankLines (nl +:+ nl) result)
  end.

(** The description of the ticket, from [issue.fields.description]. *)
Definition descriptionOf (d : DescriptionField) : string :=
  match d with
  | NoDescription => ""
  | TextDescription s => s
  | DocDescription doc =>
      match node_content doc with
      | Some _ => extractTextFromADF doc
      | None => if String.eqb (node_type doc) "doc" then extractTextFromADF doc else ""
      end
  end.

(** [typeof issue.fields.description] and
    [!!issue.fields.description?.content] *)
Definition descriptionType (d : DescriptionField) : string :=
  match d with TextDescription _ => "string" | _ => "object" end.

Definition hasContent (d : DescriptionField) : bool :=
  match d with
  | DocDescription doc => match node_content doc with Some _ => true | None => false end
  | _ => false
  end.

Definition authenticationFailed : string :=
  "Authentication failed. Please check your Jira credentials (JIRA_EMAIL, JIRA_API_TOKEN).".

Section Methods.

Context {W B : Type} (api : Api W B) (config : Config).

Declare Scope jira_scope.
Notation "'let*' x ':=' m 'in' k" := (andThen m (fun x => k))
  (at level 10, x pattern, m at level 200, k at level 200) : jira_scope.
Notation "m ';;' k" := (andThen m (fun _ => k))
  (at level 100, k at level 200, right associativity) : jira_scope.
Local Open Scope jira_scope.

Local Abbreviation Do := (C (W := W) (B := B)).

(** [responseData.errorMessages?.[0] || responseData.message ||
     error.response.statusText || ''], with
    [responseData = error.response.data || {}]. *)
Definition errorMessageOf (r : Response B) : string :=
  orStr (orStr (orStr (default "" (data r ≫= body_firstErrorMessage api))
                      (default "" (data r ≫= body_message api)))
               (statusText r)) "".

Definition fetchTicket (issueKey : string) : Do JiraTicket :=
  attempt
    (say Verbose ("Fetching Jira ticket: " +:+ issueKey) ;;
     let url := "/rest/api/3/issue/" +:+ issueKey +:+ "?fields=summary,description" in
     let* issue := send (Get url) (get_issue api url) in
     let description := descriptionOf (issue_description issue) in
     say Verbose ("Extracted description type: "
                  +:+ descriptionType (issue_description issue)
                  +:+ ", has content: "
                  +:+ (if hasContent (issue_description issue) then "true" else "false")) ;;
     let ticket :=
       mkTicket (issue_key issue) (orStr (default "" (issue_summary issue)) "")
         description (jira_url (cfg_jira config) +:+ "/browse/" +:+ issue_key issue) in
     say Verbose ("Successfully fetched ticket: " +:+ jt_key ticket) ;;
     pure ticket)
    (fun e =>
       match response e with
       | Some r =>
           let errorText := toLowerCase (errorMessageOf r) in
           say Verbose ("Jira API Error Response: Status " +:+ showZ (status r)
                        +:+ ", Data: "
                        +:+ match data r with
                            | Some body => stringifyBody api body
                            | None => "{}"
                            end) ;;
           let isEmptyResponse :=
             (match data r with Some body => body_keyCount api body | None => 0 end =? 0)
             && (status r =? 404)%Z in
           let hasExplicitPermissionDenial :=
             includes errorText "you do not have permission"
             || includes errorText "do not have permission to" in
           let hasAuthKeywords :=
             includes errorText "authentication"
             || includes errorText "unauthorized"
             || includes errorText "forbidden"
             || includes errorText "credentials"
             || includes errorText "login"
             || includes errorText "basic auth" in
           let mentionsDoesNotExist := includes errorText "does not exist" in
           let isUnambiguousAuthError :=
             (status r =? 401)%Z || (status r =? 403)%Z || hasAuthKeywords in
           if isUnambiguousAuthError then raise (error authenticationFailed)
           else
             (if (status r =? 404)%Z && isEmptyResponse then
                say Verbose "Received 404 with empty response - might indicate authentication failure"
              else pure tt) ;;
             if (status r =? 404)%Z then
               if hasExplicitPermissionDenial && mentionsDoesNotExist then
                 raise (error ("Jira ticket " +:+ quoted issueKey
                               +:+ " not found or you do not have permission to access it. "
                               +:+ "Please check: (1) the ticket key is correct, (2) your Jira credentials (JIRA_EMAIL, JIRA_API_TOKEN) are correct."))
               else if hasExplicitPermissionDenial then raise (error authenticationFailed)
               else raise (error ("Jira ticket " +:+ quoted issueKey
                                  +:+ " not found. Please check the ticket key."))
             else
               raise (error ("Failed to fetch Jira ticket: " +:+ showZ (status r)
                             +:+ " " +:+ statusText r))
       | None =>
           if request e then
             raise (error ("Network error: Could not reach Jira at "
                           +:+ jira_url (cfg_jira config)
                           +:+ ". Please check your connection and JIRA_URL."))
           else raise (error ("Error fetching Jira ticket: " +:+ message e))
       end).

End Methods.

End JiraClient.

(* ===================================================================== *)
(** * The orchestrator on the two clients *)
(* ===================================================================== *)

Module Program.

Import Js TestRail SyncService Config Rest.

Section Wiring.

Context {W B : Type} (api : Api W B) (config : Config).

(** What a caller of a client method sees: the value, or the message of
    the error thrown. *)
Definition asAnswer {A} (m : C (W := W) (B := B) A) : Net W -> answer A * Net W :=
  fun st =>
    match m st with
    | (inl e, st') => (inl (message e), st')
    | (inr a, st') => (inr a, st')
    end.

(** The [testCase] object of the orchestrator, as the client reads it:
    every field is set. *)
Definition fieldsOf (tc : TestRailTestCase) : TestRailClient.CaseFields :=
  TestRailClient.mkCaseFields (Some (tc_preconds tc)) (Some (tc_steps tc))
    (Some (tc_expected tc)) (Some (tc_refs tc)).

(** The clients that the constructor of [SyncService] makes. *)
Definition clientEnv : Env (Net W) := {|
  fetchTicket := fun jiraKey => asAnswer (JiraClient.fetchTicket api config jiraKey);
  findSuiteByName := fun projectId suiteName =>
    asAnswer (TestRailClient.findSuiteByName api config projectId suiteName);
  createSuite := fun projectId suiteName =>
    asAnswer (TestRailClient.createSuite api config projectId suiteName None);
  getSuites := fun projectId => asAnswer (TestRailClient.getSuites api config projectId);
  getSections := fun projectId suiteId =>
    asAnswer (TestRailClient.getSections api config projectId suiteId);
  getSection := fun sectionId => asAnswer (TestRailClient.getSection api sectionId);
  createSection := fun projectId suiteId sectionName parentId =>
    asAnswer (TestRailClient.createSection api projectId suiteId sectionName parentId);
  getTestCases := fun projectId sectionId suiteId =>
    asAnswer (TestRailClient.getTestCases api config projectId sectionId suiteId);
  createTestCase := fun sectionId tc =>
    asAnswer (TestRailClient.createTestCase api sectionId
                (TestRailClient.mkNewTestCase (tc_title tc) (fieldsOf tc)));
  updateTestCase := fun caseId tc =>
    asAnswer (TestRailClient.updateTestCase api caseId
                (TestRailClient.mkPartialTestCase (Some (tc_title tc)) (fieldsOf tc)));
  deleteTestCase := fun caseId => asAnswer (TestRailClient.deleteTestCase api caseId)
|}.

End Wiring.

End Program.

(* ===================================================================== *)
(** * The earlier revision of the orchestrator

    The first [syncTicketToTestRail] of [src/sync/syncService.ts]: a suite
    or a section is given by id, and nothing is created outside the
    cases.  Listing aside, its steps 2 to 5 are those of the current
    revision. *)
(* ===================================================================== *)

Module SyncServiceV1.

Import Js Regex GherkinParser TestRail SyncService.

Section Run.

Context {W : Type} (env : Env W).

Declare Scope v1_scope.
Notation "'let*' x ':=' m 'in' k" := (bind m (fun x => k))
  (at level 10, x pattern, m at level 200, k at level 200) : v1_scope.
Notation "m ';;' k" := (bind m (fun _ => k))
  (at level 100, k at level 200, right associativity) : v1_scope.
Local Open Scope v1_scope.

Local Abbreviation Do := (M (W := W)).

(** The traversal loop for a path of several segments, from index [i] on:
    the path traversed, the current parent and the section selected. *)
Fixpoint walkPath (testrailSuiteId : Z) (sections : list TestRailSection)
    (nameParts : list string) (i : nat) (parts : list string)
    (pathTraversed : list string) (currentParentId : option Z)
    (selectedSection : option TestRailSection)
  : Do (list string * option TestRailSection) :=
  match parts with
  | [] => ret (pathTraversed, selectedSection)
  | partName :: parts' =>
      match List.find (isChild partName currentParentId) sections with
      | Some foundSection =>
          walkPath testrailSuiteId sections nameParts (S i) parts'
            (pathTraversed ++ [sec_name foundSection])
            (Some (sec_id foundSection))
            (if i =? List.length nameParts - 1 then Some foundSection
             else selectedSection)
      | None =>
          let currentPath := join "/" (firstn i nameParts) in
          let context := parentContext currentParentId pathTraversed in
          let availableSections :=
            join ", "
              (List.map showSection
                 (List.filter (fun s => match currentParentId with
                                        | None => noParent s
                                        | Some p => parentIs p s
                                        end) sections)) in
          throw ("Section " +:+ quoted partName +:+ " not found " +:+ context
                 +:+ " in suite " +:+ showZ testrailSuiteId +:+ "." +:+ nl
                 +:+ "Path: "
                 +:+ (if truthyStr currentPath then currentPath +:+ "/" else "")
                 +:+ partName +:+ nl
                 +:+ "Available sections " +:+ context +:+ ": "
                 +:+ orStr availableSections "None")
      end
  end.

(** The branch [if (sectionName)] of the selection. *)
Definition selectByName (testrailSuiteId : Z) (sectionName : string)
    (sections : list TestRailSection) : Do TestRailSection :=
  let normalizedName := trim (toLowerCase sectionName) in
  let nameParts := pathParts normalizedName in
  let* selectedSection :=
    if List.length nameParts =? 1 then
      ret (match List.find (fun s => String.eqb (normalize (sec_name s)) normalizedName
                                     && noParent s) sections with
           | Some s => Some s
           | None => List.find (fun s => String.eqb (normalize (sec_name s)) normalizedName)
                       sections
           end)
    else
      let* (pathTraversed, selectedSection) :=
        walkPath testrailSuiteId sections nameParts 0 nameParts [] None None in
      match selectedSection with
      | Some selected =>
          if 1 <? List.length pathTraversed then
            log Success ("Found section " +:+ quoted (sec_name selected)
                         +:+ " (ID: " +:+ showZ (sec_id selected) +:+ ") "
                         +:+ "at path: " +:+ quoted (join "/" pathTraversed))
          else ret tt
      | None => ret tt
      end ;;
      ret selectedSection in
  let* selectedSection :=
    match selectedSection with
    | Some s => ret s
    | None =>
        let availableSections := join ", " (List.map showSectionWithParent sections) in
        throw ("Section " +:+ quoted sectionName +:+ " not found in suite "
               +:+ showZ testrailSuiteId +:+ "." +:+ nl
               +:+ "Available sections: " +:+ availableSections)
    end in
  (if noParent selectedSection then
     log Success ("Found section " +:+ quoted (sec_name selectedSection)
                  +:+ " (ID: " +:+ showZ (sec_id selectedSection) +:+ ")")
   else ret tt) ;;
  ret selectedSection.

(** The section id and the suite id the rest of the run works with. *)
Definition resolveSection (testrailProjectId : Z)
    (testrailSuiteId testrailSectionId : option Z) (sectionName : option string)
  : Do (Z * option Z) :=
  if truthyOptZ testrailSuiteId then
    let suiteId := default 0%Z testrailSuiteId in
    log Info ("Fetching sections from suite " +:+ showZ suiteId +:+ "...") ;;
    let* sections :=
      issue (GetSections testrailProjectId suiteId)
            (getSections env testrailProjectId suiteId) in
    if List.length sections =? 0 then
      throw ("No sections found in suite " +:+ showZ suiteId
             +:+ ". Please create a section first.")
    else
      let* selectedSection :=
        match truthyName sectionName with
        | Some sectionName => selectByName suiteId sectionName sections
        | None => selectDefault sections
        end in
      ret (sec_id selectedSection, testrailSuiteId)
  else if truthyOptZ testrailSectionId then
    let sectionId := default 0%Z testrailSectionId in
    log Info ("Fetching section details for section ID " +:+ showZ sectionId +:+ "...") ;;
    let* suiteId :=
      tryCatch
        (let* sectionDetails :=
           issue (GetSection sectionId) (getSection env sectionId) in
         if truthyZ (sec_suite_id sectionDetails) then
           log Verbose ("Section " +:+ showZ sectionId +:+ " belongs to suite "
                        +:+ showZ (sec_suite_id sectionDetails)) ;;
           ret (Some (sec_suite_id sectionDetails))
         else ret testrailSuiteId)
        (fun message =>
           log Warning ("Could not fetch section details: " +:+ message
                        +:+ ". Proceeding without suite_id...") ;;
           ret testrailSuiteId) in
    ret (sectionId, suiteId)
  else throw "Either suite ID or section ID must be provided".

(** Steps 1 to 5, once the section is known. *)
Definition syncInto (jiraKey : string) (testrailProjectId : Z) (dryRun : bool)
    (sectionId : Z) (testrailSuiteId : option Z) : Do SyncResult :=
  log Info ("Fetching Jira ticket: " +:+ jiraKey) ;;
  let* ticket := issue (FetchTicket jiraKey) (fetchTicket env jiraKey) in
  modify (setTicket ticket) ;;
  log Success ("Fetched ticket: " +:+ jt_key ticket +:+ " - " +:+ jt_summary ticket) ;;
  log Info "Parsing Gherkin scenarios from ticket description..." ;;
  log Verbose ("Description length: " +:+ showNat (String.length (jt_description ticket))
               +:+ " characters") ;;
  log Verbose ("Description preview (first 500 chars): "
               +:+ take 500 (jt_description ticket)) ;;
  let scenarios := parseScenarios (jt_description ticket) in
  modify (setFound (List.length scenarios)) ;;
  if List.length scenarios =? 0 then
    log Warning "No Gherkin scenarios found in ticket description." ;;
    getResult
  else
    log Success ("Found " +:+ showNat (List.length scenarios) +:+ " scenario(s)") ;;
    log Info ("Fetching existing test cases from TestRail section "
              +:+ showZ sectionId +:+ "...") ;;
    let* existingTestCases :=
      issue (GetTestCases testrailProjectId sectionId (orUndefined testrailSuiteId))
            (getTestCases env testrailProjectId sectionId (orUndefined testrailSuiteId)) in
    reconcile env dryRun jiraKey ticket sectionId scenarios existingTestCases.

(** The outer [catch]: the message is logged and recorded, the error
    thrown again. *)
Definition recordAndRethrow (message : string) : Do SyncResult :=
  let errorMsg := orStr message "Unknown error occurred" in
  log Error ("Sync failed: " +:+ errorMsg) ;;
  modify (pushError errorMsg) ;;
  throw message.

Definition syncTicketToTestRail (jiraKey : string) (testrailProjectId : Z)
    (testrailSuiteId testrailSectionId : option Z) (sectionName : option string)
    (dryRun : bool) : Do SyncResult :=
  modify (fun _ => emptyResult) ;;
  tryCatch
    (let* (sectionId, testrailSuiteId) :=
       resolveSection testrailProjectId testrailSuiteId testrailSectionId sectionName in
     syncInto jiraKey testrailProjectId dryRun sectionId testrailSuiteId)
    recordAndRethrow.

End Run.

End SyncServiceV1.

(* ===================================================================== *)
(** * The command line ([src/index.ts]) *)
(* ===================================================================== *)

Module Cli.

Import Js Regex GherkinParser TestRail SyncService Num Config Rest.

(** The options of [sync] as the option parser hands them over: a value
    option is a string when given, a flag is a boolean. *)
Record SyncOptions := mkSyncOptions {
  o_suiteId : option string;
  o_suiteName : option string;
  o_sectionId : option string;
  o_sectionName : option string;
  o_createSuite : bool;
  o_createSection : bool;
  o_projectId : option string;
  o_dryRun : bool;
  o_verbose : bool
}.

(** The options of [delete-suite]. *)
Record DeleteOptions := mkDeleteOptions {
  d_projectId : option string;
  d_dryRun : bool;
  d_verbose : bool
}.

(** Truthiness of an option that holds a value. *)
Definition given (value : option string) : bool :=
  match value with Some v => truthyStr v | None => false end.

(** [[A-Z]] *)
Definition upperCase : regex :=
  alts (List.map (fun c => RAtom (Lit c))
          (list_ascii_of_string "ABCDEFGHIJKLMNOPQRSTUVWXYZ")).

(** [/^[A-Z]+-\d+$/] *)
Definition jiraKeyPattern : regex :=
  seqs [RBol; plus upperCase; RAtom (Lit "-"); plus (RAtom ClassD); REol].

(** [options.id ? parseInt(options.id, 10) : undefined], as an argument of
    the orchestrator. *)
Definition idArgument (value : option string) : option Z := toId (parseIfSet value).

(** The project id when it is truthy. *)
Definition usableProjectId (projectId : option num) : option Z :=
  match projectId with
  | Some (Int z) => if truthyZ z then Some z else None
  | _ => None
  end.

Section Sync.

Context {W : Type} (env : Env W).

(** [config.testrail.projectId], and the stack that the runtime gives for
    an error of a given message (empty when there is none). *)
Context (configProjectId : option num) (stackOf : string -> string).

Declare Scope cli_scope.
Notation "'let*' x ':=' m 'in' k" := (bind m (fun x => k))
  (at level 10, x pattern, m at level 200, k at level 200) : cli_scope.
Notation "m ';;' k" := (bind m (fun _ => k))
  (at level 100, k at level 200, right associativity) : cli_scope.
Local Open Scope cli_scope.

Local Abbreviation Do := (M (W := W)).

(** What the command prints once the run has returned, and its exit code. *)
Definition report (options : SyncOptions) (result : SyncResult) : Do Z :=
  log Info "" ;;
  if scenariosFound result =? 0 then
    log Warning "No scenarios were found in the Jira ticket description." ;;
    log Info "Make sure the ticket contains Gherkin-style scenarios like:" ;;
    log Info "  Scenario 1: User login" ;;
    log Info "  When user enters credentials" ;;
    log Info "  Then user is logged in" ;;
    ret 0%Z
  else if 0 <? List.length (errors result) then
    log Error (nl +:+ "Errors occurred during sync:") ;;
    forEach (errors result) (fun e => log Error ("  - " +:+ e)) ;;
    ret 1%Z
  else
    (if o_dryRun options then
       log Success (nl +:+ checkMark
                    +:+ " Dry run completed successfully. Use without --dry-run to apply changes.")
     else log Success (nl +:+ checkMark +:+ " Sync completed successfully!")) ;;
    ret 0%Z.

(** What the command prints before the run. *)
Definition announce (jiraKey : string) (projectId : Z) (options : SyncOptions) : Do unit :=
  (if negb (test fNone jiraKeyPattern jiraKey) then
     log Warning ("Jira key " +:+ quoted jiraKey
                  +:+ " doesn't match expected format (e.g., PROJ-123). Proceeding anyway...")
   else ret tt) ;;
  log Info ("Starting sync: " +:+ jiraKey +:+ " " +:+ arrow +:+ " TestRail Project "
            +:+ showZ projectId) ;;
  (if given (o_suiteId options) then
     log Info ("Using suite ID: " +:+ default "" (o_suiteId options)) ;;
     (if given (o_sectionName options) then
        log Info ("Looking for section: " +:+ quoted (default "" (o_sectionName options)))
      else ret tt)
   else if given (o_suiteName options) then
     log Info ("Using suite name: " +:+ quoted (default "" (o_suiteName options))) ;;
     (if o_createSuite options
      then log Info "Will create suite if it doesn't exist" else ret tt) ;;
     (if given (o_sectionName options) then
        log Info ("Looking for section: " +:+ quoted (default "" (o_sectionName options))) ;;
        (if o_createSection options
         then log Info "Will create section if it doesn't exist" else ret tt)
      else ret tt)
   else
     log Info ("Using section ID: " +:+ default "" (o_sectionId options))) ;;
  (if o_dryRun options
   then log Warning "Running in DRY RUN mode - no changes will be made" else ret tt) ;;
  log Info "".

(** A check that fails: the message, then [process.exit(1)]. *)
Definition refuse (text : string) : Do Z := log Error text ;; ret 1%Z.

(** The action of [sync]: the exit code of the process. *)
Definition syncAction (jiraKey : string) (options : SyncOptions) : Do Z :=
  tryCatch
    (let projectId :=
       if given (o_projectId options)
       then Some (parseInt10 (default "" (o_projectId options)))
       else configProjectId in
     match usableProjectId projectId with
     | None =>
         refuse "TestRail project ID is required. Provide it via --project-id or TESTRAIL_PROJECT_ID in .env"
     | Some projectId =>
         if negb (given (o_suiteId options)) && negb (given (o_suiteName options))
            && negb (given (o_sectionId options)) then
           refuse "Either --suite-id, --suite-name, or --section-id must be provided."
         else if given (o_suiteId options) && given (o_suiteName options) then
           refuse "Cannot specify both --suite-id and --suite-name. Use only one."
         else if given (o_suiteId options) && given (o_sectionId options) then
           refuse "Cannot specify both --suite-id and --section-id. Use only one."
         else if given (o_suiteName options) && given (o_sectionId options) then
           refuse "Cannot specify both --suite-name and --section-id. Use only one."
         else if o_createSuite options && negb (given (o_suiteName options)) then
           refuse "--create-suite can only be used with --suite-name."
         else if given (o_sectionName options) && negb (given (o_suiteId options))
                 && negb (given (o_suiteName options)) then
           refuse "--section-name can only be used with --suite-id or --suite-name."
         else
           announce jiraKey projectId options ;;
           let* result :=
             syncTicketToTestRail env jiraKey projectId
               (idArgument (o_suiteId options)) (idArgument (o_sectionId options))
               (o_sectionName options) (o_dryRun options) (o_suiteName options)
               (o_createSuite options) (o_createSection options) in
           report options result
     end)
    (fun message =>
       log Error (nl +:+ crossMark +:+ " Sync failed: " +:+ message) ;;
       (if o_verbose options && truthyStr (stackOf message)
        then log Error (stackOf message) else ret tt) ;;
       ret 1%Z).

End Sync.

Section Delete.

Context {W B : Type} (api : Api W B) (stackOf : string -> string).

Declare Scope delete_scope.
Notation "'let*' x ':=' m 'in' k" := (andThen m (fun x => k))
  (at level 10, x pattern, m at level 200, k at level 200) : delete_scope.
Notation "m ';;' k" := (andThen m (fun _ => k))
  (at level 100, k at level 200, right associativity) : delete_scope.
Local Open Scope delete_scope.

Local Abbreviation Do := (C (W := W) (B := B)).

(** The lines that say what a deletion removes. *)
Definition consequences : Do unit :=
  say Warning "   - The suite itself" ;;
  say Warning "   - All sections in the suite" ;;
  say Warning "   - All test cases in the suite" ;;
  say Warning "   - All baselines associated with the suite" ;;
  say Warning (warningSign
               +:+ "  NOTE: Suite deletion is NOT allowed in Single Suite Mode projects.").

(** The action of [delete-suite]: the exit code of the process. *)
Definition deleteSuiteAction (suiteId : string) (options : DeleteOptions) : Do Z :=
  attempt
    (match parseInt10 suiteId with
     | NaN =>
         say Error ("Invalid suite ID: " +:+ suiteId +:+ ". Must be a number.") ;;
         pure 1%Z
     | Int suiteIdNum =>
         if d_dryRun options then
           say Warning "Running in DRY RUN mode - no changes will be made" ;;
           say Info ("[DRY RUN] Would delete suite ID: " +:+ showZ suiteIdNum) ;;
           say Warning (warningSign
                        +:+ "  WARNING: Deleting a suite will also delete:") ;;
           consequences ;;
           say Success (nl +:+ checkMark
                        +:+ " Dry run completed. Use without --dry-run to delete the suite.") ;;
           pure 0%Z
         else
           say Warning (warningSign +:+ "  WARNING: You are about to delete suite ID "
                        +:+ showZ suiteIdNum) ;;
           say Warning (warningSign +:+ "  This will permanently delete:") ;;
           consequences ;;
           say Warning (warningSign +:+ "  This action cannot be undone!") ;;
           say Info "" ;;
           TestRailClient.deleteSuite api suiteIdNum ;;
           say Success (nl +:+ checkMark +:+ " Suite ID " +:+ showZ suiteIdNum
                        +:+ " deleted successfully!") ;;
           pure 0%Z
     end)
    (fun e =>
       say Error (nl +:+ crossMark +:+ " Delete failed: " +:+ message e) ;;
       (if d_verbose options && truthyStr (stackOf (message e))
        then say Error (stackOf (message e)) else pure tt) ;;
       pure 1%Z).

End Delete.

End Cli.

(* ===================================================================== *)
(** * Vocabulary of the further properties *)
(* ===================================================================== *)

Module Props.

Import Js Regex GherkinParser TestRail SyncService Num Config Rest.

(** The variables that the program cannot do without. *)
Definition required : list string :=
  ["JIRA_URL"; "JIRA_EMAIL"; "JIRA_API_TOKEN";
   "TESTRAIL_URL"; "TESTRAIL_USERNAME"; "TESTRAIL_API_KEY"].

(** The value that a configuration holds for a required variable. *)
Definition held (c : Config) (variable : string) : string :=
  if String.eqb variable "JIRA_URL" then jira_url (cfg_jira c)
  else if String.eqb variable "JIRA_EMAIL" then jira_email (cfg_jira c)
  else if String.eqb variable "JIRA_API_TOKEN" then jira_apiToken (cfg_jira c)
  else if String.eqb variable "TESTRAIL_URL" then testrail_url (cfg_testrail c)
  else if String.eqb variable "TESTRAIL_USERNAME" then testrail_username (cfg_testrail c)
  else testrail_apiKey (cfg_testrail c).

(** A creation or an update of a case, as a call on the TestRail client. *)
Inductive CaseCall :=
| Create (sectionId : Z) (testCase : TestRailClient.NewTestCase)
| Update (caseId : Z) (testCase : TestRailClient.PartialTestCase).

(** The client after a call, whether the call returns or throws. *)
Definition perform {W B : Type} (api : Api W B) (call : CaseCall) (st : Net W) : Net W :=
  match call with
  | Create sectionId testCase =>
      snd (TestRailClient.createTestCase api sectionId testCase st)
  | Update caseId testCase =>
      snd (TestRailClient.updateTestCase api caseId testCase st)
  end.

Definition performAll {W B : Type} (api : Api W B) (calls : list CaseCall) (st : Net W)
  : Net W :=
  fold_left (fun st call => perform api call st) calls st.

(** The request for the custom fields, and the requests that post. *)
Definition asksFields (r : Request) : bool :=
  match r with
  | Get url => String.eqb url "/index.php?/api/v2/get_case_fields"
  | Post _ _ => false
  end.

Definition posts (r : Request) : bool := negb (isGet r).

(** The number of requests of a kind. *)
Definition count (kind : Request -> bool) (requests : list Request) : nat :=
  List.length (List.filter kind requests).

(** A property of the summary that [m] keeps, from any state. *)
Definition keeps {W A : Type} (I : SyncResult -> Prop) (m : M (W := W) A) : Prop :=
  forall st, I (result st) -> I (result (snd (m st))).

(** A call that resolves the suite or the section. *)
Definition setupCall (c : Call) : Prop :=
  match c with
  | FindSuiteByName _ _ | CreateSuite _ _ | GetSuites _
  | GetSections _ _ | GetSection _ | CreateSection _ _ _ _ => True
  | _ => False
  end.

(** A call that creates, updates or deletes a case. *)
Definition changesCase (c : Call) : bool :=
  match c with
  | CreateTestCase _ _ | UpdateTestCase _ _ | DeleteTestCase _ => true
  | _ => false
  end.

(** An error that carries a message only: neither a response nor the mark
    of a request. *)
Definition plain {B : Type} (e : Failure B) : Prop :=
  response e = None /\ request e = false.

(** A computation of a client that, when it throws, throws such an error. *)
Definition plainly {W B A : Type} (m : C (W := W) (B := B) A) : Prop :=
  forall st, match fst (m st) with inl e => plain e | inr _ => True end.

(** Every request that [m] sends, from any state, satisfies [P]. *)
Definition sends {W B A : Type} (P : Request -> Prop) (m : C (W := W) (B := B) A) : Prop :=
  forall st, exists rs,
    net_requests (snd (m st)) = net_requests st ++ rs /\ Forall P rs.

(** The address of the listing of the cases of a section. *)
Definition casesUrl (projectId sectionId : Z) (suiteId : option Z) : string :=
  "/index.php?/api/v2/get_cases/" +:+ showZ projectId
  +:+ "&section_id=" +:+ showZ sectionId
  +:+ match suiteId with
      | Some suite => if (suite =? 0)%Z then "" else "&suite_id=" +:+ showZ suite
      | None => ""
      end.

(** The error of a listing of cases whose [cases] is not an array. *)
Definition wrappedFormatError {B : Type} : Failure B :=
  error ("Error fetching test cases: "
         +:+ "Invalid response format from TestRail API. Expected cases array.").

(** The cases of a body that is an array, no case otherwise. *)
Definition bareCases (body : Listing TestRailTestCaseResponse)
  : list TestRailTestCaseResponse :=
  match body with LArray items => items | _ => [] end.

(** A server for one project in single suite mode: it refuses a new suite
    with the status 403, and lists its suites, the master suite last. *)
Definition refusal : Failure string :=
  mkFailure "Request failed with status code 403"
    (Some (mkResponse 403 "Forbidden"
             (Some "This project only supports a single test suite.")))
    true.

Definition singleSuiteApi : Api unit string := {|
  get_issue := fun _ w => (inl refusal, w);
  get_cases := fun _ w => (inr (LArray []), w);
  get_case_fields := fun _ w => (inr None, w);
  get_sections := fun _ w => (inr (LArray []), w);
  get_section := fun _ w => (inl refusal, w);
  get_suites := fun _ w =>
    (inr (LObject [("offset", LScalar (SNum 0));
                   ("suites", LArray [mkSuite 9 "Baseline 2"; mkSuite 4 "Master";
                                      mkSuite 7 "Baseline 1"])]), w);
  post_case := fun _ _ w => (inl refusal, w);
  post_suite := fun _ _ w => (inl refusal, w);
  post_section := fun _ _ w => (inl refusal, w);
  post_delete := fun _ _ w => (inl refusal, w);
  body_error := fun body => Some body;
  body_message := fun _ => None;
  body_firstErrorMessage := fun _ => None;
  body_keyCount := fun _ => 1;
  stringifyBody := fun body => body;
  prettyBody := fun body => body;
  prettyPayload := fun _ => "";
  prettyCase := fun _ => "";
  stringifyCases := fun _ => "";
  stringifySections := fun _ => "";
  textOfSections := fun _ => ""
|}.

Definition demoConfig : Config :=
  mkConfig (mkJiraConfig "https://jira.example" "me@example.com" "token" false)
    (mkTestRailConfig "https://testrail.example" "me@example.com" "key" (Some (Int 2))).

Definition idle : Net unit := mkNet tt [] [] None.

(** How many of the three options that say where the run works are given. *)
Definition targets (options : Cli.SyncOptions) : nat :=
  List.length (List.filter Cli.given
                 [Cli.o_suiteId options; Cli.o_suiteName options; Cli.o_sectionId options]).

(** The checks of [sync] on its options: one target; the creation of a
    suite only with a suite name; a section name only under a suite. *)
Definition accepted (options : Cli.SyncOptions) : bool :=
  (targets options =? 1)
  && implb (Cli.o_createSuite options) (Cli.given (Cli.o_suiteName options))
  && implb (Cli.given (Cli.o_sectionName options))
       (Cli.given (Cli.o_suiteId options) || Cli.given (Cli.o_suiteName options)).

(** The exit code of [sync] for the outcome of a run. *)
Definition exitCode (outcome : string + SyncResult) : Z :=
  match outcome with
  | inl _ => 1%Z
  | inr summary =>
      if (scenariosFound summary =? 0) || (List.length (errors summary) =? 0)
      then 0%Z else 1%Z
  end.

(** What holds of the summary of every run that returns: an error for
    each skipped action; in a real run an identifier for each case
    created or updated, in a dry run none; the ticket, and the number of
    scenarios of its description. *)
Definition consistent (dryRun : bool) (summary : SyncResult) : Prop :=
  List.length (errors summary) = scenariosSkipped summary /\
  List.length (testCaseIds summary)
  = (if dryRun then 0 else scenariosCreated summary + scenariosUpdated summary) /\
  exists ticket,
    jiraTicket summary = Some ticket /\
    scenariosFound summary = List.length (parseScenarios (jt_description ticket)).

(** A call that, when it creates or updates a case, sends the case built
    from a scenario of the ticket: its title is the name of the scenario,
    its references the key of the ticket. *)
Definition builtFrom (ticket : JiraTicket) (c : Call) : Prop :=
  match c with
  | CreateTestCase _ testCase | UpdateTestCase _ testCase =>
      exists scenario,
        In scenario (parseScenarios (jt_description ticket)) /\
        testCase = buildTestCase ticket (tc_section_id testCase) scenario
  | _ => True
  end.

(** The names [Scenario 1] to [Scenario n], in order. *)
Definition numbered (n : nat) : list string :=
  List.map (fun k => "Scenario " +:+ showNat k) (List.seq 1 n).

(** A step that starts with a step keyword and white space, in any case. *)
Definition keyworded (step : string) : Prop := test fI stepLine step = true.

(** A relation between the world before and the world after that every
    method which a run may call respects: every method in a real run, the
    methods that read in a dry run. *)
Record respects {W : Type} (env : Env W) (dryRun : bool) (R : W -> W -> Prop) : Prop := {
  respects_refl : forall w, R w w;
  respects_trans : forall a b c, R a b -> R b c -> R a c;
  respects_fetchTicket : forall jiraKey w, R w (snd (fetchTicket env jiraKey w));
  respects_findSuiteByName :
    forall projectId suiteName w, R w (snd (findSuiteByName env projectId suiteName w));
  respects_getSuites : forall projectId w, R w (snd (getSuites env projectId w));
  respects_getSections :
    forall projectId suiteId w, R w (snd (getSections env projectId suiteId w));
  respects_getSection : forall sectionId w, R w (snd (getSection env sectionId w));
  respects_getTestCases :
    forall projectId sectionId suiteId w,
      R w (snd (getTestCases env projectId sectionId suiteId w));
  respects_createSuite :
    dryRun = false ->
    forall projectId suiteName w, R w (snd (createSuite env projectId suiteName w));
  respects_createSection :
    dryRun = false ->
    forall projectId suiteId sectionName parentId w,
      R w (snd (createSection env projectId suiteId sectionName parentId w));
  respects_createTestCase :
    dryRun = false ->
    forall sectionId testCase w, R w (snd (createTestCase env sectionId testCase w));
  respects_updateTestCase :
    dryRun = false ->
    forall caseId testCase w, R w (snd (updateTestCase env caseId testCase w));
  respects_deleteTestCase :
    dryRun = false -> forall caseId w, R w (snd (deleteTestCase env caseId w))
}.

(** The world after [m] is related to the world before, from any state. *)
Definition moves {W A : Type} (R : W -> W -> Prop) (m : M (W := W) A) : Prop :=
  forall st, R (world st) (world (snd (m st))).

(** From one state of a client to a later one, only requests that read
    have been sent. *)
Definition onlyReads {W : Type} (before after : Net W) : Prop :=
  exists requests,
    net_requests after = net_requests before ++ requests /\
    Forall (fun r => isGet r = true) requests.

(** A call that creates a suite only when the creation of suites is
    enabled, and a section only when the creation of sections is. *)
Definition permitted (createSuiteIfMissing createSectionIfMissing : bool) (c : Call)
  : Prop :=
  match c with
  | CreateSuite _ _ => createSuiteIfMissing = true
  | CreateSection _ _ _ _ => createSectionIfMissing = true
  | _ => True
  end.

(** A number that a double holds exactly, whatever digits spelled it:
    [NaN], or an integer of absolute value at most 2^53.  On such a
    number [parseInt] and the printing of a template agree with the
    integers. *)
Definition exactNumber (n : Num.num) : Prop :=
  match n with
  | Num.NaN => True
  | Num.Int z => (Z.abs z <= 2 ^ 53)%Z
  end.

(** A text made of decimal digits, and a text that starts with one. *)
Fixpoint allDigits (s : string) : bool :=
  match s with
  | String c t => isDigit c && allDigits t
  | EmptyString => true
  end.

Definition digitAhead (s : string) : bool :=
  match s with
  | String c _ => isDigit c
  | EmptyString => false
  end.

(** Two states of a run that differ at most in their log. *)
Definition sameButLog {W : Type} (a b : St (W := W)) : Prop :=
  world a = world b /\ calls a = calls b /\ result a = result b.

(** Two computations that do the same from states that differ at most in
    their log: they end in such states, and both return the same value or
    both throw the same error. *)
Definition alike {W A : Type} (m1 m2 : M (W := W) A) : Prop :=
  forall s1 s2, sameButLog s1 s2 ->
    sameButLog (snd (m1 s1)) (snd (m2 s2)) /\ fst (m1 s1) = fst (m2 s2).

(** A computation that returns [a] from any state and changes the log at
    most. *)
Definition settlesOn {W A : Type} (m : M (W := W) A) (a : A) : Prop :=
  forall s, exists s', m s = (inr a, s') /\ sameButLog s' s.

(** A text that a node of a document carries: the text of a text node, or
    a text carried by a child of a node that is neither a text node nor a
    hard break. *)
Inductive carries : AdfNode -> string -> Prop :=
| carries_text (text : string) (content : option (list AdfNode)) :
    carries (Node "text" (Some text) content) text
| carries_child (type : string) (text : option string) (children : list AdfNode)
    (child : AdfNode) (carried : string) :
    type <> "text" -> type <> "hardBreak" ->
    In child children -> carries child carried ->
    carries (Node type text (Some children)) carried.

(** The sections that the segments of a path name, one after the other:
    each is the first section of the listing that bears the segment as
    its normalized name under the section before it, the first of them at
    top level. *)
Fixpoint followsPath (sections : list TestRailSection) (parent : option Z)
    (segments : list string) (chain : list TestRailSection) : Prop :=
  match segments, chain with
  | [], [] => True
  | segment :: segments', s :: chain' =>
      List.find (isChild segment parent) sections = Some s /\
      followsPath sections (Some (sec_id s)) segments' chain'
  | _, _ => False
  end.

End Props.
(* ===================================================================== *)
(** * Properties of the parser *)
(* ===================================================================== *)

Import Js Regex GherkinParser TestRail SyncService Spec.

(** ** Every record has a step *)

Lemma scenarioOfMatch_hasStep m scenarios :
  Forall hasStep scenarios -> Forall hasStep (scenarioOfMatch m scenarios).
Proof.
  intros Hacc. unfold scenarioOfMatch.
  destruct (extractSteps (default "" (group 3 m))) as [|step more] eqn:Hsteps.
  - exact Hacc.
  - apply Forall_app. split; [exact Hacc|].
    constructor; [|constructor]. unfold hasStep. simpl. lia.
Qed.

Lemma primaryLoop_hasStep fuel description :
  forall lastIndex scenarios,
    Forall hasStep scenarios ->
    Forall hasStep (primaryLoop fuel description lastIndex scenarios).
Proof.
  induction fuel as [|fuel IH]; intros lastIndex scenarios Hacc; simpl.
  - exact Hacc.
  - destruct (exec fGI scenarioPattern description lastIndex) as [m|].
    + apply IH. now apply scenarioOfMatch_hasStep.
    + exact Hacc.
Qed.

Lemma fallbackLoop_hasStep fuel description :
  forall lastIndex scenarioIndex scenarios,
    Forall hasStep scenarios ->
    Forall hasStep (fallbackLoop fuel description lastIndex scenarioIndex scenarios).
Proof.
  induction fuel as [|fuel IH]; intros lastIndex scenarioIndex scenarios Hacc; simpl.
  - exact Hacc.
  - destruct (exec fGIS whenThenPattern description lastIndex) as [m|]; [|exact Hacc].
    destruct (fallbackSteps m) as [|step more] eqn:Hsteps.
    + now apply IH.
    + apply IH. apply Forall_app. split; [exact Hacc|].
      constructor; [|constructor]. unfold hasStep. simpl. lia.
Qed.

Lemma parseScenarios_cases description :
  parseScenarios description = [] \/
  (primaryScenarios description <> [] /\
   parseScenarios description = primaryScenarios description) \/
  (primaryScenarios description = [] /\
   parseScenarios description = parseFallbackScenarios description).
Proof.
  unfold parseScenarios.
  destruct (negb (truthyStr description) || (String.length (trim description) =? 0));
    [now left|].
  destruct (primaryScenarios description) as [|s l] eqn:Hp.
  - right; right. now split.
  - right; left. now split.
Qed.

(** C7. Whatever the description, every record that [parseScenarios]
    returns, from the primary pass or from the fallback pass, has at least
    one step; a marker followed at once by another marker gives no record
    of its own: two bare markers give no record, and a titled marker
    followed by a complete scenario gives the record of that scenario only. *)
Theorem every_record_has_a_step :
  (forall description, Forall hasStep (parseScenarios description)) /\
  (parseScenarios (Demo.lines ["Scenario:"; "Scenario:"]) = []) /\
  (parseScenarios (Demo.lines ["Scenario: A"; "Scenario: B"; "When x"; "Then y"])
   = [mkScenario "B" ["When x"; "Then y"] "y"]).
Proof.
  split; [|split; vm_compute; reflexivity].
  intros description.
  destruct (parseScenarios_cases description) as [H|[[_ H]|[_ H]]]; rewrite H.
  - constructor.
  - apply primaryLoop_hasStep. constructor.
  - apply fallbackLoop_hasStep. constructor.
Qed.

(** A bare marker takes the line of the next marker as its title: the
    record of the match carries the steps that follow. *)
Example bare_marker_takes_next_title :
  parseScenarios (Demo.lines ["Scenario:"; "Scenario: B"; "When x"; "Then y"])
  = [mkScenario "Scenario: B" ["When x"; "Then y"] "y"].
Proof. vm_compute. reflexivity. Qed.

(** ** The examples of the specification *)

(** C1, as the specification states it: on Format 1 the parser does not
    return the record with the two first steps and the two-line expected
    result. *)
Lemma format1_not_as_expected : parseScenarios Demo.format1 <> [format1Expected].
Proof. vm_compute. intros H. discriminate H. Qed.

(** C1. On Format 1 [parseScenarios] returns exactly one record, named
    User login, whose steps are the four step lines in order and whose
    expected result is the last Then step without its keyword; the payload
    built from that record has the two steps before the Then step, each
    with an empty expected text, and as expected result the Then step and
    the And step after it, keywords kept, joined by a line break. *)
Theorem format1_parsed :
  parseScenarios Demo.format1 = [format1Parsed] /\
  forall ticket sectionId,
    tc_steps (buildTestCase ticket sectionId format1Parsed)
    = [mkStep "When user enters valid credentials" "";
       mkStep "And clicks login button" ""] /\
    tc_expected (buildTestCase ticket sectionId format1Parsed)
    = "Then user is logged in" +:+ nl +:+ "And redirected to dashboard".
Proof.
  split; [vm_compute; reflexivity|].
  intros ticket sectionId. split; vm_compute; reflexivity.
Qed.

(** The record that the specification expects on the input without
    marker, with the keyword in its expected result, is not what the code
    returns there. *)
Lemma no_marker_not_as_expected :
  ~ exists s, parseScenarios Demo.noMarker = [s] /\ name s = "Scenario 1" /\
              expectedResult s = "Then error message is displayed".
Proof.
  intros [s [Hs [_ He]]]. vm_compute in Hs.
  injection Hs as Hs. subst s. discriminate He.
Qed.

(** C5. The code at the input without marker of the specification:
    [parseScenarios] returns one record, named Scenario 1, whose expected
    result is the text of the last step without the keyword [Then],
    because the fallback pass collects the steps without their keywords.
    [extractSteps], the collector of the primary pass, keeps the keywords
    of the same two lines, and the last step it collects is the expected
    result that the specification names. *)
Theorem no_marker_parsed :
  parseScenarios Demo.noMarker = [noMarkerParsed] /\
  expectedResult noMarkerParsed = "error message is displayed" /\
  extractSteps Demo.noMarker
  = ["When user enters invalid credentials"; "Then error message is displayed"] /\
  lastStr (extractSteps Demo.noMarker) = "Then error message is displayed".
Proof. repeat split; vm_compute; reflexivity. Qed.

(* ===================================================================== *)
(** * The matcher: progress, and the bounds of its loops *)
(* ===================================================================== *)

Lemma advances_refl x : advances x x.
Proof. unfold advances. lia. Qed.

Lemma advances_trans x y z : advances x y -> advances y z -> advances x z.
Proof. unfold advances. lia. Qed.

Lemma advances_caps x y cs : advances x y -> advances x (RState (pos y) (rest y) cs).
Proof. unfold advances. simpl. lia. Qed.

Lemma advances_from_caps x y cs : advances (RState (pos x) (rest x) cs) y -> advances x y.
Proof. unfold advances. simpl. lia. Qed.

(** From [x] to [y] through a state in between. *)
Ltac chain := eapply advances_trans; eassumption.

(** The continuation is called on the state at hand. *)
Ltac stays x := exists x; split; [assumption | apply advances_refl].

Lemma repeatMatcher_reaches m gs greedy k :
  reaches m ->
  forall fuel min max x z,
    repeatMatcher m gs greedy k fuel min max x = Some z ->
    exists y, k y = Some z /\ advances x y.
Proof.
  intros Hm. induction fuel as [|fuel IH]; intros min max x z; simpl; [discriminate|].
  destruct (isZeroMax max); [intros H; stays x|].
  set (d := fun y => if (min =? 0) && (pos y =? pos x) then None
                     else repeatMatcher m gs greedy k fuel (Nat.pred min) (Nat.pred <$> max) y).
  set (xr := RState (pos x) (rest x) (dropCaps gs (caps x))).
  assert (Hiter : m xr d = Some z -> exists y, k y = Some z /\ advances x y).
  { intros H. apply Hm in H as (y1 & Hd & Hadv). unfold d in Hd.
    destruct ((min =? 0) && (pos y1 =? pos x)); [discriminate|].
    apply IH in Hd as (y & Hk & Hadv'). exists y. split; [exact Hk|].
    apply advances_from_caps in Hadv. chain. }
  destruct (negb (min =? 0)); [exact Hiter|].
  destruct (negb greedy).
  - destruct (k x) as [z'|] eqn:Hk; [|exact Hiter].
    intros H. injection H as <-. stays x.
  - destruct (m xr d) as [z'|] eqn:Hmd.
    + intros H. injection H as <-. now apply Hiter.
    + intros H. stays x.
Qed.

Lemma rmatch_reaches f r : reaches (rmatch f r).
Proof.
  induction r as [|a|r1 IH1 r2 IH2|r1 IH1 r2 IH2|n r1 IH1|positive r1 IH1
                 |r1 IH1 min max greedy| |];
    intros x k z; simpl.
  - intros H. stays x.
  - destruct (rest x) as [|ch t] eqn:Hrest; [discriminate|].
    destruct (atomOk f a ch); [|discriminate].
    intros H. eexists. split; [exact H|].
    unfold advances. simpl. rewrite Hrest. simpl. lia.
  - intros H. apply IH1 in H as (y1 & H & Hadv1).
    apply IH2 in H as (y & H & Hadv2). exists y. split; [exact H|chain].
  - destruct (rmatch f r1 x k) as [z'|] eqn:H1.
    + intros H. injection H as <-. now apply IH1.
    + apply IH2.
  - intros H. apply IH1 in H as (y & H & Hadv). eexists. split; [exact H|].
    unfold setCap. now apply advances_caps.
  - destruct (rmatch f r1 x Some) as [y|] eqn:H1; destruct positive; try discriminate.
    + intros H. eexists. split; [exact H|]. apply advances_caps, advances_refl.
    + intros H. stays x.
  - apply repeatMatcher_reaches. exact IH1.
  - destruct (pos x =? 0); [|discriminate]. intros H. stays x.
  - destruct (rest x); [|discriminate]. intros H. stays x.
Qed.

Lemma rmatch_consumes f r :
  consumes r = true ->
  forall x k z, rmatch f r x k = Some z ->
    exists y, k y = Some z /\ advances x y /\ pos x < pos y.
Proof.
  induction r as [|a|r1 IH1 r2 IH2|r1 IH1 r2 IH2|n r1 IH1|positive r1 IH1
                 |r1 IH1 min max greedy| |];
    simpl; try discriminate; intros Hc x k z.
  - destruct (rest x) as [|ch t] eqn:Hrest; [discriminate|].
    destruct (atomOk f a ch); [|discriminate].
    intros H. eexists. split; [exact H|].
    unfold advances. simpl. rewrite Hrest. simpl. lia.
  - intros H. destruct (consumes r1) eqn:Hc1.
    + apply IH1 in H as (y1 & H & Hadv1 & Hlt); [|reflexivity].
      apply rmatch_reaches in H as (y & H & Hadv2). exists y.
      split; [exact H|]. split; [chain|]. destruct Hadv2. lia.
    + simpl in Hc. apply rmatch_reaches in H as (y1 & H & Hadv1).
      apply IH2 in H as (y & H & Hadv2 & Hlt); [|exact Hc]. exists y.
      split; [exact H|]. split; [chain|]. destruct Hadv1. lia.
  - apply andb_prop in Hc as [Hc1 Hc2].
    destruct (rmatch f r1 x k) as [z'|] eqn:H1.
    + intros H. injection H as <-. now apply IH1.
    + now apply IH2.
  - intros H. apply IH1 in H as (y & H & Hadv & Hlt); [|exact Hc].
    eexists. split; [exact H|]. unfold setCap. simpl.
    split; [now apply advances_caps|exact Hlt].
  - apply andb_prop in Hc as [Hc Hc1]. apply andb_prop in Hc as [Hmin Hmax].
    apply Nat.ltb_lt in Hmin. apply negb_true_iff in Hmax.
    replace (min + String.length (rest x) + 1) with (S (min + String.length (rest x))) by lia.
    simpl. rewrite Hmax.
    destruct (min =? 0) eqn:Hz; [apply Nat.eqb_eq in Hz; lia|]. simpl.
    intros H. apply IH1 in H as (y1 & H & Hadv1 & Hlt); [|exact Hc1].
    simpl in Hlt. apply repeatMatcher_reaches in H as (y & H & Hadv2);
      [|apply rmatch_reaches].
    exists y. split; [exact H|]. apply advances_from_caps in Hadv1.
    split; [chain|]. destruct Hadv2. lia.
Qed.

Lemma drop_length n s : n <= String.length s ->
  String.length (drop n s) = String.length s - n.
Proof.
  revert s. induction n as [|n IH]; intros s Hn; simpl.
  - lia.
  - destruct s as [|c t]; simpl in *; [lia|]. apply IH. lia.
Qed.

Lemma scan_bounds f r :
  consumes r = true ->
  forall s idx m, scan f r idx s = Some m ->
    idx <= m_index m /\ m_index m < m_end m /\ m_end m <= idx + String.length s.
Proof.
  intros Hc. induction s as [|c t IH]; intros idx m; simpl; unfold matchAt.
  - destruct (rmatch f r (RState idx "" []) Some) as [y|] eqn:Hm; [|discriminate].
    intros H. injection H as <-. simpl.
    apply (rmatch_consumes f r Hc) in Hm as (y' & Hy & [Hle Hsum] & Hlt).
    injection Hy as ->. simpl in *. lia.
  - destruct (rmatch f r (RState idx (String c t) []) Some) as [y|] eqn:Hm.
    + intros H. injection H as <-. simpl.
      apply (rmatch_consumes f r Hc) in Hm as (y' & Hy & [Hle Hsum] & Hlt).
      injection Hy as ->. simpl in *. lia.
    + intros H. apply IH in H. lia.
Qed.

(** A match of a pattern that consumes ends after [lastIndex], inside the
    input. *)
Lemma exec_bounds f r str lastIndex m :
  consumes r = true ->
  exec f r str lastIndex = Some m ->
  lastIndex < m_end m /\ m_end m <= String.length str.
Proof.
  intros Hc. unfold exec.
  destruct (String.length str <? lastIndex) eqn:Hlt; [discriminate|].
  apply Nat.ltb_ge in Hlt. intros H.
  apply (scan_bounds f r Hc) in H. rewrite drop_length in H by exact Hlt. lia.
Qed.

Lemma exec_past_end f r str lastIndex :
  String.length str < lastIndex -> exec f r str lastIndex = None.
Proof.
  intros H. unfold exec. apply Nat.ltb_lt in H. now rewrite H.
Qed.

(** The [while] loops of the parser end by themselves: past the bound on
    their turns, one more turn changes nothing. *)
Lemma primaryLoop_fuel description :
  forall fuel lastIndex scenarios,
    String.length description < lastIndex + fuel ->
    primaryLoop (S fuel) description lastIndex scenarios
    = primaryLoop fuel description lastIndex scenarios.
Proof.
  induction fuel as [|fuel IH]; intros lastIndex scenarios Hlen.
  - simpl. rewrite exec_past_end by lia. reflexivity.
  - change (primaryLoop (S (S fuel)) description lastIndex scenarios)
      with (match exec fGI scenarioPattern description lastIndex with
            | None => scenarios
            | Some m => primaryLoop (S fuel) description (m_end m)
                          (scenarioOfMatch m scenarios)
            end).
    change (primaryLoop (S fuel) description lastIndex scenarios)
      with (match exec fGI scenarioPattern description lastIndex with
            | None => scenarios
            | Some m => primaryLoop fuel description (m_end m)
                          (scenarioOfMatch m scenarios)
            end).
    destruct (exec fGI scenarioPattern description lastIndex) as [m|] eqn:He;
      [|reflexivity].
    apply exec_bounds in He; [|reflexivity]. apply IH. lia.
Qed.

Lemma fallbackLoop_fuel description :
  forall fuel lastIndex scenarioIndex scenarios,
    String.length description < lastIndex + fuel ->
    fallbackLoop (S fuel) description lastIndex scenarioIndex scenarios
    = fallbackLoop fuel description lastIndex scenarioIndex scenarios.
Proof.
  induction fuel as [|fuel IH]; intros lastIndex scenarioIndex scenarios Hlen.
  - simpl. rewrite exec_past_end by lia. reflexivity.
  - change (fallbackLoop (S (S fuel)) description lastIndex scenarioIndex scenarios)
      with (match exec fGIS whenThenPattern description lastIndex with
            | None => scenarios
            | Some m =>
                match fallbackSteps m with
                | [] => fallbackLoop (S fuel) description (m_end m) scenarioIndex scenarios
                | _ => fallbackLoop (S fuel) description (m_end m) (S scenarioIndex)
                         (scenarios ++
                          [mkScenario ("Scenario " +:+ showNat scenarioIndex)
                             (fallbackSteps m) (orStr (lastStr (fallbackSteps m)) "")])
                end
            end).
    change (fallbackLoop (S fuel) description lastIndex scenarioIndex scenarios)
      with (match exec fGIS whenThenPattern description lastIndex with
            | None => scenarios
            | Some m =>
                match fallbackSteps m with
                | [] => fallbackLoop fuel description (m_end m) scenarioIndex scenarios
                | _ => fallbackLoop fuel description (m_end m) (S scenarioIndex)
                         (scenarios ++
                          [mkScenario ("Scenario " +:+ showNat scenarioIndex)
                             (fallbackSteps m) (orStr (lastStr (fallbackSteps m)) "")])
                end
            end).
    destruct (exec fGIS whenThenPattern description lastIndex) as [m|] eqn:He;
      [|reflexivity].
    apply exec_bounds in He; [|reflexivity].
    destruct (fallbackSteps m); apply IH; lia.
Qed.

(** With any number of turns above the bound the two passes return what
    [parseScenarios] uses. *)
Lemma primaryLoop_enough description extra :
  primaryLoop (S (String.length description) + extra) description 0 []
  = primaryScenarios description.
Proof.
  induction extra as [|extra IH].
  - now rewrite Nat.add_0_r.
  - rewrite <- IH. replace (S (String.length description) + S extra)
      with (S (S (String.length description) + extra)) by lia.
    apply primaryLoop_fuel. lia.
Qed.

Lemma fallbackLoop_enough description extra :
  fallbackLoop (S (String.length description) + extra) description 0 1 []
  = parseFallbackScenarios description.
Proof.
  induction extra as [|extra IH].
  - now rewrite Nat.add_0_r.
  - rewrite <- IH. replace (S (String.length description) + S extra)
      with (S (S (String.length description) + extra)) by lia.
    apply fallbackLoop_fuel. lia.
Qed.

(** ** The bounds of [replace] and [split] are never reached *)

Lemma matchAt_bounds f r idx s m :
  matchAt f r idx s = Some m ->
  m_index m = idx /\ idx <= m_end m /\ m_end m <= idx + String.length s.
Proof.
  unfold matchAt.
  destruct (rmatch f r (RState idx s []) Some) as [y|] eqn:Hm; [|discriminate].
  intros H. injection H as <-. simpl.
  apply rmatch_reaches in Hm as (y' & Hy & [Hle Hsum]).
  injection Hy as ->. simpl in *. lia.
Qed.

Lemma scan_bounds_any f r : forall s idx m,
  scan f r idx s = Some m ->
  idx <= m_index m /\ m_index m <= m_end m /\ m_end m <= idx + String.length s.
Proof.
  induction s as [|c t IH]; intros idx m; simpl.
  - destruct (matchAt f r idx "") as [m'|] eqn:Hm; [|discriminate].
    intros H. injection H as <-. apply matchAt_bounds in Hm. simpl in Hm. lia.
  - destruct (matchAt f r idx (String c t)) as [m'|] eqn:Hm.
    + intros H. injection H as <-. apply matchAt_bounds in Hm. simpl in Hm. lia.
    + intros H. apply IH in H. lia.
Qed.

Lemma exec_bounds_any f r str lastIndex m :
  exec f r str lastIndex = Some m ->
  lastIndex <= m_index m /\ m_index m <= m_end m /\ m_end m <= String.length str.
Proof.
  unfold exec. destruct (String.length str <? lastIndex) eqn:Hlt; [discriminate|].
  apply Nat.ltb_ge in Hlt. intros H. apply scan_bounds_any in H.
  rewrite drop_length in H by exact Hlt. lia.
Qed.

Lemma replaceAllFrom_fuel f r repl str :
  forall fuel from lastIndex,
    String.length str < lastIndex + fuel ->
    replaceAllFrom (S fuel) f r repl str from lastIndex
    = replaceAllFrom fuel f r repl str from lastIndex.
Proof.
  induction fuel as [|fuel IH]; intros from lastIndex Hlen.
  - simpl. rewrite exec_past_end by lia. reflexivity.
  - change (replaceAllFrom (S (S fuel)) f r repl str from lastIndex)
      with (match exec f r str lastIndex with
            | None => drop from str
            | Some m =>
                let next := if m_end m =? m_index m then S (m_end m) else m_end m in
                slice from (m_index m) str +:+ repl +:+
                replaceAllFrom (S fuel) f r repl str (m_end m) next
            end).
    change (replaceAllFrom (S fuel) f r repl str from lastIndex)
      with (match exec f r str lastIndex with
            | None => drop from str
            | Some m =>
                let next := if m_end m =? m_index m then S (m_end m) else m_end m in
                slice from (m_index m) str +:+ repl +:+
                replaceAllFrom fuel f r repl str (m_end m) next
            end).
    destruct (exec f r str lastIndex) as [m|] eqn:He; [|reflexivity].
    apply exec_bounds_any in He. cbv zeta. rewrite IH; [reflexivity|].
    destruct (m_end m =? m_index m) eqn:Hempty.
    + apply Nat.eqb_eq in Hempty. lia.
    + apply Nat.eqb_neq in Hempty. lia.
Qed.

Lemma splitFrom_fuel f r str :
  forall fuel p q,
    p <= q ->
    2 * (String.length str - q) + (if p <? q then 1 else 0) < fuel ->
    splitFrom (S fuel) f r str p q = splitFrom fuel f r str p q.
Proof.
  induction fuel as [|fuel IH]; intros p q Hpq Hfuel; [lia|].
  change (splitFrom (S (S fuel)) f r str p q)
    with (if String.length str <=? q then [drop p str]
          else match matchAt f r q (drop q str) with
               | None => splitFrom (S fuel) f r str p (S q)
               | Some m =>
                   let e := Nat.min (m_end m) (String.length str) in
                   if e =? p then splitFrom (S fuel) f r str p (S q)
                   else slice p q str :: splitFrom (S fuel) f r str e e
               end).
  change (splitFrom (S fuel) f r str p q)
    with (if String.length str <=? q then [drop p str]
          else match matchAt f r q (drop q str) with
               | None => splitFrom fuel f r str p (S q)
               | Some m =>
                   let e := Nat.min (m_end m) (String.length str) in
                   if e =? p then splitFrom fuel f r str p (S q)
                   else slice p q str :: splitFrom fuel f r str e e
               end).
  destruct (String.length str <=? q) eqn:Hq; [reflexivity|].
  apply Nat.leb_gt in Hq.
  assert (Hstep : splitFrom (S fuel) f r str p (S q) = splitFrom fuel f r str p (S q)).
  { apply IH; [lia|]. destruct (p <? q); destruct (p <? S q); lia. }
  destruct (matchAt f r q (drop q str)) as [m|] eqn:Hm; [|exact Hstep].
  apply matchAt_bounds in Hm as (_ & Hle & Hend).
  rewrite drop_length in Hend by lia. cbv zeta.
  destruct (Nat.min (m_end m) (String.length str) =? p) eqn:Hep; [exact Hstep|].
  apply Nat.eqb_neq in Hep. f_equal. apply IH; [lia|].
  rewrite Nat.ltb_irrefl.
  destruct (p <? q) eqn:Hlt; [apply Nat.ltb_lt in Hlt|apply Nat.ltb_ge in Hlt]; lia.
Qed.

(** ** The bound on the iterations of a quantifier is never reached *)

Lemma repeatMatcher_S m gs greedy k fuel min max x :
  repeatMatcher m gs greedy k (S fuel) min max x
  = if isZeroMax max then k x else
    let d := fun y =>
      if (min =? 0) && (pos y =? pos x) then None
      else repeatMatcher m gs greedy k fuel (Nat.pred min) (Nat.pred <$> max) y in
    let xr := RState (pos x) (rest x) (dropCaps gs (caps x)) in
    if negb (min =? 0) then m xr d
    else if negb greedy then
      match k x with Some z => Some z | None => m xr d end
    else
      match m xr d with Some z => Some z | None => k x end.
Proof. reflexivity. Qed.

Lemma repeatMatcher_local m gs greedy :
  local m ->
  forall fuel min max x k k',
    (forall y, advances x y -> k y = k' y) ->
    repeatMatcher m gs greedy k fuel min max x
    = repeatMatcher m gs greedy k' fuel min max x.
Proof.
  intros Hm. induction fuel as [|fuel IH]; intros min max x k k' Hk;
    [reflexivity|].
  rewrite !repeatMatcher_S. cbv zeta.
  rewrite <- (Hk x (advances_refl x)).
  destruct (isZeroMax max); [reflexivity|].
  set (xr := RState (pos x) (rest x) (dropCaps gs (caps x))).
  set (d := fun y => if (min =? 0) && (pos y =? pos x) then None
                     else repeatMatcher m gs greedy k fuel (Nat.pred min)
                            (Nat.pred <$> max) y).
  set (d' := fun y => if (min =? 0) && (pos y =? pos x) then None
                      else repeatMatcher m gs greedy k' fuel (Nat.pred min)
                             (Nat.pred <$> max) y).
  assert (Hd : m xr d = m xr d').
  { apply Hm. intros y Hy. unfold d, d'.
    destruct ((min =? 0) && (pos y =? pos x)); [reflexivity|].
    apply IH. intros y' Hy'. apply Hk.
    apply advances_from_caps in Hy. chain. }
  rewrite Hd. reflexivity.
Qed.

Lemma rmatch_local f r : local (rmatch f r).
Proof.
  induction r as [|a|r1 IH1 r2 IH2|r1 IH1 r2 IH2|n r1 IH1|positive r1 IH1
                 |r1 IH1 min max greedy| |];
    intros x k k' Hk; simpl.
  - apply Hk, advances_refl.
  - destruct (rest x) as [|ch t] eqn:Hrest; [reflexivity|].
    destruct (atomOk f a ch); [|reflexivity].
    apply Hk. unfold advances. simpl. rewrite Hrest. simpl. lia.
  - apply IH1. intros y Hy. apply IH2. intros y' Hy'. apply Hk. chain.
  - rewrite (IH1 x k k' Hk), (IH2 x k k' Hk). reflexivity.
  - apply IH1. intros y Hy. apply Hk. unfold setCap. now apply advances_caps.
  - destruct (rmatch f r1 x Some) as [y|]; destruct positive; try reflexivity.
    + apply Hk. apply advances_caps, advances_refl.
    + apply Hk, advances_refl.
  - apply repeatMatcher_local; assumption.
  - destruct (pos x =? 0); [|reflexivity]. apply Hk, advances_refl.
  - destruct (rest x); [|reflexivity]. apply Hk, advances_refl.
Qed.

(** One more unit of fuel than the bound changes nothing. *)
Lemma repeatMatcher_fuel m gs greedy k :
  local m ->
  forall fuel min max x,
    min + String.length (rest x) + 1 <= fuel ->
    repeatMatcher m gs greedy k (S fuel) min max x
    = repeatMatcher m gs greedy k fuel min max x.
Proof.
  intros Hm. induction fuel as [|fuel IH]; intros min max x Hfuel; [lia|].
  rewrite (repeatMatcher_S m gs greedy k (S fuel)).
  rewrite (repeatMatcher_S m gs greedy k fuel).
  destruct (isZeroMax max); [reflexivity|]. cbv zeta.
  set (xr := RState (pos x) (rest x) (dropCaps gs (caps x))).
  set (d' := fun y => if (min =? 0) && (pos y =? pos x) then None
                      else repeatMatcher m gs greedy k (S fuel) (Nat.pred min)
                             (Nat.pred <$> max) y).
  set (d := fun y => if (min =? 0) && (pos y =? pos x) then None
                     else repeatMatcher m gs greedy k fuel (Nat.pred min)
                            (Nat.pred <$> max) y).
  assert (Hd : m xr d' = m xr d).
  { apply Hm. intros y [Hle Hsum]. unfold d', d. simpl in Hle, Hsum.
    destruct ((min =? 0) && (pos y =? pos x)) eqn:Htest; [reflexivity|].
    apply IH. apply andb_false_iff in Htest.
    destruct Htest as [Hmin|Hpos].
    - apply Nat.eqb_neq in Hmin. lia.
    - apply Nat.eqb_neq in Hpos. lia. }
  rewrite Hd. reflexivity.
Qed.

(** The quantifier of a pattern runs the same with any fuel above the
    bound: the bound is never what stops it. *)
Theorem repeat_fuel_enough f r gs greedy k min max x extra :
  repeatMatcher (rmatch f r) gs greedy k
    (min + String.length (rest x) + 1 + extra) min max x
  = repeatMatcher (rmatch f r) gs greedy k
    (min + String.length (rest x) + 1) min max x.
Proof.
  induction extra as [|extra IH].
  - now rewrite Nat.add_0_r.
  - rewrite <- IH.
    replace (min + String.length (rest x) + 1 + S extra)
      with (S (min + String.length (rest x) + 1 + extra)) by lia.
    apply repeatMatcher_fuel; [apply rmatch_local|lia].
Qed.

(** ** Success depends on the success of what follows *)

Lemma found_or o o' :
  found (match o with Some z => Some z | None => o' end) = found o || found o'.
Proof. now destruct o. Qed.

Lemma repeatMatcher_found m gs greedy :
  (forall x k k', (forall y, found (k y) = found (k' y)) ->
                  found (m x k) = found (m x k')) ->
  forall fuel min max x k k',
    (forall y, found (k y) = found (k' y)) ->
    found (repeatMatcher m gs greedy k fuel min max x)
    = found (repeatMatcher m gs greedy k' fuel min max x).
Proof.
  intros Hm. induction fuel as [|fuel IH]; intros min max x k k' Hk; [reflexivity|].
  rewrite !repeatMatcher_S. cbv zeta.
  destruct (isZeroMax max); [apply Hk|].
  set (xr := RState (pos x) (rest x) (dropCaps gs (caps x))).
  set (d := fun y => if (min =? 0) && (pos y =? pos x) then None
                     else repeatMatcher m gs greedy k fuel (Nat.pred min)
                            (Nat.pred <$> max) y).
  set (d' := fun y => if (min =? 0) && (pos y =? pos x) then None
                      else repeatMatcher m gs greedy k' fuel (Nat.pred min)
                             (Nat.pred <$> max) y).
  assert (Hd : found (m xr d) = found (m xr d')).
  { apply Hm. intros y. unfold d, d'.
    destruct ((min =? 0) && (pos y =? pos x)); [reflexivity|]. now apply IH. }
  destruct (negb (min =? 0)); [exact Hd|].
  destruct (negb greedy); rewrite !found_or, Hd, (Hk x); reflexivity.
Qed.

Lemma rmatch_found f r :
  forall x k k', (forall y, found (k y) = found (k' y)) ->
                 found (rmatch f r x k) = found (rmatch f r x k').
Proof.
  induction r as [|a|r1 IH1 r2 IH2|r1 IH1 r2 IH2|n r1 IH1|positive r1 IH1
                 |r1 IH1 min max greedy| |];
    intros x k k' Hk; simpl.
  - apply Hk.
  - destruct (rest x) as [|ch t]; [reflexivity|].
    destruct (atomOk f a ch); [apply Hk|reflexivity].
  - apply IH1. intros y. now apply IH2.
  - rewrite !found_or, (IH1 x k k' Hk), (IH2 x k k' Hk). reflexivity.
  - apply IH1. intros y. apply Hk.
  - destruct (rmatch f r1 x Some) as [y|]; destruct positive;
      try reflexivity; apply Hk.
  - now apply repeatMatcher_found.
  - destruct (pos x =? 0); [apply Hk|reflexivity].
  - destruct (rest x); [apply Hk|reflexivity].
Qed.

(** What follows a pattern can be replaced by a pattern that succeeds on
    the same states. *)
Lemma seq_found f p q q' :
  (forall y, found (rmatch f q y Some) = found (rmatch f q' y Some)) ->
  forall x, found (rmatch f (RSeq p q) x Some) = found (rmatch f (RSeq p q') x Some).
Proof. intros H x. simpl. now apply rmatch_found. Qed.

(** One white space or more, at the end of a pattern, succeeds exactly
    when one white space does. *)
Lemma plus_ws_found f y :
  found (rmatch f (plus ws) y Some) = found (rmatch f ws y Some).
Proof.
  unfold plus, ws. cbn [rmatch].
  replace (1 + String.length (rest y) + 1) with (S (S (String.length (rest y)))) by lia.
  rewrite repeatMatcher_S. cbn [isZeroMax Nat.eqb negb rest pos]. cbv zeta.
  destruct (rest y) as [|ch t]; [reflexivity|].
  destruct (atomOk f ClassS ch); [|reflexivity].
  rewrite repeatMatcher_S.
  cbn [isZeroMax fmap option_fmap option_map Nat.eqb negb andb Nat.pred].
  cbv zeta. cbn [negb]. rewrite found_or. simpl found. apply orb_true_r.
Qed.

Lemma scan_anchored f r : forall s idx,
  0 < idx -> scan f (RSeq RBol r) idx s = None.
Proof.
  induction s as [|c t IH]; intros idx Hidx; simpl; unfold matchAt; simpl;
    destruct idx as [|idx]; try lia; simpl; [reflexivity|]. apply IH. lia.
Qed.

(** An anchored pattern is tested at the start of the string only. *)
Lemma test_anchored f r s :
  test f (RSeq RBol r) s = found (rmatch f r (RState 0 s []) Some).
Proof.
  unfold test, exec. simpl. destruct s as [|c t]; simpl; unfold matchAt; simpl.
  - now destruct (rmatch f r (RState 0 "" []) Some).
  - destruct (rmatch f r (RState 0 (String c t) []) Some); [reflexivity|].
    now rewrite scan_anchored by lia.
Qed.

(** The test of the code, with [\s+], is the test of rule 5, with [\s]. *)
Lemma isThenStep_rule5 step : isThenStep step = matchesRule5 step.
Proof.
  unfold isThenStep, matchesRule5, thenLine, andThenLine, rule5Then, rule5AndThen.
  cbn [seqs]. rewrite !test_anchored. f_equal.
  - apply seq_found. apply plus_ws_found.
  - apply seq_found. intros y. apply seq_found. intros y'.
    apply seq_found. apply plus_ws_found.
Qed.

(* ===================================================================== *)
(** * The payload of a test case *)
(* ===================================================================== *)

Lemma scanDown_Some steps : forall i k,
  scanDown steps i = Some k ->
  k < i /\ isThenStep (nth k steps "") = true /\
  forall j, k < j < i -> isThenStep (nth j steps "") = false.
Proof.
  induction i as [|i IH]; intros k; simpl; [discriminate|].
  destruct (isThenStep (nth i steps "")) eqn:Hi.
  - intros H. injection H as <-. repeat split; [lia|exact Hi|]. intros j Hj. lia.
  - intros H. apply IH in H as (Hk & Hthen & Hafter).
    repeat split; [lia|exact Hthen|].
    intros j Hj. destruct (Nat.eq_dec j i) as [->|Hne]; [exact Hi|].
    apply Hafter. lia.
Qed.

Lemma scanDown_None steps : forall i,
  scanDown steps i = None ->
  forall j, j < i -> isThenStep (nth j steps "") = false.
Proof.
  induction i as [|i IH]; simpl; intros H j Hj; [lia|].
  destruct (isThenStep (nth i steps "")) eqn:Hi; [discriminate|].
  destruct (Nat.eq_dec j i) as [->|Hne]; [exact Hi|].
  apply IH; [exact H|lia].
Qed.

Lemma lastThenIndex_None steps :
  lastThenIndex steps = None ->
  forall step, In step steps -> isThenStep step = false.
Proof.
  intros H step Hin. apply (In_nth _ _ "") in Hin as (j & Hj & <-).
  now apply (scanDown_None steps (List.length steps)).
Qed.

(** The split of the steps, for any record. *)
Lemma buildTestCase_split ticket sectionId s :
  match lastThenIndex (steps s) with
  | Some k =>
      k < List.length (steps s) /\
      isThenStep (nth k (steps s) "") = true /\
      (forall j, k < j < List.length (steps s) ->
                 isThenStep (nth j (steps s) "") = false) /\
      tc_steps (buildTestCase ticket sectionId s)
      = List.map (fun step => mkStep step "") (firstn k (steps s)) /\
      tc_expected (buildTestCase ticket sectionId s)
      = join nl (skipn k (steps s))
  | None =>
      (forall step, In step (steps s) -> isThenStep step = false) /\
      tc_steps (buildTestCase ticket sectionId s)
      = List.map (fun step => mkStep step "") (steps s) /\
      tc_expected (buildTestCase ticket sectionId s) = expectedResult s
  end.
Proof.
  simpl. unfold convertStepsToTestRailFormat, payloadExpected, expectedResultParts.
  destruct (lastThenIndex (steps s)) as [k|] eqn:Hk.
  - pose proof (scanDown_Some _ _ _ Hk) as (Hlt & Hthen & Hafter).
    repeat split; try assumption.
    assert (Hlen : 0 < List.length (skipn k (steps s))).
    { rewrite length_skipn. lia. }
    apply Nat.ltb_lt in Hlen. now rewrite Hlen.
  - repeat split. now apply lastThenIndex_None.
Qed.

(** The backward loop of [extractExpectedResult] finds nothing exactly when
    no step passes the test of the payload. *)
Lemma lastThenContent_None backward :
  (forall step, In step backward -> isThenStep step = false) ->
  lastThenContent backward = None.
Proof.
  induction backward as [|step more IH]; intros H; simpl; [reflexivity|].
  pose proof (H step (or_introl eq_refl)) as Hs. unfold isThenStep in Hs.
  apply orb_false_iff in Hs as [-> ->]. apply IH.
  intros step' Hin. apply H. now right.
Qed.

Lemma extractExpectedResult_no_then steps :
  steps <> [] ->
  (forall step, In step steps -> isThenStep step = false) ->
  extractExpectedResult steps = stripKeyword (lastStr steps).
Proof.
  intros Hne H. unfold extractExpectedResult.
  rewrite lastThenContent_None.
  - destruct steps; [contradiction|reflexivity].
  - intros step Hin. apply H. now apply in_rev.
Qed.


Lemma primaryLoop_fromExtract fuel description :
  forall lastIndex scenarios,
    Forall fromExtract scenarios ->
    Forall fromExtract (primaryLoop fuel description lastIndex scenarios).
Proof.
  induction fuel as [|fuel IH]; intros lastIndex scenarios Hacc; simpl; [exact Hacc|].
  destruct (exec fGI scenarioPattern description lastIndex) as [m|]; [|exact Hacc].
  apply IH. unfold scenarioOfMatch.
  destruct (extractSteps (default "" (group 3 m))) as [|step more]; [exact Hacc|].
  apply Forall_app. split; [exact Hacc|].
  constructor; [|constructor]. split; [discriminate|reflexivity].
Qed.


Lemma orStr_empty a : orStr a "" = a.
Proof. now destruct a. Qed.

Lemma fallbackLoop_fromLast fuel description :
  forall lastIndex scenarioIndex scenarios,
    Forall fromLast scenarios ->
    Forall fromLast (fallbackLoop fuel description lastIndex scenarioIndex scenarios).
Proof.
  induction fuel as [|fuel IH]; intros lastIndex scenarioIndex scenarios Hacc; simpl;
    [exact Hacc|].
  destruct (exec fGIS whenThenPattern description lastIndex) as [m|]; [|exact Hacc].
  destruct (fallbackSteps m) as [|step more] eqn:Hsteps; [now apply IH|].
  apply IH. apply Forall_app. split; [exact Hacc|].
  constructor; [|constructor]. unfold fromLast. simpl steps. simpl expectedResult.
  apply orStr_empty.
Qed.

(** The splitter on the records as the parser hands them over.  For every
    record that [parseScenarios] returns, with a step list that is not
    empty, the payload splits the steps at [k], the last step that matches
    [^then\s] or [^and\s+then\s] without regard to case: its steps are the
    steps before [k], in order, each with an empty expected text, and its
    expected result is the steps from [k] on, joined by line breaks; when
    no step matches, its steps are all the steps and its expected result
    is the expected result of the record, which the primary pass takes
    from the last step with its leading keyword stripped and the fallback
    pass from the last text it collected. *)
Lemma payload_split description s ticket sectionId :
  In s (parseScenarios description) ->
  steps s <> [] ->
  match lastThenIndex (steps s) with
  | Some k =>
      k < List.length (steps s) /\
      matchesRule5 (nth k (steps s) "") = true /\
      (forall j, k < j < List.length (steps s) ->
                 matchesRule5 (nth j (steps s) "") = false) /\
      tc_steps (buildTestCase ticket sectionId s)
      = List.map (fun step => mkStep step "") (firstn k (steps s)) /\
      tc_expected (buildTestCase ticket sectionId s)
      = join nl (skipn k (steps s))
  | None =>
      (forall step, In step (steps s) -> matchesRule5 step = false) /\
      tc_steps (buildTestCase ticket sectionId s)
      = List.map (fun step => mkStep step "") (steps s) /\
      tc_expected (buildTestCase ticket sectionId s) = expectedResult s /\
      expectedResult s
      = match primaryScenarios description with
        | [] => lastStr (steps s)
        | _ => stripKeyword (lastStr (steps s))
        end
  end.
Proof.
  intros Hin Hne.
  pose proof (buildTestCase_split ticket sectionId s) as Hsplit.
  destruct (lastThenIndex (steps s)) as [k|] eqn:Hk.
  - destruct Hsplit as (Hlt & Hthen & Hafter & Hsteps & Hexp).
    split; [exact Hlt|]. split; [now rewrite <- isThenStep_rule5|].
    split; [|now split].
    intros j Hj. rewrite <- isThenStep_rule5. now apply Hafter.
  - destruct Hsplit as (Hnone & Hsteps & Hexp).
    split; [intros step Hstep; rewrite <- isThenStep_rule5; now apply Hnone|].
    split; [exact Hsteps|]. split; [exact Hexp|].
    destruct (parseScenarios_cases description) as [H|[[Hp H]|[Hp H]]];
      rewrite H in Hin.
    + contradiction.
    + assert (Hs : fromExtract s).
      { pose proof (primaryLoop_fromExtract (S (String.length description))
                      description 0 [] ltac:(constructor)) as Hall.
        rewrite List.Forall_forall in Hall. now apply Hall. }
      destruct Hs as [_ ->].
      destruct (primaryScenarios description); [contradiction|].
      now apply extractExpectedResult_no_then.
    + rewrite Hp.
      pose proof (fallbackLoop_fromLast (S (String.length description))
                    description 0 1 [] ltac:(constructor)) as Hall.
      rewrite List.Forall_forall in Hall. now apply Hall.
Qed.


(* ===================================================================== *)
(** * The run: one action, then the loops *)
(* ===================================================================== *)

Section RunFacts.

Context {W : Type} (env : Env W).

(** Unfolds the plumbing of a computation on a state. *)
Ltac run :=
  cbv [tryCatch bind log modify issue ret getResult];
  cbn [world calls logs result fst snd].

(** A loop whose body never throws never throws, and any relation between
    states that the body extends holds of the whole loop. *)
Lemma forEach_total {A} (body : A -> M unit) (I : list A -> St -> St -> Prop) :
  (forall st, I [] st st) ->
  (forall a l st, exists st1,
      body a st = (inr tt, st1) /\ forall st2, I l st1 st2 -> I (a :: l) st st2) ->
  forall l (st : St (W := W)), exists st',
      forEach l body st = (inr tt, st') /\ I l st st'.
Proof.
  intros Hnil Hcons. induction l as [|a l IH]; intros st.
  - exists st. split; [reflexivity|apply Hnil].
  - destruct (Hcons a l st) as (st1 & Hbody & Hext).
    destruct (IH st1) as (st' & Hloop & HI).
    exists st'. split; [|now apply Hext].
    simpl. unfold bind. rewrite Hbody. exact Hloop.
Qed.

(** The action of one scenario, in a real run: it never throws, it issues
    the planned call, and it records either the success or the failure. *)
Lemma syncScenario_live jiraKey ticket sectionId existing s (st : St (W := W)) :
  exists st',
    syncScenario env false jiraKey ticket sectionId existing s st = (inr tt, st') /\
    calls st' = calls st ++ [plannedCall jiraKey ticket sectionId existing s] /\
    world st' = snd (plannedAnswer env jiraKey ticket sectionId existing s (world st)) /\
    result st' =
      match fst (plannedAnswer env jiraKey ticket sectionId existing s (world st)) with
      | inr c => countSynced jiraKey existing s (pushId (case_id c) (result st))
      | inl message => incSkipped (pushError (scenarioError s message) (result st))
      end.
Proof.
  unfold plannedCall, plannedAnswer, countSynced, syncScenario. run.
  destruct (existingCase jiraKey existing s) as [c|]; run.
  - destruct (updateTestCase env (case_id c) (buildTestCase ticket sectionId s) (world st))
      as [[message|c'] w'] eqn:Hans; run;
      (eexists; split; [reflexivity|]; run; repeat split).
  - destruct (createTestCase env sectionId (buildTestCase ticket sectionId s) (world st))
      as [[message|c'] w'] eqn:Hans; run;
      (eexists; split; [reflexivity|]; run; repeat split).
Qed.

(** The action of one scenario, in a dry run: no call, the counter of the
    action moved, one line logged. *)
Lemma syncScenario_dry jiraKey ticket sectionId existing s (st : St (W := W)) :
  syncScenario env true jiraKey ticket sectionId existing s st
  = (inr tt, mkSt (world st) (calls st)
               (logs st ++ [dryLine jiraKey existing s])
               (countSynced jiraKey existing s (result st))).
Proof.
  unfold dryLine, countSynced, syncScenario. run.
  destruct (existingCase jiraKey existing s) as [c|]; reflexivity.
Qed.

Lemma deleteCase_live c (st : St (W := W)) :
  exists st',
    deleteCase env false c st = (inr tt, st') /\
    calls st' = calls st ++ [DeleteTestCase (case_id c)] /\
    world st' = snd (deleteTestCase env (case_id c) (world st)) /\
    result st' =
      match fst (deleteTestCase env (case_id c) (world st)) with
      | inr _ => incDeleted (result st)
      | inl message => incSkipped (pushError (deleteError c message) (result st))
      end.
Proof.
  unfold deleteCase. run.
  destruct (deleteTestCase env (case_id c) (world st)) as [[message|[]] w'] eqn:Hans; run;
    (eexists; split; [reflexivity|]; run; repeat split).
Qed.

Lemma deleteCase_dry c (st : St (W := W)) :
  deleteCase env true c st
  = (inr tt, mkSt (world st) (calls st)
               (logs st ++ [dryDeleteLine c])
               (incDeleted (result st))).
Proof. reflexivity. Qed.

End RunFacts.

(** ** Accounting *)

Lemma accounted_refl scenarios cases r : accounted scenarios cases 0 r r.
Proof.
  unfold accounted. repeat split; [lia|].
  exists []. rewrite app_nil_r. repeat split; [constructor|simpl; lia].
Qed.

Lemma accounted_trans scenarios cases n1 n2 r1 r2 r3 :
  accounted scenarios cases n1 r1 r2 ->
  accounted scenarios cases n2 r2 r3 ->
  accounted scenarios cases (n1 + n2) r1 r3.
Proof.
  intros (Hh1 & Ht1 & Hf1 & new1 & He1 & Hn1 & Hs1)
         (Hh2 & Ht2 & Hf2 & new2 & He2 & Hn2 & Hs2).
  unfold accounted. repeat split; [lia|congruence|congruence|].
  exists (new1 ++ new2). repeat split.
  - rewrite He2, He1. now rewrite app_assoc.
  - apply Forall_app. now split.
  - rewrite length_app. lia.
Qed.

Lemma accounted_weaken scenarios scenarios' cases cases' n r r' :
  (forall s, In s scenarios -> In s scenarios') ->
  (forall c, In c cases -> In c cases') ->
  accounted scenarios cases n r r' ->
  accounted scenarios' cases' n r r'.
Proof.
  intros Hs Hc (Hh & Ht & Hf & new & He & Hn & Hk).
  unfold accounted. repeat split; try assumption.
  exists new. repeat split; try assumption.
  eapply List.Forall_impl; [|exact Hn].
  intros e [(s & message & Hin & ->)|(c & message & Hin & ->)].
  - left. exists s, message. auto.
  - right. exists c, message. auto.
Qed.

Lemma accounted_success scenarios cases r r' :
  handled r' = handled r + 1 ->
  jiraTicket r' = jiraTicket r ->
  scenariosFound r' = scenariosFound r ->
  errors r' = errors r ->
  scenariosSkipped r' = scenariosSkipped r ->
  accounted scenarios cases 1 r r'.
Proof.
  intros Hh Ht Hf He Hs. unfold accounted. repeat split; try assumption.
  exists []. rewrite app_nil_r. repeat split; [assumption|constructor|simpl; lia].
Qed.

Lemma accounted_failure scenarios cases r e :
  namesScenario scenarios e \/ namesCase cases e ->
  accounted scenarios cases 1 r (incSkipped (pushError e r)).
Proof.
  intros He. unfold accounted, handled. simpl. repeat split; [lia|].
  exists [e]. repeat split; [|simpl; lia]. constructor; [exact He|constructor].
Qed.

Section Loops.

Context {W : Type} (env : Env W).

Ltac run :=
  cbv [tryCatch bind log modify issue ret getResult];
  cbn [world calls logs result fst snd].

(** The loop over the scenarios, in a real run: every planned call is
    issued, in the order of the scenarios, whatever the store answers. *)
Lemma forEach_sync_live jiraKey ticket sectionId existing scenarios (st : St (W := W)) :
  exists st',
    forEach scenarios (syncScenario env false jiraKey ticket sectionId existing) st
    = (inr tt, st') /\
    calls st' = calls st
                ++ List.map (plannedCall jiraKey ticket sectionId existing) scenarios /\
    accounted scenarios [] (List.length scenarios) (result st) (result st') /\
    scenariosDeleted (result st') = scenariosDeleted (result st) /\
    grewBy (List.length (toCreate jiraKey existing scenarios))
      (scenariosCreated (result st)) (scenariosCreated (result st')).
Proof.
  revert st.
  apply (forEach_total (syncScenario env false jiraKey ticket sectionId existing)
           (fun l st st' =>
              calls st' = calls st
                          ++ List.map (plannedCall jiraKey ticket sectionId existing) l /\
              accounted l [] (List.length l) (result st) (result st') /\
              scenariosDeleted (result st') = scenariosDeleted (result st) /\
              grewBy (List.length (toCreate jiraKey existing l))
                (scenariosCreated (result st)) (scenariosCreated (result st')))).
  - intros st. rewrite app_nil_r.
    split; [reflexivity|split; [apply accounted_refl|split; [reflexivity|]]].
    unfold grewBy. simpl. lia.
  - intros s l st.
    destruct (syncScenario_live env jiraKey ticket sectionId existing s st)
      as (st1 & Hrun & Hcalls & _ & Hres).
    exists st1. split; [exact Hrun|].
    intros st2 (Hcalls2 & Hacc & Hdel & Hcr).
    split; [|split; [|split]].
    + rewrite Hcalls2, Hcalls. simpl. now rewrite <- app_assoc.
    + change (List.length (s :: l)) with (1 + List.length l).
      apply accounted_trans with (r2 := result st1).
      * rewrite Hres.
        destruct (fst (plannedAnswer env jiraKey ticket sectionId existing s (world st)))
          as [message|c].
        -- apply accounted_failure. left. exists s, message. split; [now left|reflexivity].
        -- apply accounted_success; unfold countSynced, handled;
             destruct (existingCase jiraKey existing s); simpl; lia || reflexivity.
      * eapply accounted_weaken; [| |exact Hacc]; [intros; now right|auto].
    + rewrite Hdel, Hres.
      destruct (fst (plannedAnswer env jiraKey ticket sectionId existing s (world st)));
        [reflexivity|].
      unfold countSynced. now destruct (existingCase jiraKey existing s).
    + unfold grewBy, toCreate in *. rewrite Hres in Hcr. simpl. unfold countSynced in Hcr.
      destruct (fst (plannedAnswer env jiraKey ticket sectionId existing s (world st)));
        destruct (existingCase jiraKey existing s); simpl in *; lia.
Qed.

(** The loop over the cases to delete, in a real run. *)
Lemma forEach_delete_live cases (st : St (W := W)) :
  exists st',
    forEach cases (deleteCase env false) st = (inr tt, st') /\
    calls st' = calls st ++ List.map (fun c => DeleteTestCase (case_id c)) cases /\
    accounted [] cases (List.length cases) (result st) (result st') /\
    scenariosCreated (result st') = scenariosCreated (result st) /\
    scenariosUpdated (result st') = scenariosUpdated (result st) /\
    grewBy (List.length cases)
      (scenariosDeleted (result st)) (scenariosDeleted (result st')).
Proof.
  revert st.
  apply (forEach_total (deleteCase env false)
           (fun l st st' =>
              calls st' = calls st ++ List.map (fun c => DeleteTestCase (case_id c)) l /\
              accounted [] l (List.length l) (result st) (result st') /\
              scenariosCreated (result st') = scenariosCreated (result st) /\
              scenariosUpdated (result st') = scenariosUpdated (result st) /\
              grewBy (List.length l)
                (scenariosDeleted (result st)) (scenariosDeleted (result st')))).
  - intros st. rewrite app_nil_r.
    split; [reflexivity|split; [apply accounted_refl|split; [|split]; try reflexivity]].
    unfold grewBy. simpl. lia.
  - intros c l st.
    destruct (deleteCase_live env c st) as (st1 & Hrun & Hcalls & _ & Hres).
    exists st1. split; [exact Hrun|].
    intros st2 (Hcalls2 & Hacc & Hcr & Hup & Hdel).
    split; [|split; [|split; [|split]]].
    + rewrite Hcalls2, Hcalls. simpl. now rewrite <- app_assoc.
    + change (List.length (c :: l)) with (1 + List.length l).
      apply accounted_trans with (r2 := result st1).
      * rewrite Hres.
        destruct (fst (deleteTestCase env (case_id c) (world st))) as [message|u].
        -- apply accounted_failure. right. exists c, message. split; [now left|reflexivity].
        -- apply accounted_success; unfold handled; simpl; lia || reflexivity.
      * eapply accounted_weaken; [| |exact Hacc]; [auto|intros; now right].
    + rewrite Hcr, Hres.
      now destruct (fst (deleteTestCase env (case_id c) (world st))).
    + rewrite Hup, Hres.
      now destruct (fst (deleteTestCase env (case_id c) (world st))).
    + unfold grewBy in *. rewrite Hres in Hdel.
      destruct (fst (deleteTestCase env (case_id c) (world st))); simpl in *; lia.
Qed.

(** The two loops in a dry run: no call, the world untouched, one line
    logged and one counter moved for each action. *)
Lemma forEach_sync_dry jiraKey ticket sectionId existing scenarios :
  forall st : St (W := W),
    forEach scenarios (syncScenario env true jiraKey ticket sectionId existing) st
    = (inr tt,
       mkSt (world st) (calls st)
         (logs st ++ List.map (dryLine jiraKey existing) scenarios)
         (fold_left (fun r s => countSynced jiraKey existing s r) scenarios (result st))).
Proof.
  induction scenarios as [|s l IH]; intros st; simpl.
  - unfold ret. rewrite app_nil_r. now destruct st.
  - unfold bind. rewrite syncScenario_dry, IH. simpl. now rewrite <- app_assoc.
Qed.

Lemma forEach_delete_dry cases :
  forall st : St (W := W),
    forEach cases (deleteCase env true) st
    = (inr tt,
       mkSt (world st) (calls st)
         (logs st ++ List.map dryDeleteLine cases)
         (fold_left (fun r _ => incDeleted r) cases (result st))).
Proof.
  induction cases as [|c l IH]; intros st; simpl.
  - unfold ret. rewrite app_nil_r. now destruct st.
  - unfold bind. rewrite deleteCase_dry, IH. simpl. now rewrite <- app_assoc.
Qed.

(** The summary only logs. *)
Lemma logSummary_frame (st : St (W := W)) :
  exists lines,
    logSummary st = (inr tt, mkSt (world st) (calls st) (logs st ++ lines) (result st)).
Proof.
  unfold logSummary. run.
  destruct (0 <? scenariosDeleted (result st));
    destruct (0 <? List.length (errors (result st))); run;
    rewrite <- ?app_assoc; eexists; reflexivity.
Qed.

End Loops.

(* ===================================================================== *)
(** * The plan: lookup by title, ownership, deletion *)
(* ===================================================================== *)

Lemma startsWith_spec p : forall s,
  startsWith p s = true <-> exists q, s = p +:+ q.
Proof.
  induction p as [|a p IH]; intros s; simpl.
  - split; [intros _; now exists s|reflexivity].
  - destruct s as [|b s]; simpl.
    + split; [discriminate|]. intros [q Hq]. discriminate Hq.
    + rewrite andb_true_iff, IH. split.
      * intros [Hab [q ->]]. apply Ascii.eqb_eq in Hab as ->. now exists q.
      * intros [q Hq]. injection Hq as -> ->. split; [apply Ascii.eqb_refl|now exists q].
Qed.

(** [includes] is containment. *)
Lemma includes_spec sub : forall s, includes s sub = true <-> occursIn sub s.
Proof.
  unfold occursIn. induction s as [|c s IH]; simpl.
  - rewrite orb_false_r, startsWith_spec. split.
    + intros [q Hq]. now exists "", q.
    + intros (before & after & H). destruct before as [|b before]; [|discriminate H].
      now exists after.
  - rewrite orb_true_iff, startsWith_spec, IH. split.
    + intros [[q Hq]|(before & after & ->)].
      * now exists "", q.
      * now exists (String c before), after.
    + intros (before & after & H). destruct before as [|b before].
      * left. now exists after.
      * right. injection H as -> ->. now exists before, after.
Qed.

Lemma fill_origin l : forall m k c,
  fill m l !! k = Some c ->
  (In c l /\ normalize (case_title c) = k) \/ m !! k = Some c.
Proof.
  induction l as [|a l IH]; intros m k c; simpl; [now right|].
  intros H. apply IH in H as [[Hin Hk]|H].
  - left. split; [now right|exact Hk].
  - destruct (decide (normalize (case_title a) = k)) as [Heq|Hne].
    + subst k. rewrite lookup_insert_eq in H. injection H as ->.
      left. split; [now left|reflexivity].
    + rewrite lookup_insert_ne in H by exact Hne. now right.
Qed.

Lemma fill_untouched l : forall m k,
  (forall c, In c l -> normalize (case_title c) <> k) ->
  fill m l !! k = m !! k.
Proof.
  induction l as [|a l IH]; intros m k H; simpl; [reflexivity|].
  rewrite IH by (intros c Hc; apply H; now right).
  apply lookup_insert_ne. apply H. now left.
Qed.

Lemma fill_app m l1 l2 : fill m (l1 ++ l2) = fill (fill m l1) l2.
Proof. unfold fill. apply fold_left_app. Qed.

(** The table keeps, for a title, the last case of that title. *)
Lemma existingCasesMap_last l1 c l2 :
  (forall c', In c' l2 -> normalize (case_title c') <> normalize (case_title c)) ->
  existingCasesMap (l1 ++ c :: l2) !! normalize (case_title c) = Some c.
Proof.
  intros H. change (existingCasesMap (l1 ++ c :: l2)) with (fill ∅ (l1 ++ c :: l2)).
  rewrite fill_app. simpl. rewrite fill_untouched by exact H.
  apply lookup_insert_eq.
Qed.

Lemma existingCasesMap_origin l k c :
  existingCasesMap l !! k = Some c -> In c l /\ normalize (case_title c) = k.
Proof.
  intros H. apply fill_origin in H as [H|H]; [exact H|].
  rewrite lookup_empty in H. discriminate H.
Qed.


Lemma jiraTicketTestCases_In jiraKey existing c :
  In c (jiraTicketTestCases jiraKey existing) <->
  In c existing /\ linkedTo jiraKey c = true.
Proof. unfold jiraTicketTestCases. apply filter_In. Qed.

(** A case found for a scenario is a linked case of the snapshot, of the
    title of the scenario. *)
Lemma existingCase_origin jiraKey existing s c :
  existingCase jiraKey existing s = Some c ->
  In c existing /\ linkedTo jiraKey c = true /\
  normalize (case_title c) = normalize (name s).
Proof.
  unfold existingCase. intros H. apply existingCasesMap_origin in H as [Hin Hk].
  apply jiraTicketTestCases_In in Hin as [Hin Hlinked]. auto.
Qed.

Lemma titles_fold scenarios : forall (acc : gset string) x,
  x ∈ fold_left (fun s scenario => s ∪ {[normalize (name scenario)]}) scenarios acc
  <-> x ∈ acc \/ exists s, In s scenarios /\ normalize (name s) = x.
Proof.
  induction scenarios as [|a l IH]; intros acc x; simpl.
  - split; [now left|]. intros [H|(s & [] & _)]. exact H.
  - rewrite IH, elem_of_union, elem_of_singleton. split.
    + intros [[H | ->] | (s & Hin & Hs)].
      * now left.
      * right. exists a. split; [now left|reflexivity].
      * right. exists s. split; [now right|exact Hs].
    + intros [H|(s & [->|Hin] & Hs)].
      * left. now left.
      * left. right. now symmetry.
      * right. exists s. now split.
Qed.

Lemma jiraScenarioTitles_spec scenarios x :
  x ∈ jiraScenarioTitles scenarios <->
  exists s, In s scenarios /\ normalize (name s) = x.
Proof.
  unfold jiraScenarioTitles. rewrite titles_fold. split.
  - intros [H|H]; [|exact H]. now apply not_elem_of_empty in H.
  - intros H. now right.
Qed.

(** The cases to delete: the linked cases of the snapshot whose title is
    the title of no scenario. *)
Lemma testCasesToDelete_In jiraKey scenarios existing c :
  In c (testCasesToDelete jiraKey scenarios existing) <->
  In c existing /\ linkedTo jiraKey c = true /\
  ~ exists s, In s scenarios /\ normalize (name s) = normalize (case_title c).
Proof.
  unfold testCasesToDelete. rewrite filter_In, jiraTicketTestCases_In.
  rewrite negb_true_iff, bool_decide_eq_false, jiraScenarioTitles_spec.
  tauto.
Qed.

Lemma plannedCall_aims jiraKey ticket sectionId existing s :
  aimsAtLinked jiraKey existing (plannedCall jiraKey ticket sectionId existing s).
Proof.
  unfold aimsAtLinked, plannedCall. intros caseId.
  destruct (existingCase jiraKey existing s) as [c|] eqn:Hc; simpl; [|discriminate].
  intros H. injection H as <-. apply existingCase_origin in Hc as (Hin & Hl & _).
  now exists c.
Qed.

Lemma plannedCalls_aim jiraKey ticket sectionId scenarios existing :
  Forall (aimsAtLinked jiraKey existing)
    (plannedCalls jiraKey ticket sectionId scenarios existing).
Proof.
  unfold plannedCalls. apply Forall_app. split; apply List.Forall_forall; intros call Hin;
    apply in_map_iff in Hin as (x & <- & Hin).
  - apply plannedCall_aims.
  - apply testCasesToDelete_In in Hin as (Hin & Hl & _).
    intros caseId H. simpl in H. injection H as <-. now exists x.
Qed.

(* ===================================================================== *)
(** * Steps 4 and 5 as a whole *)
(* ===================================================================== *)

Section Reconcile.

Context {W : Type} (env : Env W).

Ltac run :=
  cbv [tryCatch bind log modify issue ret getResult];
  cbn [world calls logs result fst snd].

(** The state the computation ends in is the witness. *)
Ltac ends :=
  match goal with
  | |- exists st', (_, ?final) = _ /\ _ => exists final; split; [reflexivity|]
  end.

(** In a real run the two loops never throw, issue every planned call in
    order and account for every action; the summary is returned. *)
Lemma reconcile_live jiraKey ticket sectionId scenarios existing (st : St (W := W)) :
  exists st',
    reconcile env false jiraKey ticket sectionId scenarios existing st
    = (inr (result st'), st') /\
    calls st' = calls st ++ plannedCalls jiraKey ticket sectionId scenarios existing /\
    accounted scenarios (testCasesToDelete jiraKey scenarios existing)
      (List.length scenarios
       + List.length (testCasesToDelete jiraKey scenarios existing))
      (result st) (result st') /\
    grewBy (List.length (toCreate jiraKey existing scenarios))
      (scenariosCreated (result st)) (scenariosCreated (result st')) /\
    grewBy (List.length (testCasesToDelete jiraKey scenarios existing))
      (scenariosDeleted (result st)) (scenariosDeleted (result st')).
Proof.
  unfold reconcile, plannedCalls. run.
  match goal with
  | |- context [forEach scenarios ?body ?st1] =>
      destruct (forEach_sync_live env jiraKey ticket sectionId existing scenarios st1)
        as (st2 & Hrun & Hcalls & Hacc & Hdel & Hcr)
  end.
  rewrite Hrun. run. cbn [calls result] in Hcalls, Hacc, Hdel, Hcr.
  set (toDelete := testCasesToDelete jiraKey scenarios existing).
  destruct (0 <? List.length toDelete) eqn:Hany; run.
  - match goal with
    | |- context [forEach toDelete ?body ?st3] =>
        destruct (forEach_delete_live env toDelete st3)
          as (st4 & Hrun' & Hcalls' & Hacc' & Hcr' & Hup' & Hdel')
    end.
    rewrite Hrun'. cbn [calls result] in Hcalls', Hacc', Hcr', Hup', Hdel'.
    destruct (logSummary_frame st4) as (lines & Hlines). rewrite Hlines.
    ends. cbn [calls result].
    split; [|split; [|split]].
    + rewrite Hcalls', Hcalls. now rewrite <- app_assoc.
    + eapply accounted_trans.
      * eapply accounted_weaken; [| |exact Hacc]; [auto|intros ? []].
      * eapply accounted_weaken; [| |exact Hacc']; [intros ? []|auto].
    + now rewrite Hcr'.
    + now rewrite <- Hdel.
  - apply Nat.ltb_ge in Hany.
    assert (Hnil : toDelete = []) by (destruct toDelete; [reflexivity|simpl in Hany; lia]).
    match goal with
    | |- context [logSummary ?st3] =>
        destruct (logSummary_frame st3) as (lines & Hlines)
    end.
    rewrite Hlines. cbn [world calls logs result].
    ends. cbn [calls result].
    rewrite Hnil. simpl. rewrite app_nil_r, Nat.add_0_r.
    split; [exact Hcalls|]. split; [|split; [exact Hcr|]].
    + eapply accounted_weaken; [| |exact Hacc]; auto.
    + unfold grewBy. lia.
Qed.

(** In a dry run the two loops issue no call and leave the world as it
    is; each action moves its counter and logs its line. *)
Lemma reconcile_dry jiraKey ticket sectionId scenarios existing (st : St (W := W)) :
  exists st',
    reconcile env true jiraKey ticket sectionId scenarios existing st
    = (inr (result st'), st') /\
    calls st' = calls st /\
    world st' = world st /\
    result st'
    = fold_left (fun r _ => incDeleted r)
        (testCasesToDelete jiraKey scenarios existing)
        (fold_left (fun r s => countSynced jiraKey existing s r) scenarios (result st)) /\
    (forall s, In s scenarios -> In (dryLine jiraKey existing s) (logs st')) /\
    (forall c, In c (testCasesToDelete jiraKey scenarios existing) ->
               In (dryDeleteLine c) (logs st')).
Proof.
  unfold reconcile. run. rewrite forEach_sync_dry. run.
  set (toDelete := testCasesToDelete jiraKey scenarios existing).
  destruct (0 <? List.length toDelete) eqn:Hany; run.
  - rewrite forEach_delete_dry. run.
    match goal with
    | |- context [logSummary ?st3] =>
        destruct (logSummary_frame st3) as (lines & Hlines)
    end.
    rewrite Hlines. cbn [world calls logs result].
    ends. cbn [world calls logs result].
    repeat split.
    + intros s Hs. rewrite !in_app_iff. left. left. left. left. right.
      now apply in_map.
    + intros c Hc. rewrite !in_app_iff. left. right. now apply in_map.
  - apply Nat.ltb_ge in Hany.
    assert (Hnil : toDelete = []) by (destruct toDelete; [reflexivity|simpl in Hany; lia]).
    match goal with
    | |- context [logSummary ?st3] =>
        destruct (logSummary_frame st3) as (lines & Hlines)
    end.
    rewrite Hlines. cbn [world calls logs result].
    ends. cbn [world calls logs result].
    rewrite Hnil. repeat split.
    + intros s Hs. rewrite !in_app_iff. left. left. left. right. now apply in_map.
    + intros c [].
Qed.

End Reconcile.

(* ===================================================================== *)
(** * Ownership, duplicates, idempotence *)
(* ===================================================================== *)

Lemma append_assoc (a b c : string) : (a +:+ b) +:+ c = a +:+ (b +:+ c).
Proof.
  induction a as [|x a IH]; [reflexivity|].
  change (String x ((a +:+ b) +:+ c) = String x (a +:+ (b +:+ c))). now rewrite IH.
Qed.

Lemma occursIn_trans a b c : occursIn a b -> occursIn b c -> occursIn a c.
Proof.
  intros (p & q & ->) (p' & q' & ->).
  exists (p' +:+ p), (q +:+ q'). now rewrite !append_assoc.
Qed.


Lemma not_linked jiraKey c :
  ~ occursIn jiraKey (default "" (case_refs c)) -> linkedTo jiraKey c = false.
Proof.
  intros H. unfold linkedTo. destruct (includes _ _) eqn:Hi; [|reflexivity].
  apply includes_spec in Hi. contradiction.
Qed.

(** C4. In every run, dry or not, a case whose back-reference does not
    contain the ticket key as a substring is not among the cases to
    delete, is the case found for no scenario, and every update and every
    deletion the run issues aims at a case of the snapshot that is linked
    to the ticket. *)
Theorem deletion_respects_ownership {W : Type} (env : Env W)
    (dryRun : bool) (jiraKey : string) (ticket : JiraTicket) (sectionId : Z)
    (scenarios : list ParsedScenario) (existing : list TestRailTestCaseResponse)
    (c : TestRailTestCaseResponse) (st : St (W := W)) :
  ~ occursIn jiraKey (default "" (case_refs c)) ->
  ~ In c (testCasesToDelete jiraKey scenarios existing) /\
  (forall s, existingCase jiraKey existing s <> Some c) /\
  exists st' cs,
    reconcile env dryRun jiraKey ticket sectionId scenarios existing st
    = (inr (result st'), st') /\
    calls st' = calls st ++ cs /\
    Forall (aimsAtLinked jiraKey existing) cs.
Proof.
  intros Hrefs. apply not_linked in Hrefs.
  split; [|split].
  - intros Hin. apply testCasesToDelete_In in Hin as (_ & Hl & _). congruence.
  - intros s Hs. apply existingCase_origin in Hs as (_ & Hl & _). congruence.
  - destruct dryRun.
    + destruct (reconcile_dry env jiraKey ticket sectionId scenarios existing st)
        as (st' & Hrun & Hcalls & _).
      exists st', []. rewrite app_nil_r. split; [exact Hrun|]. split; [exact Hcalls|constructor].
    + destruct (reconcile_live env jiraKey ticket sectionId scenarios existing st)
        as (st' & Hrun & Hcalls & _).
      exists st', (plannedCalls jiraKey ticket sectionId scenarios existing).
      split; [exact Hrun|]. split; [exact Hcalls|apply plannedCalls_aim].
Qed.

Lemma deletion_respects_ownership_witness :
  ~ occursIn "PROJ-123" (default "" (case_refs Demo.otherCase)) /\
  ~ In Demo.otherCase
      (testCasesToDelete "PROJ-123" (parseScenarios Demo.twoScenarios)
         [Demo.otherCase; Demo.staleCase]).
Proof.
  assert (H : ~ occursIn "PROJ-123" (default "" (case_refs Demo.otherCase))).
  { rewrite <- includes_spec. vm_compute. discriminate. }
  split; [exact H|].
  exact (proj1 (deletion_respects_ownership Demo.demoEnv false "PROJ-123"
                  (Demo.demoTicket Demo.twoScenarios) 101
                  (parseScenarios Demo.twoScenarios)
                  [Demo.otherCase; Demo.staleCase] Demo.otherCase
                  (Demo.start (Demo.withSection Demo.twoScenarios
                                 [Demo.otherCase; Demo.staleCase] [] []))
                  H)).
Defined.

(** Two elements of a list without duplicates under [f] that agree under
    [f] are the same. *)
Lemma NoDup_map_injective {A B} (f : A -> B) (l : list A) a b :
  List.NoDup (List.map f l) -> In a l -> In b l -> f a = f b -> a = b.
Proof.
  induction l as [|x l IH]; simpl; [contradiction|].
  intros Hnd Ha Hb Hf. apply List.NoDup_cons_iff in Hnd as [Hx Hnd].
  destruct Ha as [->|Ha], Hb as [->|Hb].
  - reflexivity.
  - exfalso. apply Hx. rewrite Hf. now apply in_map.
  - exfalso. apply Hx. rewrite <- Hf. now apply in_map.
  - now apply IH.
Qed.

Lemma filter_linked_split jiraKey l1 c1 l2 c2 l3 :
  linkedTo jiraKey c1 = true -> linkedTo jiraKey c2 = true ->
  jiraTicketTestCases jiraKey (l1 ++ c1 :: l2 ++ c2 :: l3)
  = (jiraTicketTestCases jiraKey l1 ++ c1 :: jiraTicketTestCases jiraKey l2)
    ++ c2 :: jiraTicketTestCases jiraKey l3.
Proof.
  intros H1 H2. unfold jiraTicketTestCases.
  rewrite List.filter_app. simpl. rewrite H1.
  rewrite List.filter_app. simpl. rewrite H2.
  now rewrite <- app_assoc.
Qed.





(* ===================================================================== *)
(** * Failures of single actions *)
(* ===================================================================== *)

Section Isolation.

Context {W : Type} (env : Env W).

Ltac run :=
  cbv [tryCatch bind log modify issue ret getResult];
  cbn [world calls logs result fst snd].

Ltac ends :=
  match goal with
  | |- exists st', (_, ?final) = _ /\ _ => exists final; split; [reflexivity|]
  end.

Lemma syncScenario_failure jiraKey ticket sectionId existing s
    (st : St (W := W)) message w' :
  plannedAnswer env jiraKey ticket sectionId existing s (world st) = (inl message, w') ->
  exists st',
    syncScenario env false jiraKey ticket sectionId existing s st = (inr tt, st') /\
    calls st' = calls st ++ [plannedCall jiraKey ticket sectionId existing s] /\
    errors (result st') = errors (result st) ++ [scenarioError s message] /\
    scenariosSkipped (result st') = S (scenariosSkipped (result st)).
Proof.
  intros Hans.
  destruct (syncScenario_live env jiraKey ticket sectionId existing s st)
    as (st' & Hrun & Hcalls & _ & Hres).
  rewrite Hans in Hres. simpl in Hres.
  exists st'. split; [exact Hrun|]. split; [exact Hcalls|]. now rewrite Hres.
Qed.

Lemma deleteCase_failure c (st : St (W := W)) message w' :
  deleteTestCase env (case_id c) (world st) = (inl message, w') ->
  exists st',
    deleteCase env false c st = (inr tt, st') /\
    calls st' = calls st ++ [DeleteTestCase (case_id c)] /\
    errors (result st') = errors (result st) ++ [deleteError c message] /\
    scenariosSkipped (result st') = S (scenariosSkipped (result st)).
Proof.
  intros Hans.
  destruct (deleteCase_live env c st) as (st' & Hrun & Hcalls & _ & Hres).
  rewrite Hans in Hres. simpl in Hres.
  exists st'. split; [exact Hrun|]. split; [exact Hcalls|]. now rewrite Hres.
Qed.

(** Steps 1 to 5 of a real run, once the ticket and the cases are fetched:
    the summary is returned and every planned call has been issued. *)
Lemma syncInto_live jiraKey testrailProjectId sectionId testrailSuiteId
    (st : St (W := W)) ticket w3 existing w4 :
  fetchTicket env jiraKey (world st) = (inr ticket, w3) ->
  getTestCases env testrailProjectId sectionId (orUndefined testrailSuiteId) w3
  = (inr existing, w4) ->
  exists st',
    syncInto env jiraKey testrailProjectId false sectionId testrailSuiteId st
    = (inr (result st'), st') /\
    (parseScenarios (jt_description ticket) <> [] ->
     calls st' = calls st
                 ++ [FetchTicket jiraKey;
                     GetTestCases testrailProjectId sectionId (orUndefined testrailSuiteId)]
                 ++ plannedCalls jiraKey ticket sectionId
                      (parseScenarios (jt_description ticket)) existing /\
     accounted (parseScenarios (jt_description ticket))
       (testCasesToDelete jiraKey (parseScenarios (jt_description ticket)) existing)
       (List.length (parseScenarios (jt_description ticket))
        + List.length (testCasesToDelete jiraKey
                         (parseScenarios (jt_description ticket)) existing))
       (setFound (List.length (parseScenarios (jt_description ticket)))
          (setTicket ticket (result st)))
       (result st')).
Proof.
  intros Hfetch Hget. unfold syncInto. run. rewrite Hfetch. run.
  destruct (parseScenarios (jt_description ticket)) as [|s l] eqn:Hparse.
  - cbn [List.length Nat.eqb]. run. ends. intros H. contradiction.
  - cbn [List.length Nat.eqb]. unfold fetchExisting. cbn [andb]. run.
    rewrite Hget. run.
    match goal with
    | |- context [reconcile env false jiraKey ticket sectionId (s :: l) existing ?st5] =>
        destruct (reconcile_live env jiraKey ticket sectionId (s :: l) existing st5)
          as (st' & Hrun & Hcalls & Hacc & _)
    end.
    rewrite Hrun. exists st'. split; [reflexivity|]. intros _.
    cbn [calls result] in Hcalls, Hacc. split; [|exact Hacc].
    rewrite Hcalls. rewrite <- !app_assoc. reflexivity.
Qed.

End Isolation.

(** C6. In a real run whose setup succeeds (suite and section resolved,
    ticket and cases fetched): an action of a scenario that fails is
    caught, the message that names the scenario is appended to the errors
    and the skipped counter grows by one; the same holds of a deletion
    that fails, with the message that names the case; and the run returns
    its summary after having issued, in order, the call of every scenario
    and then the deletion of every case to delete, each action accounted
    for as created, updated, deleted or skipped. *)
Theorem failure_isolation {W : Type} (env : Env W)
    (jiraKey : string) (testrailProjectId : Z)
    (testrailSuiteId testrailSectionId : option Z)
    (sectionName suiteName : option string)
    (createSuiteIfMissing createSectionIfMissing : bool)
    (st st1 st2 : St (W := W)) (resolvedSuiteId suiteId : option Z) (sectionId : Z)
    (ticket : JiraTicket) (existing : list TestRailTestCaseResponse) (w3 w4 : W) :
  resolveSuite env testrailProjectId testrailSuiteId suiteName false createSuiteIfMissing
    (mkSt (world st) (calls st) (logs st) emptyResult)
  = (inr resolvedSuiteId, st1) ->
  resolveSection env testrailProjectId resolvedSuiteId testrailSuiteId testrailSectionId
    sectionName false createSectionIfMissing st1
  = (inr (sectionId, suiteId), st2) ->
  fetchTicket env jiraKey (world st2) = (inr ticket, w3) ->
  getTestCases env testrailProjectId sectionId (orUndefined suiteId) w3
  = (inr existing, w4) ->
  let scenarios := parseScenarios (jt_description ticket) in
  let toDelete := testCasesToDelete jiraKey scenarios existing in
  (forall s (st0 : St (W := W)) message w',
     plannedAnswer env jiraKey ticket sectionId existing s (world st0) = (inl message, w') ->
     exists st',
       syncScenario env false jiraKey ticket sectionId existing s st0 = (inr tt, st') /\
       calls st' = calls st0 ++ [plannedCall jiraKey ticket sectionId existing s] /\
       errors (result st') = errors (result st0) ++ [scenarioError s message] /\
       scenariosSkipped (result st') = S (scenariosSkipped (result st0))) /\
  (forall c (st0 : St (W := W)) message w',
     deleteTestCase env (case_id c) (world st0) = (inl message, w') ->
     exists st',
       deleteCase env false c st0 = (inr tt, st') /\
       calls st' = calls st0 ++ [DeleteTestCase (case_id c)] /\
       errors (result st') = errors (result st0) ++ [deleteError c message] /\
       scenariosSkipped (result st') = S (scenariosSkipped (result st0))) /\
  exists st',
    syncTicketToTestRail env jiraKey testrailProjectId testrailSuiteId
      testrailSectionId sectionName false suiteName createSuiteIfMissing
      createSectionIfMissing st
    = (inr (result st'), st') /\
    (scenarios <> [] ->
     calls st' = calls st2
                 ++ [FetchTicket jiraKey;
                     GetTestCases testrailProjectId sectionId (orUndefined suiteId)]
                 ++ plannedCalls jiraKey ticket sectionId scenarios existing /\
     accounted scenarios toDelete (List.length scenarios + List.length toDelete)
       (setFound (List.length scenarios) (setTicket ticket (result st2)))
       (result st')).
Proof.
  intros Hsuite Hsection Hfetch Hget scenarios toDelete.
  split; [|split].
  - intros s st0 message w'. apply syncScenario_failure.
  - intros c st0 message w'. apply deleteCase_failure.
  - destruct (syncInto_live env jiraKey testrailProjectId sectionId suiteId st2
                ticket w3 existing w4 Hfetch Hget) as (st' & Hrun & Hrest).
    exists st'. split; [|exact Hrest].
    unfold syncTicketToTestRail.
    cbv [bind modify tryCatch]. cbn [world calls logs result].
    rewrite Hsuite, Hsection, Hrun. reflexivity.
Qed.

Lemma failure_isolation_witness :
  exists st',
    syncTicketToTestRail Demo.demoEnv "PROJ-123" 2 (Some 6%Z) None None false None
      false false (Demo.start Demo.flaky)
    = (inr (result st'), st') /\
    scenariosUpdated (result st') = 1 /\
    scenariosSkipped (result st') = 2 /\
    List.length (errors (result st')) = 2.
Proof.
  assert (H1 : resolveSuite Demo.demoEnv 2 (Some 6%Z) None false false
                 (mkSt (world (Demo.start Demo.flaky)) (calls (Demo.start Demo.flaky))
                    (logs (Demo.start Demo.flaky)) emptyResult)
               = (inr (Some 6%Z), snd Demo.flakySuite)) by (vm_compute; reflexivity).
  assert (H2 : resolveSection Demo.demoEnv 2 (Some 6%Z) (Some 6%Z) None None false false
                 (snd Demo.flakySuite)
               = (inr (101%Z, Some 6%Z), snd Demo.flakySection))
    by (vm_compute; reflexivity).
  assert (H3 : fetchTicket Demo.demoEnv "PROJ-123" (world (snd Demo.flakySection))
               = (inr (Demo.demoTicket Demo.twoScenarios), Demo.flaky))
    by (vm_compute; reflexivity).
  assert (H4 : getTestCases Demo.demoEnv 2 101 (orUndefined (Some 6%Z)) Demo.flaky
               = (inr [Demo.dupEarly; Demo.staleCase], Demo.flaky))
    by (vm_compute; reflexivity).
  destruct (failure_isolation Demo.demoEnv "PROJ-123" 2 (Some 6%Z) None None None
              false false (Demo.start Demo.flaky) _ _ _ _ _ _ _ _ _ H1 H2 H3 H4)
    as (_ & _ & st' & Hrun & _).
  exists st'. split; [exact Hrun|].
  vm_compute in Hrun. injection Hrun as _ Hst. rewrite <- Hst. vm_compute. repeat split.
Defined.

(* ===================================================================== *)
(** * Two cases of one title *)
(* ===================================================================== *)

Section Duplicates.

Context {W : Type} (env : Env W).

Ltac run :=
  cbv [tryCatch bind log modify issue ret getResult];
  cbn [world calls logs result fst snd].

(** The calls of steps 1 to 5 of a real run, once the ticket and the cases
    are fetched: with no scenario the ticket fetch alone, otherwise the
    fetch of the ticket, the listing of the section and every planned
    call. *)
Lemma syncInto_calls jiraKey testrailProjectId sectionId testrailSuiteId
    (st : St (W := W)) ticket w3 existing w4 :
  fetchTicket env jiraKey (world st) = (inr ticket, w3) ->
  getTestCases env testrailProjectId sectionId (orUndefined testrailSuiteId) w3
  = (inr existing, w4) ->
  exists st',
    syncInto env jiraKey testrailProjectId false sectionId testrailSuiteId st
    = (inr (result st'), st') /\
    calls st'
    = calls st ++ FetchTicket jiraKey ::
        match parseScenarios (jt_description ticket) with
        | [] => []
        | _ :: _ =>
            GetTestCases testrailProjectId sectionId (orUndefined testrailSuiteId)
            :: plannedCalls jiraKey ticket sectionId
                 (parseScenarios (jt_description ticket)) existing
        end.
Proof.
  intros Hfetch Hget.
  destruct (syncInto_live env jiraKey testrailProjectId sectionId testrailSuiteId st
              ticket w3 existing w4 Hfetch Hget) as (st' & Hrun & Hrest).
  destruct (parseScenarios (jt_description ticket)) as [|s l] eqn:Hparse.
  - clear st' Hrun Hrest. unfold syncInto. run. rewrite Hfetch. run. rewrite Hparse.
    cbn [List.length Nat.eqb]. run.
    match goal with
    | |- exists st', (_, ?final) = _ /\ _ => exists final; split; [reflexivity|]
    end.
    reflexivity.
  - exists st'. split; [exact Hrun|].
    destruct Hrest as [Hcalls _]; [discriminate|]. exact Hcalls.
Qed.

End Duplicates.

(** Two places of a list of cases with distinct identifiers hold
    different identifiers. *)
Lemma NoDup_ids_apart (l1 l2 l3 : list TestRailTestCaseResponse) c1 c2 :
  List.NoDup (List.map case_id (l1 ++ c1 :: l2 ++ c2 :: l3)) -> case_id c1 <> case_id c2.
Proof.
  rewrite List.map_app. intros H. apply List.NoDup_app_remove_l in H.
  simpl in H. apply List.NoDup_cons_iff in H as [Hnot _]. intros Heq. apply Hnot.
  rewrite List.map_app. apply in_or_app. right. left. now symmetry.
Qed.

(** C10. In a real run whose setup succeeds, when the snapshot fetched
    holds two cases linked to the ticket, [c1] before [c2], whose titles
    normalize to the same string, no linked case after [c2] has that
    title, and the cases have distinct identifiers: the lookup keeps [c2]
    under that title; the action of every scenario of that normalized
    title sends the store the update of [c2] and issues no other call
    (in a dry run it logs that it would update [c2] and counts an
    update); and the run returns its summary after calls among which
    every scenario of that title has its update of [c2], no update is
    aimed at [c1], and, when some scenario bears that title, neither
    [c1] nor [c2] is deleted. *)
Theorem later_duplicate_wins {W : Type} (env : Env W)
    (jiraKey : string) (testrailProjectId : Z)
    (testrailSuiteId testrailSectionId : option Z)
    (sectionName suiteName : option string)
    (createSuiteIfMissing createSectionIfMissing : bool)
    (st st1 st2 : St (W := W)) (resolvedSuiteId suiteId : option Z) (sectionId : Z)
    (ticket : JiraTicket)
    (l1 l2 l3 : list TestRailTestCaseResponse) (c1 c2 : TestRailTestCaseResponse)
    (w3 w4 : W) :
  resolveSuite env testrailProjectId testrailSuiteId suiteName false createSuiteIfMissing
    (mkSt (world st) (calls st) (logs st) emptyResult)
  = (inr resolvedSuiteId, st1) ->
  resolveSection env testrailProjectId resolvedSuiteId testrailSuiteId testrailSectionId
    sectionName false createSectionIfMissing st1
  = (inr (sectionId, suiteId), st2) ->
  fetchTicket env jiraKey (world st2) = (inr ticket, w3) ->
  getTestCases env testrailProjectId sectionId (orUndefined suiteId) w3
  = (inr (l1 ++ c1 :: l2 ++ c2 :: l3), w4) ->
  List.NoDup (List.map case_id (l1 ++ c1 :: l2 ++ c2 :: l3)) ->
  linkedTo jiraKey c1 = true ->
  linkedTo jiraKey c2 = true ->
  normalize (case_title c1) = normalize (case_title c2) ->
  (forall c, In c l3 -> linkedTo jiraKey c = true ->
             normalize (case_title c) <> normalize (case_title c2)) ->
  let existing := l1 ++ c1 :: l2 ++ c2 :: l3 in
  let scenarios := parseScenarios (jt_description ticket) in
  existingCasesMap (jiraTicketTestCases jiraKey existing) !! normalize (case_title c2)
  = Some c2 /\
  (forall s (st0 : St (W := W)),
     normalize (name s) = normalize (case_title c2) ->
     (exists st',
        syncScenario env false jiraKey ticket sectionId existing s st0 = (inr tt, st') /\
        calls st' = calls st0
                    ++ [UpdateTestCase (case_id c2) (buildTestCase ticket sectionId s)] /\
        world st'
        = snd (updateTestCase env (case_id c2) (buildTestCase ticket sectionId s)
                 (world st0))) /\
     syncScenario env true jiraKey ticket sectionId existing s st0
     = (inr tt,
        mkSt (world st0) (calls st0)
          (logs st0
           ++ [(Verbose, "[DRY RUN] Would update test case: " +:+ quoted (name s)
                         +:+ " (ID: " +:+ showZ (case_id c2) +:+ ")")])
          (incUpdated (result st0)))) /\
  exists st' cs,
    syncTicketToTestRail env jiraKey testrailProjectId testrailSuiteId
      testrailSectionId sectionName false suiteName createSuiteIfMissing
      createSectionIfMissing st
    = (inr (result st'), st') /\
    calls st' = calls st2 ++ FetchTicket jiraKey :: cs /\
    (forall s, In s scenarios ->
       normalize (name s) = normalize (case_title c2) ->
       In (UpdateTestCase (case_id c2) (buildTestCase ticket sectionId s)) cs) /\
    (forall testCase, ~ In (UpdateTestCase (case_id c1) testCase) cs) /\
    ((exists s, In s scenarios /\ normalize (name s) = normalize (case_title c2)) ->
     ~ In (DeleteTestCase (case_id c1)) cs /\ ~ In (DeleteTestCase (case_id c2)) cs).
Proof.
  intros Hsuite Hsection Hfetch Hget Hids H1 H2 Hsame Hlast existing scenarios.
  pose proof (NoDup_ids_apart _ _ _ _ _ Hids) as Hapart.
  assert (Hin1 : In c1 existing).
  { unfold existing. apply in_or_app. right. now left. }
  assert (Hin2 : In c2 existing).
  { unfold existing. apply in_or_app. right. right. apply in_or_app. right. now left. }
  assert (Hlookup : existingCasesMap (jiraTicketTestCases jiraKey existing)
                    !! normalize (case_title c2) = Some c2).
  { unfold existing. rewrite filter_linked_split by assumption.
    apply existingCasesMap_last. intros c' Hc'.
    apply jiraTicketTestCases_In in Hc' as [Hin Hl]. now apply Hlast. }
  assert (Hfound : forall s, normalize (name s) = normalize (case_title c2) ->
                             existingCase jiraKey existing s = Some c2).
  { intros s Hs. unfold existingCase. now rewrite Hs. }
  assert (Hnever : forall s, existingCase jiraKey existing s <> Some c1).
  { intros s Hs. pose proof (existingCase_origin _ _ _ _ Hs) as (_ & _ & Hk).
    unfold existingCase in Hs. rewrite <- Hk, Hsame, Hlookup in Hs.
    injection Hs as Hs. apply Hapart. now rewrite Hs. }
  assert (Hkept : (exists s, In s scenarios /\
                             normalize (name s) = normalize (case_title c2)) ->
                  forall c, In c (testCasesToDelete jiraKey scenarios existing) ->
                            case_id c <> case_id c1 /\ case_id c <> case_id c2).
  { intros (s & Hs & Htitle) c Hdel.
    pose proof (proj1 (testCasesToDelete_In _ _ _ _) Hdel) as (Hin & _ & Hnone).
    split; intros Hid.
    - assert (c = c1) by (apply (NoDup_map_injective case_id existing); assumption).
      subst c. apply Hnone. exists s. split; [exact Hs|now rewrite Hsame].
    - assert (c = c2) by (apply (NoDup_map_injective case_id existing); assumption).
      subst c. apply Hnone. exists s. now split. }
  split; [exact Hlookup|]. split.
  - intros s st0 Hs. split.
    + destruct (syncScenario_live env jiraKey ticket sectionId existing s st0)
        as (st' & Hrun & Hcalls & Hworld & _).
      exists st'. split; [exact Hrun|].
      rewrite Hcalls, Hworld. unfold plannedCall, plannedAnswer.
      rewrite (Hfound s Hs). split; reflexivity.
    + rewrite syncScenario_dry. unfold dryLine, countSynced.
      now rewrite (Hfound s Hs).
  - destruct (syncInto_calls env jiraKey testrailProjectId sectionId suiteId st2
                ticket w3 existing w4 Hfetch Hget) as (st' & Hrun & Hcalls).
    fold scenarios in Hcalls.
    exists st'. eexists. split; [|split; [exact Hcalls|]].
    { unfold syncTicketToTestRail.
      cbv [bind modify tryCatch]. cbn [world calls logs result].
      rewrite Hsuite, Hsection, Hrun. reflexivity. }
    clear Hcalls Hrun. clearbody scenarios.
    assert (Hplanned : forall call,
              In call (match scenarios with
                       | [] => []
                       | _ :: _ =>
                           GetTestCases testrailProjectId sectionId (orUndefined suiteId)
                           :: plannedCalls jiraKey ticket sectionId scenarios existing
                       end) ->
              call = GetTestCases testrailProjectId sectionId (orUndefined suiteId) \/
              (exists s, In s scenarios /\
                         call = plannedCall jiraKey ticket sectionId existing s) \/
              (exists c, In c (testCasesToDelete jiraKey scenarios existing) /\
                         call = DeleteTestCase (case_id c))).
    { intros call Hcall. destruct scenarios as [|s0 l0]; [contradiction|].
      destruct Hcall as [<-|Hcall]; [now left|]. right.
      unfold plannedCalls in Hcall. apply in_app_or in Hcall as [Hcall|Hcall];
        apply in_map_iff in Hcall as (x & <- & Hx); [left|right]; now exists x. }
    split; [|split].
    + intros s Hs Htitle.
      destruct scenarios as [|s0 l0]; [contradiction|].
      right. unfold plannedCalls. apply in_or_app. left.
      apply in_map_iff. exists s. split; [|exact Hs].
      unfold plannedCall. now rewrite (Hfound s Htitle).
    + intros testCase Hcall.
      apply Hplanned in Hcall as [Hcall|[(s & Hs & Hcall)|(c & _ & Hcall)]];
        [discriminate Hcall| |discriminate Hcall].
      unfold plannedCall in Hcall.
      destruct (existingCase jiraKey existing s) as [c|] eqn:Hc; [|discriminate Hcall].
      injection Hcall as Hid _.
      assert (c = c1).
      { apply (NoDup_map_injective case_id existing); try assumption; [|congruence].
        now apply existingCase_origin in Hc as (Hin & _). }
      subst c. now apply (Hnever s).
    + intros Hsome. specialize (Hkept Hsome).
      split; intros Hcall;
        apply Hplanned in Hcall as [Hcall|[(s & Hs & Hcall)|(c & Hc & Hcall)]];
        try discriminate Hcall;
        try (unfold plannedCall in Hcall;
             destruct (existingCase jiraKey existing s); discriminate Hcall);
        injection Hcall as Hid; destruct (Hkept c Hc) as [Hn1 Hn2]; congruence.
Qed.

Lemma later_duplicate_wins_witness :
  In (UpdateTestCase 12
        (buildTestCase (Demo.demoTicket Demo.twoScenarios) 101
           (mkScenario "Successful login"
              ["When user enters valid credentials"; "Then user is logged in"]
              "user is logged in")))
     (calls (snd (syncTicketToTestRail Demo.demoEnv "PROJ-123" 2 (Some 6%Z) None None
                    false None false false (Demo.start Demo.duplicates)))).
Proof.
  set (a1 := resolveSuite Demo.demoEnv 2 (Some 6%Z) None false false
               (mkSt (world (Demo.start Demo.duplicates))
                  (calls (Demo.start Demo.duplicates))
                  (logs (Demo.start Demo.duplicates)) emptyResult)).
  set (a2 := resolveSection Demo.demoEnv 2 (Some 6%Z) (Some 6%Z) None None false false
               (snd a1)).
  assert (H1 : a1 = (inr (Some 6%Z), snd a1)) by (vm_compute; reflexivity).
  assert (H2 : a2 = (inr (101%Z, Some 6%Z), snd a2)) by (vm_compute; reflexivity).
  assert (H3 : fetchTicket Demo.demoEnv "PROJ-123" (world (snd a2))
               = (inr (Demo.demoTicket Demo.twoScenarios), Demo.duplicates))
    by (vm_compute; reflexivity).
  assert (H4 : getTestCases Demo.demoEnv 2 101 (orUndefined (Some 6%Z)) Demo.duplicates
               = (inr ([] ++ Demo.dupEarly :: [Demo.otherCase] ++ Demo.dupLate :: []),
                  Demo.duplicates))
    by (vm_compute; reflexivity).
  destruct (later_duplicate_wins Demo.demoEnv "PROJ-123" 2 (Some 6%Z) None None None
              false false (Demo.start Demo.duplicates) (snd a1) (snd a2)
              (Some 6%Z) (Some 6%Z) 101 (Demo.demoTicket Demo.twoScenarios)
              [] [Demo.otherCase] [] Demo.dupEarly Demo.dupLate
              Demo.duplicates Demo.duplicates H1 H2 H3 H4)
    as (_ & _ & st' & cs & Hrun & Hcalls & Hupdate & _).
  - vm_compute. repeat constructor; cbn; intuition discriminate.
  - vm_compute. reflexivity.
  - vm_compute. reflexivity.
  - vm_compute. reflexivity.
  - intros c [].
  - rewrite Hrun. cbn [snd]. rewrite Hcalls. apply in_or_app. right. right.
    apply Hupdate; [vm_compute; left; reflexivity|vm_compute; reflexivity].
Defined.

(* ===================================================================== *)
(** * The calls of a computation *)
(* ===================================================================== *)

Section Emits.
Context {W : Type} (env : Env W) (P : Call -> Prop).

Lemma emits_ret {A} (a : A) : emits (W := W) P (ret a).
Proof. intros st. exists []. simpl. rewrite app_nil_r. split; [reflexivity|constructor]. Qed.

Lemma emits_throw {A} e : emits (W := W) (A := A) P (throw e).
Proof. intros st. exists []. simpl. rewrite app_nil_r. split; [reflexivity|constructor]. Qed.

Lemma emits_log level message : emits (W := W) P (log level message).
Proof. intros st. exists []. simpl. rewrite app_nil_r. split; [reflexivity|constructor]. Qed.

Lemma emits_modify f : emits (W := W) P (modify f).
Proof. intros st. exists []. simpl. rewrite app_nil_r. split; [reflexivity|constructor]. Qed.

Lemma emits_getResult : emits (W := W) P getResult.
Proof. intros st. exists []. simpl. rewrite app_nil_r. split; [reflexivity|constructor]. Qed.

Lemma emits_issue {A} c (method : W -> answer A * W) : P c -> emits P (issue c method).
Proof.
  intros Hc st. exists [c]. unfold issue. destruct (method (world st)) as [a w'].
  simpl. split; [reflexivity|]. constructor; [exact Hc|constructor].
Qed.

Lemma emits_bind {A B} (m : M A) (k : A -> M B) :
  emits P m -> (forall a, emits P (k a)) -> emits (W := W) P (bind m k).
Proof.
  intros Hm Hk st. destruct (Hm st) as (cs & Hcs & HP). unfold bind.
  destruct (m st) as [[e|a] st1]; simpl in Hcs.
  - exists cs. now split.
  - destruct (Hk a st1) as (cs' & Hcs' & HP'). exists (cs ++ cs').
    split; [|now apply Forall_app]. rewrite Hcs', Hcs. now rewrite app_assoc.
Qed.

Lemma emits_tryCatch {A} (m : M A) (h : string -> M A) :
  emits P m -> (forall e, emits P (h e)) -> emits (W := W) P (tryCatch m h).
Proof.
  intros Hm Hh st. destruct (Hm st) as (cs & Hcs & HP). unfold tryCatch.
  destruct (m st) as [[e|a] st1]; simpl in Hcs.
  - destruct (Hh e st1) as (cs' & Hcs' & HP'). exists (cs ++ cs').
    split; [|now apply Forall_app]. rewrite Hcs', Hcs. now rewrite app_assoc.
  - exists cs. now split.
Qed.

Lemma emits_forEach {A} (l : list A) (body : A -> M unit) :
  (forall a, emits P (body a)) -> emits (W := W) P (forEach l body).
Proof.
  intros Hbody. induction l as [|a l IH]; simpl.
  - apply emits_ret.
  - apply emits_bind; [apply Hbody|intros _; exact IH].
Qed.

End Emits.

(** Breaks a computation into its calls. *)
Ltac emit :=
  repeat first
    [ apply emits_ret | apply emits_throw | apply emits_log
    | apply emits_modify | apply emits_getResult
    | apply emits_bind; [|intros ?]
    | apply emits_tryCatch; [|intros ?]
    | apply emits_forEach; intros ?
    | apply emits_issue; solve [reflexivity | cbn; auto]
    | match goal with
      | |- emits _ (match ?x with _ => _ end) => destruct x
      end
    | progress cbv beta iota ].


(* ===================================================================== *)
(** * Creating the path Parent/Child *)
(* ===================================================================== *)

Lemma find_all_false {A} (f : A -> bool) l :
  (forall x, In x l -> f x = false) -> List.find f l = None.
Proof.
  induction l as [|a l IH]; intros H; simpl; [reflexivity|].
  rewrite (H a (or_introl eq_refl)). apply IH. intros x Hx. apply H. now right.
Qed.

Lemma isChild_other part parent s :
  normalize (sec_name s) <> part -> isChild part parent s = false.
Proof.
  intros H. unfold isChild. apply String.eqb_neq in H. now rewrite H.
Qed.


Lemma isChild_top part s :
  ~ topLevelNamed part s -> isChild part None s = false.
Proof.
  intros H. unfold isChild.
  destruct (String.eqb (normalize (sec_name s)) part) eqn:Hn; [|reflexivity].
  destruct (noParent s) eqn:Hp; [|reflexivity].
  exfalso. apply H. split; [now apply String.eqb_eq|exact Hp].
Qed.

Lemma isChild_under part p s :
  sec_parent_id s <> Some p -> isChild part (Some p) s = false.
Proof.
  intros H. unfold isChild, parentIs. destruct (sec_parent_id s) as [q|].
  - destruct (q =? p)%Z eqn:Hq; [|apply andb_false_r].
    apply Z.eqb_eq in Hq. subst q. contradiction.
  - apply andb_false_r.
Qed.

Lemma resolveSuite_given {W : Type} (env : Env W) pid suite suiteName dryRun create
    (st : St (W := W)) :
  truthyZ suite = true ->
  resolveSuite env pid (Some suite) suiteName dryRun create st = (inr (Some suite), st).
Proof.
  intros Hsuite. unfold resolveSuite. destruct suiteName as [n|]; [|reflexivity].
  cbn [truthyOptZ]. rewrite Hsuite. now rewrite andb_false_r.
Qed.

Section PathCreation.

Context {W : Type} (env : Env W).

Ltac run :=
  cbv [tryCatch bind log modify issue ret getResult];
  cbn [world calls logs result fst snd].

Ltac ends :=
  match goal with
  | |- exists st', (_, ?final) = _ /\ _ => exists final; split; [reflexivity|]
  end.

Lemma pathParts_Parent_Child : pathParts "Parent/Child" = ["Parent"; "Child"].
Proof. vm_compute. reflexivity. Qed.

Lemma nameParts_Parent_Child :
  pathParts (trim (toLowerCase "Parent/Child")) = ["parent"; "child"].
Proof. vm_compute. reflexivity. Qed.

Lemma sectionOfSuite_Parent_Child pid suite secs (st : St (W := W)) P C w1 w2 w3 :
  getSections env pid suite (world st) = (inr secs, w1) ->
  (forall s, In s secs -> ~ topLevelNamed "parent" s) ->
  (forall s, In s secs -> sec_parent_id s <> Some (sec_id P)) ->
  createSection env pid suite "Parent" None w1 = (inr P, w2) ->
  createSection env pid suite "Child" (Some (sec_id P)) w2 = (inr C, w3) ->
  sec_name P = "Parent" ->
  truthyZ (sec_id P) = true ->
  truthyZ (sec_id C) = true ->
  exists st',
    sectionOfSuite env pid suite (Some "Parent/Child") false true st
    = (inr (sec_id C), st') /\
    calls st' = calls st ++ [GetSections pid suite;
                             CreateSection pid suite "Parent" None;
                             CreateSection pid suite "Child" (Some (sec_id P))] /\
    world st' = w3 /\ result st' = result st.
Proof.
  intros Hget Hnone Hfresh Hc1 Hc2 HnameP HidP HidC.
  unfold sectionOfSuite. run. rewrite Hget. run.
  destruct secs as [|s0 secs'].
  - cbn [List.length Nat.eqb truthyName truthyStr]. run.
    unfold createSectionHierarchy. rewrite pathParts_Parent_Child.
    cbn [createPath List.find]. run. rewrite Hc1. run.
    assert (Hfind : isChild (normalize "Child") (Some (sec_id P)) P = false).
    { apply isChild_other. rewrite HnameP. vm_compute. discriminate. }
    cbn [app List.find]. rewrite Hfind. run. rewrite Hc2. run.
    cbn [app List.find]. rewrite Z.eqb_refl.
    destruct (sec_id P =? sec_id C)%Z eqn:Hsame; run; cbn [negb truthyOptZ].
    + apply Z.eqb_eq in Hsame. rewrite HidP. cbn [negb]. run. rewrite HidP.
      rewrite Hsame. ends. cbn [world calls logs result].
      rewrite <- !app_assoc. repeat split.
    + rewrite HidC. cbn [negb]. run. rewrite HidC.
      ends. cbn [world calls logs result].
      rewrite <- !app_assoc. repeat split.
  - cbn [List.length Nat.eqb]. run. cbn [negb truthyOptZ truthyName truthyStr].
    run. unfold selectByName. rewrite pathParts_Parent_Child, nameParts_Parent_Child.
    cbn [List.length Nat.eqb]. run.
    cbn [walkPath w_sections w_currentParentId w_pathTraversed w_selectedSection].
    rewrite find_all_false by (intros s Hs; apply isChild_top; now apply Hnone).
    run. cbn [nth orUndefined]. rewrite Hc1. run.
    cbn [w_sections w_currentParentId w_pathTraversed w_selectedSection
         List.length Nat.eqb Nat.sub].
    rewrite find_all_false.
    2:{ intros s Hs. apply in_app_or in Hs as [Hs|[<-|[]]].
        - apply isChild_under. now apply Hfresh.
        - apply isChild_other. rewrite HnameP. vm_compute. discriminate. }
    run. cbn [nth orUndefined]. rewrite HidP. rewrite Hc2. run.
    cbn [w_sections w_currentParentId w_pathTraversed w_selectedSection
         List.length Nat.ltb Nat.leb app].
    run.
    destruct (noParent C); run; cbn [andb]; run; rewrite HidC;
      (ends; cbn [world calls logs result]; rewrite <- !app_assoc; repeat split).
Qed.

Lemma syncInto_onSection jiraKey pid dryRun sectionId suiteId :
  emits (onSection sectionId) (syncInto env jiraKey pid dryRun sectionId suiteId).
Proof.
  unfold syncInto, fetchExisting, reconcile, logSummary, syncScenario, deleteCase.
  emit.
Qed.

End PathCreation.

(** C8. With a suite given, section creation enabled and no dry run, when
    the suite holds no top-level section named Parent (hence no Child
    under it: no section of the suite has the id returned for Parent as
    its parent) and the store answers each creation with a section of a
    non-zero id (named Parent for the first), the run on the path
    Parent/Child issues, after the listing of the sections, exactly two
    section creations: Parent without parent, then Child under the id
    returned for Parent; the section resolved is the one returned for
    Child, and every later call of the run is a call of steps 1 to 5 on
    that section id. *)
Theorem parent_child_created {W : Type} (env : Env W)
    (jiraKey : string) (pid suite : Z) (sectionIdArg : option Z)
    (suiteName : option string) (createSuiteIfMissing : bool)
    (secs : list TestRailSection) (st : St (W := W))
    (P C : TestRailSection) (w1 w2 w3 : W) :
  truthyZ suite = true ->
  getSections env pid suite (world st) = (inr secs, w1) ->
  (forall s, In s secs -> ~ topLevelNamed "parent" s) ->
  (forall s, In s secs -> sec_parent_id s <> Some (sec_id P)) ->
  createSection env pid suite "Parent" None w1 = (inr P, w2) ->
  createSection env pid suite "Child" (Some (sec_id P)) w2 = (inr C, w3) ->
  sec_name P = "Parent" ->
  truthyZ (sec_id P) = true ->
  truthyZ (sec_id C) = true ->
  exists st1 rest,
    resolveSection env pid (Some suite) (Some suite) sectionIdArg
      (Some "Parent/Child") false true
      (mkSt (world st) (calls st) (logs st) emptyResult)
    = (inr (sec_id C, Some suite), st1) /\
    calls st1 = calls st ++ [GetSections pid suite;
                             CreateSection pid suite "Parent" None;
                             CreateSection pid suite "Child" (Some (sec_id P))] /\
    calls (snd (syncTicketToTestRail env jiraKey pid (Some suite) sectionIdArg
                  (Some "Parent/Child") false suiteName createSuiteIfMissing true st))
    = calls st1 ++ rest /\
    Forall (onSection (sec_id C)) rest.
Proof.
  intros Hsuite Hget Hnone Hfresh Hc1 Hc2 HnameP HidP HidC.
  set (st0 := mkSt (world st) (calls st) (logs st) emptyResult).
  destruct (sectionOfSuite_Parent_Child env pid suite secs st0 P C w1 w2 w3
              Hget Hnone Hfresh Hc1 Hc2 HnameP HidP HidC)
    as (st1 & Hsec & Hcalls & _ & _).
  assert (Hres : resolveSection env pid (Some suite) (Some suite) sectionIdArg
                   (Some "Parent/Child") false true st0
                 = (inr (sec_id C, Some suite), st1)).
  { unfold resolveSection. cbn [truthyOptZ]. rewrite Hsuite.
    change (default 0%Z (Some suite)) with suite.
    unfold bind. now rewrite Hsec. }
  destruct (syncInto_onSection env jiraKey pid false (sec_id C) (Some suite) st1)
    as (rest & Hrest & Hon).
  exists st1, rest. split; [exact Hres|]. split; [exact Hcalls|]. split; [|exact Hon].
  unfold syncTicketToTestRail. cbv [bind modify tryCatch]. cbn [world calls logs result].
  fold st0. rewrite resolveSuite_given by exact Hsuite. rewrite Hres.
  destruct (syncInto env jiraKey pid false (sec_id C) (Some suite) st1)
    as [[e|r] st2]; exact Hrest.
Qed.

Lemma parent_child_created_witness :
  (exists st1,
     resolveSection Demo.demoEnv 2 (Some 6%Z) (Some 6%Z) None (Some "Parent/Child")
       false true (Demo.start (Demo.emptySuite Demo.twoScenarios))
     = (inr (101%Z, Some 6%Z), st1) /\
     calls st1 = [GetSections 2 6; CreateSection 2 6 "Parent" None;
                  CreateSection 2 6 "Child" (Some 100%Z)]) /\
  (exists st1,
     resolveSection Demo.demoEnv 2 (Some 6%Z) (Some 6%Z) None (Some "Parent/Child")
       false true (Demo.start Demo.oneSection)
     = (inr (201%Z, Some 6%Z), st1) /\
     calls st1 = [GetSections 2 6; CreateSection 2 6 "Parent" None;
                  CreateSection 2 6 "Child" (Some 200%Z)]).
Proof.
  split.
  - destruct (parent_child_created Demo.demoEnv "PROJ-123" 2 6 None None false
                [] (Demo.start (Demo.emptySuite Demo.twoScenarios))
                (mkSection 100 "Parent" 6 None) (mkSection 101 "Child" 6 (Some 100%Z))
                (Demo.emptySuite Demo.twoScenarios)
                (snd (createSection Demo.demoEnv 2 6 "Parent" None
                        (Demo.emptySuite Demo.twoScenarios)))
                (snd (createSection Demo.demoEnv 2 6 "Child" (Some 100%Z)
                        (snd (createSection Demo.demoEnv 2 6 "Parent" None
                                (Demo.emptySuite Demo.twoScenarios)))))
                eq_refl eq_refl (fun s (H : In s []) => match H with end)
                (fun s (H : In s []) => match H with end)
                eq_refl eq_refl eq_refl eq_refl eq_refl)
      as (st1 & rest & Hres & Hcalls & _).
    exists st1. split; [exact Hres|exact Hcalls].
  - assert (Hnone : forall s, In s [mkSection 101 "Login" 6 None] ->
              ~ topLevelNamed "parent" s).
    { intros s [<-|[]] [Hn _]. vm_compute in Hn. discriminate Hn. }
    assert (Hfresh : forall s, In s [mkSection 101 "Login" 6 None] ->
              sec_parent_id s <> Some 200%Z).
    { intros s [<-|[]]. discriminate. }
    destruct (parent_child_created Demo.demoEnv "PROJ-123" 2 6 None None false
                [mkSection 101 "Login" 6 None] (Demo.start Demo.oneSection)
                (mkSection 200 "Parent" 6 None) (mkSection 201 "Child" 6 (Some 200%Z))
                Demo.oneSection
                (snd (createSection Demo.demoEnv 2 6 "Parent" None Demo.oneSection))
                (snd (createSection Demo.demoEnv 2 6 "Child" (Some 200%Z)
                        (snd (createSection Demo.demoEnv 2 6 "Parent" None
                                Demo.oneSection))))
                eq_refl eq_refl Hnone Hfresh eq_refl eq_refl eq_refl eq_refl eq_refl)
      as (st1 & rest & Hres & Hcalls & _).
    exists st1. split; [exact Hres|exact Hcalls].
Defined.

(* ===================================================================== *)
(** * Dry runs *)
(* ===================================================================== *)

Section Dry.

Context {W : Type} (env : Env W).


Lemma walkPath_dry pid suite create nameParts originalNameParts :
  forall parts i w,
    emits readOnly
      (walkPath env pid suite true create nameParts originalNameParts i parts w).
Proof.
  induction parts as [|part parts IH]; intros i w; cbn [walkPath].
  - emit.
  - apply emits_bind; [|intros w'; apply IH]. emit.
Qed.

Lemma resolveSuite_dry pid suiteId suiteName create :
  emits readOnly (resolveSuite env pid suiteId suiteName true create).
Proof. unfold resolveSuite. emit. Qed.

Lemma selectDefault_quiet sections :
  emits (W := W) readOnly (selectDefault sections).
Proof. unfold selectDefault. emit. Qed.

Lemma selectByName_dry pid suite create sectionName sections :
  emits readOnly (selectByName env pid suite true create sectionName sections).
Proof.
  unfold selectByName.
  apply emits_bind.
  - destruct (List.length _ =? 1); [emit|].
    apply emits_bind; [apply walkPath_dry|intros w]. emit.
  - intros [sections' selected]. emit.
Qed.

Lemma sectionOfSuite_dry pid suite sectionName create :
  emits readOnly (sectionOfSuite env pid suite sectionName true create).
Proof.
  unfold sectionOfSuite.
  apply emits_bind; [emit|intros _].
  apply emits_bind; [emit|intros sections].
  apply emits_bind; [emit|intros [sectionId sections']].
  apply emits_bind; [|intros sectionId'; emit].
  destruct (negb (truthyOptZ sectionId)); [|emit].
  apply emits_bind; [|intros selected; emit].
  destruct (truthyName sectionName); [apply selectByName_dry|apply selectDefault_quiet].
Qed.

Lemma resolveSection_dry pid resolved suiteId sectionId sectionName create :
  emits readOnly
    (resolveSection env pid resolved suiteId sectionId sectionName true create).
Proof.
  unfold resolveSection.
  destruct (truthyOptZ resolved).
  - apply emits_bind; [apply sectionOfSuite_dry|intros ?; emit].
  - emit.
Qed.

Lemma syncInto_dry jiraKey pid sectionId suiteId :
  emits readOnly (syncInto env jiraKey pid true sectionId suiteId).
Proof.
  unfold syncInto, fetchExisting, reconcile, logSummary, syncScenario, deleteCase.
  emit.
Qed.

Lemma syncTicketToTestRail_dry jiraKey pid suiteId sectionId sectionName suiteName
    createSuite createSection :
  emits readOnly
    (syncTicketToTestRail env jiraKey pid suiteId sectionId sectionName true
       suiteName createSuite createSection).
Proof.
  unfold syncTicketToTestRail, recordAndRethrow.
  apply emits_bind; [emit|intros _].
  apply emits_tryCatch; [|intros e; emit].
  apply emits_bind; [apply resolveSuite_dry|intros resolved].
  apply emits_bind; [apply resolveSection_dry|intros [sid su]].
  apply syncInto_dry.
Qed.
End Dry.

Section DryPlaceholders.

Context {W : Type} (env : Env W).

Ltac run :=
  cbv [tryCatch bind log modify issue ret getResult];
  cbn [world calls logs result fst snd].

Ltac ends :=
  match goal with
  | |- exists st', (_, ?final) = _ /\ _ => exists final; split; [reflexivity|]
  end.

(** In a dry run, a suite without sections and a section to create: the
    placeholder id -1 stands for the section, and only the listing of the
    sections has been issued. *)
Lemma sectionOfSuite_placeholder pid suite sectionName n (st : St (W := W)) w1 :
  getSections env pid suite (world st) = (inr [], w1) ->
  truthyName sectionName = Some n ->
  exists st',
    sectionOfSuite env pid suite sectionName true true st = (inr (-1)%Z, st') /\
    calls st' = calls st ++ [GetSections pid suite].
Proof.
  intros Hget Hname. unfold sectionOfSuite. run. rewrite Hget. run.
  cbn [List.length Nat.eqb]. rewrite Hname. run.
  cbn [mockLeaf sec_id truthyOptZ truthyZ Z.eqb negb]. run.
  ends. reflexivity.
Qed.

(** Under the placeholder the cases are not listed. *)
Lemma fetchExisting_placeholder pid suiteId (st : St (W := W)) :
  exists st',
    fetchExisting env true pid (-1) suiteId st = (inr [], st') /\
    calls st' = calls st /\ world st' = world st.
Proof.
  unfold fetchExisting. change ((-1 =? -1)%Z) with true. cbn [andb]. run.
  ends. split; reflexivity.
Qed.

End DryPlaceholders.

(** In a dry run no call changes the store, whatever the arguments and
    whatever the store answers. *)
Lemma dry_run_is_read_only {W : Type} (env : Env W) jiraKey pid suiteId sectionId
    sectionName suiteName createSuite createSection (st : St (W := W)) :
  exists cs,
    calls (snd (syncTicketToTestRail env jiraKey pid suiteId sectionId sectionName
                  true suiteName createSuite createSection st))
    = calls st ++ cs /\
    Forall (fun c => mutating c = false) cs.
Proof. apply syncTicketToTestRail_dry. Qed.

(** C9. A dry run that has to create the suite it is given by name gets no
    placeholder for it: when the store knows no suite of that name, suite
    creation is enabled and neither a suite id nor a section id is given,
    the run logs the creation it would make and then stops with the error
    of a run without container; nothing downstream is simulated. *)
Theorem dry_run_suite_creation_stops {W : Type} (env : Env W)
    (jiraKey : string) (pid : Z) (sectionName : option string)
    (suiteName : string) (createSectionIfMissing : bool)
    (st : St (W := W)) (w' : W) :
  truthyStr suiteName = true ->
  findSuiteByName env pid suiteName (world st) = (inr None, w') ->
  syncTicketToTestRail env jiraKey pid None None sectionName true (Some suiteName)
    true createSectionIfMissing st
  = (inl noContainer,
     mkSt w' (calls st ++ [FindSuiteByName pid suiteName])
       (logs st ++ [(Info, "Looking for suite: " +:+ quoted suiteName +:+ "...");
                    (Verbose, "[DRY RUN] Would create suite: " +:+ quoted suiteName)])
       (pushError noContainer emptyResult)).
Proof.
  intros Hname Hfind.
  unfold syncTicketToTestRail, recordAndRethrow, resolveSuite, resolveSection.
  cbv [tryCatch bind log modify issue ret getResult throw].
  cbn [world calls logs result fst snd truthyOptZ negb andb].
  rewrite Hname. cbn [negb andb world calls logs result fst snd].
  rewrite Hfind. cbn [world calls logs result fst snd truthyOptZ].
  rewrite <- app_assoc. reflexivity.
Qed.

Lemma dry_run_suite_creation_stops_witness :
  fst (syncTicketToTestRail Demo.demoEnv "PROJ-123" 2 None None (Some "New Section")
         true (Some "New Suite") true true
         (Demo.start (Demo.emptySuite Demo.twoScenarios)))
  = inl noContainer.
Proof.
  rewrite (dry_run_suite_creation_stops Demo.demoEnv "PROJ-123" 2 (Some "New Section")
             "New Suite" true (Demo.start (Demo.emptySuite Demo.twoScenarios))
             (Demo.emptySuite Demo.twoScenarios) eq_refl eq_refl).
  reflexivity.
Defined.

(* ===================================================================== *)
(** * Two runs in a row, on the store in memory *)
(* ===================================================================== *)

(** A first run creates the two cases; a second run on the store it leaves,
    with the same ticket, updates them and neither creates nor deletes. *)
Example two_runs_in_a_row :
  let run := syncTicketToTestRail Demo.demoEnv "PROJ-123" 2 (Some 6%Z) None
               (Some "Parent/Child") false None false true in
  let first := run (Demo.start (Demo.emptySuite Demo.twoScenarios)) in
  let second := run (Demo.start (world (snd first))) in
  List.map target (calls (snd first)) = [None; None; None; None; None; None; None] /\
  List.filter mutating (calls (snd first))
  = [CreateSection 2 6 "Parent" None; CreateSection 2 6 "Child" (Some 100%Z);
     CreateTestCase 101
       (buildTestCase (Demo.demoTicket Demo.twoScenarios) 101
          (mkScenario "Successful login"
             ["When user enters valid credentials"; "Then user is logged in"]
             "user is logged in"));
     CreateTestCase 101
       (buildTestCase (Demo.demoTicket Demo.twoScenarios) 101
          (mkScenario "Failed login"
             ["When user enters invalid credentials";
              "Then error message is displayed"]
             "error message is displayed"))] /\
  List.map target (List.filter mutating (calls (snd second)))
  = [Some 102%Z; Some 103%Z] /\
  match fst second with
  | inr r => scenariosCreated r = 0 /\ scenariosUpdated r = 2 /\ scenariosDeleted r = 0
  | inl _ => False
  end.
Proof. vm_compute. repeat split. Qed.

(* ===================================================================== *)
(** * The configuration *)
(* ===================================================================== *)

Section Configuration.

Import Num Config Props.

Lemma unset_false value : unset value = false -> exists v, value = Some v /\ v <> "" /\ default "" value = v.
Proof.
  destruct value as [[|c s]|]; simpl; try discriminate.
  intros _. exists (String c s). repeat split. discriminate.
Qed.

(** X1. [validateConfig] returns a configuration exactly when each of the
    six required variables is set to a text that is not empty, and the
    configuration then holds these texts as they are; otherwise the
    message of its error names every required variable that is missing
    and no required variable that is set. *)
Theorem validateConfig_names_what_is_missing (env : Environment) :
  match validateConfig env with
  | inr c =>
      forall variable, In variable required ->
        env variable = Some (held c variable) /\ held c variable <> ""
  | inl text =>
      (exists variable, In variable required /\ unset (env variable) = true) /\
      (forall variable, In variable required ->
         (includes text variable = true <-> unset (env variable) = true))
  end.
Proof.
  unfold validateConfig, pushIfUnset.
  destruct (unset (env "JIRA_URL")) eqn:H1;
  destruct (unset (env "JIRA_EMAIL")) eqn:H2;
  destruct (unset (env "JIRA_API_TOKEN")) eqn:H3;
  destruct (unset (env "TESTRAIL_URL")) eqn:H4;
  destruct (unset (env "TESTRAIL_USERNAME")) eqn:H5;
  destruct (unset (env "TESTRAIL_API_KEY")) eqn:H6;
  cbn [app List.length Nat.ltb Nat.leb];
  try (split;
       [ first [ exists "JIRA_URL"; split; [vm_compute; tauto|assumption]
               | exists "JIRA_EMAIL"; split; [vm_compute; tauto|assumption]
               | exists "JIRA_API_TOKEN"; split; [vm_compute; tauto|assumption]
               | exists "TESTRAIL_URL"; split; [vm_compute; tauto|assumption]
               | exists "TESTRAIL_USERNAME"; split; [vm_compute; tauto|assumption]
               | exists "TESTRAIL_API_KEY"; split; [vm_compute; tauto|assumption] ]
       | intros variable Hin; simpl in Hin;
         repeat (destruct Hin as [<-|Hin]); try contradiction;
         match goal with
         | H : unset (env ?v) = ?b |- (_ <-> unset (env ?v) = true) =>
             rewrite H; vm_compute; split; congruence
         end ]).
  intros variable Hin. simpl in Hin.
  apply unset_false in H1 as (v1 & E1 & N1 & D1).
  apply unset_false in H2 as (v2 & E2 & N2 & D2).
  apply unset_false in H3 as (v3 & E3 & N3 & D3).
  apply unset_false in H4 as (v4 & E4 & N4 & D4).
  apply unset_false in H5 as (v5 & E5 & N5 & D5).
  apply unset_false in H6 as (v6 & E6 & N6 & D6).
  repeat (destruct Hin as [<-|Hin]); try contradiction;
    unfold held; cbn [String.eqb Ascii.eqb Bool.eqb cfg_jira cfg_testrail jira_url jira_email
                      jira_apiToken testrail_url testrail_username testrail_apiKey];
    simpl; rewrite ?D1, ?D2, ?D3, ?D4, ?D5, ?D6; auto.
Qed.

End Configuration.

(* ===================================================================== *)
(** * The payloads of the TestRail client *)
(* ===================================================================== *)

Section Payloads.

Import Rest Props TestRailClient.


Lemma field_assign_same key v p : field key (assign key v p) = Some v.
Proof.
  unfold assign, field, hasKey.
  destruct (existsb (fun kv => String.eqb (fst kv) key) p) eqn:He.
  - induction p as [|[k w] p IH]; simpl in *; [discriminate|].
    destruct (String.eqb k key) eqn:Hk; simpl.
    + now rewrite String.eqb_refl.
    + rewrite Hk. apply IH. exact He.
  - induction p as [|[k w] p IH]; simpl in *.
    + now rewrite String.eqb_refl.
    + apply orb_false_iff in He as [Hk He]. rewrite Hk. now apply IH.
Qed.

Lemma field_assign_other key key' v p :
  key <> key' -> field key (assign key' v p) = field key p.
Proof.
  intros Hne. unfold assign, field, hasKey.
  destruct (existsb (fun kv => String.eqb (fst kv) key') p) eqn:He.
  - clear He. induction p as [|[k w] p IH]; simpl; [reflexivity|].
    destruct (String.eqb k key') eqn:Hk; simpl.
    + apply String.eqb_eq in Hk. subst k.
      destruct (String.eqb key' key) eqn:Hk'.
      * apply String.eqb_eq in Hk'. congruence.
      * exact IH.
    + destruct (String.eqb k key); [reflexivity|exact IH].
  - clear He. induction p as [|[k w] p IH]; simpl.
    + destruct (String.eqb key' key) eqn:Hk'; [|reflexivity].
      apply String.eqb_eq in Hk'. congruence.
    + destruct (String.eqb k key); [reflexivity|exact IH].
Qed.

Lemma cacheOf_keyed fields key f :
  cacheOf fields !! key = Some f -> system_name f = key.
Proof.
  unfold cacheOf.
  assert (H : forall (m : gmap string CaseField),
             (forall k g, m !! k = Some g -> system_name g = k) ->
             forall k g, fold_left (fun m f => <[system_name f := f]> m) fields m !! k = Some g ->
                         system_name g = k).
  { induction fields as [|a l IH]; intros m Hm k g; simpl; [apply Hm|].
    apply IH. intros k' g'. destruct (decide (system_name a = k')) as [<-|Hne].
    - rewrite lookup_insert_eq. intros [= <-]. reflexivity.
    - rewrite lookup_insert_ne by exact Hne. apply Hm. }
  apply H. intros k g. rewrite lookup_empty. discriminate.
Qed.


Lemma field_assignWithCustom_other fields key custom value k p :
  k <> key -> k <> custom ->
  field k (assignWithCustom (cacheOf fields) key custom value p) = field k p.
Proof.
  intros Hk Hc. unfold assignWithCustom.
  destruct (cacheOf fields !! custom) as [f|] eqn:Hf.
  - apply cacheOf_keyed in Hf. rewrite Hf.
    now rewrite !field_assign_other.
  - now rewrite field_assign_other.
Qed.

Lemma field_assignWithCustom_same fields key custom value p :
  key <> custom ->
  field key (assignWithCustom (cacheOf fields) key custom value p) = Some (PStr value).
Proof.
  intros Hc. unfold assignWithCustom.
  destruct (cacheOf fields !! custom) as [f|] eqn:Hf.
  - apply cacheOf_keyed in Hf. rewrite Hf.
    rewrite field_assign_other by exact Hc. apply field_assign_same.
  - apply field_assign_same.
Qed.

Lemma field_assignCustomSteps_other fields steps k p :
  k <> "custom_steps" -> k <> "custom_steps_separated" ->
  field k (assignCustomSteps (cacheOf fields) steps p) = field k p.
Proof.
  intros H1 H2. unfold assignCustomSteps.
  destruct (cacheOf fields !! "custom_steps_separated") as [g|] eqn:Hg;
    destruct (cacheOf fields !! "custom_steps") as [f|] eqn:Hf;
    try (apply cacheOf_keyed in Hg; rewrite Hg);
    try (apply cacheOf_keyed in Hf; rewrite Hf);
    try destruct (type_id f =? 10)%Z;
    now rewrite ?field_assign_other.
Qed.

(** X2. The payload of [createTestCase], read key by key, whatever the
    custom fields of the instance: the title and the section are those
    given; with at least one step the template is 1 (steps) and the steps
    are sent, each with its content and its expected text; with no step
    the template is 2 (text) and no key holds steps. *)
Theorem create_payload_by_key (customFields : list CaseField) (sectionId : Z)
    (testCase : NewTestCase) :
  let payload := createPayload (cacheOf customFields) sectionId testCase in
  field "title" payload = Some (PStr (new_title testCase)) /\
  field "section_id" payload = Some (PNum sectionId) /\
  if hasSteps (new_fields testCase) then
    field "template_id" payload = Some (PNum 1) /\
    field "steps" payload = Some (PSteps (formatSteps (stepsOf (new_fields testCase))))
  else
    field "template_id" payload = Some (PNum 2) /\
    field "steps" payload = None /\
    field "custom_steps" payload = None /\
    field "custom_steps_separated" payload = None.
Proof.
  unfold createPayload.
  assert (Hsteps : forall k fs p,
            k <> "custom_steps" -> k <> "custom_steps_separated" ->
            field k (match cacheOf customFields !! "custom_steps",
                           cacheOf customFields !! "custom_steps_separated" with
                     | None, None =>
                         assign "custom_steps_separated" (PSteps fs)
                           (assign "custom_steps" (PSteps fs) p)
                     | _, _ => p
                     end) = field k p).
  { intros k fs p H1 H2.
    destruct (cacheOf customFields !! "custom_steps");
      destruct (cacheOf customFields !! "custom_steps_separated");
      now rewrite ?field_assign_other. }
  cbv zeta.
  destruct testCase as [title [preconds steps expected refs]].
  cbn [new_title new_fields cf_preconds cf_expected cf_refs].
  destruct (hasSteps _) eqn:Hhas;
    destruct preconds as [preconds|]; try destruct (truthyStr preconds);
    destruct expected as [expected|]; try destruct (truthyStr expected);
    destruct refs as [refs|]; try destruct (truthyStr refs);
    repeat split;
    repeat first [ rewrite field_assign_same
                 | rewrite field_assign_other by discriminate
                 | rewrite field_assignWithCustom_other by discriminate
                 | rewrite field_assignCustomSteps_other by discriminate
                 | rewrite Hsteps by discriminate ];
    reflexivity.
Qed.

(** X3. The payload of [updateTestCase], read key by key: it never holds
    a section; the preconditions, the expected result and the references
    are sent whenever they are set, empty or not; the steps and the
    template are sent with at least one step only, so that an update
    without steps leaves the steps of the case as they are. *)
Theorem update_payload_by_key (customFields : list CaseField)
    (testCase : PartialTestCase) :
  let payload := updatePayload (cacheOf customFields) testCase in
  field "section_id" payload = None /\
  field "preconds" payload = PStr <$> cf_preconds (part_fields testCase) /\
  field "expected" payload = PStr <$> cf_expected (part_fields testCase) /\
  field "refs" payload = PStr <$> cf_refs (part_fields testCase) /\
  if hasSteps (part_fields testCase) then
    field "template_id" payload = Some (PNum 1) /\
    field "steps" payload = Some (PSteps (formatSteps (stepsOf (part_fields testCase))))
  else
    field "template_id" payload = None /\
    field "steps" payload = None /\
    field "custom_steps" payload = None /\
    field "custom_steps_separated" payload = None.
Proof.
  unfold updatePayload. cbv zeta.
  destruct testCase as [title [preconds steps expected refs]].
  cbn [part_title part_fields cf_preconds cf_expected cf_refs].
  destruct (hasSteps _) eqn:Hhas;
    destruct title as [title|]; try destruct (truthyStr title);
    destruct preconds as [preconds|];
    destruct expected as [expected|];
    destruct refs as [refs|];
    repeat split;
    repeat first [ rewrite field_assign_same
                 | rewrite field_assign_other by discriminate
                 | rewrite field_assignWithCustom_same by discriminate
                 | rewrite field_assignWithCustom_other by discriminate
                 | rewrite field_assignCustomSteps_other by discriminate ];
    reflexivity.
Qed.

(** X4. When the steps of a scenario all belong to its expected result
    (its first step is the last step that starts with then), the update
    that a run sends for it holds neither steps nor a template: the
    expected result and the references are replaced, the steps stored
    with the case are not. *)
Theorem update_without_steps_keeps_them (customFields : list CaseField)
    (ticket : JiraTicket) (sectionId : Z) (scenario : ParsedScenario) :
  convertStepsToTestRailFormat scenario = [] ->
  let testCase := buildTestCase ticket sectionId scenario in
  let payload :=
    updatePayload (cacheOf customFields)
      (mkPartialTestCase (Some (tc_title testCase)) (Program.fieldsOf testCase)) in
  field "steps" payload = None /\
  field "template_id" payload = None /\
  field "custom_steps" payload = None /\
  field "custom_steps_separated" payload = None /\
  field "expected" payload = Some (PStr (payloadExpected scenario)) /\
  field "refs" payload = Some (PStr (jt_key ticket)).
Proof.
  intros Hnone testCase payload. subst payload testCase.
  unfold updatePayload, hasSteps, Program.fieldsOf, buildTestCase. cbv zeta.
  cbn [part_title part_fields cf_preconds cf_steps cf_expected cf_refs
       tc_title tc_preconds tc_refs tc_steps tc_expected].
  rewrite Hnone. cbn [List.length Nat.ltb Nat.leb]. cbv iota.
  destruct (truthyStr (name scenario));
    repeat split;
    repeat first [ rewrite field_assign_same
                 | rewrite field_assign_other by discriminate
                 | rewrite field_assignWithCustom_same by discriminate
                 | rewrite field_assignWithCustom_other by discriminate ];
    reflexivity.
Qed.

End Payloads.

Lemma update_without_steps_keeps_them_witness :
  let scenario := mkScenario "Landing page" ["Then the page is shown"] "the page is shown" in
  let payload :=
    TestRailClient.updatePayload (TestRailClient.cacheOf [Rest.mkField "custom_steps_separated" "Steps" 10])
      (TestRailClient.mkPartialTestCase (Some "Landing page")
         (Program.fieldsOf (buildTestCase (Demo.demoTicket "") 101 scenario))) in
  Rest.field "steps" payload = None /\
  Rest.field "expected" payload = Some (Rest.PStr "Then the page is shown").
Proof.
  pose proof (update_without_steps_keeps_them
                [Rest.mkField "custom_steps_separated" "Steps" 10] (Demo.demoTicket "") 101
                (mkScenario "Landing page" ["Then the page is shown"] "the page is shown")
                eq_refl) as (Hs & _ & _ & _ & He & _).
  split; [exact Hs|exact He].
Defined.
(* ===================================================================== *)
(** * The cache of the custom fields *)
(* ===================================================================== *)

Arguments Rest.say {W B} level text _ /.

Section ClientFacts.

Import Rest Props TestRailClient.

Context {W B : Type} (api : Api W B).

Ltac crun :=
  cbv [attempt andThen send pure raise getCache setCache];
  cbn [say net_world net_requests net_logs net_cache fst snd].

(** Splits on the tests of a handler. *)
Ltac branches :=
  repeat match goal with
  | |- context [match response ?e with _ => _ end] => destruct (response e)
  | |- context [if ?b then _ else _] => destruct b
  end.

(** A loop that only logs. *)
Lemma each_say {A} (level : LogLevel) (text : A -> string) (l : list A) (st : Net W) :
  each (B := B) l (fun a => say level (text a)) st
  = (inr tt, mkNet (net_world st) (net_requests st)
               (net_logs st ++ List.map (fun a => (level, text a)) l) (net_cache st)).
Proof.
  revert st. induction l as [|a l IH]; intros st; simpl.
  - unfold pure. rewrite app_nil_r. now destruct st.
  - unfold andThen, say. rewrite IH. cbn [net_world net_requests net_logs net_cache].
    now rewrite <- app_assoc.
Qed.

(** [loadCustomFields] returns; it asks for the fields when the cache is
    empty, and only then. *)
Lemma loadCustomFields_once (st : Net W) :
  exists cache st',
    loadCustomFields api st = (inr cache, st') /\
    net_cache st' = Some cache /\
    net_requests st'
    = net_requests st ++
      match net_cache st with
      | Some _ => []
      | None => [Get "/index.php?/api/v2/get_case_fields"]
      end.
Proof.
  unfold loadCustomFields, getCaseFields. crun.
  destruct (net_cache st) as [cache|] eqn:Hcache.
  - exists cache, st. rewrite app_nil_r. now repeat split.
  - destruct (get_case_fields api _ (net_world st)) as [[e|body] w']; crun;
      rewrite each_say; cbn [net_world net_requests net_logs net_cache];
      eexists; eexists; repeat split.
Qed.

(** A creation or an update sends one request that posts, after the
    request for the fields when the cache is empty, and leaves the cache
    filled: whether it returns or throws. *)
Lemma perform_requests (call : CaseCall) (st : Net W) :
  exists cache url payload,
    net_cache (perform api call st) = Some cache /\
    net_requests (perform api call st)
    = net_requests st ++
      match net_cache st with
      | Some _ => []
      | None => [Get "/index.php?/api/v2/get_case_fields"]
      end ++ [Post url payload].
Proof.
  destruct call as [sectionId testCase|caseId testCase]; cbn [perform].
  - unfold createTestCase. crun.
    match goal with
    | |- context [loadCustomFields api ?s] =>
        destruct (loadCustomFields_once s) as (cache & st1 & Hload & Hcache & Hreq)
    end.
    rewrite Hload. cbn [net_requests net_cache] in Hreq.
    exists cache. eexists. eexists.
    destruct (hasSteps (new_fields testCase)); crun;
      (destruct (post_case api _ _ (net_world st1)) as [[e|created] w']; crun;
       [branches; crun|];
       (split; [exact Hcache|]; rewrite Hreq, <- app_assoc; reflexivity)).
  - unfold updateTestCase. crun.
    match goal with
    | |- context [loadCustomFields api ?s] =>
        destruct (loadCustomFields_once s) as (cache & st1 & Hload & Hcache & Hreq)
    end.
    rewrite Hload. cbn [net_requests net_cache] in Hreq.
    exists cache. eexists. eexists.
    destruct (hasSteps (part_fields testCase)); crun;
      (destruct (post_case api _ _ (net_world st1)) as [[e|updated] w']; crun;
       [branches; crun|];
       (split; [exact Hcache|]; rewrite Hreq, <- app_assoc; reflexivity)).
Qed.

Lemma count_app kind (l1 l2 : list Request) :
  count kind (l1 ++ l2) = count kind l1 + count kind l2.
Proof. unfold count. now rewrite List.filter_app, List.length_app. Qed.

(** X5. A client asks for the custom fields once: over any sequence of
    creations and updates, each of which may fail, the request for the
    fields is sent once when the cache is empty at the start and there is
    a call, and not at all when the cache is filled; and each call sends
    exactly one request that posts. *)
Theorem custom_fields_asked_once (calls : list CaseCall) (st : Net W) :
  let st' := performAll api calls st in
  exists requests,
    net_requests st' = net_requests st ++ requests /\
    count posts requests = List.length calls /\
    count asksFields requests
    = match net_cache st, calls with
      | None, _ :: _ => 1
      | _, _ => 0
      end.
Proof.
  revert st. induction calls as [|call calls IH]; intros st; cbn [performAll fold_left].
  - exists []. rewrite app_nil_r. repeat split. now destruct (net_cache st).
  - destruct (perform_requests call st) as (cache & url & payload & Hcache & Hreq).
    destruct (IH (perform api call st)) as (requests & Hrest & Hposts & Hasks).
    unfold performAll in Hrest. cbv zeta in Hrest.
    rewrite Hcache in Hasks.
    eexists. split; [rewrite Hrest, Hreq, <- app_assoc; reflexivity|].
    rewrite !count_app, Hposts, Hasks.
    assert (He : count asksFields requests = 0) by (now destruct calls).
    destruct (net_cache st); cbn; split; try reflexivity; try lia; now destruct calls.
Qed.

End ClientFacts.
(* ===================================================================== *)
(** * The methods of the TestRail client *)
(* ===================================================================== *)

Lemma append_nil_r (a : string) : a +:+ "" = a.
Proof.
  induction a as [|x a IH]; [reflexivity|].
  change (String x (a +:+ "") = String x a). now rewrite IH.
Qed.

Section Listings.

Import Rest Props TestRailClient.

Context {W B : Type} (api : Api W B) (config : Config.Config).

Ltac crun :=
  cbv [attempt andThen send pure raise getCache setCache];
  cbn [say net_world net_requests net_logs net_cache fst snd].

Ltac branches :=
  repeat match goal with
  | |- context [match response ?e with _ => _ end] => destruct (response e)
  | |- context [if ?b then _ else _] => destruct b
  end.

Lemma casesUrl_built projectId sectionId suiteId :
  (let url := "/index.php?/api/v2/get_cases/" +:+ showZ projectId
              +:+ "&section_id=" +:+ showZ sectionId in
   if truthyOptZ suiteId
   then url +:+ "&suite_id=" +:+ showZ (default 0%Z suiteId) else url)
  = casesUrl projectId sectionId suiteId.
Proof.
  unfold casesUrl. cbv zeta. destruct suiteId as [suite|]; simpl.
  - unfold truthyZ. destruct (suite =? 0)%Z; simpl.
    + now rewrite ?append_assoc, ?append_nil_r.
    + now rewrite ?append_assoc.
  - now rewrite ?append_assoc, ?append_nil_r.
Qed.

(** X6. [getTestCases] sends one request, to the listing of the section
    (with the suite when one is given), and reads the answer in three
    formats: the array under [cases] of a page, a bare array, and any
    other body, which counts as no case and no error; only a [cases]
    that is set and is not an array is an error, thrown by the [try] and
    wrapped by the [catch] of the method.  When the server refuses, the
    method throws an error that carries a message only. *)
Theorem getTestCases_formats (projectId sectionId : Z) (suiteId : option Z)
    (st : Net W) :
  let run := getTestCases api config projectId sectionId suiteId st in
  let url := casesUrl projectId sectionId suiteId in
  net_requests (snd run) = net_requests st ++ [Get url] /\
  match get_cases api url (net_world st) with
  | (inr body, _) =>
      fst run
      = match prop "cases" body with
        | Some (LArray items) => inr items
        | Some other => if truthy other then inl wrappedFormatError
                        else inr (bareCases body)
        | None => inr (bareCases body)
        end
  | (inl _, _) => exists text, fst run = inl (error text)
  end.
Proof.
  cbv zeta. unfold getTestCases. crun. rewrite casesUrl_built.
  destruct (get_cases api _ (net_world st)) as [[e|body] w']; crun.
  - branches; crun; (split; [reflexivity|eexists; reflexivity]).
  - unfold orElse.
    destruct (prop "cases" body) as [[s|items|props]|] eqn:Hprop;
      cbn [truthy]; try destruct (truthyScalar s); crun;
      try (split; reflexivity);
      destruct body as [s'|items'|props']; cbn [isArray bareCases]; crun;
      split; reflexivity.
Qed.

End Listings.

(* ===================================================================== *)
(** * The errors of the clients *)
(* ===================================================================== *)

Section PlainErrors.

Import Rest Props.

Context {W B : Type}.

Lemma plainly_pure {A} (a : A) : plainly (W := W) (B := B) (pure a).
Proof. intros st. exact I. Qed.

Lemma plainly_raise {A} text : plainly (W := W) (B := B) (A := A) (raise (error text)).
Proof. intros st. split; reflexivity. Qed.

Lemma plainly_say level text : plainly (W := W) (B := B) (say level text).
Proof. intros st. exact I. Qed.

Lemma plainly_andThen {A A'} (m : C A) (k : A -> C A') :
  plainly m -> (forall a, plainly (k a)) -> plainly (W := W) (B := B) (andThen m k).
Proof.
  intros Hm Hk st. unfold andThen. specialize (Hm st).
  destruct (m st) as [[e|a] st1]; [exact Hm|apply Hk].
Qed.

(** What a [try] throws does not matter when its [catch] throws plain
    errors only. *)
Lemma plainly_attempt {A} (m : C A) (h : Failure B -> C A) :
  (forall e, plainly (h e)) -> plainly (W := W) (attempt m h).
Proof.
  intros Hh st. unfold attempt. destruct (m st) as [[e|a] st1]; [apply Hh|exact I].
Qed.

(** A [catch] that logs and throws the error again. *)
Lemma plainly_rethrow {A} (m : C A) level (text : Failure B -> string) :
  plainly m ->
  plainly (W := W) (attempt m (fun e => andThen (say level (text e)) (fun _ => raise e))).
Proof.
  intros Hm st. unfold attempt, andThen. specialize (Hm st).
  destruct (m st) as [[e|a] st1]; [exact Hm|exact I].
Qed.

Lemma plainly_each {A} (l : list A) (body : A -> C unit) :
  (forall a, plainly (body a)) -> plainly (W := W) (B := B) (each l body).
Proof.
  intros Hbody. induction l as [|a l IH]; simpl.
  - apply plainly_pure.
  - apply plainly_andThen; [apply Hbody|intros _; exact IH].
Qed.

End PlainErrors.

(** Breaks a handler into its branches, each of which throws a fresh
    error. *)
Ltac plainer :=
  repeat first
    [ apply plainly_pure | apply plainly_raise | apply plainly_say
    | apply plainly_andThen; [|intros ?]
    | apply plainly_each; intros ?
    | apply plainly_attempt; intros ?
    | match goal with
      | |- Props.plainly (match ?x with _ => _ end) => destruct x
      end
    | progress cbv beta iota zeta ].

Section PlainMethods.

Import Rest Props.

Context {W B : Type} (api : Api W B) (config : Config.Config).

Lemma getSuites_plain projectId : plainly (TestRailClient.getSuites api config projectId).
Proof. unfold TestRailClient.getSuites. plainer. Qed.

End PlainMethods.

(** X7. No method of the two clients lets an error of the HTTP library
    reach its caller: whatever fails (a refusal of the server, no reply,
    an error before the request), the error that the method throws is a
    fresh one that carries a message only. *)
Theorem clients_throw_plain_errors {W B : Type} (api : Rest.Api W B)
    (config : Config.Config) :
  (forall issueKey, Props.plainly (JiraClient.fetchTicket api config issueKey)) /\
  (forall projectId sectionId suiteId,
     Props.plainly (TestRailClient.getTestCases api config projectId sectionId suiteId)) /\
  Props.plainly (TestRailClient.getCaseFields api) /\
  (forall projectId suiteId,
     Props.plainly (TestRailClient.getSections api config projectId suiteId)) /\
  (forall sectionId, Props.plainly (TestRailClient.getSection api sectionId)) /\
  (forall sectionId testCase,
     Props.plainly (TestRailClient.createTestCase api sectionId testCase)) /\
  (forall caseId testCase,
     Props.plainly (TestRailClient.updateTestCase api caseId testCase)) /\
  (forall caseId, Props.plainly (TestRailClient.deleteTestCase api caseId)) /\
  (forall projectId, Props.plainly (TestRailClient.getSuites api config projectId)) /\
  (forall projectId suiteName,
     Props.plainly (TestRailClient.findSuiteByName api config projectId suiteName)) /\
  (forall projectId suiteName description,
     Props.plainly (TestRailClient.createSuite api config projectId suiteName description)) /\
  (forall projectId suiteId sectionName parentId,
     Props.plainly (TestRailClient.createSection api projectId suiteId sectionName parentId)) /\
  (forall suiteId, Props.plainly (TestRailClient.deleteSuite api suiteId)).
Proof.
  repeat split; intros.
  - unfold JiraClient.fetchTicket. plainer.
  - unfold TestRailClient.getTestCases. plainer.
  - unfold TestRailClient.getCaseFields. plainer.
  - unfold TestRailClient.getSections. plainer.
  - unfold TestRailClient.getSection. plainer.
  - unfold TestRailClient.createTestCase. plainer.
  - unfold TestRailClient.updateTestCase. plainer.
  - unfold TestRailClient.deleteTestCase. plainer.
  - apply getSuites_plain.
  - unfold TestRailClient.findSuiteByName. apply plainly_rethrow.
    apply plainly_andThen; [apply getSuites_plain|intros suites]. plainer.
  - unfold TestRailClient.createSuite. plainer.
  - unfold TestRailClient.createSection. plainer.
  - unfold TestRailClient.deleteSuite. plainer.
Qed.

(* ===================================================================== *)
(** * Suites *)
(* ===================================================================== *)

Section Suites.

Import Rest Props TestRailClient.

(** The head of the sorted list is a suite of least id. *)
Lemma sortById_head suites :
  match sortById suites with
  | [] => suites = []
  | master :: _ =>
      In master suites /\
      forall s, In s suites -> (suite_id master <= suite_id s)%Z
  end.
Proof.
  induction suites as [|a l IH]; [reflexivity|].
  cbn [sortById fold_right]. fold (sortById l).
  destruct (sortById l) as [|m rest].
  - subst l. simpl. split; [now left|]. intros s [<-|[]]. lia.
  - destruct IH as [Hin Hmin]. cbn [insertById].
    destruct (suite_id a <=? suite_id m)%Z eqn:Hle.
    + apply Z.leb_le in Hle. split; [now left|].
      intros s [<-|Hs]; [lia|]. specialize (Hmin s Hs). lia.
    + apply Z.leb_gt in Hle. split; [now right|].
      intros s [<-|Hs]; [lia|]. now apply Hmin.
Qed.

Context {W B : Type} (api : Api W B) (config : Config.Config).

Ltac crun :=
  cbv [attempt andThen send pure raise getCache setCache];
  cbn [say net_world net_requests net_logs net_cache fst snd].

(** [getSuites] on an answer of the server. *)
Lemma getSuites_answered projectId (st : Net W) body w' :
  get_suites api ("/index.php?/api/v2/get_suites/" +:+ showZ projectId) (net_world st)
  = (inr body, w') ->
  exists st',
    getSuites api config projectId st = (inr (suitesOf body), st') /\
    net_world st' = w' /\
    net_cache st' = net_cache st /\
    net_requests st'
    = net_requests st ++ [Get ("/index.php?/api/v2/get_suites/" +:+ showZ projectId)].
Proof.
  intros Hget. unfold getSuites. crun. rewrite Hget. crun.
  destruct (truthy body && String.eqb (typeOf body) "object"); crun;
    destruct (0 <? List.length (suitesOf body)); crun;
    eexists; repeat split.
Qed.

End Suites.

(** X8. When the server refuses a new suite with the status 403 and a
    text that tells of a single test suite, [createSuite] lists the
    suites of the project and throws the error of the single suite mode,
    which names as the suite to use a suite of the listing whose id is
    the least; two requests have been sent, the refused creation and the
    listing. *)
Theorem single_suite_mode_names_master {W B : Type} (api : Rest.Api W B)
    (config : Config.Config) (projectId : Z) (suiteName : string)
    (description : option string) (st : Rest.Net W)
    (failure : Rest.Failure B) (r : Rest.Response B) (refused : B) (text : string)
    (w1 w2 : W) (body : Rest.Listing TestRailSuite) :
  let addUrl := "/index.php?/api/v2/add_suite/" +:+ showZ projectId in
  let listUrl := "/index.php?/api/v2/get_suites/" +:+ showZ projectId in
  (forall payload, Rest.post_suite api addUrl payload (Rest.net_world st) = (inl failure, w1)) ->
  Rest.response failure = Some r ->
  Rest.status r = 403%Z ->
  Rest.data r = Some refused ->
  Rest.body_error api refused = Some text ->
  includes (toLowerCase text) "single test suite" = true ->
  Rest.get_suites api listUrl w1 = (inr body, w2) ->
  TestRailClient.suitesOf body <> [] ->
  exists master payload,
    In master (TestRailClient.suitesOf body) /\
    (forall s, In s (TestRailClient.suitesOf body) -> (suite_id master <= suite_id s)%Z) /\
    fst (TestRailClient.createSuite api config projectId suiteName description st)
    = inl (Rest.error (TestRailClient.singleSuiteMode (TestRailClient.suggestion master))) /\
    Rest.net_requests
      (snd (TestRailClient.createSuite api config projectId suiteName description st))
    = Rest.net_requests st ++ [Rest.Post addUrl payload; Rest.Get listUrl].
Proof.
  intros addUrl listUrl Hpost Hresp Hstatus Hdata Herror Hsingle Hlist Hsome.
  pose proof (sortById_head (TestRailClient.suitesOf body)) as Hhead.
  destruct (TestRailClient.sortById (TestRailClient.suitesOf body)) as [|master rest] eqn:Hsort;
    [contradiction|].
  destruct Hhead as [Hin Hmin].
  exists master. eexists. split; [exact Hin|]. split; [exact Hmin|].
  unfold TestRailClient.createSuite.
  cbv [Rest.attempt Rest.andThen Rest.send Rest.pure Rest.raise].
  cbn [Rest.say Rest.net_world Rest.net_requests Rest.net_logs Rest.net_cache fst snd].
  fold addUrl. rewrite Hpost.
  cbn [Rest.net_world Rest.net_requests Rest.net_logs Rest.net_cache fst snd].
  rewrite Hresp.
  assert (Htext : TestRailClient.errorText api r = text).
  { unfold TestRailClient.errorText. rewrite Hdata. cbn [mbind option_bind].
    rewrite Herror. cbn [default from_option id].
    destruct text as [|c t]; [discriminate Hsingle|reflexivity]. }
  rewrite Htext, Hstatus. cbn [Z.eqb Pos.eqb].
  rewrite Hsingle. cbn [orb].
  match goal with
  | |- context [TestRailClient.getSuites api config projectId ?s] =>
      destruct (getSuites_answered api config projectId s body w2 Hlist)
        as (st2 & Hrun & _ & _ & Hreq)
  end.
  rewrite Hrun.
  destruct (0 <? List.length (TestRailClient.suitesOf body)) eqn:Hlen.
  - rewrite Hsort. cbn [fst snd]. split; [reflexivity|].
    rewrite Hreq. cbn [Rest.net_requests]. rewrite <- app_assoc. reflexivity.
  - apply Nat.ltb_ge in Hlen.
    destruct (TestRailClient.suitesOf body); [contradiction|simpl in Hlen; lia].
Qed.

Lemma single_suite_mode_names_master_witness :
  fst (TestRailClient.createSuite Props.singleSuiteApi Props.demoConfig 2 "Smoke" None
         Props.idle)
  = inl (Rest.error (TestRailClient.singleSuiteMode
                       (TestRailClient.suggestion (mkSuite 4 "Master")))).
Proof.
  destruct (single_suite_mode_names_master Props.singleSuiteApi Props.demoConfig 2 "Smoke"
              None Props.idle Props.refusal
              (Rest.mkResponse 403 "Forbidden"
                 (Some "This project only supports a single test suite."))
              "This project only supports a single test suite."
              "This project only supports a single test suite." tt tt
              (Rest.LObject [("offset", Rest.LScalar (Rest.SNum 0));
                             ("suites", Rest.LArray [mkSuite 9 "Baseline 2"; mkSuite 4 "Master";
                                                     mkSuite 7 "Baseline 1"])])
              (fun _ => eq_refl) eq_refl eq_refl eq_refl eq_refl eq_refl eq_refl
              ltac:(discriminate))
    as (master & payload & Hin & Hmin & Hrun & _).
  rewrite Hrun. f_equal. f_equal. f_equal. f_equal.
  simpl in Hin. destruct Hin as [<-|[<-|[<-|[]]]].
  - specialize (Hmin (mkSuite 4 "Master") (or_intror (or_introl eq_refl))).
    simpl in Hmin. lia.
  - reflexivity.
  - specialize (Hmin (mkSuite 4 "Master") (or_intror (or_introl eq_refl))).
    simpl in Hmin. lia.
Defined.

(* ===================================================================== *)
(** * The requests of a computation *)
(* ===================================================================== *)

Section Sends.

Import Rest Props.

Context {W B : Type} (P : Request -> Prop).

Lemma sends_pure {A} (a : A) : sends (W := W) (B := B) P (pure a).
Proof. intros st. exists []. simpl. rewrite app_nil_r. split; [reflexivity|constructor]. Qed.

Lemma sends_raise {A} e : sends (W := W) (B := B) (A := A) P (raise e).
Proof. intros st. exists []. simpl. rewrite app_nil_r. split; [reflexivity|constructor]. Qed.

Lemma sends_say level text : sends (W := W) (B := B) P (say level text).
Proof. intros st. exists []. simpl. rewrite app_nil_r. split; [reflexivity|constructor]. Qed.

Lemma sends_getCache : sends (W := W) (B := B) P getCache.
Proof. intros st. exists []. simpl. rewrite app_nil_r. split; [reflexivity|constructor]. Qed.

Lemma sends_setCache cache : sends (W := W) (B := B) P (setCache cache).
Proof. intros st. exists []. simpl. rewrite app_nil_r. split; [reflexivity|constructor]. Qed.

Lemma sends_send {A} r (endpoint : W -> (Failure B + A) * W) :
  P r -> sends P (send r endpoint).
Proof.
  intros Hr st. exists [r]. unfold send. destruct (endpoint (net_world st)) as [a w'].
  simpl. split; [reflexivity|]. constructor; [exact Hr|constructor].
Qed.

Lemma sends_andThen {A A'} (m : C A) (k : A -> C A') :
  sends P m -> (forall a, sends P (k a)) -> sends (W := W) (B := B) P (andThen m k).
Proof.
  intros Hm Hk st. destruct (Hm st) as (rs & Hrs & HP). unfold andThen.
  destruct (m st) as [[e|a] st1]; simpl in Hrs.
  - exists rs. now split.
  - destruct (Hk a st1) as (rs' & Hrs' & HP'). exists (rs ++ rs').
    split; [|now apply Forall_app]. rewrite Hrs', Hrs. now rewrite app_assoc.
Qed.

Lemma sends_attempt {A} (m : C A) (h : Failure B -> C A) :
  sends P m -> (forall e, sends P (h e)) -> sends (W := W) P (attempt m h).
Proof.
  intros Hm Hh st. destruct (Hm st) as (rs & Hrs & HP). unfold attempt.
  destruct (m st) as [[e|a] st1]; simpl in Hrs.
  - destruct (Hh e st1) as (rs' & Hrs' & HP'). exists (rs ++ rs').
    split; [|now apply Forall_app]. rewrite Hrs', Hrs. now rewrite app_assoc.
  - exists rs. now split.
Qed.

Lemma sends_each {A} (l : list A) (body : A -> C unit) :
  (forall a, sends P (body a)) -> sends (W := W) (B := B) P (each l body).
Proof.
  intros Hbody. induction l as [|a l IH]; simpl.
  - apply sends_pure.
  - apply sends_andThen; [apply Hbody|intros _; exact IH].
Qed.

End Sends.

(** Breaks a computation of a client into its requests. *)
Ltac sender :=
  repeat first
    [ apply sends_pure | apply sends_raise | apply sends_say
    | apply sends_getCache | apply sends_setCache
    | apply sends_andThen; [|intros ?]
    | apply sends_attempt; [|intros ?]
    | apply sends_each; intros ?
    | apply sends_send; solve [reflexivity | cbn; auto]
    | match goal with
      | |- Props.sends _ (match ?x with _ => _ end) => destruct x
      end
    | progress cbv beta iota zeta ].

Section DeleteSuite.

Import Rest Props.

Context {W B : Type} (api : Api W B).

(** A computation that sends nothing leaves the requests as they are. *)
Lemma sends_nothing {A} (m : C (W := W) (B := B) A) st :
  sends (fun _ => False) m -> net_requests (snd (m st)) = net_requests st.
Proof.
  intros Hm. destruct (Hm st) as (rs & Hrs & Hnone).
  destruct rs as [|r rs]; [now rewrite app_nil_r in Hrs|].
  inversion Hnone as [|? ? Hr]. contradiction.
Qed.

(** [deleteSuite] sends the deletion; it returns when the server accepts
    and throws when it does not. *)
Lemma deleteSuite_outcome suiteId (st : Net W) :
  let url := "/index.php?/api/v2/delete_suite/" +:+ showZ suiteId in
  let run := TestRailClient.deleteSuite api suiteId st in
  net_requests (snd run) = net_requests st ++ [Post url []] /\
  match fst (post_delete api url [] (net_world st)) with
  | inr _ => fst run = inr tt
  | inl _ => exists e, fst run = inl e
  end.
Proof.
  cbv zeta. unfold TestRailClient.deleteSuite.
  match goal with
  | |- context [attempt ?body ?handler] => set (h := handler)
  end.
  assert (Hquiet : forall e, sends (W := W) (fun _ => False) (h e))
    by (intros e; unfold h; sender).
  assert (Hplain : forall e st0, exists e', fst (h e st0) = inl e').
  { intros e st0. unfold h.
    cbv [andThen raise]. cbn [say].
    repeat match goal with
    | |- context [match ?x with _ => _ end] => destruct x
    end; eexists; reflexivity. }
  clearbody h.
  cbv [attempt andThen send pure].
  cbn [say net_world net_requests net_logs net_cache fst snd].
  destruct (post_delete api _ [] (net_world st)) as [[e|[]] w'];
    cbn [say net_world net_requests net_logs net_cache fst snd].
  - split; [|apply Hplain]. now rewrite (sends_nothing _ _ (Hquiet e)).
  - split; reflexivity.
Qed.

End DeleteSuite.

(** X9. The command [delete-suite], for an argument whose digits spell a
    number that a double holds exactly (at most 2^53 in absolute value):
    an argument that does not start with an integer ends the process with
    the code 1, a dry run with the code 0, and neither sends a request;
    otherwise one request is sent, the deletion of the suite of that
    number, and the code is 0 when the server accepts it and 1 when it
    fails. *)
Theorem delete_suite_command {W B : Type} (api : Rest.Api W B)
    (stackOf : string -> string) (suiteId : string) (options : Cli.DeleteOptions)
    (st : Rest.Net W) :
  Props.exactNumber (Num.parseInt10 suiteId) ->
  let run := Cli.deleteSuiteAction api stackOf suiteId options st in
  match Num.parseInt10 suiteId with
  | Num.NaN =>
      fst run = inr 1%Z /\ Rest.net_requests (snd run) = Rest.net_requests st
  | Num.Int number =>
      if Cli.d_dryRun options then
        fst run = inr 0%Z /\ Rest.net_requests (snd run) = Rest.net_requests st
      else
        let url := "/index.php?/api/v2/delete_suite/" +:+ showZ number in
        Rest.net_requests (snd run) = Rest.net_requests st ++ [Rest.Post url []] /\
        fst run = inr (match fst (Rest.post_delete api url [] (Rest.net_world st)) with
                       | inr _ => 0%Z
                       | inl _ => 1%Z
                       end)
  end.
Proof.
  intros _. cbv zeta. unfold Cli.deleteSuiteAction, Cli.consequences.
  destruct (Num.parseInt10 suiteId) as [|number].
  - cbv [Rest.attempt Rest.andThen Rest.send Rest.pure Rest.raise].
    cbn [Rest.say fst snd Rest.net_requests]. split; reflexivity.
  - destruct (Cli.d_dryRun options).
    + cbv [Rest.attempt Rest.andThen Rest.send Rest.pure Rest.raise].
      cbn [Rest.say fst snd Rest.net_requests]. split; reflexivity.
    + cbv [Rest.attempt Rest.andThen Rest.pure].
      cbn [Rest.say fst snd Rest.net_requests Rest.net_world Rest.net_logs Rest.net_cache].
      match goal with
      | |- context [TestRailClient.deleteSuite api number ?s] =>
          pose proof (deleteSuite_outcome api number s) as [Hreq Hout];
          cbn [Rest.net_requests Rest.net_world] in Hreq, Hout;
          destruct (TestRailClient.deleteSuite api number s) as [[e|[]] st1]
      end;
        cbn [fst snd] in Hreq, Hout;
        destruct (fst (Rest.post_delete api _ [] (Rest.net_world st))) as [e0|[]];
        try discriminate;
        try match goal with
            | Hsome : exists _, _ |- _ => destruct Hsome as [? Hsome]; discriminate Hsome
            end.
      * destruct (Cli.d_verbose options); destruct (truthyStr (stackOf (Rest.message e)));
          cbn [andb Rest.say fst snd Rest.net_requests]; (split; [exact Hreq|reflexivity]).
      * cbn [Rest.say fst snd Rest.net_requests]. split; [exact Hreq|reflexivity].
Qed.

Lemma delete_suite_command_witness :
  Props.exactNumber (Num.parseInt10 "12") /\
  Rest.net_requests
    (snd (Cli.deleteSuiteAction Props.singleSuiteApi (fun _ => "") "12"
            (Cli.mkDeleteOptions None false false) Props.idle))
  = [Rest.Post "/index.php?/api/v2/delete_suite/12" []] /\
  fst (Cli.deleteSuiteAction Props.singleSuiteApi (fun _ => "") "12"
         (Cli.mkDeleteOptions None false false) Props.idle)
  = inr 1%Z.
Proof.
  assert (Hexact : Props.exactNumber (Num.parseInt10 "12")).
  { change (Z.abs 12 <= 2 ^ 53)%Z. apply Z.leb_le. reflexivity. }
  split; [exact Hexact|].
  pose proof (delete_suite_command Props.singleSuiteApi (fun _ => "") "12"
                (Cli.mkDeleteOptions None false false) Props.idle Hexact) as H.
  cbv zeta in H.
  change (Num.parseInt10 "12") with (Num.Int 12) in H.
  cbn [Cli.d_dryRun] in H.
  exact H.
Defined.

(* ===================================================================== *)
(** * What a computation keeps of the summary *)
(* ===================================================================== *)

Section Keeps.

Import Props.

Context {W : Type} (env : Env W) (I : SyncResult -> Prop).

Lemma keeps_ret {A} (a : A) : keeps (W := W) I (ret a).
Proof. intros st H. exact H. Qed.

Lemma keeps_throw {A} e : keeps (W := W) (A := A) I (throw e).
Proof. intros st H. exact H. Qed.

Lemma keeps_log level message : keeps (W := W) I (log level message).
Proof. intros st H. exact H. Qed.

Lemma keeps_getResult : keeps (W := W) I getResult.
Proof. intros st H. exact H. Qed.

Lemma keeps_issue {A} c (method : W -> answer A * W) : keeps I (issue c method).
Proof. intros st H. unfold issue. now destruct (method (world st)). Qed.

Lemma keeps_modify f : (forall r, I r -> I (f r)) -> keeps (W := W) I (modify f).
Proof. intros Hf st H. now apply Hf. Qed.

Lemma keeps_bind {A B} (m : M A) (k : A -> M B) :
  keeps I m -> (forall a, keeps I (k a)) -> keeps (W := W) I (bind m k).
Proof.
  intros Hm Hk st H. unfold bind. specialize (Hm st H).
  destruct (m st) as [[e|a] st1]; [exact Hm|now apply Hk].
Qed.

Lemma keeps_tryCatch {A} (m : M A) (h : string -> M A) :
  keeps I m -> (forall e, keeps I (h e)) -> keeps (W := W) I (tryCatch m h).
Proof.
  intros Hm Hh st H. unfold tryCatch. specialize (Hm st H).
  destruct (m st) as [[e|a] st1]; [now apply Hh|exact Hm].
Qed.

Lemma keeps_forEach {A} (l : list A) (body : A -> M unit) :
  (forall a, keeps I (body a)) -> keeps (W := W) I (forEach l body).
Proof.
  intros Hbody. induction l as [|a l IH]; simpl.
  - apply keeps_ret.
  - apply keeps_bind; [apply Hbody|intros _; exact IH].
Qed.

End Keeps.

(** Breaks a computation into the changes it makes to the summary. *)
Ltac keep :=
  repeat first
    [ apply keeps_ret | apply keeps_throw | apply keeps_log
    | apply keeps_getResult | apply keeps_issue
    | apply keeps_bind; [|intros ?]
    | apply keeps_tryCatch; [|intros ?]
    | apply keeps_forEach; intros ?
    | match goal with
      | |- Props.keeps _ (match ?x with _ => _ end) => destruct x
      end
    | progress cbv beta iota zeta ].

(* ===================================================================== *)
(** * The setup of a run *)
(* ===================================================================== *)

Section Setup.

Import Props.

Context {W : Type} (env : Env W).

Lemma walkPath_keeps I pid suite dryRun create nameParts originalNameParts :
  forall parts i w,
    keeps I (walkPath env pid suite dryRun create nameParts originalNameParts i parts w).
Proof.
  induction parts as [|part parts IH]; intros i w; cbn [walkPath].
  - keep.
  - apply keeps_bind; [|intros w'; apply IH]. keep.
Qed.

Lemma walkPath_setup pid suite dryRun create nameParts originalNameParts :
  forall parts i w,
    emits setupCall
      (walkPath env pid suite dryRun create nameParts originalNameParts i parts w).
Proof.
  induction parts as [|part parts IH]; intros i w; cbn [walkPath].
  - emit.
  - apply emits_bind; [|intros w'; apply IH]. emit.
Qed.

Lemma createPath_keeps I pid suite sectionPath dryRun :
  forall parts existing parent traversed,
    keeps I (createPath env pid suite sectionPath dryRun parts existing parent traversed).
Proof.
  induction parts as [|part parts IH]; intros existing parent traversed; cbn [createPath].
  - keep.
  - apply keeps_bind; [keep|intros [[existing' parent'] traversed']].
    destruct parts as [|next parts]; [keep|apply IH].
Qed.

Lemma createPath_setup pid suite sectionPath dryRun :
  forall parts existing parent traversed,
    emits setupCall
      (createPath env pid suite sectionPath dryRun parts existing parent traversed).
Proof.
  induction parts as [|part parts IH]; intros existing parent traversed; cbn [createPath].
  - emit.
  - apply emits_bind; [emit|intros [[existing' parent'] traversed']].
    destruct parts as [|next parts]; [emit|apply IH].
Qed.

Lemma createSectionHierarchy_keeps I pid suite sectionPath existing create dryRun :
  keeps I (createSectionHierarchy env pid suite sectionPath existing create dryRun).
Proof.
  unfold createSectionHierarchy.
  destruct (pathParts sectionPath) as [|only [|second more]];
    try apply createPath_keeps. keep.
Qed.

Lemma createSectionHierarchy_setup pid suite sectionPath existing create dryRun :
  emits setupCall (createSectionHierarchy env pid suite sectionPath existing create dryRun).
Proof.
  unfold createSectionHierarchy.
  destruct (pathParts sectionPath) as [|only [|second more]];
    try apply createPath_setup. emit.
Qed.

Lemma selectByName_keeps I pid suite dryRun create sectionName sections :
  keeps I (selectByName env pid suite dryRun create sectionName sections).
Proof.
  unfold selectByName.
  apply keeps_bind.
  - destruct (List.length _ =? 1); [keep|].
    apply keeps_bind; [apply walkPath_keeps|intros w]. keep.
  - intros [sections' selected].
    apply keeps_bind; [|intros s; keep].
    destruct selected as [s|]; [keep|].
    destruct create; [|keep]. destruct dryRun; [keep|].
    apply keeps_bind; [keep|intros _].
    apply keeps_bind; [apply createSectionHierarchy_keeps|intros [s l]; keep].
Qed.

Lemma selectByName_setup pid suite dryRun create sectionName sections :
  emits setupCall (selectByName env pid suite dryRun create sectionName sections).
Proof.
  unfold selectByName.
  apply emits_bind.
  - destruct (List.length _ =? 1); [emit|].
    apply emits_bind; [apply walkPath_setup|intros w]. emit.
  - intros [sections' selected].
    apply emits_bind; [|intros s; emit].
    destruct selected as [s|]; [emit|].
    destruct create; [|emit]. destruct dryRun; [emit|].
    apply emits_bind; [emit|intros _].
    apply emits_bind; [apply createSectionHierarchy_setup|intros [s l]; emit].
Qed.

Lemma selectDefault_keeps I sections : keeps (W := W) I (selectDefault sections).
Proof. unfold selectDefault. keep. Qed.

Lemma selectDefault_setup sections : emits (W := W) setupCall (selectDefault sections).
Proof. unfold selectDefault. emit. Qed.

Lemma sectionOfSuite_keeps I pid suite sectionName dryRun create :
  keeps I (sectionOfSuite env pid suite sectionName dryRun create).
Proof.
  unfold sectionOfSuite.
  apply keeps_bind; [keep|intros _].
  apply keeps_bind; [keep|intros sections].
  apply keeps_bind.
  - destruct (List.length sections =? 0); [|keep].
    destruct (if create then truthyName sectionName else None) as [n|]; [|keep].
    destruct dryRun; [keep|].
    apply keeps_bind; [keep|intros _].
    apply keeps_bind; [apply createSectionHierarchy_keeps|intros [s l]; keep].
  - intros [sectionId sections'].
    apply keeps_bind; [|intros sectionId'; keep].
    destruct (negb (truthyOptZ sectionId)); [|keep].
    apply keeps_bind; [|intros selected; keep].
    destruct (truthyName sectionName);
      [apply selectByName_keeps|apply selectDefault_keeps].
Qed.

Lemma sectionOfSuite_setup pid suite sectionName dryRun create :
  emits setupCall (sectionOfSuite env pid suite sectionName dryRun create).
Proof.
  unfold sectionOfSuite.
  apply emits_bind; [emit|intros _].
  apply emits_bind; [emit|intros sections].
  apply emits_bind.
  - destruct (List.length sections =? 0); [|emit].
    destruct (if create then truthyName sectionName else None) as [n|]; [|emit].
    destruct dryRun; [emit|].
    apply emits_bind; [emit|intros _].
    apply emits_bind; [apply createSectionHierarchy_setup|intros [s l]; emit].
  - intros [sectionId sections'].
    apply emits_bind; [|intros sectionId'; emit].
    destruct (negb (truthyOptZ sectionId)); [|emit].
    apply emits_bind; [|intros selected; emit].
    destruct (truthyName sectionName);
      [apply selectByName_setup|apply selectDefault_setup].
Qed.

Lemma resolveSection_keeps I pid resolved suiteId sectionId sectionName dryRun create :
  keeps I (resolveSection env pid resolved suiteId sectionId sectionName dryRun create).
Proof.
  unfold resolveSection.
  destruct (truthyOptZ resolved).
  - apply keeps_bind; [apply sectionOfSuite_keeps|intros ?; keep].
  - keep.
Qed.

Lemma resolveSection_setup pid resolved suiteId sectionId sectionName dryRun create :
  emits setupCall
    (resolveSection env pid resolved suiteId sectionId sectionName dryRun create).
Proof.
  unfold resolveSection.
  destruct (truthyOptZ resolved).
  - apply emits_bind; [apply sectionOfSuite_setup|intros ?; emit].
  - emit.
Qed.

Lemma resolveSuite_keeps I pid suiteId suiteName dryRun create :
  keeps I (resolveSuite env pid suiteId suiteName dryRun create).
Proof. unfold resolveSuite. keep. Qed.

Lemma resolveSuite_setup pid suiteId suiteName dryRun create :
  emits setupCall (resolveSuite env pid suiteId suiteName dryRun create).
Proof. unfold resolveSuite. emit. Qed.

(** The summary at the end of the setup is the one at its start. *)
Lemma setup_result pid suiteId sectionId sectionName suiteName dryRun createSuite
    createSection (st st1 st2 : St (W := W)) resolved outcome :
  resolveSuite env pid suiteId suiteName dryRun createSuite st = (inr resolved, st1) ->
  resolveSection env pid resolved suiteId sectionId sectionName dryRun createSection st1
  = (outcome, st2) ->
  result st2 = result st.
Proof.
  intros Hsuite Hsection.
  pose proof (resolveSuite_keeps (fun r => r = result st) pid suiteId suiteName dryRun
                createSuite st eq_refl) as H1.
  rewrite Hsuite in H1. cbn [snd] in H1.
  pose proof (resolveSection_keeps (fun r => r = result st) pid resolved suiteId sectionId
                sectionName dryRun createSection st1 H1) as H2.
  rewrite Hsection in H2. exact H2.
Qed.

End Setup.

Section StepsOneToFive.

Import Props.

Context {W : Type} (env : Env W).

Ltac run :=
  cbv [tryCatch bind log modify issue ret getResult];
  cbn [world calls logs result fst snd].

Ltac ends :=
  match goal with
  | |- exists st', (_, ?final) = _ /\ _ => exists final; split; [reflexivity|]
  end.

(** Steps 1 and 2 on a ticket without scenario: the run returns at once. *)
Lemma syncInto_nothing jiraKey pid dryRun sectionId suiteId (st : St (W := W)) ticket w' :
  fetchTicket env jiraKey (world st) = (inr ticket, w') ->
  parseScenarios (jt_description ticket) = [] ->
  exists st',
    syncInto env jiraKey pid dryRun sectionId suiteId st = (inr (result st'), st') /\
    calls st' = calls st ++ [FetchTicket jiraKey] /\
    world st' = w' /\
    result st' = setFound 0 (setTicket ticket (result st)).
Proof.
  intros Hfetch Hnone. unfold syncInto. run. rewrite Hfetch. run. rewrite Hnone.
  cbn [List.length Nat.eqb]. run. ends.
  cbn [calls world result]. repeat split.
Qed.

(** The two loops and the summary never throw. *)
Lemma reconcile_returns dryRun jiraKey ticket sectionId scenarios existing
    (st : St (W := W)) :
  exists st',
    reconcile env dryRun jiraKey ticket sectionId scenarios existing st
    = (inr (result st'), st').
Proof.
  destruct dryRun.
  - destruct (reconcile_dry env jiraKey ticket sectionId scenarios existing st)
      as (st' & Hrun & _). now exists st'.
  - destruct (reconcile_live env jiraKey ticket sectionId scenarios existing st)
      as (st' & Hrun & _). now exists st'.
Qed.

(** Steps 1 to 5 throw only when the ticket or the cases cannot be
    fetched: no case has been touched then, and no error recorded. *)
Lemma syncInto_throws jiraKey pid dryRun sectionId suiteId (st st' : St (W := W)) e :
  syncInto env jiraKey pid dryRun sectionId suiteId st = (inl e, st') ->
  exists cs,
    calls st' = calls st ++ cs /\
    Forall (fun c => changesCase c = false) cs /\
    errors (result st') = errors (result st).
Proof.
  unfold syncInto. run.
  destruct (fetchTicket env jiraKey (world st)) as [[message|ticket] w1]; run.
  - intros [= <- <-]. exists [FetchTicket jiraKey]. cbn [calls result].
    repeat split. repeat constructor.
  - destruct (List.length (parseScenarios (jt_description ticket)) =? 0); run.
    + discriminate.
    + unfold fetchExisting.
      destruct (dryRun && (sectionId =? -1)%Z); run.
      * match goal with
        | |- context [reconcile env dryRun jiraKey ticket sectionId ?l ?cases ?s] =>
            destruct (reconcile_returns dryRun jiraKey ticket sectionId l cases s)
              as (st2 & Hrun)
        end.
        rewrite Hrun. discriminate.
      * destruct (getTestCases env pid sectionId (orUndefined suiteId) w1)
          as [[message|existing] w2]; run.
        -- intros [= <- <-].
           exists [FetchTicket jiraKey; GetTestCases pid sectionId (orUndefined suiteId)].
           cbn [calls result]. rewrite <- app_assoc. repeat split. repeat constructor.
        -- match goal with
           | |- context [reconcile env dryRun jiraKey ticket sectionId ?l ?cases ?s] =>
               destruct (reconcile_returns dryRun jiraKey ticket sectionId l cases s)
                 as (st2 & Hrun)
           end.
           rewrite Hrun. discriminate.
Qed.

End StepsOneToFive.

(** X10. A ticket whose description holds no scenario changes nothing:
    once the section is resolved and the ticket fetched, the run returns
    a summary with every counter at 0 and no error, without listing the
    cases of the section; in particular the cases linked to the ticket
    are not deleted.  This holds of a real run and of a dry run. *)
Theorem no_scenario_changes_nothing {W : Type} (env : Env W)
    (jiraKey : string) (testrailProjectId : Z)
    (testrailSuiteId testrailSectionId : option Z)
    (sectionName suiteName : option string)
    (dryRun createSuiteIfMissing createSectionIfMissing : bool)
    (st st1 st2 : St (W := W)) (resolvedSuiteId suiteId : option Z) (sectionId : Z)
    (ticket : JiraTicket) (w3 : W) :
  resolveSuite env testrailProjectId testrailSuiteId suiteName dryRun createSuiteIfMissing
    (mkSt (world st) (calls st) (logs st) emptyResult)
  = (inr resolvedSuiteId, st1) ->
  resolveSection env testrailProjectId resolvedSuiteId testrailSuiteId testrailSectionId
    sectionName dryRun createSectionIfMissing st1
  = (inr (sectionId, suiteId), st2) ->
  fetchTicket env jiraKey (world st2) = (inr ticket, w3) ->
  parseScenarios (jt_description ticket) = [] ->
  exists st',
    syncTicketToTestRail env jiraKey testrailProjectId testrailSuiteId
      testrailSectionId sectionName dryRun suiteName createSuiteIfMissing
      createSectionIfMissing st
    = (inr (mkResult (Some ticket) 0 0 0 0 0 [] []), st') /\
    calls st' = calls st2 ++ [FetchTicket jiraKey] /\
    world st' = w3.
Proof.
  intros Hsuite Hsection Hfetch Hnone.
  destruct (syncInto_nothing env jiraKey testrailProjectId dryRun sectionId suiteId st2
              ticket w3 Hfetch Hnone) as (st' & Hrun & Hcalls & Hworld & Hres).
  exists st'. split; [|now split].
  unfold syncTicketToTestRail.
  cbv [bind modify tryCatch]. cbn [world calls logs result].
  rewrite Hsuite, Hsection, Hrun. rewrite Hres.
  rewrite (setup_result env _ _ _ _ _ _ _ _ _ _ _ _ _ Hsuite Hsection).
  reflexivity.
Qed.

Lemma no_scenario_changes_nothing_witness :
  let store := Demo.withSection "Nothing to test here." [Demo.staleCase] [] [] in
  exists st',
    syncTicketToTestRail Demo.demoEnv "PROJ-123" 2 (Some 6%Z) None None false None
      false false (Demo.start store)
    = (inr (mkResult (Some (Demo.demoTicket "Nothing to test here.")) 0 0 0 0 0 [] []), st') /\
    Demo.cases (world st') = [Demo.staleCase].
Proof.
  destruct (no_scenario_changes_nothing Demo.demoEnv "PROJ-123" 2 (Some 6%Z) None None None
              false false false
              (Demo.start (Demo.withSection "Nothing to test here." [Demo.staleCase] [] []))
              _ _ _ _ _ _ _ eq_refl eq_refl eq_refl eq_refl)
    as (st' & Hrun & _ & Hworld).
  exists st'. split; [exact Hrun|]. now rewrite Hworld.
Defined.

(** X11. A run that throws has touched no case: whatever the arguments
    and whatever the clients answer, when [syncTicketToTestRail] ends
    with an error, none of its calls creates, updates or deletes a case,
    and the message of the error is the one error of the summary. *)
Theorem failed_run_touches_no_case {W : Type} (env : Env W)
    (jiraKey : string) (testrailProjectId : Z)
    (testrailSuiteId testrailSectionId : option Z)
    (sectionName suiteName : option string)
    (dryRun createSuiteIfMissing createSectionIfMissing : bool)
    (st st' : St (W := W)) (message : string) :
  syncTicketToTestRail env jiraKey testrailProjectId testrailSuiteId
    testrailSectionId sectionName dryRun suiteName createSuiteIfMissing
    createSectionIfMissing st
  = (inl message, st') ->
  exists cs,
    calls st' = calls st ++ cs /\
    Forall (fun c => Props.changesCase c = false) cs /\
    errors (result st') = [orStr message "Unknown error occurred"].
Proof.
  assert (Hweak : forall cs, Forall Props.setupCall cs ->
                             Forall (fun c => Props.changesCase c = false) cs).
  { intros cs. apply List.Forall_impl. now intros []. }
  unfold syncTicketToTestRail, recordAndRethrow.
  cbv [bind modify tryCatch throw]. cbn [world calls logs result].
  set (st0 := mkSt (world st) (calls st) (logs st) emptyResult).
  pose proof (resolveSuite_setup env testrailProjectId testrailSuiteId suiteName dryRun
                createSuiteIfMissing st0) as (cs1 & Hcs1 & HP1).
  pose proof (resolveSuite_keeps env (fun r => r = emptyResult) testrailProjectId
                testrailSuiteId suiteName dryRun createSuiteIfMissing st0 eq_refl) as Hr1.
  destruct (resolveSuite env testrailProjectId testrailSuiteId suiteName dryRun
              createSuiteIfMissing st0) as [[e1|resolved] st1]; cbn [snd] in Hcs1, Hr1.
  - intros [= <- <-]. exists cs1. cbn [calls result]. rewrite Hr1.
    split; [exact Hcs1|]. split; [now apply Hweak|reflexivity].
  - pose proof (resolveSection_setup env testrailProjectId resolved testrailSuiteId
                  testrailSectionId sectionName dryRun createSectionIfMissing st1)
      as (cs2 & Hcs2 & HP2).
    pose proof (resolveSection_keeps env (fun r => r = emptyResult) testrailProjectId
                  resolved testrailSuiteId testrailSectionId sectionName dryRun
                  createSectionIfMissing st1 Hr1) as Hr2.
    destruct (resolveSection env testrailProjectId resolved testrailSuiteId
                testrailSectionId sectionName dryRun createSectionIfMissing st1)
      as [[e2|[sectionId suiteId]] st2]; cbn [snd] in Hcs2, Hr2.
    + intros [= <- <-]. exists (cs1 ++ cs2). cbn [calls result]. rewrite Hr2.
      split; [rewrite Hcs2, Hcs1; now rewrite app_assoc|].
      split; [apply Forall_app; split; now apply Hweak|reflexivity].
    + destruct (syncInto env jiraKey testrailProjectId dryRun sectionId suiteId st2)
        as [[e3|r] st3] eqn:Hrun; [|discriminate].
      intros [= <- <-].
      destruct (syncInto_throws env _ _ _ _ _ _ _ _ Hrun) as (cs3 & Hcs3 & HP3 & Herr).
      exists (cs1 ++ cs2 ++ cs3). cbn [calls result errors pushError].
      split; [rewrite Hcs3, Hcs2, Hcs1; now rewrite !app_assoc|].
      split; [repeat (apply Forall_app; split); auto|].
      rewrite Herr, Hr2. reflexivity.
Qed.

Lemma failed_run_touches_no_case_witness :
  exists st',
    syncTicketToTestRail Demo.demoEnv "NOPE-1" 2 (Some 6%Z) None (Some "Parent/Child")
      false None false true (Demo.start (Demo.emptySuite Demo.twoScenarios))
    = (inl "Jira ticket not found: NOPE-1", st') /\
    List.length (Demo.sections (world st')) = 2 /\
    Demo.cases (world st') = [] /\
    errors (result st') = ["Jira ticket not found: NOPE-1"].
Proof.
  eexists. split; [vm_compute; reflexivity|].
  match goal with
  | |- _ /\ _ /\ errors (result ?final) = _ =>
      assert (Hrun : syncTicketToTestRail Demo.demoEnv "NOPE-1" 2 (Some 6%Z) None
                       (Some "Parent/Child") false None false true
                       (Demo.start (Demo.emptySuite Demo.twoScenarios))
                     = (inl "Jira ticket not found: NOPE-1", final))
        by (vm_compute; reflexivity)
  end.
  destruct (failed_run_touches_no_case Demo.demoEnv _ _ _ _ _ _ _ _ _ _ _ _ Hrun)
    as (cs & _ & _ & Herr).
  split; [vm_compute; reflexivity|]. split; [vm_compute; reflexivity|exact Herr].
Defined.

(** X12. The calls of a run come in two phases, whatever its outcome:
    first the calls that resolve the suite and the section (lookups,
    listings, creations of suite and sections), then the calls of steps
    1 to 5 on one section; the ticket is fetched, and a case touched,
    only once the section is resolved. *)
Theorem setup_comes_first {W : Type} (env : Env W)
    (jiraKey : string) (testrailProjectId : Z)
    (testrailSuiteId testrailSectionId : option Z)
    (sectionName suiteName : option string)
    (dryRun createSuiteIfMissing createSectionIfMissing : bool)
    (st : St (W := W)) :
  exists setup sectionId rest,
    calls (snd (syncTicketToTestRail env jiraKey testrailProjectId testrailSuiteId
                  testrailSectionId sectionName dryRun suiteName createSuiteIfMissing
                  createSectionIfMissing st))
    = calls st ++ setup ++ rest /\
    Forall Props.setupCall setup /\
    Forall (onSection sectionId) rest.
Proof.
  unfold syncTicketToTestRail, recordAndRethrow.
  cbv [bind modify tryCatch throw]. cbn [world calls logs result].
  set (st0 := mkSt (world st) (calls st) (logs st) emptyResult).
  pose proof (resolveSuite_setup env testrailProjectId testrailSuiteId suiteName dryRun
                createSuiteIfMissing st0) as (cs1 & Hcs1 & HP1).
  destruct (resolveSuite env testrailProjectId testrailSuiteId suiteName dryRun
              createSuiteIfMissing st0) as [[e1|resolved] st1]; cbn [snd] in Hcs1.
  - exists cs1, 0%Z, []. cbn [snd calls]. rewrite app_nil_r.
    split; [exact Hcs1|]. split; [exact HP1|constructor].
  - pose proof (resolveSection_setup env testrailProjectId resolved testrailSuiteId
                  testrailSectionId sectionName dryRun createSectionIfMissing st1)
      as (cs2 & Hcs2 & HP2).
    destruct (resolveSection env testrailProjectId resolved testrailSuiteId
                testrailSectionId sectionName dryRun createSectionIfMissing st1)
      as [[e2|[sectionId suiteId]] st2]; cbn [snd] in Hcs2.
    + exists (cs1 ++ cs2), 0%Z, []. cbn [snd calls]. rewrite app_nil_r.
      split; [rewrite Hcs2, Hcs1; now rewrite app_assoc|].
      split; [now apply Forall_app|constructor].
    + pose proof (syncInto_onSection env jiraKey testrailProjectId dryRun sectionId
                    suiteId st2) as (cs3 & Hcs3 & HP3).
      exists (cs1 ++ cs2), sectionId, cs3.
      split; [|split; [now apply Forall_app|exact HP3]].
      destruct (syncInto env jiraKey testrailProjectId dryRun sectionId suiteId st2)
        as [[e3|r] st3]; cbn [snd calls] in *;
        rewrite Hcs3, Hcs2, Hcs1; now rewrite !app_assoc.
Qed.
(* ===================================================================== *)
(** * The command [sync] *)
(* ===================================================================== *)

Section SyncCommand.

Import Num Cli Props.

Context {W : Type} (env : Env W) (configProjectId : option num)
  (stackOf : string -> string).

Lemma report_quiet P options summary : emits (W := W) P (report options summary).
Proof. unfold report. emit. Qed.

Lemma announce_quiet P jiraKey projectId options :
  emits (W := W) P (announce jiraKey projectId options).
Proof. unfold announce. emit. Qed.

(** The lines before the run change the log only, and do not throw. *)
Lemma announce_frame jiraKey projectId options (st : St (W := W)) :
  exists st0,
    announce jiraKey projectId options st = (inr tt, st0) /\
    world st0 = world st /\ calls st0 = calls st.
Proof.
  unfold announce.
  destruct (negb (test fNone jiraKeyPattern jiraKey)), (given (o_suiteId options)),
    (given (o_sectionName options)), (given (o_suiteName options)),
    (o_createSuite options), (o_createSection options), (o_dryRun options);
    cbv [bind log ret]; cbn [world calls logs result fst snd];
    (eexists; split; [reflexivity|split; reflexivity]).
Qed.

(** The lines after the run change the log only; the exit code is read
    off the summary. *)
Lemma report_frame options summary (st : St (W := W)) :
  exists st',
    report options summary st = (inr (exitCode (inr summary)), st') /\
    world st' = world st /\ calls st' = calls st.
Proof.
  unfold report, exitCode.
  cbv [bind log ret]. cbn [world calls logs result fst snd].
  destruct (scenariosFound summary =? 0); cbn [orb].
  - eexists; split; [reflexivity|split; reflexivity].
  - destruct (errors summary) as [|e l] eqn:He; cbn [List.length Nat.ltb Nat.leb Nat.eqb].
    + destruct (o_dryRun options); eexists; (split; [reflexivity|split; reflexivity]).
    + change (0 <? S (List.length l)) with true. cbv iota.
      match goal with
      | |- context [forEach ?items ?body ?s] =>
          assert (Hloop : exists st1, forEach items body s = (inr tt, st1) /\
                                      (world st1 = world s /\ calls st1 = calls s))
      end.
      { apply (forEach_total _
                 (fun _ s1 s2 => world s2 = world s1 /\ calls s2 = calls s1)).
        - intros s1. now split.
        - intros a rest s. eexists. split; [reflexivity|]. intros s2 H. exact H. }
      destruct Hloop as (st1 & Hrun & Hw & Hc).
      rewrite Hrun. eexists; split; [reflexivity|]. cbn [world calls] in *.
      now split.
Qed.

Ltac run :=
  cbv [tryCatch bind log modify issue ret getResult refuse];
  cbn [world calls logs result fst snd].

(** No usable project id, or options that the command does not accept:
    one message, no call. *)
Lemma syncAction_refuses jiraKey options (st : St (W := W)) :
  usableProjectId
    (if given (o_projectId options)
     then Some (parseInt10 (default "" (o_projectId options)))
     else configProjectId) = None \/
  accepted options = false ->
  exists st',
    syncAction env configProjectId stackOf jiraKey options st = (inr 1%Z, st') /\
    calls st' = calls st /\ world st' = world st /\
    exists text, logs st' = logs st ++ [(Error, text)].
Proof.
  unfold accepted, targets, syncAction. cbn [List.filter].
  destruct (usableProjectId _) as [projectId|].
  2: { intros _. run. eexists. split; [reflexivity|]. repeat split. now eexists. }
  intros [Hnone|Hacc]; [discriminate|]. revert Hacc.
  destruct (given (o_suiteId options)), (given (o_suiteName options)),
    (given (o_sectionId options)), (given (o_sectionName options)),
    (o_createSuite options);
    cbn [List.length Nat.eqb andb orb negb implb]; try discriminate; intros _; run;
    (eexists; split; [reflexivity|]; repeat split; now eexists).
Qed.

(** Options that the command accepts: the lines before the run, the run,
    then the lines after it or the line of its error. *)
Lemma syncAction_runs jiraKey options projectId (st : St (W := W)) :
  accepted options = true ->
  usableProjectId
    (if given (o_projectId options)
     then Some (parseInt10 (default "" (o_projectId options)))
     else configProjectId) = Some projectId ->
  exists st0 st',
    world st0 = world st /\ calls st0 = calls st /\
    let run :=
      syncTicketToTestRail env jiraKey projectId
        (idArgument (o_suiteId options)) (idArgument (o_sectionId options))
        (o_sectionName options) (o_dryRun options) (o_suiteName options)
        (o_createSuite options) (o_createSection options) st0 in
    syncAction env configProjectId stackOf jiraKey options st
    = (inr (exitCode (fst run)), st') /\
    calls st' = calls (snd run) /\ world st' = world (snd run).
Proof.
  intros Hacc Hproject.
  destruct (announce_frame jiraKey projectId options st) as (st0 & Hannounce & Hw & Hc).
  exists st0.
  assert (Hgo : syncAction env configProjectId stackOf jiraKey options st
                = tryCatch
                    (bind (announce jiraKey projectId options) (fun _ =>
                     bind (syncTicketToTestRail env jiraKey projectId
                             (idArgument (o_suiteId options))
                             (idArgument (o_sectionId options))
                             (o_sectionName options) (o_dryRun options)
                             (o_suiteName options) (o_createSuite options)
                             (o_createSection options))
                          (report options)))
                    (fun message =>
                       bind (log Error (nl +:+ Rest.crossMark +:+ " Sync failed: " +:+ message))
                         (fun _ =>
                          bind (if o_verbose options && truthyStr (stackOf message)
                                then log Error (stackOf message) else ret tt)
                            (fun _ => ret 1%Z))) st).
  { unfold syncAction. rewrite Hproject.
    revert Hacc. unfold accepted, targets. cbn [List.filter].
    destruct (given (o_suiteId options)), (given (o_suiteName options)),
      (given (o_sectionId options)), (given (o_sectionName options)),
      (o_createSuite options);
      cbn [List.length Nat.eqb andb orb negb implb]; try discriminate; reflexivity. }
  rewrite Hgo. unfold tryCatch at 1. unfold bind at 1. rewrite Hannounce.
  unfold bind at 1. cbv zeta.
  destruct (syncTicketToTestRail env jiraKey projectId _ _ _ _ _ _ _ st0)
    as [[message|summary] st1]; cbn [fst snd].
  - run. destruct (o_verbose options && truthyStr (stackOf message));
      (eexists; split; [exact Hw|]; split; [exact Hc|];
       split; [reflexivity|split; reflexivity]).
  - destruct (report_frame options summary st1) as (st' & Hreport & Hw' & Hc').
    rewrite Hreport. exists st'. repeat split; assumption.
Qed.

End SyncCommand.

(** X13. The command [sync] checks its options before anything else:
    without a usable project id (from [--project-id], else from the
    configuration; 0 and a text that is no number are not usable), or
    unless exactly one of the suite id, the suite name and the section id
    is given, the creation of a suite comes with a suite name and a
    section name comes with a suite, it prints one error, calls neither
    Jira nor TestRail, and exits with code 1. *)
Theorem sync_checks_options_first {W : Type} (env : Env W)
    (configProjectId : option Num.num) (stackOf : string -> string)
    (jiraKey : string) (options : Cli.SyncOptions) (st : St (W := W)) :
  Cli.usableProjectId
    (if Cli.given (Cli.o_projectId options)
     then Some (Num.parseInt10 (default "" (Cli.o_projectId options)))
     else configProjectId) = None \/
  Props.accepted options = false ->
  exists st' text,
    Cli.syncAction env configProjectId stackOf jiraKey options st = (inr 1%Z, st') /\
    calls st' = calls st /\
    world st' = world st /\
    logs st' = logs st ++ [(Error, text)].
Proof.
  intros Hbad.
  destruct (syncAction_refuses env configProjectId stackOf jiraKey options st Hbad)
    as (st' & Hrun & Hc & Hw & text & Hl).
  exists st', text. repeat split; assumption.
Qed.

Lemma sync_checks_options_first_witness :
  (exists st' text,
     Cli.syncAction Demo.demoEnv (Some (Num.Int 2)) (fun _ => "") "PROJ-123"
       (Cli.mkSyncOptions (Some "6") None (Some "101") None false false None false false)
       (Demo.start Demo.oneSection) = (inr 1%Z, st') /\
     calls st' = [] /\
     world st' = Demo.oneSection /\
     logs st' = [(Error, text)]) /\
  (exists st' text,
     Cli.syncAction Demo.demoEnv None (fun _ => "") "PROJ-123"
       (Cli.mkSyncOptions None None (Some "101") None false false (Some "two") false false)
       (Demo.start Demo.oneSection) = (inr 1%Z, st') /\
     calls st' = [] /\
     world st' = Demo.oneSection /\
     logs st' = [(Error, text)]).
Proof.
  split.
  - exact (sync_checks_options_first Demo.demoEnv (Some (Num.Int 2)) (fun _ => "")
             "PROJ-123"
             (Cli.mkSyncOptions (Some "6") None (Some "101") None false false None
                false false)
             (Demo.start Demo.oneSection) (or_intror eq_refl)).
  - exact (sync_checks_options_first Demo.demoEnv None (fun _ => "") "PROJ-123"
             (Cli.mkSyncOptions None None (Some "101") None false false (Some "two")
                false false)
             (Demo.start Demo.oneSection) (or_introl eq_refl)).
Defined.

(** X14. With options that pass the checks and a usable project id, the
    command [sync] runs the orchestrator once, on the ids read from the
    options, and issues no call of its own; it never throws, and its exit
    code is 1 exactly when the run throws or returns a summary that has
    scenarios and errors. *)
Theorem sync_exit_code {W : Type} (env : Env W)
    (configProjectId : option Num.num) (stackOf : string -> string)
    (jiraKey : string) (options : Cli.SyncOptions) (projectId : Z)
    (st : St (W := W)) :
  Props.accepted options = true ->
  Cli.usableProjectId
    (if Cli.given (Cli.o_projectId options)
     then Some (Num.parseInt10 (default "" (Cli.o_projectId options)))
     else configProjectId) = Some projectId ->
  exists st0 st',
    world st0 = world st /\ calls st0 = calls st /\
    let run :=
      syncTicketToTestRail env jiraKey projectId
        (Cli.idArgument (Cli.o_suiteId options)) (Cli.idArgument (Cli.o_sectionId options))
        (Cli.o_sectionName options) (Cli.o_dryRun options) (Cli.o_suiteName options)
        (Cli.o_createSuite options) (Cli.o_createSection options) st0 in
    Cli.syncAction env configProjectId stackOf jiraKey options st
    = (inr (Props.exitCode (fst run)), st') /\
    calls st' = calls (snd run) /\ world st' = world (snd run).
Proof. apply syncAction_runs. Qed.

Lemma sync_exit_code_witness :
  let options :=
    Cli.mkSyncOptions None None (Some "101") None false false (Some "2") false false in
  exists st',
    Cli.syncAction Demo.demoEnv None (fun _ => "") "PROJ-123" options
      (Demo.start Demo.oneSection) = (inr 0%Z, st') /\
    List.length (Demo.cases (world st')) = 2.
Proof.
  destruct (sync_exit_code Demo.demoEnv None (fun _ => "") "PROJ-123"
              (Cli.mkSyncOptions None None (Some "101") None false false (Some "2")
                 false false)
              2%Z (Demo.start Demo.oneSection) eq_refl eq_refl)
    as (st0 & st' & Hw & Hc & Hrun & _ & Hworld).
  exists st'. split.
  - rewrite Hrun. f_equal. destruct st0 as [w0 c0 l0 r0]. cbn [world calls] in Hw, Hc.
    subst w0 c0. vm_compute. reflexivity.
  - rewrite Hworld. destruct st0 as [w0 c0 l0 r0]. cbn [world calls] in Hw, Hc.
    subst w0 c0. vm_compute. reflexivity.
Defined.

(** X15. With [--dry-run] the command [sync] never issues a call that
    changes TestRail, whatever the other options, the ticket and the
    answers of the two servers. *)
Theorem sync_dry_run_changes_nothing {W : Type} (env : Env W)
    (configProjectId : option Num.num) (stackOf : string -> string)
    (jiraKey : string) (options : Cli.SyncOptions) (st : St (W := W)) :
  Cli.o_dryRun options = true ->
  exists cs,
    calls (snd (Cli.syncAction env configProjectId stackOf jiraKey options st))
    = calls st ++ cs /\
    Forall (fun c => mutating c = false) cs.
Proof.
  intros Hdry. revert st.
  change (emits readOnly (Cli.syncAction env configProjectId stackOf jiraKey options)).
  unfold Cli.syncAction, Cli.refuse. rewrite Hdry.
  apply emits_tryCatch; [|intros e; emit].
  destruct (Cli.usableProjectId _) as [projectId|]; [|emit].
  repeat match goal with
         | |- emits _ (if ?b then _ else _) => destruct b; [emit|]
         end.
  apply emits_bind; [apply announce_quiet|intros _].
  apply emits_bind; [apply syncTicketToTestRail_dry|intros summary].
  apply report_quiet.
Qed.

Lemma sync_dry_run_changes_nothing_witness :
  let options :=
    Cli.mkSyncOptions (Some "6") None None (Some "Parent/Child") false true None true false in
  exists cs,
    calls (snd (Cli.syncAction Demo.demoEnv (Some (Num.Int 2)) (fun _ => "") "PROJ-123"
                  options (Demo.start (Demo.emptySuite Demo.twoScenarios))))
    = cs /\
    Forall (fun c => mutating c = false) cs.
Proof.
  destruct (sync_dry_run_changes_nothing Demo.demoEnv (Some (Num.Int 2)) (fun _ => "")
              "PROJ-123"
              (Cli.mkSyncOptions (Some "6") None None (Some "Parent/Child") false true None
                 true false)
              (Demo.start (Demo.emptySuite Demo.twoScenarios)) eq_refl)
    as (cs & Hcs & Hro).
  exists cs. split; [exact Hcs|exact Hro].
Defined.

(* ===================================================================== *)
(** * The summary of a run *)
(* ===================================================================== *)

Section Summary.

Import Props.

Context {W : Type} (env : Env W) (dryRun : bool) (I : SyncResult -> Prop).

(** Two changes of the summary in a row, kept together. *)
Lemma keeps_modify_then {A} f g (k : M (W := W) A) :
  (forall r, I r -> I (g (f r))) -> keeps I k ->
  keeps I (bind (modify f) (fun _ => bind (modify g) (fun _ => k))).
Proof. intros Hfg Hk st H. cbv [bind modify]. apply Hk. now apply Hfg. Qed.

Lemma keeps_modify_pair f g :
  (forall r, I r -> I (g (f r))) ->
  keeps (W := W) I (bind (modify f) (fun _ => modify g)).
Proof. intros Hfg st H. cbv [bind modify]. now apply Hfg. Qed.

Hypothesis skipped : forall r e, I r -> I (incSkipped (pushError e r)).
Hypothesis deleted : forall r, I r -> I (incDeleted r).
Hypothesis created :
  forall r i, I r -> I (if dryRun then incCreated r else incCreated (pushId i r)).
Hypothesis updated :
  forall r i, I r -> I (if dryRun then incUpdated r else incUpdated (pushId i r)).

Lemma syncScenario_keeps jiraKey ticket sectionId existing s :
  keeps I (syncScenario env dryRun jiraKey ticket sectionId existing s).
Proof.
  unfold syncScenario. apply keeps_tryCatch.
  - cbv zeta. destruct dryRun.
    + destruct (existingCase jiraKey existing s);
        (apply keeps_bind; [apply keeps_log|intros _; apply keeps_modify]);
        intros r Hr; [exact (updated r 0%Z Hr)|exact (created r 0%Z Hr)].
    + destruct (existingCase jiraKey existing s);
        (apply keeps_bind; [apply keeps_log|intros _]);
        (apply keeps_bind; [apply keeps_issue|intros answered]);
        (apply keeps_modify_then; [|apply keeps_log]); intros r Hr;
        [exact (updated r (case_id answered) Hr)|exact (created r (case_id answered) Hr)].
  - intros message. cbv zeta. apply keeps_bind; [apply keeps_log|intros _].
    apply keeps_modify_pair. intros r Hr. now apply skipped.
Qed.

Lemma deleteCase_keeps c : keeps I (deleteCase env dryRun c).
Proof.
  unfold deleteCase. apply keeps_tryCatch.
  - destruct dryRun.
    + apply keeps_bind; [apply keeps_log|intros _]. now apply keeps_modify.
    + apply keeps_bind; [apply keeps_log|intros _].
      apply keeps_bind; [apply keeps_issue|intros _].
      apply keeps_bind; [now apply keeps_modify|intros _]. apply keeps_log.
  - intros message. cbv zeta. apply keeps_bind; [apply keeps_log|intros _].
    apply keeps_modify_pair. intros r Hr. now apply skipped.
Qed.

Lemma reconcile_keeps jiraKey ticket sectionId scenarios existing :
  keeps I (reconcile env dryRun jiraKey ticket sectionId scenarios existing).
Proof.
  unfold reconcile, logSummary.
  apply keeps_bind; [apply keeps_log|intros _].
  apply keeps_bind; [destruct dryRun; [apply keeps_log|apply keeps_ret]|intros _].
  apply keeps_bind; [apply keeps_forEach; intros s; apply syncScenario_keeps|intros _].
  apply keeps_bind; [apply keeps_log|intros _].
  apply keeps_bind.
  - cbv zeta. destruct (0 <? _); [|apply keeps_log].
    apply keeps_bind; [apply keeps_log|intros _].
    apply keeps_forEach; intros c; apply deleteCase_keeps.
  - intros _. keep.
Qed.

End Summary.

Section SummaryOfARun.

Import Props.

Context {W : Type} (env : Env W).

Ltac run :=
  cbv [tryCatch bind log modify issue ret getResult];
  cbn [world calls logs result fst snd].

(** Steps 1 to 5 return a consistent summary when they start from one
    that has an error for each skipped action and, in a real run, an
    identifier for each case created or updated. *)
Lemma syncInto_consistent jiraKey pid (dryRun : bool) sectionId suiteId (st st' : St (W := W))
    summary :
  List.length (errors (result st)) = scenariosSkipped (result st) ->
  List.length (testCaseIds (result st))
  = (if dryRun then 0
     else scenariosCreated (result st) + scenariosUpdated (result st)) ->
  syncInto env jiraKey pid dryRun sectionId suiteId st = (inr summary, st') ->
  consistent dryRun summary.
Proof.
  intros Herrors Hids. unfold syncInto. run.
  destruct (fetchTicket env jiraKey (world st)) as [[message|ticket] w1]; run;
    [discriminate|].
  set (scenarios := parseScenarios (jt_description ticket)).
  assert (Hstart : consistent dryRun
                     (setFound (List.length scenarios) (setTicket ticket (result st)))).
  { split; [exact Herrors|]. split; [exact Hids|]. exists ticket. now split. }
  destruct (List.length scenarios =? 0); run.
  - intros [= <- _]. exact Hstart.
  - match goal with
    | |- context [fetchExisting env dryRun pid sectionId suiteId ?s] =>
        assert (Hfetched : consistent dryRun
                             (result (snd (fetchExisting env dryRun pid sectionId suiteId s))));
          [|destruct (fetchExisting env dryRun pid sectionId suiteId s)
              as [[message|existing] st1]; [discriminate|]]
    end.
    { unfold fetchExisting. destruct (dryRun && (sectionId =? -1)%Z); run; [exact Hstart|].
      now destruct (getTestCases env pid sectionId (orUndefined suiteId) w1) as [[?|?] ?]. }
    cbn [snd] in Hfetched.
    pose proof (reconcile_keeps env dryRun (consistent dryRun)) as Hkeeps.
    destruct (reconcile_returns env dryRun jiraKey ticket sectionId scenarios existing st1)
      as (st2 & Hrun).
    rewrite Hrun. intros [= <- _].
    replace st2 with (snd (reconcile env dryRun jiraKey ticket sectionId scenarios
                             existing st1)) by now rewrite Hrun.
    apply Hkeeps; [| | | |exact Hfetched].
    + intros r e (He & Hi & t & Ht & Hf). split; [|split; [|exists t; now split]].
      * cbn. rewrite length_app. cbn. lia.
      * destruct dryRun; cbn in *; lia.
    + intros r (He & Hi & t & Ht & Hf). split; [|split; [|exists t; now split]].
      * exact He.
      * destruct dryRun; cbn in *; lia.
    + intros r i (He & Hi & t & Ht & Hf). destruct dryRun;
        (split; [exact He|split; [|exists t; now split]]); cbn in *;
        rewrite ?length_app; cbn; lia.
    + intros r i (He & Hi & t & Ht & Hf). destruct dryRun;
        (split; [exact He|split; [|exists t; now split]]); cbn in *;
        rewrite ?length_app; cbn; lia.
Qed.

End SummaryOfARun.

(** X16. The summary that a run returns is consistent, whatever the
    arguments and the answers of the servers: it holds one error for each
    skipped action; in a real run one case identifier for each case
    created or updated, in a dry run none; and it names the ticket
    fetched, with the number of scenarios parsed from its description. *)
Theorem returned_summary_is_consistent {W : Type} (env : Env W)
    (jiraKey : string) (testrailProjectId : Z)
    (testrailSuiteId testrailSectionId : option Z)
    (sectionName suiteName : option string)
    (dryRun createSuiteIfMissing createSectionIfMissing : bool)
    (st st' : St (W := W)) (summary : SyncResult) :
  syncTicketToTestRail env jiraKey testrailProjectId testrailSuiteId
    testrailSectionId sectionName dryRun suiteName createSuiteIfMissing
    createSectionIfMissing st
  = (inr summary, st') ->
  List.length (errors summary) = scenariosSkipped summary /\
  List.length (testCaseIds summary)
  = (if dryRun then 0 else scenariosCreated summary + scenariosUpdated summary) /\
  exists ticket,
    jiraTicket summary = Some ticket /\
    scenariosFound summary = List.length (parseScenarios (jt_description ticket)).
Proof.
  unfold syncTicketToTestRail, recordAndRethrow.
  cbv [bind modify tryCatch throw]. cbn [world calls logs result].
  set (st0 := mkSt (world st) (calls st) (logs st) emptyResult).
  pose proof (resolveSuite_keeps env (fun r => r = emptyResult) testrailProjectId
                testrailSuiteId suiteName dryRun createSuiteIfMissing st0 eq_refl) as Hr1.
  destruct (resolveSuite env testrailProjectId testrailSuiteId suiteName dryRun
              createSuiteIfMissing st0) as [[e1|resolved] st1]; cbn [snd] in Hr1;
    [discriminate|].
  pose proof (resolveSection_keeps env (fun r => r = emptyResult) testrailProjectId
                resolved testrailSuiteId testrailSectionId sectionName dryRun
                createSectionIfMissing st1 Hr1) as Hr2.
  destruct (resolveSection env testrailProjectId resolved testrailSuiteId
              testrailSectionId sectionName dryRun createSectionIfMissing st1)
    as [[e2|[sectionId suiteId]] st2]; cbn [snd] in Hr2; [discriminate|].
  destruct (syncInto env jiraKey testrailProjectId dryRun sectionId suiteId st2)
    as [[e3|r] st3] eqn:Hrun; [discriminate|].
  intros [= <- _].
  apply (syncInto_consistent env _ _ _ _ _ _ _ _) with (3 := Hrun);
    rewrite Hr2; [reflexivity|now destruct dryRun].
Qed.

Lemma returned_summary_is_consistent_witness :
  exists summary,
    fst (syncTicketToTestRail Demo.demoEnv "PROJ-123" 2 (Some 6%Z) None None false None
           false false (Demo.start Demo.flaky)) = inr summary /\
    List.length (errors summary) = scenariosSkipped summary /\
    List.length (testCaseIds summary)
    = scenariosCreated summary + scenariosUpdated summary /\
    0 < scenariosSkipped summary.
Proof.
  eexists. split; [vm_compute; reflexivity|].
  match goal with
  | |- List.length (errors ?summary) = _ /\ _ =>
      destruct (returned_summary_is_consistent Demo.demoEnv "PROJ-123" 2 (Some 6%Z) None
                  None None false false false (Demo.start Demo.flaky)
                  (snd (syncTicketToTestRail Demo.demoEnv "PROJ-123" 2 (Some 6%Z) None
                          None false None false false (Demo.start Demo.flaky)))
                  summary)
        as (He & Hi & _)
  end.
  - vm_compute. reflexivity.
  - split; [exact He|]. split; [exact Hi|]. vm_compute. lia.
Defined.
(* ===================================================================== *)
(** * What a run writes *)
(* ===================================================================== *)

Section Written.

Import Props.

Context {W : Type} (env : Env W).

Ltac run :=
  cbv [tryCatch bind log modify issue ret getResult];
  cbn [world calls logs result fst snd].

(** A loop whose body is looked at on the elements of the list only. *)
Lemma emits_forEach_in {A} (P : Call -> Prop) (l : list A) (body : A -> M (W := W) unit) :
  (forall a, In a l -> emits P (body a)) -> emits P (forEach l body).
Proof.
  induction l as [|a l IH]; intros Hbody; simpl.
  - apply emits_ret.
  - apply emits_bind; [apply Hbody; now left|intros _].
    apply IH. intros b Hb. apply Hbody. now right.
Qed.

Lemma syncScenario_built dryRun jiraKey ticket sectionId existing s :
  In s (parseScenarios (jt_description ticket)) ->
  emits (builtFrom ticket)
    (syncScenario env dryRun jiraKey ticket sectionId existing s).
Proof.
  intros Hin. unfold syncScenario.
  assert (Hbuilt : forall caseId,
             builtFrom ticket (UpdateTestCase caseId (buildTestCase ticket sectionId s)) /\
             builtFrom ticket (CreateTestCase sectionId (buildTestCase ticket sectionId s))).
  { intros caseId. split; exists s; now split. }
  apply emits_tryCatch; [|intros e; emit]. cbv zeta.
  destruct dryRun; [emit|].
  destruct (existingCase jiraKey existing s) as [c|].
  - apply emits_bind; [apply emits_log|intros _].
    apply emits_bind; [apply emits_issue; apply (proj1 (Hbuilt _))|intros ?]. emit.
  - apply emits_bind; [apply emits_log|intros _].
    apply emits_bind; [apply emits_issue; apply (proj2 (Hbuilt 0%Z))|intros ?]. emit.
Qed.

Lemma reconcile_built dryRun jiraKey ticket sectionId existing :
  emits (builtFrom ticket)
    (reconcile env dryRun jiraKey ticket sectionId
       (parseScenarios (jt_description ticket)) existing).
Proof.
  unfold reconcile, logSummary, deleteCase.
  apply emits_bind; [apply emits_log|intros _].
  apply emits_bind; [emit|intros _].
  apply emits_bind;
    [apply emits_forEach_in; intros s Hs; now apply syncScenario_built|intros _].
  emit.
Qed.

(** The ticket of the summary stays what it is through steps 3 to 5. *)
Lemma reconcile_ticket dryRun jiraKey ticket sectionId scenarios existing value :
  keeps (fun r => jiraTicket r = value)
    (reconcile env dryRun jiraKey ticket sectionId scenarios existing).
Proof. apply reconcile_keeps; intros; destruct dryRun; assumption. Qed.

Lemma fetchExisting_built ticket dryRun pid sectionId suiteId :
  emits (builtFrom ticket) (fetchExisting env dryRun pid sectionId suiteId).
Proof. unfold fetchExisting. emit. Qed.

Lemma fetchExisting_ticket dryRun pid sectionId suiteId value :
  keeps (fun r => jiraTicket r = value) (fetchExisting env dryRun pid sectionId suiteId).
Proof. unfold fetchExisting. keep. Qed.

(** Steps 1 to 5 write the cases of the ticket that they record. *)
Lemma syncInto_built jiraKey pid dryRun sectionId suiteId (st : St (W := W)) :
  exists cs,
    calls (snd (syncInto env jiraKey pid dryRun sectionId suiteId st)) = calls st ++ cs /\
    forall ticket,
      jiraTicket (result (snd (syncInto env jiraKey pid dryRun sectionId suiteId st)))
      = Some ticket ->
      Forall (builtFrom ticket) cs.
Proof.
  unfold syncInto. run.
  destruct (fetchTicket env jiraKey (world st)) as [[message|ticket] w1]; run.
  - exists [FetchTicket jiraKey]. split; [reflexivity|]. intros ticket _.
    repeat constructor.
  - destruct (List.length (parseScenarios (jt_description ticket)) =? 0); run.
    + exists [FetchTicket jiraKey]. split; [reflexivity|]. intros ticket' _.
      repeat constructor.
    + match goal with
      | |- context [fetchExisting env dryRun pid sectionId suiteId ?s] =>
          destruct (fetchExisting_built ticket dryRun pid sectionId suiteId s)
            as (cs1 & Hcs1 & HP1);
          pose proof (fetchExisting_ticket dryRun pid sectionId suiteId (Some ticket)
                        s eq_refl) as Ht1;
          destruct (fetchExisting env dryRun pid sectionId suiteId s)
            as [[message|existing] st1]
      end; cbn [snd calls] in *.
      * exists (FetchTicket jiraKey :: cs1).
        split; [rewrite Hcs1; now rewrite <- app_assoc|].
        intros ticket' Hsome. rewrite Ht1 in Hsome. injection Hsome as <-.
        constructor; [exact I|exact HP1].
      * destruct (reconcile_built dryRun jiraKey ticket sectionId existing st1)
          as (cs2 & Hcs2 & HP2).
        pose proof (reconcile_ticket dryRun jiraKey ticket sectionId
                      (parseScenarios (jt_description ticket)) existing (Some ticket)
                      st1 Ht1) as Ht2.
        exists (FetchTicket jiraKey :: cs1 ++ cs2).
        split; [rewrite Hcs2, Hcs1; now rewrite <- !app_assoc|].
        intros ticket' Hsome. rewrite Ht2 in Hsome. injection Hsome as <-.
        constructor; [exact I|]. now apply Forall_app.
Qed.

(** What steps 1 to 5 return is the summary that they have built. *)
Lemma syncInto_returns_summary jiraKey pid dryRun sectionId suiteId
    (st st' : St (W := W)) summary :
  syncInto env jiraKey pid dryRun sectionId suiteId st = (inr summary, st') ->
  summary = result st'.
Proof.
  unfold syncInto. run.
  destruct (fetchTicket env jiraKey (world st)) as [[message|ticket] w1]; run;
    [discriminate|].
  destruct (List.length (parseScenarios (jt_description ticket)) =? 0); run.
  - now intros [= <- <-].
  - match goal with
    | |- context [fetchExisting env dryRun pid sectionId suiteId ?s] =>
        destruct (fetchExisting env dryRun pid sectionId suiteId s)
          as [[message|existing] st1]
    end; [discriminate|].
    destruct (reconcile_returns env dryRun jiraKey ticket sectionId
                (parseScenarios (jt_description ticket)) existing st1) as (st2 & Hrun).
    rewrite Hrun. now intros [= <- <-].
Qed.

End Written.

(** X17. Every case that a run writes is built from the ticket it
    fetched: when the run returns, each creation and each update among
    its calls sends the case of a scenario parsed from the description of
    the ticket of the summary; the title is the name of the scenario, and
    the references are the key that Jira returned for the ticket, whatever
    the key that was asked for. *)
Theorem written_cases_come_from_the_ticket {W : Type} (env : Env W)
    (jiraKey : string) (testrailProjectId : Z)
    (testrailSuiteId testrailSectionId : option Z)
    (sectionName suiteName : option string)
    (dryRun createSuiteIfMissing createSectionIfMissing : bool)
    (st st' : St (W := W)) (summary : SyncResult) (ticket : JiraTicket) :
  syncTicketToTestRail env jiraKey testrailProjectId testrailSuiteId
    testrailSectionId sectionName dryRun suiteName createSuiteIfMissing
    createSectionIfMissing st
  = (inr summary, st') ->
  jiraTicket summary = Some ticket ->
  exists cs,
    calls st' = calls st ++ cs /\
    Forall (Props.builtFrom ticket) cs /\
    forall target testCase,
      In (CreateTestCase target testCase) cs \/ In (UpdateTestCase target testCase) cs ->
      tc_refs testCase = jt_key ticket /\
      In (tc_title testCase) (List.map name (parseScenarios (jt_description ticket))).
Proof.
  intros Hrun Hticket.
  assert (Hcalls : exists cs, calls st' = calls st ++ cs /\
                              Forall (Props.builtFrom ticket) cs).
  { revert Hrun. unfold syncTicketToTestRail, recordAndRethrow.
    cbv [bind modify tryCatch throw]. cbn [world calls logs result].
    set (st0 := mkSt (world st) (calls st) (logs st) emptyResult).
    assert (Hweak : forall cs, Forall Props.setupCall cs ->
                               Forall (Props.builtFrom ticket) cs).
    { intros cs. apply List.Forall_impl. now intros []. }
    pose proof (resolveSuite_setup env testrailProjectId testrailSuiteId suiteName dryRun
                  createSuiteIfMissing st0) as (cs1 & Hcs1 & HP1).
    destruct (resolveSuite env testrailProjectId testrailSuiteId suiteName dryRun
                createSuiteIfMissing st0) as [[e1|resolved] st1]; cbn [snd] in Hcs1;
      [discriminate|].
    pose proof (resolveSection_setup env testrailProjectId resolved testrailSuiteId
                  testrailSectionId sectionName dryRun createSectionIfMissing st1)
      as (cs2 & Hcs2 & HP2).
    destruct (resolveSection env testrailProjectId resolved testrailSuiteId
                testrailSectionId sectionName dryRun createSectionIfMissing st1)
      as [[e2|[sectionId suiteId]] st2]; cbn [snd] in Hcs2; [discriminate|].
    destruct (syncInto_built env jiraKey testrailProjectId dryRun sectionId suiteId st2)
      as (cs3 & Hcs3 & HP3).
    destruct (syncInto env jiraKey testrailProjectId dryRun sectionId suiteId st2)
      as [[e3|r] st3] eqn:Hrun; [discriminate|]. cbn [snd] in *.
    intros [= <- <-]. exists (cs1 ++ cs2 ++ cs3).
    split; [rewrite Hcs3, Hcs2, Hcs1; now rewrite !app_assoc|].
    apply syncInto_returns_summary in Hrun. rewrite Hrun in Hticket.
    repeat (apply Forall_app; split); auto. }
  destruct Hcalls as (cs & Hcs & Hbuilt). exists cs.
  split; [exact Hcs|]. split; [exact Hbuilt|].
  intros target testCase Hin. rewrite List.Forall_forall in Hbuilt.
  destruct Hin as [Hin|Hin]; apply Hbuilt in Hin; destruct Hin as (s & Hs & Htc);
    rewrite Htc; (split; [reflexivity|]); cbn [tc_title buildTestCase];
    now apply in_map.
Qed.

Lemma written_cases_come_from_the_ticket_witness :
  exists summary st' cs,
    syncTicketToTestRail Demo.demoEnv "PROJ-123" 2 None (Some 101%Z) None
      false None false false (Demo.start Demo.oneSection) = (inr summary, st') /\
    calls st' = cs /\
    List.length cs = 5 /\
    forall target testCase,
      In (CreateTestCase target testCase) cs \/ In (UpdateTestCase target testCase) cs ->
      tc_refs testCase = "PROJ-123".
Proof.
  let outcome :=
    eval vm_compute in
      (syncTicketToTestRail Demo.demoEnv "PROJ-123" 2 None (Some 101%Z) None
         false None false false (Demo.start Demo.oneSection)) in
  assert (Hrun : syncTicketToTestRail Demo.demoEnv "PROJ-123" 2 None (Some 101%Z) None
                   false None false false (Demo.start Demo.oneSection) = outcome)
    by (vm_compute; reflexivity).
  match type of Hrun with
  | _ = (inr ?summary, ?final) =>
      destruct (written_cases_come_from_the_ticket Demo.demoEnv "PROJ-123" 2 None
                  (Some 101%Z) None None false false false (Demo.start Demo.oneSection)
                  final summary (Demo.demoTicket Demo.twoScenarios) Hrun eq_refl)
        as (cs & Hcs & _ & Hrefs);
      exists summary, final, cs
  end.
  cbn [calls Demo.start app] in Hcs.
  split; [exact Hrun|]. split; [exact Hcs|]. split.
  - rewrite <- Hcs. reflexivity.
  - intros target testCase Hin. destruct (Hrefs target testCase Hin) as [Href _].
    exact Href.
Defined.
(* ===================================================================== *)
(** * Updates and deletions *)
(* ===================================================================== *)

(** A case found for a scenario of the ticket is not a case to delete. *)
Lemma found_case_is_kept jiraKey scenarios existing s c :
  In s scenarios ->
  existingCase jiraKey existing s = Some c ->
  ~ In c (testCasesToDelete jiraKey scenarios existing).
Proof.
  intros Hs Hfound Hdel.
  apply existingCase_origin in Hfound as (_ & _ & Htitle).
  apply testCasesToDelete_In in Hdel as (_ & _ & Hnone).
  apply Hnone. exists s. now split.
Qed.

(** X18. A real run never updates and deletes the same case: when the
    cases of the section have distinct identifiers, the calls of steps 4
    and 5 hold no update and deletion of one identifier. *)
Theorem no_case_updated_and_deleted {W : Type} (env : Env W)
    (jiraKey : string) (ticket : JiraTicket) (sectionId : Z)
    (scenarios : list ParsedScenario) (existing : list TestRailTestCaseResponse)
    (st : St (W := W)) :
  List.NoDup (List.map case_id existing) ->
  exists cs,
    calls (snd (reconcile env false jiraKey ticket sectionId scenarios existing st))
    = calls st ++ cs /\
    forall caseId testCase,
      In (UpdateTestCase caseId testCase) cs -> ~ In (DeleteTestCase caseId) cs.
Proof.
  intros Hids.
  destruct (reconcile_live env jiraKey ticket sectionId scenarios existing st)
    as (st' & Hrun & Hcalls & _).
  rewrite Hrun. cbn [snd].
  exists (plannedCalls jiraKey ticket sectionId scenarios existing).
  split; [exact Hcalls|].
  intros caseId testCase Hup Hdel. unfold plannedCalls in Hup, Hdel.
  apply in_app_or in Hup as [Hup|Hup];
    [|apply in_map_iff in Hup as (c & Hc & _); discriminate Hc].
  apply in_map_iff in Hup as (s & Hcall & Hs).
  unfold plannedCall in Hcall.
  destruct (existingCase jiraKey existing s) as [c|] eqn:Hfound; [|discriminate].
  injection Hcall as Hid _.
  apply in_app_or in Hdel as [Hdel|Hdel].
  - apply in_map_iff in Hdel as (s' & Hcall' & _). unfold plannedCall in Hcall'.
    destruct (existingCase jiraKey existing s'); discriminate.
  - apply in_map_iff in Hdel as (c' & Hid' & Hc').
    injection Hid' as Hid'.
    assert (c = c').
    { apply (NoDup_map_injective case_id existing); [exact Hids| | |congruence].
      - now apply existingCase_origin in Hfound as (Hin & _).
      - now apply testCasesToDelete_In in Hc' as (Hin & _). }
    subst c'. now apply (found_case_is_kept jiraKey scenarios existing s c).
Qed.

Lemma no_case_updated_and_deleted_witness :
  exists cs,
    calls (snd (reconcile Demo.demoEnv false "PROJ-123" (Demo.demoTicket Demo.twoScenarios)
                  101 (parseScenarios Demo.twoScenarios)
                  [Demo.dupEarly; Demo.staleCase; Demo.dupLate]
                  (Demo.start Demo.oneSection)))
    = cs /\
    forall caseId testCase,
      In (UpdateTestCase caseId testCase) cs -> ~ In (DeleteTestCase caseId) cs.
Proof.
  apply (no_case_updated_and_deleted Demo.demoEnv "PROJ-123"
           (Demo.demoTicket Demo.twoScenarios) 101 (parseScenarios Demo.twoScenarios)
           [Demo.dupEarly; Demo.staleCase; Demo.dupLate] (Demo.start Demo.oneSection)).
  vm_compute. repeat constructor; cbn; intuition discriminate.
Defined.
(* ===================================================================== *)
(** * The records of the parser *)
(* ===================================================================== *)

Section Records.

Import Props.

Lemma orStr_named a b : b <> "" -> orStr a b <> "".
Proof. unfold orStr, truthyStr. destruct a; [auto|discriminate]. Qed.

Lemma defaultName_named scenarioNumber count : defaultName scenarioNumber count <> "".
Proof. unfold defaultName. discriminate. Qed.

Lemma primaryLoop_named fuel description :
  forall lastIndex scenarios,
    Forall (fun s => name s <> "") scenarios ->
    Forall (fun s => name s <> "") (primaryLoop fuel description lastIndex scenarios).
Proof.
  induction fuel as [|fuel IH]; intros lastIndex scenarios Hacc; simpl; [exact Hacc|].
  destruct (exec fGI scenarioPattern description lastIndex) as [m|]; [|exact Hacc].
  apply IH. unfold scenarioOfMatch.
  destruct (extractSteps (default "" (group 3 m))) as [|step more]; [exact Hacc|].
  apply Forall_app. split; [exact Hacc|].
  constructor; [|constructor]. cbn [name].
  apply orStr_named, defaultName_named.
Qed.

Lemma primaryLoop_keyworded fuel description :
  forall lastIndex scenarios,
    Forall (fun s => Forall keyworded (steps s)) scenarios ->
    Forall (fun s => Forall keyworded (steps s))
      (primaryLoop fuel description lastIndex scenarios).
Proof.
  induction fuel as [|fuel IH]; intros lastIndex scenarios Hacc; simpl; [exact Hacc|].
  destruct (exec fGI scenarioPattern description lastIndex) as [m|]; [|exact Hacc].
  apply IH. unfold scenarioOfMatch.
  destruct (extractSteps (default "" (group 3 m))) as [|step more] eqn:Hsteps;
    [exact Hacc|].
  apply Forall_app. split; [exact Hacc|].
  constructor; [|constructor]. cbn [steps]. rewrite <- Hsteps.
  unfold extractSteps. apply List.Forall_forall. intros x Hx.
  now apply filter_In in Hx as [_ Hx].
Qed.

(** The fallback pass numbers its records as it pushes them. *)
Lemma fallbackLoop_numbered fuel description :
  forall lastIndex scenarios,
    List.map name scenarios = numbered (List.length scenarios) ->
    List.map name (fallbackLoop fuel description lastIndex (S (List.length scenarios))
                     scenarios)
    = numbered (List.length (fallbackLoop fuel description lastIndex
                               (S (List.length scenarios)) scenarios)).
Proof.
  induction fuel as [|fuel IH]; intros lastIndex scenarios Hacc; simpl; [exact Hacc|].
  destruct (exec fGIS whenThenPattern description lastIndex) as [m|]; [|exact Hacc].
  destruct (fallbackSteps m) as [|step more]; [now apply IH|].
  match goal with
  | |- context [fallbackLoop fuel description (m_end m) _ (scenarios ++ [?record])] =>
      specialize (IH (m_end m) (scenarios ++ [record]));
        rewrite length_app, Nat.add_1_r in IH; apply IH
  end.
  rewrite map_app, Hacc. unfold numbered. rewrite seq_S, map_app. reflexivity.
Qed.

End Records.

(** X19. Every record that the parser returns has a name that is not
    empty, whatever the description: a marker without a title, or with a
    blank one, does not give a record without name. *)
Theorem every_record_has_a_name (description : string) :
  Forall (fun s => name s <> "") (parseScenarios description).
Proof.
  destruct (parseScenarios_cases description) as [-> | [[_ ->] | [_ ->]]].
  - constructor.
  - apply primaryLoop_named. constructor.
  - assert (Hnames : List.map name (parseFallbackScenarios description)
                     = Props.numbered (List.length (parseFallbackScenarios description)))
      by exact (fallbackLoop_numbered (S (String.length description)) description 0 []
                  eq_refl).
    apply List.Forall_forall. intros s Hs.
    apply (in_map name) in Hs. rewrite Hnames in Hs.
    apply in_map_iff in Hs as (k & <- & _). discriminate.
Qed.

(** X20. When the primary pass finds no record, the records of the
    fallback pass are named Scenario 1, Scenario 2 and so on in the order
    in which they are found, without gap: a block without step takes no
    number. *)
Theorem fallback_records_are_numbered (description : string) :
  primaryScenarios description = [] ->
  List.map name (parseScenarios description)
  = Props.numbered (List.length (parseScenarios description)).
Proof.
  intros Hnone.
  destruct (parseScenarios_cases description) as [-> | [[Hsome _] | [_ ->]]].
  - reflexivity.
  - contradiction.
  - apply (fallbackLoop_numbered (S (String.length description)) description 0 []
             eq_refl).
Qed.

Lemma fallback_records_are_numbered_witness :
  let description :=
    Demo.lines ["When a"; "Then b"; ""; "When c"; "Then d"] in
  List.map name (parseScenarios description) = ["Scenario 1"; "Scenario 2"].
Proof.
  cbv zeta.
  rewrite (fallback_records_are_numbered
             (Demo.lines ["When a"; "Then b"; ""; "When c"; "Then d"]));
    vm_compute; reflexivity.
Defined.

(** X21. When the primary pass finds a record, every step of every
    record returned starts with one of the keywords Given, When, Then,
    And and But, in any case, followed by white space: the other lines of
    a scenario block are dropped. *)
Theorem primary_steps_start_with_a_keyword (description : string) :
  primaryScenarios description <> [] ->
  Forall (fun s => Forall Props.keyworded (steps s)) (parseScenarios description).
Proof.
  intros Hsome.
  destruct (parseScenarios_cases description) as [-> | [[_ ->] | [Hnone _]]].
  - constructor.
  - apply primaryLoop_keyworded. constructor.
  - contradiction.
Qed.

Lemma primary_steps_start_with_a_keyword_witness :
  let description :=
    Demo.lines ["Scenario: Login"; "When user logs in"; "(see the mock-up)";
                "Then the dashboard opens"] in
  List.map steps (parseScenarios description)
  = [["When user logs in"; "Then the dashboard opens"]] /\
  Forall (fun s => Forall Props.keyworded (steps s)) (parseScenarios description).
Proof.
  cbv zeta. split; [vm_compute; reflexivity|].
  apply primary_steps_start_with_a_keyword. vm_compute. discriminate.
Defined.
(* ===================================================================== *)
(** * The world through a run *)
(* ===================================================================== *)

Section Moves.

Import Props.

Context {W : Type} (R : W -> W -> Prop).
Hypothesis R_refl : forall w, R w w.
Hypothesis R_trans : forall a b c, R a b -> R b c -> R a c.

Lemma moves_ret {A} (a : A) : moves (W := W) R (ret a).
Proof. intros st. apply R_refl. Qed.

Lemma moves_throw {A} e : moves (W := W) (A := A) R (throw e).
Proof. intros st. apply R_refl. Qed.

Lemma moves_log level message : moves (W := W) R (log level message).
Proof. intros st. apply R_refl. Qed.

Lemma moves_modify f : moves (W := W) R (modify f).
Proof. intros st. apply R_refl. Qed.

Lemma moves_getResult : moves (W := W) R getResult.
Proof. intros st. apply R_refl. Qed.

Lemma moves_issue {A} c (method : W -> answer A * W) :
  (forall w, R w (snd (method w))) -> moves R (issue c method).
Proof.
  intros Hmethod st. unfold issue. specialize (Hmethod (world st)).
  now destruct (method (world st)).
Qed.

Lemma moves_bind {A B} (m : M A) (k : A -> M B) :
  moves R m -> (forall a, moves R (k a)) -> moves (W := W) R (bind m k).
Proof.
  intros Hm Hk st. unfold bind. specialize (Hm st).
  destruct (m st) as [[e|a] st1]; [exact Hm|].
  eapply R_trans; [exact Hm|apply Hk].
Qed.

Lemma moves_tryCatch {A} (m : M A) (h : string -> M A) :
  moves R m -> (forall e, moves R (h e)) -> moves (W := W) R (tryCatch m h).
Proof.
  intros Hm Hh st. unfold tryCatch. specialize (Hm st).
  destruct (m st) as [[e|a] st1]; [|exact Hm].
  eapply R_trans; [exact Hm|apply Hh].
Qed.

Lemma moves_forEach {A} (l : list A) (body : A -> M unit) :
  (forall a, moves R (body a)) -> moves (W := W) R (forEach l body).
Proof.
  intros Hbody. induction l as [|a l IH]; simpl.
  - apply moves_ret.
  - apply moves_bind; [apply Hbody|intros _; exact IH].
Qed.

End Moves.

(** Breaks a computation into the methods it calls; [H] tells that the
    methods respect the relation. *)
Ltac preorder H :=
  try exact (Props.respects_refl _ _ _ H);
  try exact (Props.respects_trans _ _ _ H).

Ltac mover H :=
  repeat first
    [ apply moves_ret; preorder H
    | apply moves_throw; preorder H
    | apply moves_log; preorder H
    | apply moves_modify; preorder H
    | apply moves_getResult; preorder H
    | apply moves_bind; preorder H; [|intros ?]
    | apply moves_tryCatch; preorder H; [|intros ?]
    | apply moves_forEach; preorder H; intros ?
    | apply moves_issue; intros ?;
        first [ apply (Props.respects_fetchTicket _ _ _ H)
              | apply (Props.respects_findSuiteByName _ _ _ H)
              | apply (Props.respects_getSuites _ _ _ H)
              | apply (Props.respects_getSections _ _ _ H)
              | apply (Props.respects_getSection _ _ _ H)
              | apply (Props.respects_getTestCases _ _ _ H)
              | apply (Props.respects_createSuite _ _ _ H eq_refl)
              | apply (Props.respects_createSection _ _ _ H eq_refl)
              | apply (Props.respects_createTestCase _ _ _ H eq_refl)
              | apply (Props.respects_updateTestCase _ _ _ H eq_refl)
              | apply (Props.respects_deleteTestCase _ _ _ H eq_refl) ]
    | match goal with
      | |- Props.moves _ (match ?x with _ => _ end) => destruct x
      end
    | progress cbv beta iota zeta ].

Section RunMoves.

Import Props.

Context {W : Type} (env : Env W) (R : W -> W -> Prop).

Lemma resolveSuite_moves dryRun pid suiteId suiteName create :
  respects env dryRun R ->
  moves R (resolveSuite env pid suiteId suiteName dryRun create).
Proof. intros H. unfold resolveSuite. mover H. Qed.

Lemma walkPath_moves dryRun pid suite create nameParts originalNameParts :
  respects env dryRun R ->
  forall parts i w,
    moves R (walkPath env pid suite dryRun create nameParts originalNameParts i parts w).
Proof.
  intros H. induction parts as [|part parts IH]; intros i w; cbn [walkPath].
  - mover H.
  - apply moves_bind; preorder H; [|intros w'; apply IH].
    mover H.
Qed.

Lemma createPath_moves dryRun pid suite sectionPath :
  respects env dryRun R ->
  forall parts existing parent traversed,
    moves R (createPath env pid suite sectionPath dryRun parts existing parent traversed).
Proof.
  intros H. induction parts as [|part parts IH]; intros existing parent traversed;
    cbn [createPath].
  - mover H.
  - apply moves_bind; preorder H; [mover H|intros [[existing' parent'] traversed']].
    destruct parts as [|next parts]; [mover H|apply IH].
Qed.

Lemma createSectionHierarchy_moves dryRun pid suite sectionPath existing create :
  respects env dryRun R ->
  moves R (createSectionHierarchy env pid suite sectionPath existing create dryRun).
Proof.
  intros H. unfold createSectionHierarchy.
  destruct (pathParts sectionPath) as [|only [|second more]];
    try (apply createPath_moves; exact H). mover H.
Qed.

Lemma selectByName_moves dryRun pid suite create sectionName sections :
  respects env dryRun R ->
  moves R (selectByName env pid suite dryRun create sectionName sections).
Proof.
  intros H. unfold selectByName.
  apply moves_bind; preorder H.
  - destruct (List.length _ =? 1); [mover H|].
    apply moves_bind; preorder H; [apply walkPath_moves; exact H|intros w]. mover H.
  - intros [sections' selected].
    apply moves_bind; preorder H; [|intros s; mover H].
    destruct selected as [s|]; [mover H|].
    destruct create; [|mover H]. destruct dryRun; [mover H|].
    apply moves_bind; preorder H; [mover H|intros _].
    apply moves_bind; preorder H;
      [apply createSectionHierarchy_moves; exact H|intros [s l]; mover H].
Qed.

Lemma selectDefault_moves dryRun sections :
  respects env dryRun R -> moves (W := W) R (selectDefault sections).
Proof. intros H. unfold selectDefault. mover H. Qed.

Lemma sectionOfSuite_moves dryRun pid suite sectionName create :
  respects env dryRun R ->
  moves R (sectionOfSuite env pid suite sectionName dryRun create).
Proof.
  intros H. unfold sectionOfSuite.
  apply moves_bind; preorder H; [mover H|intros _].
  apply moves_bind; preorder H; [mover H|intros sections].
  apply moves_bind; preorder H.
  - destruct (List.length sections =? 0); [|mover H].
    destruct (if create then truthyName sectionName else None) as [n|]; [|mover H].
    destruct dryRun; [mover H|].
    apply moves_bind; preorder H; [mover H|intros _].
    apply moves_bind; preorder H;
      [apply createSectionHierarchy_moves; exact H|intros [s l]; mover H].
  - intros [sectionId sections'].
    apply moves_bind; preorder H; [|intros sectionId'; mover H].
    destruct (negb (truthyOptZ sectionId)); [|mover H].
    apply moves_bind; preorder H; [|intros selected; mover H].
    destruct (truthyName sectionName);
      [apply selectByName_moves; exact H|apply (selectDefault_moves dryRun); exact H].
Qed.

Lemma resolveSection_moves dryRun pid resolved suiteId sectionId sectionName create :
  respects env dryRun R ->
  moves R (resolveSection env pid resolved suiteId sectionId sectionName dryRun create).
Proof.
  intros H. unfold resolveSection.
  destruct (truthyOptZ resolved).
  - apply moves_bind; preorder H; [apply sectionOfSuite_moves; exact H|intros ?; mover H].
  - mover H.
Qed.

Lemma syncInto_moves dryRun jiraKey pid sectionId suiteId :
  respects env dryRun R ->
  moves R (syncInto env jiraKey pid dryRun sectionId suiteId).
Proof.
  intros H.
  unfold syncInto, fetchExisting, reconcile, logSummary, syncScenario, deleteCase.
  mover H.
Qed.

Lemma syncTicketToTestRail_moves dryRun jiraKey pid suiteId sectionId sectionName
    suiteName createSuite createSection :
  respects env dryRun R ->
  moves R
    (syncTicketToTestRail env jiraKey pid suiteId sectionId sectionName dryRun
       suiteName createSuite createSection).
Proof.
  intros H. unfold syncTicketToTestRail, recordAndRethrow.
  apply moves_bind; preorder H; [mover H|intros _].
  apply moves_tryCatch; preorder H; [|intros e; mover H].
  apply moves_bind; preorder H; [apply resolveSuite_moves; exact H|intros resolved].
  apply moves_bind; preorder H; [apply resolveSection_moves; exact H|intros [sid su]].
  apply syncInto_moves; exact H.
Qed.

(** The command adds nothing of its own to what the run does. *)
Lemma syncAction_moves configProjectId stackOf jiraKey options :
  respects env (Cli.o_dryRun options) R ->
  moves R (Cli.syncAction env configProjectId stackOf jiraKey options).
Proof.
  intros H. unfold Cli.syncAction, Cli.refuse.
  apply moves_tryCatch; preorder H; [|intros e; mover H].
  destruct (Cli.usableProjectId _) as [projectId|]; [|mover H].
  repeat match goal with
         | |- moves _ (if ?b then _ else _) => destruct b; [mover H|]
         end.
  apply moves_bind; preorder H; [unfold Cli.announce; mover H|intros _].
  apply moves_bind; preorder H;
    [apply syncTicketToTestRail_moves; exact H|intros summary].
  unfold Cli.report. mover H.
Qed.

End RunMoves.

Section ReadingMethods.

Import Rest Props.

Context {W B : Type} (api : Api W B) (config : Config.Config).

Lemma fetchTicket_reads issueKey :
  sends (fun r => isGet r = true) (JiraClient.fetchTicket api config issueKey).
Proof. unfold JiraClient.fetchTicket. sender. Qed.

Lemma getSuites_reads projectId :
  sends (fun r => isGet r = true) (TestRailClient.getSuites api config projectId).
Proof. unfold TestRailClient.getSuites. sender. Qed.

Lemma findSuiteByName_reads projectId suiteName :
  sends (fun r => isGet r = true) (TestRailClient.findSuiteByName api config projectId suiteName).
Proof.
  unfold TestRailClient.findSuiteByName.
  apply sends_attempt; [|intros e; sender].
  apply sends_andThen; [apply getSuites_reads|intros suites]. sender.
Qed.

Lemma getSections_reads projectId suiteId :
  sends (fun r => isGet r = true) (TestRailClient.getSections api config projectId suiteId).
Proof. unfold TestRailClient.getSections. sender. Qed.

Lemma getSection_reads sectionId :
  sends (fun r => isGet r = true) (TestRailClient.getSection api sectionId).
Proof. unfold TestRailClient.getSection. sender. Qed.

Lemma getTestCases_reads projectId sectionId suiteId :
  sends (fun r => isGet r = true) (TestRailClient.getTestCases api config projectId sectionId suiteId).
Proof. unfold TestRailClient.getTestCases. sender. Qed.

(** What the caller sees of a method leaves the client as the method
    leaves it. *)
Lemma asAnswer_state {A} (m : C (W := W) (B := B) A) st :
  snd (Program.asAnswer m st) = snd (m st).
Proof. unfold Program.asAnswer. now destruct (m st) as [[e|a] st']. Qed.

Lemma onlyReads_refl (w : Net W) : onlyReads w w.
Proof. exists []. rewrite app_nil_r. split; [reflexivity|constructor]. Qed.

Lemma onlyReads_trans (a b c : Net W) : onlyReads a b -> onlyReads b c -> onlyReads a c.
Proof.
  intros (r1 & H1 & P1) (r2 & H2 & P2). exists (r1 ++ r2).
  split; [rewrite H2, H1; now rewrite app_assoc|now apply Forall_app].
Qed.

(** In a dry run the methods that may be called only read. *)
Lemma clients_only_read : respects (Program.clientEnv api config) true onlyReads.
Proof.
  constructor; try discriminate.
  - apply onlyReads_refl.
  - apply onlyReads_trans.
  - intros jiraKey w. cbn [fetchTicket Program.clientEnv]. rewrite asAnswer_state.
    apply fetchTicket_reads.
  - intros projectId suiteName w. cbn [findSuiteByName Program.clientEnv].
    rewrite asAnswer_state. apply findSuiteByName_reads.
  - intros projectId w. cbn [getSuites Program.clientEnv]. rewrite asAnswer_state.
    apply getSuites_reads.
  - intros projectId suiteId w. cbn [getSections Program.clientEnv].
    rewrite asAnswer_state. apply getSections_reads.
  - intros sectionId w. cbn [getSection Program.clientEnv]. rewrite asAnswer_state.
    apply getSection_reads.
  - intros projectId sectionId suiteId w. cbn [getTestCases Program.clientEnv].
    rewrite asAnswer_state. apply getTestCases_reads.
Qed.

End ReadingMethods.

(** X22. The whole program in a dry run only reads: with [--dry-run],
    every request that the command [sync] sends to Jira and to TestRail
    through the two clients is a GET, whatever the other options and
    whatever the servers answer. *)
Theorem dry_run_sends_only_gets {W B : Type} (api : Rest.Api W B)
    (config : Config.Config) (configProjectId : option Num.num)
    (stackOf : string -> string) (jiraKey : string) (options : Cli.SyncOptions)
    (st : St (W := Rest.Net W)) :
  Cli.o_dryRun options = true ->
  exists requests,
    Rest.net_requests
      (world (snd (Cli.syncAction (Program.clientEnv api config) configProjectId stackOf
                     jiraKey options st)))
    = Rest.net_requests (world st) ++ requests /\
    Forall (fun r => Rest.isGet r = true) requests.
Proof.
  intros Hdry.
  apply (syncAction_moves (Program.clientEnv api config) Props.onlyReads).
  rewrite Hdry. apply clients_only_read.
Qed.

Lemma dry_run_sends_only_gets_witness :
  let options :=
    Cli.mkSyncOptions None (Some "Master") None None false false None true false in
  exists requests,
    Rest.net_requests
      (world (snd (Cli.syncAction (Program.clientEnv Props.singleSuiteApi Props.demoConfig)
                     (Some (Num.Int 2)) (fun _ => "") "PROJ-123" options
                     (mkSt Props.idle [] [] emptyResult))))
    = requests /\
    List.length requests = 2 /\
    Forall (fun r => Rest.isGet r = true) requests.
Proof.
  destruct (dry_run_sends_only_gets Props.singleSuiteApi Props.demoConfig
              (Some (Num.Int 2)) (fun _ => "") "PROJ-123"
              (Cli.mkSyncOptions None (Some "Master") None None false false None true false)
              (mkSt Props.idle [] [] emptyResult) eq_refl)
    as (requests & Hrequests & Hgets).
  exists requests. split; [exact Hrequests|]. split; [|exact Hgets].
  cbn [world Rest.net_requests Props.idle app] in Hrequests.
  rewrite <- Hrequests. vm_compute. reflexivity.
Defined.
(* ===================================================================== *)
(** * What the two creation flags permit *)
(* ===================================================================== *)

Section Permitted.

Import Props.

Context {W : Type} (env : Env W).

Lemma resolveSuite_permitted pid suiteId suiteName dryRun createSuite createSection :
  emits (permitted createSuite createSection)
    (resolveSuite env pid suiteId suiteName dryRun createSuite).
Proof. unfold resolveSuite. emit. Qed.

Lemma walkPath_permitted createSuite pid suite dryRun createSection nameParts
    originalNameParts :
  forall parts i w,
    emits (permitted createSuite createSection)
      (walkPath env pid suite dryRun createSection nameParts originalNameParts i parts w).
Proof.
  induction parts as [|part parts IH]; intros i w; cbn [walkPath].
  - emit.
  - apply emits_bind; [|intros w'; apply IH]. emit.
Qed.

Lemma createPath_permitted createSuite pid suite sectionPath dryRun :
  forall parts existing parent traversed,
    emits (permitted createSuite true)
      (createPath env pid suite sectionPath dryRun parts existing parent traversed).
Proof.
  induction parts as [|part parts IH]; intros existing parent traversed; cbn [createPath].
  - emit.
  - apply emits_bind; [emit|intros [[existing' parent'] traversed']].
    destruct parts as [|next parts]; [emit|apply IH].
Qed.

Lemma createSectionHierarchy_permitted createSuite pid suite sectionPath existing flag
    dryRun :
  emits (permitted createSuite true)
    (createSectionHierarchy env pid suite sectionPath existing flag dryRun).
Proof.
  unfold createSectionHierarchy.
  destruct (pathParts sectionPath) as [|only [|second more]];
    try apply createPath_permitted. emit.
Qed.

Lemma selectByName_permitted createSuite pid suite dryRun createSection sectionName
    sections :
  emits (permitted createSuite createSection)
    (selectByName env pid suite dryRun createSection sectionName sections).
Proof.
  unfold selectByName.
  apply emits_bind.
  - destruct (List.length _ =? 1); [emit|].
    apply emits_bind; [apply walkPath_permitted|intros w]. emit.
  - intros [sections' selected].
    apply emits_bind; [|intros s; emit].
    destruct selected as [s|]; [emit|].
    destruct createSection; [|emit]. destruct dryRun; [emit|].
    apply emits_bind; [emit|intros _].
    apply emits_bind; [apply createSectionHierarchy_permitted|intros [s l]; emit].
Qed.

Lemma sectionOfSuite_permitted createSuite pid suite sectionName dryRun createSection :
  emits (permitted createSuite createSection)
    (sectionOfSuite env pid suite sectionName dryRun createSection).
Proof.
  unfold sectionOfSuite.
  apply emits_bind; [emit|intros _].
  apply emits_bind; [emit|intros sections].
  apply emits_bind.
  - destruct (List.length sections =? 0); [|emit].
    destruct createSection; [|emit].
    destruct (truthyName sectionName) as [n|]; [|emit].
    destruct dryRun; [emit|].
    apply emits_bind; [emit|intros _].
    apply emits_bind; [apply createSectionHierarchy_permitted|intros [s l]; emit].
  - intros [sectionId sections'].
    apply emits_bind; [|intros sectionId'; emit].
    destruct (negb (truthyOptZ sectionId)); [|emit].
    apply emits_bind; [|intros selected; emit].
    destruct (truthyName sectionName);
      [apply selectByName_permitted|unfold selectDefault; emit].
Qed.

Lemma resolveSection_permitted createSuite pid resolved suiteId sectionId sectionName
    dryRun createSection :
  emits (permitted createSuite createSection)
    (resolveSection env pid resolved suiteId sectionId sectionName dryRun createSection).
Proof.
  unfold resolveSection.
  destruct (truthyOptZ resolved).
  - apply emits_bind; [apply sectionOfSuite_permitted|intros ?; emit].
  - emit.
Qed.

Lemma syncInto_permitted createSuite createSection jiraKey pid dryRun sectionId suiteId :
  emits (permitted createSuite createSection)
    (syncInto env jiraKey pid dryRun sectionId suiteId).
Proof.
  unfold syncInto, fetchExisting, reconcile, logSummary, syncScenario, deleteCase.
  emit.
Qed.

End Permitted.

(** X23. A run creates a suite only with the creation of suites
    enabled, and a section only with the creation of sections enabled:
    with both flags off, whatever the names given and whatever the store
    holds, the only calls that write are those on cases. *)
Theorem nothing_created_without_the_flags {W : Type} (env : Env W)
    (jiraKey : string) (testrailProjectId : Z)
    (testrailSuiteId testrailSectionId : option Z)
    (sectionName suiteName : option string)
    (dryRun createSuiteIfMissing createSectionIfMissing : bool)
    (st : St (W := W)) :
  exists cs,
    calls (snd (syncTicketToTestRail env jiraKey testrailProjectId testrailSuiteId
                  testrailSectionId sectionName dryRun suiteName createSuiteIfMissing
                  createSectionIfMissing st))
    = calls st ++ cs /\
    (createSuiteIfMissing = false ->
     forall projectId name, ~ In (CreateSuite projectId name) cs) /\
    (createSectionIfMissing = false ->
     forall projectId suiteId name parent,
       ~ In (CreateSection projectId suiteId name parent) cs).
Proof.
  assert (Hrun : emits (Props.permitted createSuiteIfMissing createSectionIfMissing)
                   (syncTicketToTestRail env jiraKey testrailProjectId testrailSuiteId
                      testrailSectionId sectionName dryRun suiteName createSuiteIfMissing
                      createSectionIfMissing)).
  { unfold syncTicketToTestRail, recordAndRethrow.
    apply emits_bind; [emit|intros _].
    apply emits_tryCatch; [|intros e; emit].
    apply emits_bind; [apply resolveSuite_permitted|intros resolved].
    apply emits_bind; [apply resolveSection_permitted|intros [sid su]].
    apply syncInto_permitted. }
  destruct (Hrun st) as (cs & Hcs & Hpermitted). exists cs.
  split; [exact Hcs|]. rewrite List.Forall_forall in Hpermitted.
  split; intros Hoff; intros; intros Hin; apply Hpermitted in Hin; cbn in Hin;
    congruence.
Qed.

Lemma nothing_created_without_the_flags_witness :
  exists cs,
    calls (snd (syncTicketToTestRail Demo.demoEnv "PROJ-123" 2 None None
                  (Some "Parent/Child") false (Some "New Suite") false false
                  (Demo.start (Demo.emptySuite Demo.twoScenarios))))
    = cs /\
    (forall projectId name, ~ In (CreateSuite projectId name) cs) /\
    (forall projectId suiteId name parent,
       ~ In (CreateSection projectId suiteId name parent) cs).
Proof.
  destruct (nothing_created_without_the_flags Demo.demoEnv "PROJ-123" 2 None None
              (Some "Parent/Child") (Some "New Suite") false false false
              (Demo.start (Demo.emptySuite Demo.twoScenarios)))
    as (cs & Hcs & Hsuite & Hsection).
  exists cs. split; [exact Hcs|].
  split; [apply Hsuite; reflexivity|apply Hsection; reflexivity].
Defined.
(* ===================================================================== *)
(** * The section that a suite gives *)
(* ===================================================================== *)

Section Selection.

Context {W : Type} (env : Env W).

Ltac run :=
  cbv [tryCatch bind log modify issue ret getResult throw];
  cbn [world calls logs result fst snd].

Ltac ends :=
  match goal with
  | |- exists st', (_, ?final) = _ /\ _ => exists final; split; [reflexivity|]
  end.

(** The first element that passes a test. *)
Lemma find_first {A} (f : A -> bool) l1 x l2 :
  (forall y, In y l1 -> f y = false) -> f x = true ->
  List.find f (l1 ++ x :: l2) = Some x.
Proof.
  intros Hnone Hx. induction l1 as [|a l1 IH]; simpl.
  - now rewrite Hx.
  - rewrite (Hnone a) by now left. apply IH. intros y Hy. apply Hnone. now right.
Qed.

(** The selection without a name never throws on a list that is not
    empty, and issues no call. *)
Lemma selectDefault_chooses sections chosen (st : St (W := W)) :
  match List.find noParent sections with
  | Some s => Some s
  | None => List.head sections
  end = Some chosen ->
  exists st',
    selectDefault sections st = (inr chosen, st') /\
    calls st' = calls st /\ world st' = world st.
Proof.
  intros Hchosen. unfold selectDefault. run.
  assert (Hfirst : (match List.find noParent sections with
                    | Some s => ret s
                    | None => match sections with
                              | s :: _ => ret s
                              | [] => throw "Cannot read properties of undefined (reading 'name')"
                              end
                    end) st = (inr chosen, st)).
  { destruct (List.find noParent sections) as [s|].
    - injection Hchosen as <-. reflexivity.
    - destruct sections as [|s l]; [discriminate|]. injection Hchosen as <-. reflexivity. }
  unfold ret, throw in Hfirst. rewrite Hfirst.
  destruct (truthyOptZ (sec_parent_id chosen)), (1 <? List.length sections),
    (1 <? List.length (List.filter noParent sections)),
    (0 <? List.length (List.filter (fun s => truthyOptZ (sec_parent_id s)) sections));
    cbn [world calls logs result fst snd]; ends; split; reflexivity.
Qed.

(** The selection by a name of one segment, when a section bears the
    name: no call, no creation. *)
Lemma selectByName_chooses pid suite dryRun create sectionName sections chosen
    (st : St (W := W)) :
  List.length (pathParts (trim (toLowerCase sectionName))) = 1 ->
  match List.find (fun s => String.eqb (normalize (sec_name s))
                              (trim (toLowerCase sectionName)) && noParent s) sections with
  | Some s => Some s
  | None => List.find (fun s => String.eqb (normalize (sec_name s))
                                  (trim (toLowerCase sectionName))) sections
  end = Some chosen ->
  exists st',
    selectByName env pid suite dryRun create sectionName sections st = (inr chosen, st') /\
    calls st' = calls st /\ world st' = world st.
Proof.
  intros Hone Hchosen. unfold selectByName. cbv zeta. rewrite Hone.
  change (1 =? 1) with true. cbv iota. run. rewrite Hchosen. run.
  destruct (noParent chosen); cbn [world calls logs result fst snd]; ends;
    split; reflexivity.
Qed.

(** From the suite to the section, when the selection succeeds without
    a call. *)
Lemma sectionOfSuite_selects pid suite sectionName dryRun create sections chosen w'
    (st : St (W := W)) :
  getSections env pid suite (world st) = (inr sections, w') ->
  sections <> [] ->
  (forall st0 : St (W := W), exists st1,
     match truthyName sectionName with
     | Some n => selectByName env pid suite dryRun create n sections
     | None => selectDefault sections
     end st0 = (inr chosen, st1) /\
     calls st1 = calls st0 /\ world st1 = world st0) ->
  sec_id chosen <> 0%Z ->
  exists st',
    sectionOfSuite env pid suite sectionName dryRun create st = (inr (sec_id chosen), st') /\
    calls st' = calls st ++ [GetSections pid suite] /\ world st' = w'.
Proof.
  intros Hget Hsome Hselect Hid. unfold sectionOfSuite. run. rewrite Hget. run.
  destruct sections as [|s l]; [contradiction|].
  cbn [List.length Nat.eqb]. cbv iota. run. cbn [truthyOptZ negb]. cbv iota.
  match goal with
  | |- context [match truthyName sectionName with _ => _ end ?s0] =>
      destruct (Hselect s0) as (st1 & Hrun & Hc & Hw)
  end.
  unfold bind in Hrun |- *. rewrite Hrun.
  assert (Htruthy : truthyZ (sec_id chosen) = true).
  { unfold truthyZ. now destruct (Z.eqb_spec (sec_id chosen) 0). }
  destruct (dryRun && (sec_id chosen =? -1)%Z); run; rewrite Htruthy;
    ends; cbn [calls world]; rewrite Hc, Hw; split; reflexivity.
Qed.

End Selection.

(** X24. Given a suite and no section name, a run works in the first
    top-level section of the listing of the suite, and in the first
    section of the listing when no section is at top level; it lists the
    sections once and creates nothing. *)
Theorem first_top_level_section_by_default {W : Type} (env : Env W)
    (testrailProjectId resolvedSuiteId : Z) (sectionName : option string)
    (dryRun createSectionIfMissing : bool)
    (sections : list TestRailSection) (chosen : TestRailSection) (w' : W)
    (st : St (W := W)) :
  getSections env testrailProjectId resolvedSuiteId (world st) = (inr sections, w') ->
  truthyName sectionName = None ->
  match List.find noParent sections with
  | Some s => Some s
  | None => List.head sections
  end = Some chosen ->
  sec_id chosen <> 0%Z ->
  exists st',
    sectionOfSuite env testrailProjectId resolvedSuiteId sectionName dryRun
      createSectionIfMissing st
    = (inr (sec_id chosen), st') /\
    calls st' = calls st ++ [GetSections testrailProjectId resolvedSuiteId] /\
    world st' = w'.
Proof.
  intros Hget Hname Hchosen Hid.
  apply (sectionOfSuite_selects env _ _ _ _ _ sections chosen w'); try assumption.
  - intros ->. discriminate Hchosen.
  - intros st0. rewrite Hname. now apply selectDefault_chooses.
Qed.

Lemma first_top_level_section_by_default_witness :
  let nested := mkSection 7 "Nested" 6 (Some 9%Z) in
  let top := mkSection 9 "Top" 6 None in
  let store := Demo.withSections (Demo.emptySuite Demo.twoScenarios) 200 [nested; top] in
  exists st',
    sectionOfSuite Demo.demoEnv 2 6 None false false (Demo.start store) = (inr 9%Z, st').
Proof.
  cbv zeta.
  destruct (first_top_level_section_by_default Demo.demoEnv 2 6 None false false
              [mkSection 7 "Nested" 6 (Some 9%Z); mkSection 9 "Top" 6 None]
              (mkSection 9 "Top" 6 None)
              (Demo.withSections (Demo.emptySuite Demo.twoScenarios) 200
                 [mkSection 7 "Nested" 6 (Some 9%Z); mkSection 9 "Top" 6 None])
              (Demo.start (Demo.withSections (Demo.emptySuite Demo.twoScenarios) 200
                             [mkSection 7 "Nested" 6 (Some 9%Z); mkSection 9 "Top" 6 None])))
    as (st' & Hrun & _).
  - reflexivity.
  - reflexivity.
  - reflexivity.
  - discriminate.
  - exists st'. exact Hrun.
Defined.

(** X25. Given a suite and a section name of one segment, a run prefers
    the top-level section of that name: the first top-level section whose
    name, in lower case and trimmed, is the name given is the one used,
    even when a nested section of the same name comes before it in the
    listing; nothing is created. *)
Theorem simple_name_prefers_top_level {W : Type} (env : Env W)
    (testrailProjectId resolvedSuiteId : Z) (sectionName : string)
    (dryRun createSectionIfMissing : bool)
    (before after : list TestRailSection) (chosen : TestRailSection) (w' : W)
    (st : St (W := W)) :
  getSections env testrailProjectId resolvedSuiteId (world st)
  = (inr (before ++ chosen :: after), w') ->
  truthyStr sectionName = true ->
  List.length (pathParts (trim (toLowerCase sectionName))) = 1 ->
  topLevelNamed (trim (toLowerCase sectionName)) chosen ->
  (forall s, In s before -> ~ topLevelNamed (trim (toLowerCase sectionName)) s) ->
  sec_id chosen <> 0%Z ->
  exists st',
    sectionOfSuite env testrailProjectId resolvedSuiteId (Some sectionName) dryRun
      createSectionIfMissing st
    = (inr (sec_id chosen), st') /\
    calls st' = calls st ++ [GetSections testrailProjectId resolvedSuiteId] /\
    world st' = w'.
Proof.
  intros Hget Hname Hone [Htitle Htop] Hbefore Hid.
  apply (sectionOfSuite_selects env _ _ _ _ _ (before ++ chosen :: after) chosen w');
    try assumption.
  - now destruct before.
  - intros st0. cbn [truthyName]. rewrite Hname.
    apply selectByName_chooses; [exact Hone|].
    rewrite (find_first _ before chosen after).
    + reflexivity.
    + intros s Hs. specialize (Hbefore s Hs). unfold topLevelNamed in Hbefore.
      destruct (String.eqb_spec (normalize (sec_name s)) (trim (toLowerCase sectionName)));
        [|reflexivity].
      destruct (noParent s); [|reflexivity]. exfalso. now apply Hbefore.
    + rewrite Htitle, String.eqb_refl, Htop. reflexivity.
Qed.

Lemma simple_name_prefers_top_level_witness :
  let nested := mkSection 7 "Login" 6 (Some 9%Z) in
  let other := mkSection 9 "Accounts" 6 None in
  let top := mkSection 12 " LOGIN" 6 None in
  let store :=
    Demo.withSections (Demo.emptySuite Demo.twoScenarios) 200 [nested; other; top] in
  exists st',
    sectionOfSuite Demo.demoEnv 2 6 (Some "login") false false (Demo.start store)
    = (inr 12%Z, st').
Proof.
  cbv zeta.
  destruct (simple_name_prefers_top_level Demo.demoEnv 2 6 "login" false false
              [mkSection 7 "Login" 6 (Some 9%Z); mkSection 9 "Accounts" 6 None] []
              (mkSection 12 " LOGIN" 6 None)
              (Demo.withSections (Demo.emptySuite Demo.twoScenarios) 200
                 [mkSection 7 "Login" 6 (Some 9%Z); mkSection 9 "Accounts" 6 None;
                  mkSection 12 " LOGIN" 6 None])
              (Demo.start (Demo.withSections (Demo.emptySuite Demo.twoScenarios) 200
                             [mkSection 7 "Login" 6 (Some 9%Z);
                              mkSection 9 "Accounts" 6 None;
                              mkSection 12 " LOGIN" 6 None])))
    as (st' & Hrun & _).
  - reflexivity.
  - reflexivity.
  - vm_compute. reflexivity.
  - split; vm_compute; reflexivity.
  - intros s [<-|[<-|[]]] [Htitle Htop]; vm_compute in Htitle, Htop;
      first [discriminate Htitle|discriminate Htop].
  - discriminate.
  - exists st'. exact Hrun.
Defined.
(* ===================================================================== *)
(** * Finding a suite by its name *)
(* ===================================================================== *)

(** The element that [find] returns is the first that passes the test. *)
Lemma find_split {A} (f : A -> bool) l x :
  List.find f l = Some x ->
  exists before after,
    l = before ++ x :: after /\ f x = true /\ forall y, In y before -> f y = false.
Proof.
  induction l as [|a l IH]; simpl; [discriminate|].
  destruct (f a) eqn:Ha.
  - intros [= ->]. exists [], l. split; [reflexivity|]. split; [exact Ha|intros y []].
  - intros Hfind. destruct (IH Hfind) as (before & after & -> & Hx & Hnone).
    exists (a :: before), after. split; [reflexivity|]. split; [exact Hx|].
    intros y [<-|Hy]; [exact Ha|now apply Hnone].
Qed.

Section FindSuite.

Import Rest Props TestRailClient.

Context {W B : Type} (api : Api W B) (config : Config.Config).

Ltac crun :=
  cbv [attempt andThen send pure raise getCache setCache];
  cbn [say net_world net_requests net_logs net_cache fst snd].

(** [findSuiteByName] lists the suites and looks for the name; what it
    adds to the listing is lines of the log. *)
Lemma findSuiteByName_outcome projectId suiteName (st : Net W) :
  match getSuites api config projectId st with
  | (inr suites, st1) =>
      exists st',
        findSuiteByName api config projectId suiteName st
        = (inr (List.find (fun suite => String.eqb (normalizeSuiteName (suite_name suite))
                                          (normalizeSuiteName suiteName)) suites), st') /\
        net_requests st' = net_requests st1 /\ net_world st' = net_world st1
  | (inl e, st1) =>
      exists st',
        findSuiteByName api config projectId suiteName st = (inl e, st') /\
        net_requests st' = net_requests st1 /\ net_world st' = net_world st1
  end.
Proof.
  destruct (getSuites api config projectId st) as [[e|suites] st1] eqn:Hlist;
    unfold findSuiteByName; cbv [attempt andThen pure raise]; rewrite Hlist;
    cbn [say net_world net_requests net_logs net_cache].
  - eexists. split; [reflexivity|]. split; reflexivity.
  - rewrite each_say.
    destruct (List.find _ suites) as [s|] eqn:Hfind;
      cbn [say net_world net_requests net_logs net_cache].
    + eexists. split; [reflexivity|]. split; reflexivity.
    + destruct (0 <? List.length _);
        cbn [say net_world net_requests net_logs net_cache]; rewrite ?each_say;
        (eexists; split; [reflexivity|]; split; reflexivity).
Qed.

End FindSuite.

(** X26. [findSuiteByName] returns a suite only on an exact match of the
    normalized names (lower case, trimmed, runs of white space as one
    blank), and then the first such suite of the listing; a suite whose
    name only contains the name asked for, or is contained in it, is
    logged and never returned.  The listing of the suites is all that it
    asks of the server. *)
Theorem findSuiteByName_is_exact {W B : Type} (api : Rest.Api W B)
    (config : Config.Config) (projectId : Z) (suiteName : string)
    (st st' : Rest.Net W) (found : option TestRailSuite) :
  TestRailClient.findSuiteByName api config projectId suiteName st = (inr found, st') ->
  exists suites st1,
    TestRailClient.getSuites api config projectId st = (inr suites, st1) /\
    Rest.net_requests st' = Rest.net_requests st1 /\
    match found with
    | Some suite =>
        exists before after,
          suites = before ++ suite :: after /\
          TestRailClient.normalizeSuiteName (suite_name suite)
          = TestRailClient.normalizeSuiteName suiteName /\
          forall other, In other before ->
            TestRailClient.normalizeSuiteName (suite_name other)
            <> TestRailClient.normalizeSuiteName suiteName
    | None =>
        forall other, In other suites ->
          TestRailClient.normalizeSuiteName (suite_name other)
          <> TestRailClient.normalizeSuiteName suiteName
    end.
Proof.
  intros Hrun. pose proof (findSuiteByName_outcome api config projectId suiteName st) as Hout.
  destruct (TestRailClient.getSuites api config projectId st) as [[e|suites] st1].
  - destruct Hout as (st2 & Hthrows & _). rewrite Hthrows in Hrun. discriminate.
  - destruct Hout as (st2 & Hreturns & Hrequests & _). rewrite Hreturns in Hrun.
    injection Hrun as <- <-. exists suites, st1. split; [reflexivity|].
    split; [exact Hrequests|].
    destruct (List.find _ suites) as [suite|] eqn:Hfind.
    + apply find_split in Hfind as (before & after & -> & Hsuite & Hnone).
      exists before, after. split; [reflexivity|].
      split; [now apply String.eqb_eq|].
      intros other Hother. apply String.eqb_neq. now apply Hnone.
    + intros other Hother. apply String.eqb_neq.
      exact (List.find_none _ _ Hfind other Hother).
Qed.

Lemma findSuiteByName_is_exact_witness :
  exists st',
    TestRailClient.findSuiteByName Props.singleSuiteApi Props.demoConfig 2 "Baseline"
      Props.idle = (inr None, st') /\
    forall other,
      In other [mkSuite 9 "Baseline 2"; mkSuite 4 "Master"; mkSuite 7 "Baseline 1"] ->
      TestRailClient.normalizeSuiteName (suite_name other)
      <> TestRailClient.normalizeSuiteName "Baseline".
Proof.
  let outcome :=
    eval vm_compute in
      (TestRailClient.findSuiteByName Props.singleSuiteApi Props.demoConfig 2 "Baseline"
         Props.idle) in
  assert (Hrun : TestRailClient.findSuiteByName Props.singleSuiteApi Props.demoConfig 2
                   "Baseline" Props.idle = outcome) by (vm_compute; reflexivity).
  match type of Hrun with
  | _ = (inr None, ?final) =>
      exists final; split; [exact Hrun|];
      destruct (findSuiteByName_is_exact Props.singleSuiteApi Props.demoConfig 2 "Baseline"
                  Props.idle final None Hrun) as (suites & st1 & Hlist & _ & Hnone)
  end.
  vm_compute in Hlist. injection Hlist as <- _. exact Hnone.
Defined.
(* ===================================================================== *)
(** * Numbers on the command line *)
(* ===================================================================== *)

Section LeadingDigits.

Import Num Props.

Lemma readDigits_app digits rest :
  digitAhead rest = false ->
  forall acc,
    allDigits digits = true ->
    readDigits (digits +:+ rest) acc = readDigits digits acc.
Proof.
  intros Hrest. induction digits as [|c t IH]; intros acc Hdigits.
  - change ("" +:+ rest) with rest. destruct rest as [|c t]; [reflexivity|].
    cbn [digitAhead] in Hrest. cbn [readDigits]. now rewrite Hrest.
  - change (String c t +:+ rest) with (String c (t +:+ rest)).
    cbn [allDigits] in Hdigits. apply andb_true_iff in Hdigits as [Hc Ht].
    cbn [readDigits]. rewrite Hc. now apply IH.
Qed.

(** A text that starts with a digit is read from its first character. *)
Lemma parseInt10_digit c t :
  isDigit c = true ->
  parseInt10 (String c t)
  = match readDigits (String c t) None with Some z => Int z | None => NaN end.
Proof.
  destruct c as [[] [] [] [] [] [] [] []]; intros H; vm_compute in H;
    try discriminate H; reflexivity.
Qed.

Lemma parseInt10_leading digits rest :
  digits <> "" -> allDigits digits = true -> digitAhead rest = false ->
  parseInt10 (digits +:+ rest) = parseInt10 digits.
Proof.
  intros Hsome Hdigits Hrest. destruct digits as [|c t]; [contradiction|].
  pose proof Hdigits as Hall. cbn [allDigits] in Hdigits.
  apply andb_true_iff in Hdigits as [Hc _].
  change (String c t +:+ rest) with (String c (t +:+ rest)).
  rewrite !parseInt10_digit by exact Hc.
  change (String c (t +:+ rest)) with (String c t +:+ rest).
  now rewrite readDigits_app.
Qed.

End LeadingDigits.

(** X27. The command [delete-suite] reads the digits at the head of its
    argument and ignores what follows them: an argument made of digits
    followed by any text that does not start with a digit names the suite
    of those digits, and the command does with it exactly what it does
    with the digits alone. *)
Theorem delete_suite_reads_leading_digits {W B : Type} (api : Rest.Api W B)
    (stackOf : string -> string) (digits rest : string) (options : Cli.DeleteOptions)
    (st : Rest.Net W) :
  digits <> "" ->
  Props.allDigits digits = true ->
  Props.digitAhead rest = false ->
  Num.parseInt10 (digits +:+ rest) = Num.parseInt10 digits /\
  Num.parseInt10 digits <> Num.NaN /\
  Cli.deleteSuiteAction api stackOf (digits +:+ rest) options st
  = Cli.deleteSuiteAction api stackOf digits options st.
Proof.
  intros Hsome Hdigits Hrest.
  pose proof (parseInt10_leading digits rest Hsome Hdigits Hrest) as Hsame.
  assert (Hnumber : Num.parseInt10 digits <> Num.NaN).
  { destruct digits as [|c t]; [contradiction|].
    cbn [Props.allDigits] in Hdigits. apply andb_true_iff in Hdigits as [Hc _].
    rewrite parseInt10_digit by exact Hc. cbn [Num.readDigits]. rewrite Hc.
    assert (Hkept : forall s acc, Num.readDigits s (Some acc) <> None).
    { induction s as [|d s IH]; intros acc; cbn [Num.readDigits]; [discriminate|].
      destruct (isDigit d); [apply IH|discriminate]. }
    destruct (Num.readDigits t _) eqn:Hread; [discriminate|]. now apply Hkept in Hread. }
  split; [exact Hsame|]. split; [exact Hnumber|].
  unfold Cli.deleteSuiteAction. rewrite Hsame.
  destruct (Num.parseInt10 digits); [contradiction|reflexivity].
Qed.

Lemma delete_suite_reads_leading_digits_witness :
  Num.parseInt10 "12abc" = Num.Int 12 /\
  Cli.deleteSuiteAction Props.singleSuiteApi (fun _ => "") "12abc"
    (Cli.mkDeleteOptions None false false) Props.idle
  = Cli.deleteSuiteAction Props.singleSuiteApi (fun _ => "") "12"
      (Cli.mkDeleteOptions None false false) Props.idle.
Proof.
  destruct (delete_suite_reads_leading_digits Props.singleSuiteApi (fun _ => "")
              "12" "abc" (Cli.mkDeleteOptions None false false) Props.idle)
    as (Hsame & _ & Hrun).
  - discriminate.
  - reflexivity.
  - reflexivity.
  - split; [|exact Hrun]. change ("12" +:+ "abc") with "12abc" in Hsame.
    rewrite Hsame. reflexivity.
Defined.
(* ===================================================================== *)
(** * The earlier revision and the current one *)
(* ===================================================================== *)

Section Alike.

Import Props.

Context {W : Type}.

Lemma sameButLog_refl (s : St (W := W)) : sameButLog s s.
Proof. repeat split. Qed.

Lemma alike_ret {A} (a : A) : alike (W := W) (ret a) (ret a).
Proof. intros s1 s2 H. now split. Qed.

Lemma alike_throw {A} e : alike (W := W) (A := A) (throw e) (throw e).
Proof. intros s1 s2 H. now split. Qed.

Lemma alike_log level message : alike (W := W) (log level message) (log level message).
Proof. intros s1 s2 (Hw & Hc & Hr). repeat split; assumption. Qed.

Lemma alike_modify f : alike (W := W) (modify f) (modify f).
Proof.
  intros s1 s2 (Hw & Hc & Hr). repeat split; try assumption.
  cbn. now rewrite Hr.
Qed.

Lemma alike_issue {A} c (method : W -> answer A * W) :
  alike (issue c method) (issue c method).
Proof.
  intros s1 s2 (Hw & Hc & Hr). unfold issue. rewrite Hw.
  destruct (method (world s2)) as [a w']. cbn. rewrite Hc, Hr. repeat split.
Qed.

Lemma alike_bind {A B} (m1 m2 : M A) (k1 k2 : A -> M B) :
  alike m1 m2 -> (forall a, alike (k1 a) (k2 a)) ->
  alike (W := W) (bind m1 k1) (bind m2 k2).
Proof.
  intros Hm Hk s1 s2 H. unfold bind. destruct (Hm s1 s2 H) as [Hs Hv].
  destruct (m1 s1) as [[e|a] s1'], (m2 s2) as [[e'|a'] s2']; cbn in Hs, Hv;
    try discriminate.
  - injection Hv as <-. now split.
  - injection Hv as <-. now apply Hk.
Qed.

Lemma alike_tryCatch {A} (m1 m2 : M A) (h1 h2 : string -> M A) :
  alike m1 m2 -> (forall e, alike (h1 e) (h2 e)) ->
  alike (W := W) (tryCatch m1 h1) (tryCatch m2 h2).
Proof.
  intros Hm Hh s1 s2 H. unfold tryCatch. destruct (Hm s1 s2 H) as [Hs Hv].
  destruct (m1 s1) as [[e|a] s1'], (m2 s2) as [[e'|a'] s2']; cbn in Hs, Hv;
    try discriminate.
  - injection Hv as <-. now apply Hh.
  - injection Hv as <-. now split.
Qed.

Lemma alike_forEach {A} (l : list A) (body1 body2 : A -> M unit) :
  (forall a, alike (body1 a) (body2 a)) ->
  alike (W := W) (forEach l body1) (forEach l body2).
Proof.
  intros Hbody. induction l as [|a l IH]; simpl.
  - apply alike_ret.
  - apply alike_bind; [apply Hbody|intros _; exact IH].
Qed.

(** The summary is read from states that hold the same summary. *)
Lemma alike_getResult_bind {B} (k1 k2 : SyncResult -> M B) :
  (forall r, alike (k1 r) (k2 r)) ->
  alike (W := W) (bind getResult k1) (bind getResult k2).
Proof.
  intros Hk s1 s2 H. unfold bind, getResult.
  destruct H as (Hw & Hc & Hr). rewrite Hr. apply Hk. repeat split; assumption.
Qed.

Lemma alike_getResult : alike (W := W) getResult getResult.
Proof. intros s1 s2 H. split; [exact H|]. cbn. now destruct H as (_ & _ & ->). Qed.

End Alike.

(** Breaks a computation that is compared with itself. *)
Ltac liken :=
  repeat first
    [ apply alike_ret | apply alike_throw | apply alike_log
    | apply alike_modify | apply alike_getResult | apply alike_issue
    | apply alike_getResult_bind; intros ?
    | apply alike_bind; [|intros ?]
    | apply alike_tryCatch; [|intros ?]
    | apply alike_forEach; intros ?
    | match goal with
      | |- Props.alike (match ?x with _ => _ end) (match ?x with _ => _ end) => destruct x
      end
    | progress cbv beta iota zeta ].

Section Revisions.

Import Props.

Context {W : Type} (env : Env W).

(** Steps 1 to 5 do not look at the log. *)
Lemma syncInto_alike jiraKey pid dryRun sectionId suiteId :
  alike (syncInto env jiraKey pid dryRun sectionId suiteId)
    (syncInto env jiraKey pid dryRun sectionId suiteId).
Proof.
  unfold syncInto, fetchExisting, reconcile, logSummary, syncScenario, deleteCase.
  liken.
Qed.

(** In a real run, steps 1 to 5 are those of the earlier revision. *)
Lemma syncInto_unchanged jiraKey pid sectionId suiteId :
  SyncServiceV1.syncInto env jiraKey pid false sectionId suiteId
  = syncInto env jiraKey pid false sectionId suiteId.
Proof. reflexivity. Qed.

Ltac run :=
  cbv [tryCatch bind log modify issue ret getResult throw];
  cbn [world calls logs result fst snd].

(** The traversal of a path, with the creation of sections off: when the
    current revision finds the path, so does the earlier one; neither
    touches the state. *)
Lemma walkPath_found pid suite nameParts originalNameParts :
  forall parts i w (s2 s2' : St (W := W)) w',
    walkPath env pid suite false false nameParts originalNameParts i parts w s2
    = (inr w', s2') ->
    s2' = s2 /\ w_sections w' = w_sections w /\
    forall s1 : St (W := W),
      SyncServiceV1.walkPath suite (w_sections w) nameParts i parts
        (w_pathTraversed w) (w_currentParentId w) (w_selectedSection w) s1
      = (inr (w_pathTraversed w', w_selectedSection w'), s1).
Proof.
  induction parts as [|part parts IH]; intros i w s2 s2' w';
    cbn [walkPath SyncServiceV1.walkPath].
  - intros [= <- <-]. repeat split.
  - unfold bind at 1.
    destruct (List.find (isChild part (w_currentParentId w)) (w_sections w))
      as [foundSection|]; [|discriminate].
    cbv [ret]. intros Hrest. apply IH in Hrest as (-> & Hsections & Hearlier).
    cbn [w_sections w_pathTraversed w_currentParentId w_selectedSection] in *.
    split; [reflexivity|]. split; [exact Hsections|]. exact Hearlier.
Qed.

(** The selection by name, with the creation of sections off. *)
Lemma selectByName_found pid suite sectionName sections selected
    (s2 s2' : St (W := W)) :
  selectByName env pid suite false false sectionName sections s2 = (inr selected, s2') ->
  sameButLog s2' s2 /\
  settlesOn (W := W) (SyncServiceV1.selectByName suite sectionName sections) selected.
Proof.
  unfold selectByName, SyncServiceV1.selectByName. cbv zeta.
  destruct (List.length (pathParts (trim (toLowerCase sectionName))) =? 1).
  - run.
    destruct (match List.find _ sections with Some s => Some s | None => _ end)
      as [chosen|]; [|discriminate].
    destruct (noParent chosen); run; intros [= <- <-];
      (split; [repeat split|]); intros s; run;
      (eexists; split; [reflexivity|repeat split]).
  - unfold bind at 1. unfold bind at 1.
    destruct (walkPath env pid suite false false _ _ 0 _ _ s2) as [[e|w'] st] eqn:Hwalk;
      [discriminate|].
    apply walkPath_found in Hwalk as (-> & Hsections & Hearlier).
    cbn [w_sections w_pathTraversed w_currentParentId w_selectedSection] in *.
    destruct (w_selectedSection w') as [chosen|] eqn:Hchosen.
    + destruct (1 <? List.length (w_pathTraversed w')) eqn:Hlong;
        destruct (noParent chosen) eqn:Htop; run; rewrite ?Htop; run; intros [= <- <-];
        (split; [repeat split|]); intros s; cbv beta;
        rewrite Hearlier; run; rewrite ?Hlong; run; rewrite ?Htop; run;
        (eexists; split; [reflexivity|repeat split]).
    + run. discriminate.
Qed.

Lemma selectDefault_alike sections :
  alike (W := W) (selectDefault sections) (selectDefault sections).
Proof. unfold selectDefault. liken. Qed.

(** From the arguments to the section, with the creation of sections
    off: the section that the current revision settles on is the one that
    the earlier revision settles on. *)
Lemma resolveSection_found pid suiteId sectionId sectionName out
    (s1 s2 s2' : St (W := W)) :
  sameButLog s1 s2 ->
  resolveSection env pid suiteId suiteId sectionId sectionName false false s2
  = (inr out, s2') ->
  exists s1',
    SyncServiceV1.resolveSection env pid suiteId sectionId sectionName s1
    = (inr out, s1') /\
    sameButLog s1' s2'.
Proof.
  intros (Hw & Hc & Hr).
  unfold resolveSection, SyncServiceV1.resolveSection.
  destruct (truthyOptZ suiteId).
  - unfold sectionOfSuite. run. rewrite Hw.
    destruct (getSections env pid (default 0%Z suiteId) (world s2))
      as [[message|sections] w1]; run; [discriminate|].
    destruct (List.length sections =? 0); run; [discriminate|].
    cbn [truthyOptZ negb]. cbv iota.
    destruct (truthyName sectionName) as [n|].
    + match goal with
      | |- context [selectByName env pid ?suite false false n sections ?s] =>
          destruct (selectByName env pid suite false false n sections s)
            as [[message|selected] s3] eqn:Hselect; [discriminate|];
          apply selectByName_found in Hselect as ((Hw3 & Hc3 & Hr3) & Hearlier)
      end.
      cbn [world calls result] in Hw3, Hc3, Hr3. cbn [andb]. run.
      destruct (truthyZ (sec_id selected)); [|discriminate].
      intros [= <- <-].
      match goal with
      | |- context [SyncServiceV1.selectByName ?suite n sections ?s] =>
          destruct (Hearlier s) as (s1' & Hrun & (Hw1 & Hc1 & Hr1))
      end.
      rewrite Hrun. cbn [world calls result] in Hw1, Hc1, Hr1.
      eexists. split; [reflexivity|].
      repeat split; cbn [world calls result]; congruence.
    + match goal with
      | |- context [selectDefault sections ?s] =>
          match goal with
          | |- context [selectDefault sections ?t] =>
              lazymatch s with
              | t => fail
              | _ =>
                  destruct (selectDefault_alike sections t s) as [Hsame Hvalue];
                    [repeat split; cbn [world calls result]; congruence|]
              end
          end
      end.
      destruct (selectDefault sections _) as [[message|selected] s3];
        destruct (selectDefault sections _) as [[message'|selected'] s3'];
        cbn [fst snd] in Hsame, Hvalue; try discriminate Hvalue; [discriminate|].
      injection Hvalue as <-. cbn [andb]. run.
      destruct (truthyZ (sec_id selected)); [|discriminate].
      intros [= <- <-]. eexists. split; [reflexivity|]. exact Hsame.
  - destruct (truthyOptZ sectionId); [|discriminate]. run. rewrite Hw.
    destruct (getSection env (default 0%Z sectionId) (world s2))
      as [[message|details] w1]; run.
    + intros [= <- <-]. eexists. split; [reflexivity|].
      repeat split; cbn [world calls result]; congruence.
    + destruct (truthyZ (sec_suite_id details)); run; intros [= <- <-];
        (eexists; split; [reflexivity|]);
        repeat split; cbn [world calls result]; congruence.
Qed.

End Revisions.

(** X28. The current orchestrator extends the earlier one: whenever a
    real run of the current [syncTicketToTestRail] without suite name and
    with both creation flags off returns a summary, the earlier
    [syncTicketToTestRail] on the same arguments returns the same
    summary, after the same calls and with the same effect on the two
    servers. *)
Theorem current_revision_extends_the_earlier {W : Type} (env : Env W)
    (jiraKey : string) (testrailProjectId : Z)
    (testrailSuiteId testrailSectionId : option Z) (sectionName : option string)
    (st st2 : St (W := W)) (summary : SyncResult) :
  syncTicketToTestRail env jiraKey testrailProjectId testrailSuiteId
    testrailSectionId sectionName false None false false st
  = (inr summary, st2) ->
  exists st1,
    SyncServiceV1.syncTicketToTestRail env jiraKey testrailProjectId testrailSuiteId
      testrailSectionId sectionName false st
    = (inr summary, st1) /\
    calls st1 = calls st2 /\
    world st1 = world st2.
Proof.
  unfold syncTicketToTestRail, SyncServiceV1.syncTicketToTestRail,
    recordAndRethrow, SyncServiceV1.recordAndRethrow.
  cbn [resolveSuite].
  cbv [bind modify tryCatch throw ret log]. cbn [world calls logs result].
  set (st0 := mkSt (world st) (calls st) (logs st) emptyResult).
  destruct (resolveSection env testrailProjectId testrailSuiteId testrailSuiteId
              testrailSectionId sectionName false false st0)
    as [[message|[sectionId suiteId]] s2'] eqn:Hsection; [discriminate|].
  destruct (resolveSection_found env _ _ _ _ _ st0 st0 s2' (sameButLog_refl st0)
              Hsection) as (s1' & Hearlier & Hsame).
  rewrite Hearlier. rewrite syncInto_unchanged.
  destruct (syncInto_alike env jiraKey testrailProjectId false sectionId suiteId s1' s2'
              Hsame) as [(Hw & Hc & Hr) Hvalue].
  destruct (syncInto env jiraKey testrailProjectId false sectionId suiteId s2')
    as [[message|r] s2''], (syncInto env jiraKey testrailProjectId false sectionId suiteId s1')
    as [[message'|r'] s1'']; cbn [fst snd] in *; try discriminate.
  intros [= <- <-]. injection Hvalue as ->.
  exists s1''. repeat split; assumption.
Qed.

Lemma current_revision_extends_the_earlier_witness :
  exists summary st1,
    SyncServiceV1.syncTicketToTestRail Demo.demoEnv "PROJ-123" 2 (Some 6%Z) None
      (Some "login") false (Demo.start Demo.oneSection)
    = (inr summary, st1) /\
    scenariosCreated summary = 2 /\
    List.length (Demo.cases (world st1)) = 2.
Proof.
  let outcome :=
    eval vm_compute in
      (syncTicketToTestRail Demo.demoEnv "PROJ-123" 2 (Some 6%Z) None (Some "login")
         false None false false (Demo.start Demo.oneSection)) in
  assert (Hrun : syncTicketToTestRail Demo.demoEnv "PROJ-123" 2 (Some 6%Z) None
                   (Some "login") false None false false (Demo.start Demo.oneSection)
                 = outcome) by (vm_compute; reflexivity).
  match type of Hrun with
  | _ = (inr ?summary, ?final) =>
      destruct (current_revision_extends_the_earlier Demo.demoEnv "PROJ-123" 2 (Some 6%Z)
                  None (Some "login") (Demo.start Demo.oneSection) final summary Hrun)
        as (st1 & Hearlier & _ & Hworld);
      exists summary, st1
  end.
  split; [exact Hearlier|]. split; [reflexivity|]. rewrite Hworld. reflexivity.
Defined.
(* ===================================================================== *)
(** * The text of a document *)
(* ===================================================================== *)

Section DocumentText.

Import Rest Props JiraClient.

Lemma occursIn_refl s : occursIn s s.
Proof. exists "", "". change ("" +:+ s +:+ "") with (s +:+ ""). now rewrite append_nil_r. Qed.

Lemma occursIn_left a b : occursIn a (a +:+ b).
Proof. exists "", b. reflexivity. Qed.

Lemma occursIn_right a b : occursIn b (a +:+ b).
Proof. exists a, "". now rewrite append_nil_r. Qed.

(** A part occurs in the parts joined. *)
Lemma occursIn_join part parts : In part parts -> occursIn part (join "" parts).
Proof.
  induction parts as [|p ps IH]; [contradiction|].
  intros [->|Hin].
  - destruct ps as [|q ps]; [apply occursIn_refl|].
    change (join "" (part :: q :: ps)) with (part +:+ "" +:+ join "" (q :: ps)).
    apply occursIn_left.
  - destruct ps as [|q ps]; [contradiction|].
    change (join "" (p :: q :: ps)) with (p +:+ "" +:+ join "" (q :: ps)).
    eapply occursIn_trans; [apply IH, Hin|].
    eapply occursIn_trans; [apply occursIn_right|apply occursIn_right].
Qed.

End DocumentText.

(** X29. The flattening of a Jira document loses no text: the text of
    every text node that is reached through nodes other than text nodes
    and hard breaks occurs, as it is, in the text that [extractText]
    gives for the document, whatever the types of the nodes around it. *)
Theorem extractText_keeps_every_text (node : Rest.AdfNode) (carried : string) :
  Props.carries node carried ->
  occursIn carried (JiraClient.extractText node).
Proof.
  induction 1 as [text content|type text children child carried Htext Hbreak Hin _ IH].
  - cbn [JiraClient.extractText]. change (String.eqb "text" "text") with true. cbv iota.
    cbn [default]. rewrite orStr_empty. apply occursIn_refl.
  - assert (Hjoined : occursIn carried
                        (join "" (List.map JiraClient.extractText children))).
    { eapply occursIn_trans; [exact IH|]. apply occursIn_join. now apply in_map. }
    cbn [JiraClient.extractText].
    destruct (String.eqb_spec type "text") as [|_]; [contradiction|].
    destruct (String.eqb type "paragraph" || String.eqb type "heading").
    + eapply occursIn_trans; [exact Hjoined|apply occursIn_left].
    + destruct (String.eqb_spec type "hardBreak") as [|_]; [contradiction|].
      exact Hjoined.
Qed.

Lemma extractText_keeps_every_text_witness :
  let item :=
    Rest.Node "listItem" None
      (Some [Rest.Node "paragraph" None
               (Some [Rest.Node "text" (Some "When user logs in") None])]) in
  let doc := Rest.Node "bulletList" None (Some [item]) in
  occursIn "When user logs in" (JiraClient.extractText doc).
Proof.
  cbv zeta. apply extractText_keeps_every_text.
  eapply Props.carries_child; [discriminate|discriminate|now left|].
  eapply Props.carries_child; [discriminate|discriminate|now left|].
  eapply Props.carries_child; [discriminate|discriminate|now left|].
  apply Props.carries_text.
Defined.
(* ===================================================================== *)
(** * A path whose sections exist *)
(* ===================================================================== *)

Section ExistingPath.

Import Props.

Context {W : Type} (env : Env W).

Ltac run :=
  cbv [tryCatch bind log modify issue ret getResult throw];
  cbn [world calls logs result fst snd].

Lemma last_Some {A} (l : list A) x :
  exists z, List.last (List.map Some (x :: l)) None = Some z.
Proof.
  revert x. induction l as [|y l IH]; intros x; [now exists x|].
  change (List.last (List.map Some (x :: y :: l)) None)
    with (List.last (List.map Some (y :: l)) None).
  apply IH.
Qed.

(** The traversal of segments that all exist: no call, no log, and the
    section of the last segment is the one selected. *)
Lemma walkPath_follows pid suite dryRun create nameParts originalNameParts sections :
  forall parts chain i w (st : St (W := W)),
    w_sections w = sections ->
    followsPath sections (w_currentParentId w) parts chain ->
    i + List.length parts = List.length nameParts ->
    exists w',
      walkPath env pid suite dryRun create nameParts originalNameParts i parts w st
      = (inr w', st) /\
      w_sections w' = sections /\
      w_selectedSection w'
      = match List.last (List.map Some chain) None with
        | Some leaf => Some leaf
        | None => w_selectedSection w
        end.
Proof.
  induction parts as [|part parts IH]; intros chain i w st Hsections Hfollows Hindex;
    destruct chain as [|s chain]; cbn [followsPath] in Hfollows; try contradiction.
  - exists w. repeat split. exact Hsections.
  - destruct Hfollows as [Hfind Hrest]. cbn [walkPath]. unfold bind at 1.
    rewrite Hsections, Hfind. cbv [ret].
    match goal with
    | |- context [walkPath env pid suite dryRun create nameParts originalNameParts
                    (S i) parts ?w1 st] =>
        destruct (IH chain (S i) w1 st) as (w' & Hrun & Hsec & Hsel);
          [reflexivity|exact Hrest|cbn [List.length] in Hindex; lia|]
    end.
    exists w'. split; [exact Hrun|]. split; [exact Hsec|].
    rewrite Hsel. cbn [w_selectedSection List.map].
    destruct chain as [|s' chain].
    + cbn [List.map List.last]. destruct parts; [|contradiction].
      cbn [List.length] in Hindex.
      replace (i =? List.length nameParts - 1) with true
        by (symmetry; apply Nat.eqb_eq; lia).
      reflexivity.
    + change (List.last (Some s :: List.map Some (s' :: chain)) None)
        with (List.last (List.map Some (s' :: chain)) None).
      destruct (last_Some chain s') as [z Hz]. now rewrite Hz.
Qed.

(** The selection by a path of several segments that all exist. *)
Lemma selectByName_follows pid suite dryRun create sectionName sections chain leaf
    (st : St (W := W)) :
  List.length (pathParts (trim (toLowerCase sectionName))) <> 1 ->
  followsPath sections None (pathParts (trim (toLowerCase sectionName))) chain ->
  List.last (List.map Some chain) None = Some leaf ->
  exists st',
    selectByName env pid suite dryRun create sectionName sections st = (inr leaf, st') /\
    calls st' = calls st /\ world st' = world st.
Proof.
  intros Hmany Hfollows Hleaf. unfold selectByName. cbv zeta.
  apply Nat.eqb_neq in Hmany. rewrite Hmany. unfold bind at 1. unfold bind at 1.
  match goal with
  | |- context [walkPath env pid suite dryRun create ?parts ?original 0 ?parts ?w0 st] =>
      destruct (walkPath_follows pid suite dryRun create parts original sections
                  parts chain 0 w0 st eq_refl Hfollows eq_refl)
        as (w' & Hrun & Hsections & Hselected)
  end.
  rewrite Hrun. rewrite Hleaf in Hselected. rewrite Hselected.
  destruct (1 <? List.length (w_pathTraversed w')), (noParent leaf) eqn:Htop; run;
    rewrite ?Htop; run; (eexists; split; [reflexivity|split; reflexivity]).
Qed.

End ExistingPath.

(** X30. A path whose sections all exist is found and nothing is
    created: given a suite and a section name of several segments, when
    each segment names, in lower case and trimmed, a section of the
    listing under the section of the segment before it (the first at top
    level), the run works in the section of the last segment; it lists
    the sections once and issues no other call, with the creation of
    sections on or off, in a real run and in a dry run. *)
Theorem existing_path_is_found {W : Type} (env : Env W)
    (testrailProjectId resolvedSuiteId : Z) (sectionName : string)
    (dryRun createSectionIfMissing : bool)
    (sections chain : list TestRailSection) (leaf : TestRailSection) (w' : W)
    (st : St (W := W)) :
  getSections env testrailProjectId resolvedSuiteId (world st) = (inr sections, w') ->
  truthyStr sectionName = true ->
  List.length (pathParts (trim (toLowerCase sectionName))) <> 1 ->
  Props.followsPath sections None (pathParts (trim (toLowerCase sectionName))) chain ->
  List.last (List.map Some chain) None = Some leaf ->
  sec_id leaf <> 0%Z ->
  exists st',
    sectionOfSuite env testrailProjectId resolvedSuiteId (Some sectionName) dryRun
      createSectionIfMissing st
    = (inr (sec_id leaf), st') /\
    calls st' = calls st ++ [GetSections testrailProjectId resolvedSuiteId] /\
    world st' = w'.
Proof.
  intros Hget Hname Hmany Hfollows Hleaf Hid.
  apply (sectionOfSuite_selects env _ _ _ _ _ sections leaf w'); try assumption.
  - intros ->. destruct chain as [|s chain]; [discriminate Hleaf|].
    destruct (pathParts (trim (toLowerCase sectionName))) as [|part parts];
      [contradiction|].
    destruct Hfollows as [Hfind _]. discriminate Hfind.
  - intros st0. cbn [truthyName]. rewrite Hname.
    now apply (selectByName_follows env _ _ _ _ _ _ chain).
Qed.

Lemma existing_path_is_found_witness :
  let parent := mkSection 9 "Accounts" 6 None in
  let decoy := mkSection 11 "Login" 6 None in
  let child := mkSection 12 " LOGIN" 6 (Some 9%Z) in
  let store :=
    Demo.withSections (Demo.emptySuite Demo.twoScenarios) 200 [decoy; parent; child] in
  exists st',
    sectionOfSuite Demo.demoEnv 2 6 (Some "Accounts / Login") false true (Demo.start store)
    = (inr 12%Z, st') /\
    calls st' = [GetSections 2 6].
Proof.
  cbv zeta.
  destruct (existing_path_is_found Demo.demoEnv 2 6 "Accounts / Login" false true
              [mkSection 11 "Login" 6 None; mkSection 9 "Accounts" 6 None;
               mkSection 12 " LOGIN" 6 (Some 9%Z)]
              [mkSection 9 "Accounts" 6 None; mkSection 12 " LOGIN" 6 (Some 9%Z)]
              (mkSection 12 " LOGIN" 6 (Some 9%Z))
              (Demo.withSections (Demo.emptySuite Demo.twoScenarios) 200
                 [mkSection 11 "Login" 6 None; mkSection 9 "Accounts" 6 None;
                  mkSection 12 " LOGIN" 6 (Some 9%Z)])
              (Demo.start (Demo.withSections (Demo.emptySuite Demo.twoScenarios) 200
                             [mkSection 11 "Login" 6 None; mkSection 9 "Accounts" 6 None;
                              mkSection 12 " LOGIN" 6 (Some 9%Z)])))
    as (st' & Hrun & Hcalls & _).
  - reflexivity.
  - reflexivity.
  - vm_compute. discriminate.
  - vm_compute. split; [reflexivity|]. split; [reflexivity|exact I].
  - reflexivity.
  - discriminate.
  - exists st'. split; [exact Hrun|exact Hcalls].
Defined.
